(* ===== verification/_CoqProject ===== *)
-Q . S2P
Prelude.v
PyLib.v
Models.v
Schedulers.v
World.v
NodeWorker.v
Registry.v
Manager.v
Cluster.v
Dispatch.v
Tasks.v
Storage.v
AuditLog.v
Webhook.v
Rpc.v
RpcSpec.v
RpcCallbacks.v
Supervisor.v
Shell.v
Ssh.v
Transfer.v
ParamikoModel.v
Paramiko.v
ParamikoExec.v
ParamikoTasks.v
Calm.v
ParamikoSafe.v
ParamikoSpec.v
ToyDevice.v
Vault.v
VaultSpec.v
Devices.v
Fields.v
Netmiko.v
NetmikoSpec.v
Napalm.v
Pyeapi.v
Plugins.v
Loaders.v
NetDrivers.v
Stats.v
Metrics.v
Templating.v
Server.v
Workers.v
Cli.v
Console.v
Rediz.v
Logging.v
LogSetup.v
Times.v
Responses.v
Receiver.v
ReceiverLog.v
Manifests.v
