(* ===== verification/Prelude.v ===== *)
(** * Linux-Net: a verification development

    Linux-Net runs commands and configurations on network devices.  An API
    server turns requests into RQ jobs; FIFO workers run jobs of any host, a
    pinned worker runs the jobs of one host and keeps its connection; a node
    daemon starts the pinned workers of its machine.  Redis holds the queues,
    the bindings of hosts to nodes and the registry of detached tasks; a
    supervisor polls that registry; an archiver writes audit records.

    ** Reading the model

    A stateful function of the program is a computation [M W A], which takes a
    world [W] to a result ([Ok] or [Err] with the exception) and the next
    world; an exception keeps the state it was raised in.  What is not code of
    the repository (Redis, RQ, HTTP, SSH, SFTP, disks, threads, templates, the
    clock) is a type class of operations over [W], with its documented
    behaviour as laws in a class of its own; theorems hold for every instance,
    and toy instances run the witnesses.  [OutOfFuel] is an error no [except]
    catches ([is_exception]); [ordinary r] says that [r] is a value or an
    exception Python's [except Exception] catches, so a theorem that concludes
    it says that the fuel was enough.  Integers of the program are Python's, so
    [Z]; instants and durations are in microseconds, and where the code rounds
    a float so does the model; a [str] holds 8-bit characters and decoding
    replaces nothing; a [dict] is an association list in insertion order.

    ** Files and the code they model (paths under [src/linux_net/])

    - [Prelude]: exceptions, results, [M], the program logic [wp view] (what a
      computation does to a view of the world) and [steady view].  [PyLib]:
      what the code uses of Python.
    - [Models]: [models/*.py], [utils/config.py], [utils/__init__.py].  A
      pydantic class is a record with its validators in their order.
    - [Schedulers]: [plugins/schedulers/*], single and batch selection; floats
      through [SpecFloat], the random source is an interface.
    - [World]: the interfaces of Redis, RQ, the clock, processes and files.
    - [NodeWorker]: [worker/node.py], one definition per handler: registration,
      [add], [_remove], the listening loop, [SIGCHLD].
    - [Registry], [Manager], [Dispatch], [Tasks]: [services/rediz.py] and
      [services/manager.py].  [Manager] has the definitions, [Dispatch] the
      theorems on dispatching jobs, [Tasks] those on detached tasks.
    - [Cluster]: several daemons of [worker/node.py] and the deletions of nodes
      of [services/manager.py], interleaved at their single Redis commands;
      a run of a handler alone is a run of these steps.
    - [Storage]: [routes/storage.py] and the path helpers of
      [plugins/drivers/__init__.py].
    - [AuditLog], [Webhook]: [services/audit.py], [worker/archiver.py],
      [plugins/webhooks/*].
    - [Rpc], [RpcSpec], [RpcCallbacks]: [services/rpc.py], the functions
      workers run and the callbacks of a finished job.
    - [Supervisor]: [services/supervisor.py], one pass of the loop.
    - [Ssh]: the interfaces of SSH channels, SFTP and disks.  [Shell]: quoting,
      command lines, and the words a POSIX shell reads of them.  [Transfer],
      [ParamikoModel], [Paramiko], [ParamikoExec], [ParamikoTasks]: the driver
      of [plugins/drivers/paramiko/], every method of it.  [Calm]: what
      keeping the workers' contract means for a computation, and its
      automation.  [ParamikoSafe] and [ParamikoSpec]: the theorems about the
      driver.  [ToyDevice]: their witnesses.
    - [Vault]: [plugins/credentials/vault_kv/], every method of the provider;
      [VaultSpec]: its theorems.
    - [Devices]: [routes/device.py], credentials, uploads, single and bulk
      requests and the connection test, down to the manager's calls.
    - [Fields]: pydantic's validation of a class given as its table of fields.
    - [Netmiko], [Napalm], [Pyeapi]: [plugins/drivers/netmiko/], [napalm/] and
      [pyeapi/], every method; [NetmikoSpec]: the theorems of the first, those
      of the other two are beside them.
    - [Plugins]: [plugins/__init__.py], the loader and its lazy dictionaries,
      and drivers behind a table of names.  [Loaders]: its load functions, over
      the directories of packages they read.
    - [NetDrivers]: the three drivers in one table, and the witnesses.
    - [Stats]: [get_system_stats] of [services/manager.py].  [Metrics]: the
      page of [services/observability.py], and a reader of its format.
    - [Templating]: [plugins/templates/], the instance of the workers' interface
      [Templates].
    - [Server]: [server/common.py], the middleware, [controller.py] and the
      routes of [manage.py], [detached_task.py] and [template.py].
    - [Workers]: [worker/common.py], [fifo.py], [pinned.py] and the start of
      [archiver.py].
    - [Cli]: [cli/main.py], the work of its command.  [Console]: its shared
      client and the tables and lines it prints.
    - [Rediz]: the connection of [services/rediz.py].  [Logging]: the filters
      of [utils/logger.py] and [services/observability.py].  [LogSetup]:
      [setup_logging] and the lines of JSON.
    - [Times]: the calendar and the ISO texts of times.  [Responses]:
      [models/response.py], the documents of jobs, workers and connections.
    - [Receiver]: [tools/webhook/webhook_server.py] (beside [src/linux_net/]),
      the server that receives what [Webhook] sends; [ReceiverLog]: its log
      and its start.
    - [Manifests]: [scripts/validate_k8s_manifests.py] (beside [src/linux_net/]).

    The manager's theorems rest on the class [Scheduler], which
    [Schedulers.bundled_schedulers_lawful] shows the four plugins implement; the
    workers' on [Drivers] and [DriverLaws], which [ParamikoSafe.paramiko_lawful]
    and [NetDrivers.network_drivers_lawful] show the drivers implement.

    ** What the theorems show

    - Dispatch: every host of a request is answered for, queued exactly where
      its strategy says, on a live worker; bindings respect capacities.
    - Nodes: a host is bound to one node at a time; the daemon's maps, counts
      and child processes agree after every handler and every signal; no
      interleaving of daemons, crashes and deletions gives a host two workers
      or a node more than its capacity.
    - Execution: device failures become results, sessions are closed,
      callbacks never change a job's result; retries end.
    - Detached tasks: the registry follows the tasks of the devices: launch,
      query, kill, discovery, supervision and pruning.
    - Safety of data: masking, the contained download route, audit records.
    - Routes: what a request becomes before it is dispatched, and that a
      refused one queues nothing.
    - Credentials: which secret a provider reads, how old it may be, and what
      of it reaches the connection arguments.
    - The Paramiko driver: kept sessions, dialogues that end, configurations
      that stop at a failure, logs that are followed without a gap, quoting
      that a shell undoes, and transfers: what a broken one leaves, and that
      resuming it gives exactly the file.
    - The drivers for network devices: which lines of a configuration reach the
      device and what is committed or saved, which session a job runs on,
      which requests can connect; and that running a request with a table of
      plugins is running it with the plugin it names.
    - The server: who gets past the key, what an exception becomes, where the
      ids of a request hold, and that the metrics say what the statistics do.
    - Starting and stopping: waiting for Redis, the lock of the FIFO worker,
      retention of audit records, the connection to Redis.
    - Logs: a quoted secret is masked, whatever it is; every line of JSON
      reads back with what the record says.
    - Answers: the times of a job's document read back as they were recorded,
      in any zone.
    - The webhook receiver: bounded memory, counters that agree with it, pages
      that lose nothing, that it understands the bundled webhook, and what its
      log tells of a key.
    - The manifest checker: which manifests it accepts.
    - The command line: its watching ends and accounts for every job, and its
      [exec] command never gets as far as submitting one.

    Theorems that are properties of the program are numbered [C1] to [C40] in
    the comment before them.  Lemmas whose comment starts with "Finding" show
    a behaviour that looks unintended.

    ** Fuel and bounds

    Loops over data are structural.  The listening loop of the node takes the
    messages as its list; waits take the number of polls the code's own
    deadline allows; a transfer takes as fuel a bound of the file sizes (each
    round reads at least a byte), a recursive download a bound of the length of
    paths (each level makes it longer); an interactive command [rounds chunks
    limit], the polls of a command that writes at most [chunks] chunks with a
    silence of at most [limit] polls before each; the command line's watching
    the pauses that fit its time limit.  In each case a theorem says that the
    result is [ordinary].  A worker waits for Redis without a limit, and its
    theorem says what any number of rounds comes to.

    ** Not modelled

    The calls of the log, but for the filters and formats a record passes and
    the receiver's log; how Rich draws a table, the progress bar and the static
    dashboard; the examples in the schema of the API.  Reading the YAML
    configuration, the environment and the command line is pydantic-settings;
    importing a plugin's module is what the loader is given.  The settings of
    gunicorn, the choice of a worker in [worker.py] and the export of the
    schema call libraries only.  The agent in C++ is another program, in
    another language.  Lax conversions of pydantic (["22"] for [22]) are
    refused by the model.  Processes interleave where a computation sleeps or calls a
    device, and in [Cluster] at every Redis command; the thread that watches a kept session is modelled round
    by round, not as a concurrent program. *)

From Stdlib Require Export ZArith Lia.
From stdpp Require Export base tactics numbers strings option sets gmap fin_maps list.
#[global] Open Scope general_if_scope.

(** ** Exceptions

    The Python exceptions the program raises or tells apart.  The first five
    are the classes of [linux_net/utils/exceptions.py]; [OtherError] is any
    exception of a library, with its class name and its text. *)
Inductive exn :=
  | WorkerUnavailableError (msg : string)
  | JobOperationError (msg : string)
  | LinuxNetWorkerError (msg : string)
  | HostAlreadyPinnedError (msg : string)
  | NodePreemptedError (msg : string)
  | ValueError (msg : string)
  | ValidationError (msg : string)
  | AssertionError (msg : string)
  | NotImplementedError (msg : string)
  | TypeError (msg : string)
  | KeyError (key : string)
  | IndexError (msg : string)
  | FileNotFoundError (msg : string)
  | NoSuchJobError (msg : string)
  | InvalidJobOperation (msg : string)
  | HTTPException (status_code : Z) (detail : string)
  | SystemExit (code : Z)
  | OutOfFuel
  | OtherError (cls msg : string).

#[global] Instance exn_eq_dec : EqDecision exn.
Proof. solve_decision. Defined.

(** [str(e)] *)
Definition exn_str (e : exn) : string :=
  match e with
  | WorkerUnavailableError m | JobOperationError m | LinuxNetWorkerError m
  | HostAlreadyPinnedError m | NodePreemptedError m | ValueError m
  | ValidationError m | AssertionError m | NotImplementedError m | TypeError m
  | IndexError m | FileNotFoundError m | NoSuchJobError m
  | InvalidJobOperation m | OtherError _ m => m
  | KeyError k => "'" +:+ k +:+ "'"
  | HTTPException _ d => d
  | SystemExit _ | OutOfFuel => ""
  end.

(** [type(e).__name__] *)
Definition exn_name (e : exn) : string :=
  match e with
  | WorkerUnavailableError _ => "WorkerUnavailableError"
  | JobOperationError _ => "JobOperationError"
  | LinuxNetWorkerError _ => "LinuxNetWorkerError"
  | HostAlreadyPinnedError _ => "HostAlreadyPinnedError"
  | NodePreemptedError _ => "NodePreemptedError"
  | ValueError _ => "ValueError"
  | ValidationError _ => "ValidationError"
  | AssertionError _ => "AssertionError"
  | NotImplementedError _ => "NotImplementedError"
  | TypeError _ => "TypeError"
  | KeyError _ => "KeyError"
  | IndexError _ => "IndexError"
  | FileNotFoundError _ => "FileNotFoundError"
  | NoSuchJobError _ => "NoSuchJobError"
  | InvalidJobOperation _ => "InvalidJobOperation"
  | HTTPException _ _ => "HTTPException"
  | SystemExit _ => "SystemExit"
  | OutOfFuel => "OutOfFuel"
  | OtherError c _ => c
  end.

(** What [except Exception] catches: [SystemExit] derives from
    [BaseException] only. *)
Definition is_exception (e : exn) : bool :=
  match e with SystemExit _ | OutOfFuel => false | _ => true end.

(** ** Results *)
Inductive res (A : Type) := Ok (a : A) | Err (e : exn).
Arguments Ok {A} _.
Arguments Err {A} _.

#[global] Instance res_eq_dec {A} `{EqDecision A} : EqDecision (res A).
Proof. solve_decision. Defined.

#[global] Instance res_ret : MRet res := λ A a, Ok a.
#[global] Instance res_bind : MBind res :=
  λ A B f r, match r with Ok a => f a | Err e => Err e end.
#[global] Instance res_fmap : FMap res :=
  λ A B f r, match r with Ok a => Ok (f a) | Err e => Err e end.

Definition is_ok {A} (r : res A) : bool := match r with Ok _ => true | Err _ => false end.

(** The first error of a list, or every value: [[f(x) for x in l]]. *)
Fixpoint mapR {A B} (f : A → res B) (l : list A) : res (list B) :=
  match l with
  | [] => Ok []
  | x :: l => y ← f x; ys ← mapR f l; Ok (y :: ys)
  end.

(** ** State and exceptions

    [M S A] runs on a state [S]; an exception keeps the state it was raised
    in, as Python does. *)
Definition M (S A : Type) : Type := S → res A * S.

#[global] Instance M_ret {S} : MRet (M S) := λ A a s, (Ok a, s).
#[global] Instance M_bind {S} : MBind (M S) :=
  λ A B f m s, match m s with (Ok a, s') => f a s' | (Err e, s') => (Err e, s') end.

Section monad.
Context {S : Type}.

Definition raise {A} (e : exn) : M S A := λ s, (Err e, s).
Definition of_res {A} (r : res A) : M S A := λ s, (r, s).
Definition reads {A} (f : S → A) : M S A := λ s, (Ok (f s), s).
Definition writes (f : S → S) : M S unit := λ s, (Ok tt, f s).
Definition update {A} (f : S → A * S) : M S A := λ s, let '(a, s') := f s in (Ok a, s').

(** [try: m  except Exception as e: h e] *)
Definition try_except {A} (m : M S A) (h : exn → M S A) : M S A :=
  λ s, match m s with
       | (Ok a, s') => (Ok a, s')
       | (Err e, s') => if is_exception e then h e s' else (Err e, s')
       end.

(** [try: m  finally: fin], for a [fin] that may itself raise. *)
Definition try_finally {A} (m : M S A) (fin : M S unit) : M S A :=
  λ s, match m s with
       | (r, s') => match fin s' with
                    | (Ok _, s'') => (r, s'')
                    | (Err e, s'') => (Err e, s'')
                    end
       end.

(** [for x in l: f x] *)
Fixpoint forM {A} (l : list A) (f : A → M S unit) : M S unit :=
  match l with
  | [] => mret tt
  | x :: l => f x ≫= λ _, forM l f
  end.

(** [[f(x) for x in l]] *)
Fixpoint mapM {A B} (f : A → M S B) (l : list A) : M S (list B) :=
  match l with
  | [] => mret []
  | x :: l => y ← f x; ys ← mapM f l; mret (y :: ys)
  end.
End monad.

Lemma M_bind_ok {S A B} (m : M S A) (f : A → M S B) s a s' :
  m s = (Ok a, s') → (m ≫= f) s = f a s'.
Proof. intros E. unfold mbind, M_bind. by rewrite E. Qed.

Lemma M_bind_err {S A B} (m : M S A) (f : A → M S B) s e s' :
  m s = (Err e, s') → (m ≫= f) s = (Err e, s').
Proof. intros E. unfold mbind, M_bind. by rewrite E. Qed.

(** ** Automation *)
Create HintDb linux_net.

(** ** Ordinary exceptions

    A result is [ordinary] when what it raises, if anything, is a subclass of
    Python's [Exception]; a computation is [safe] when it never raises
    anything else, in particular never runs out of fuel. *)
Definition ordinary {A} (r : res A) : Prop := ∀ e, r = Err e → is_exception e = true.

Lemma ordinary_Ok {A} (a : A) : ordinary (Ok a).
Proof. done. Qed.

Lemma ordinary_Err {A} e : is_exception e = true → ordinary (@Err A e).
Proof. by intros ? ? [= <-]. Qed.

Lemma ordinary_bind {A B} (r : res A) (f : A → res B) :
  ordinary r → (∀ a, ordinary (f a)) → ordinary (r ≫= f).
Proof. destruct r as [a|e]; intros Hr Hf; [apply Hf|]. intros ? [= <-]. by apply Hr. Qed.

Lemma mapR_ordinary {A B} (f : A → res B) l : (∀ x, ordinary (f x)) → ordinary (mapR f l).
Proof.
  intros Hf. induction l as [|x l IH]; [done|].
  apply ordinary_bind; [apply Hf|]. intros y. by apply ordinary_bind.
Qed.

#[export] Hint Resolve ordinary_Ok ordinary_Err ordinary_bind mapR_ordinary : linux_net.

Ltac ordinary_cases :=
  repeat case_match; try done; by apply ordinary_Err.

Section safe.
Context {S : Type}.

Definition safe {A} (m : M S A) : Prop := ∀ s, ordinary (m s).1.

Lemma safe_ret {A} (a : A) : safe (mret a).
Proof. done. Qed.

Lemma safe_raise {A} e : is_exception e = true → safe (@raise S A e).
Proof. intros He s. by apply ordinary_Err. Qed.

Lemma safe_of_res {A} (r : res A) : ordinary r → safe (of_res r).
Proof. intros Hr s. exact Hr. Qed.

Lemma safe_reads {A} (f : S → A) : safe (reads f).
Proof. done. Qed.

Lemma safe_reads_res {A} (f : S → res A) : (∀ s, ordinary (f s)) → safe (λ s, (f s, s)).
Proof. intros Hf s. apply Hf. Qed.

Lemma safe_writes (f : S → S) : safe (writes f).
Proof. done. Qed.

Lemma safe_update {A} (f : S → A * S) : safe (update f).
Proof. intros s. unfold update. by destruct (f s). Qed.

Lemma safe_bind {A B} (m : M S A) (f : A → M S B) :
  safe m → (∀ a, safe (f a)) → safe (m ≫= f).
Proof.
  intros Hm Hf s. unfold mbind, M_bind. specialize (Hm s).
  destruct (m s) as [[a|e] s']; [apply Hf|]. apply ordinary_Err. by apply Hm.
Qed.

Lemma safe_try {A} (m : M S A) h : safe m → (∀ e, safe (h e)) → safe (try_except m h).
Proof.
  intros Hm Hh s. unfold try_except. specialize (Hm s).
  destruct (m s) as [[a|e] s']; [done|]. rewrite (Hm e) by done. apply Hh.
Qed.
End safe.
#[export] Hint Resolve safe_ret safe_raise safe_of_res safe_reads safe_reads_res safe_writes
  safe_update safe_bind safe_try : linux_net.

(** ** A program logic

    [wp view Q m v]: run where [view] shows [v], the computation [m] ends with an
    ordinary result for which [Q] holds of what [view] shows then. *)
Section wp.
Context {S V : Type} {view : S → V}.

Definition wp {A} (m : M S A) (Q : res A → V → Prop) (v : V) : Prop :=
  ∀ s, view s = v → ordinary (m s).1 ∧ Q (m s).1 (view (m s).2).

(** A computation that leaves the view alone *)
Definition steady {A} (m : M S A) : Prop := safe m ∧ ∀ s, view (m s).2 = view s.

Lemma wp_ret {A} (a : A) (Q : res A → V → Prop) v : Q (Ok a) v → wp (mret a) Q v.
Proof. by intros HQ s <-. Qed.

Lemma wp_raise {A} e (Q : res A → V → Prop) v : is_exception e = true → Q (Err e) v → wp (raise e) Q v.
Proof. intros He HQ s <-. split; [by apply ordinary_Err|done]. Qed.

Lemma wp_reads {A} (f : S → A) (Q : res A → V → Prop) v :
  (∀ s, view s = v → Q (Ok (f s)) v) → wp (reads f) Q v.
Proof. intros HQ s <-. split; [done|by apply HQ]. Qed.

Lemma wp_writes (f : S → S) (Q : res unit → V → Prop) v :
  (∀ s, view s = v → Q (Ok tt) (view (f s))) → wp (writes f) Q v.
Proof. intros HQ s <-. split; [done|by apply HQ]. Qed.

Lemma wp_of_res {A} (r : res A) (Q : res A → V → Prop) v : ordinary r → Q r v → wp (of_res r) Q v.
Proof. by intros Hr HQ s <-. Qed.

Lemma wp_mono {A} (m : M S A) (Q Q' : res A → V → Prop) v :
  wp m Q v → (∀ r v', ordinary r → Q r v' → Q' r v') → wp m Q' v.
Proof. intros Hm HQ s Hs. destruct (Hm s Hs). auto. Qed.

Lemma wp_bind {A B} (m : M S A) (f : A → M S B) (Q : res B → V → Prop) v :
  wp m (λ r v', match r with Ok a => wp (f a) Q v' | Err e => Q (Err e) v' end) v →
  wp (m ≫= f) Q v.
Proof.
  intros Hm s Hs. destruct (Hm s Hs) as [Ho HQ]. unfold mbind, M_bind.
  destruct (m s) as [[a|e] s']; [by apply HQ|]. split; [by apply ordinary_Err, Ho|done].
Qed.

Lemma steady_run {A} (m : M S A) s v : steady m → view s = v →
  ordinary (m s).1 ∧ view (m s).2 = v.
Proof. intros [Hs Hk] <-. split; [apply Hs|apply Hk]. Qed.

Lemma wp_call {A} (m : M S A) (Q : res A → V → Prop) v : steady m →
  (∀ s s' r, view s = v → m s = (r, s') → view s' = v → Q r v) → wp m Q v.
Proof.
  intros Hm HQ s Hs. destruct (steady_run m s v Hm Hs) as [Ho Hv]. split; [done|].
  rewrite Hv. eapply HQ; [exact Hs|apply surjective_pairing|done].
Qed.

Lemma wp_keep {A} (m : M S A) (Q : res A → V → Prop) v : steady m → (∀ r, Q r v) → wp m Q v.
Proof. intros Hm HQ. apply wp_call; auto. Qed.

(** A call whose value does not matter *)
Lemma wp_seq {A B} (m : M S A) (k : M S B) (Q : res B → V → Prop) v :
  steady m → (∀ e, Q (Err e) v) → wp k Q v → wp (m ≫= λ _, k) Q v.
Proof. intros Hm He Hk. apply wp_bind, wp_keep; [done|]. by intros []. Qed.

Lemma wp_finally {A} (m : M S A) fin (Q : res A → V → Prop) v : steady fin →
  wp m (λ r v', Q r v' ∧ ∀ e, Q (Err e) v') v → wp (try_finally m fin) Q v.
Proof.
  intros [Hs Hk] Hm s Hv. destruct (Hm s Hv) as [Ho [HQ He]]. unfold try_finally.
  destruct (m s) as [r s']. specialize (Hk s'). specialize (Hs s').
  destruct (fin s') as [[u|e] s'']; simpl in *; rewrite Hk; [done|].
  split; [|apply He]. by apply ordinary_Err, Hs.
Qed.

(** A [finally] that changes the view *)
Lemma wp_finally_do {A} (m : M S A) fin (Q : res A → V → Prop) v :
  wp m (λ r v', wp fin (λ r' v'', match r' with Ok _ => Q r v'' | Err e => Q (Err e) v'' end) v') v →
  wp (try_finally m fin) Q v.
Proof.
  intros Hm s Hv. destruct (Hm s Hv) as [Ho HQ]. unfold try_finally.
  destruct (m s) as [r s']. destruct (HQ s' eq_refl) as [Ho' HQ'].
  destruct (fin s') as [[u|e] s'']; [done|]. split; [by apply ordinary_Err, Ho'|done].
Qed.

Lemma wp_try {A} (m : M S A) h (Q : res A → V → Prop) v :
  wp m (λ r v', match r with Ok _ => Q r v' | Err e => wp (h e) Q v' end) v → wp (try_except m h) Q v.
Proof.
  intros Hm s Hs. destruct (Hm s Hs) as [Ho HQ]. unfold try_except.
  destruct (m s) as [[a|e] s']; [by split|]. rewrite Ho by done. by apply HQ.
Qed.

Lemma wp_run {A} (m : M S A) Q s : wp m Q (view s) → let '(r, s') := m s in ordinary r ∧ Q r (view s').
Proof. intros Hm. specialize (Hm s eq_refl). by destruct (m s). Qed.

Lemma steady_ret {A} (a : A) : steady (mret a).
Proof. by split. Qed.
Lemma steady_raise {A} e : is_exception e = true → steady (@raise S A e).
Proof. intros He. split; [by apply safe_raise|done]. Qed.
Lemma steady_reads {A} (f : S → A) : steady (reads f).
Proof. by split. Qed.
Lemma steady_bind {A B} (m : M S A) (f : A → M S B) :
  steady m → (∀ a, steady (f a)) → steady (m ≫= f).
Proof.
  intros [Hs Hk] Hf. split; [apply safe_bind; [done|apply Hf]|]. intros s. unfold mbind, M_bind.
  specialize (Hk s). destruct (m s) as [[a|e] s']; [|done]. by rewrite (proj2 (Hf a)).
Qed.
Lemma steady_try {A} (m : M S A) h : steady m → (∀ e, steady (h e)) → steady (try_except m h).
Proof.
  intros [Hs Hk] Hh. split; [apply safe_try; [done|apply Hh]|]. intros s. unfold try_except.
  specialize (Hk s). destruct (m s) as [[a|e] s']; [done|]. destruct (is_exception e); [|done].
  by rewrite (proj2 (Hh e)).
Qed.
End wp.
Arguments wp {S V} view {A} m Q v.
Arguments steady {S V} view {A} m.
#[export] Hint Resolve steady_ret steady_reads steady_bind steady_try : linux_net.

(** Split every conjunction and existential of the context. *)
Ltac split_hyps :=
  repeat match goal with
    | H : _ ∧ _ |- _ => destruct H
    | H : ∃ _, _ |- _ => destruct H
  end.

(** Case analysis on the scrutinees of the goal, or of a hypothesis. *)
Ltac case_goal :=
  repeat (case_match; simplify_eq/=; try done).
Ltac case_in H :=
  repeat (match type of H with
          | context [match ?x with _ => _ end] => destruct x eqn:?
          end; simplify_eq/=; try done).

(** Boolean comparisons on [Z] into propositions. *)
Ltac to_prop :=
  repeat match goal with
    | H : (_ <? _)%Z = true |- _ => apply Z.ltb_lt in H
    | H : (_ <? _)%Z = false |- _ => apply Z.ltb_ge in H
    | H : (_ <=? _)%Z = true |- _ => apply Z.leb_le in H
    | H : (_ <=? _)%Z = false |- _ => apply Z.leb_gt in H
    | H : (_ =? _)%Z = true |- _ => apply Z.eqb_eq in H
    | H : (_ =? _)%Z = false |- _ => apply Z.eqb_neq in H
    | H : (_ && _)%bool = true |- _ => apply andb_prop in H; destruct H
    | H : String.eqb _ _ = true |- _ => apply String.eqb_eq in H
    | H : String.eqb _ _ = false |- _ => apply String.eqb_neq in H
  end.

(** ** Generic lemmas on lists *)
Section lists.
Context {A : Type}.
Implicit Types l : list A.

Lemma mapR_length {B} (f : A → res B) l ys : mapR f l = Ok ys → length ys = length l.
Proof.
  revert ys; induction l as [|x l IH]; intros ys; simpl; [by intros [= <-]|].
  destruct (f x); simpl; [|done].
  destruct (mapR f l) eqn:E; simpl; [|done]. intros [= <-]; simpl. by rewrite IH.
Qed.

Lemma filter_take_le (P : A → Prop) `{∀ x, Decision (P x)} n l :
  length (filter P (take n l)) ≤ length (filter P l).
Proof.
  rewrite <-(take_drop n l) at 2. rewrite filter_app, length_app. lia.
Qed.

Lemma filter_replicate_True (P : A → Prop) `{∀ x, Decision (P x)} n x :
  P x → filter P (replicate n x) = replicate n x.
Proof.
  intros Hx. induction n as [|n IH]; [done|]. simpl.
  rewrite filter_cons_True by done. by rewrite IH.
Qed.

Lemma filter_replicate_False (P : A → Prop) `{∀ x, Decision (P x)} n x :
  ¬ P x → filter P (replicate n x) = [].
Proof.
  intros Hx. induction n as [|n IH]; [done|]. simpl. by rewrite filter_cons_False.
Qed.

Lemma NoDup_fmap_inj {B} (f : A → B) l x y :
  NoDup (f <$> l) → x ∈ l → y ∈ l → f x = f y → x = y.
Proof.
  intros Hnd Hx Hy E. revert Hnd Hx Hy. induction l as [|z l IH]; [set_solver|].
  rewrite fmap_cons, NoDup_cons. intros [Hni ?] Hx Hy.
  apply elem_of_cons in Hx as [->|Hx]; apply elem_of_cons in Hy as [->|Hy]; auto.
  - destruct Hni. rewrite E. by apply list_elem_of_fmap_2.
  - destruct Hni. rewrite <-E. by apply list_elem_of_fmap_2.
Qed.

Lemma insert_delete_Permutation l i x y : l !! i = Some x → <[i := y]> l ≡ₚ y :: delete i l.
Proof.
  revert i. induction l as [|z l IH]; intros [|i] Hi; simplify_eq/=; [done|].
  rewrite (IH i) by done. apply Permutation_swap.
Qed.

Lemma foldl_preserves {W} (P : W → Prop) (f : W → A → W) l w :
  (∀ x w, P w → P (f w x)) → P w → P (foldl f w l).
Proof. intros Hf. revert w. induction l as [|x l IH]; intros w Hw; simpl; auto. Qed.

Lemma list_filter_iff_strong (P Q : A → Prop)
    `{∀ x, Decision (P x)} `{∀ x, Decision (Q x)} l :
  (∀ x, x ∈ l → P x ↔ Q x) → filter P l = filter Q l.
Proof.
  induction l as [|x l IH]; intros Hl; [done|].
  assert (P x ↔ Q x) as Hx by (apply Hl; set_solver).
  destruct (decide (P x)).
  - rewrite !filter_cons_True by tauto. f_equal. apply IH. set_solver.
  - rewrite !filter_cons_False by tauto. apply IH. set_solver.
Qed.

Lemma filter_all (P : A → Prop) `{∀ x, Decision (P x)} l : (∀ x, x ∈ l → P x) → filter P l = l.
Proof.
  induction l as [|x l IH]; intros Hl; [done|].
  rewrite filter_cons_True by (apply Hl; set_solver). f_equal. apply IH. set_solver.
Qed.

Lemma filter_none (P : A → Prop) `{∀ x, Decision (P x)} l : (∀ x, x ∈ l → ¬ P x) → filter P l = [].
Proof.
  induction l as [|x l IH]; intros Hl; [done|].
  rewrite filter_cons_False by (apply Hl; set_solver). apply IH. set_solver.
Qed.

Lemma elem_of_ne_nil x l : x ∈ l → l ≠ [].
Proof. by intros Hx ->; apply not_elem_of_nil in Hx. Qed.
End lists.
#[export] Hint Resolve mapR_length : linux_net.
