(* ===== verification/PyLib.v ===== *)
(** * What the program uses of Python and its standard library

    Dynamic values and insertion-ordered dictionaries, strings, stable sorting
    and item assignment with its out-of-range error.  A [str] is a string of
    8-bit characters; its order and its tests are character by character. *)

From S2P Require Import Prelude.
From stdpp Require Import sorting pretty.
From Stdlib Require Import Ascii.

(** ** Dynamic values

    The JSON values that metadata dictionaries hold.  [PFloat u] is the float
    [u / 10^6]: the floats the program stores are times and durations, kept
    here in millionths and without their rounding. *)
#[warnings="-register-all"]
Inductive pyval :=
  | PNone
  | PBool (b : bool)
  | PInt (z : Z)
  | PFloat (us : Z)
  | PStr (s : string)
  | PList (l : list pyval)
  | PDict (d : list (string * pyval)).

Section pyval_ind.
Context (P : pyval → Prop).
Context (HNone : P PNone) (HBool : ∀ b, P (PBool b)) (HInt : ∀ z, P (PInt z))
  (HFloat : ∀ z, P (PFloat z)) (HStr : ∀ s, P (PStr s))
  (HList : ∀ l, Forall P l → P (PList l))
  (HDict : ∀ d, Forall (λ kv, P kv.2) d → P (PDict d)).

Fixpoint pyval_rect' (v : pyval) : P v :=
  match v with
  | PNone => HNone
  | PBool b => HBool b
  | PInt z => HInt z
  | PFloat z => HFloat z
  | PStr s => HStr s
  | PList l => HList l ((fix go l := match l return Forall P l with
                          | [] => Forall_nil_2 P
                          | x :: l => Forall_cons_2 P x l (pyval_rect' x) (go l)
                          end) l)
  | PDict d => HDict d ((fix go d := match d return Forall (λ kv, P kv.2) d with
                          | [] => Forall_nil_2 _
                          | kv :: d => Forall_cons_2 (λ kv, P kv.2) kv d (pyval_rect' kv.2) (go d)
                          end) d)
  end.
End pyval_ind.

#[global] Instance pyval_eq_dec : EqDecision pyval.
Proof.
  refine (
    fix go v w := let _ : EqDecision _ := @go in
    match v, w with
    | PNone, PNone => left _
    | PBool x, PBool y => cast_if (decide (x = y))
    | PInt x, PInt y => cast_if (decide (x = y))
    | PFloat x, PFloat y => cast_if (decide (x = y))
    | PStr x, PStr y => cast_if (decide (x = y))
    | PList x, PList y => cast_if (decide (x = y))
    | PDict x, PDict y => cast_if (decide (x = y))
    | _, _ => right _
    end); abstract congruence.
Defined.

(** [bool(v)] *)
Definition truthy (v : pyval) : bool :=
  match v with
  | PNone => false
  | PBool b => b
  | PInt z | PFloat z => negb (z =? 0)%Z
  | PStr s => negb (String.eqb s "")
  | PList l => match l with [] => false | _ => true end
  | PDict d => match d with [] => false | _ => true end
  end.

Definition opt_str (o : option string) : pyval := from_option PStr PNone o.
Definition opt_int (o : option Z) : pyval := from_option PInt PNone o.

(** The truth value of an [Optional[str]] and of an [Optional[int]]. *)
Definition str_truthy (o : option string) : bool :=
  match o with None => false | Some s => negb (String.eqb s "") end.
Definition int_truthy (o : option Z) : bool :=
  match o with None => false | Some z => negb (z =? 0)%Z end.

(** ** Dictionaries, in insertion order *)
Section dict.
Context {K V : Type} `{EqDecision K}.
Abbreviation dict := (list (K * V)).
Implicit Types (k x : K) (v : V).

(** [d.get(k)] *)
Fixpoint dict_get (k : K) (d : dict) : option V :=
  match d with
  | [] => None
  | (k', v) :: d => if decide (k = k') then Some v else dict_get k d
  end.

(** [d[k] = v]: replaces in place, or appends. *)
Fixpoint dict_set (k : K) (v : V) (d : dict) : dict :=
  match d with
  | [] => [(k, v)]
  | (k', v') :: d => if decide (k = k') then (k, v) :: d else (k', v') :: dict_set k v d
  end.

(** [d.pop(k, None)] *)
Fixpoint dict_pop (k : K) (d : dict) : dict :=
  match d with
  | [] => []
  | (k', v') :: d => if decide (k = k') then d else (k', v') :: dict_pop k d
  end.

(** [d.update(e)] *)
Definition dict_update (d e : dict) : dict := foldl (λ d kv, dict_set kv.1 kv.2 d) d e.

(** [d.setdefault(k, v)] *)
Definition dict_setdefault (k : K) (v : V) (d : dict) : dict :=
  match dict_get k d with Some _ => d | None => dict_set k v d end.

Definition dict_has (k : K) (d : dict) : bool :=
  match dict_get k d with Some _ => true | None => false end.

Lemma dict_get_set_eq k v d : dict_get k (dict_set k v d) = Some v.
Proof.
  induction d as [|[k' v'] d IH]; simpl; [by rewrite decide_True|].
  case_decide; simpl; [by rewrite decide_True|by rewrite decide_False].
Qed.

Lemma dict_get_set_ne k k' v d : k ≠ k' → dict_get k (dict_set k' v d) = dict_get k d.
Proof.
  intros Hne. induction d as [|[k'' v''] d IH]; simpl; [by rewrite decide_False|].
  case_decide; simplify_eq/=; [by rewrite !decide_False|]. case_decide; done.
Qed.

Lemma dict_get_app k d e :
  dict_get k (d ++ e) = match dict_get k d with Some v => Some v | None => dict_get k e end.
Proof. induction d as [|[k' v] d IH]; [done|]. simpl. by case_decide. Qed.

Lemma dict_get_None k d : dict_get k d = None ↔ k ∉ d.*1.
Proof.
  induction d as [|[k' v'] d IH]; simpl; [set_solver|].
  case_decide; set_solver.
Qed.

Lemma dict_get_elem_of k v d : dict_get k d = Some v → (k, v) ∈ d.
Proof.
  induction d as [|[k' v'] d IH]; simpl; [done|].
  case_decide; intros; simplify_eq; set_solver.
Qed.

Lemma dict_elem_of_get k v d : NoDup d.*1 → (k, v) ∈ d → dict_get k d = Some v.
Proof.
  induction d as [|[k' v'] d IH]; simpl; [set_solver|].
  intros [Hni ?]%NoDup_cons [?|Hin]%elem_of_cons; simplify_eq.
  - by rewrite decide_True.
  - rewrite decide_False; [auto|]. intros ->.
    apply Hni, (list_elem_of_fmap_2 fst _ _ Hin).
Qed.

Lemma dict_set_keys k v d x : x ∈ (dict_set k v d).*1 ↔ x = k ∨ x ∈ d.*1.
Proof.
  induction d as [|[k' v'] d IH]; simpl; [set_solver|].
  case_decide; simplify_eq/=; set_solver.
Qed.

Lemma dict_set_NoDup k v d : NoDup d.*1 → NoDup (dict_set k v d).*1.
Proof.
  induction d as [|[k' v'] d IH]; simpl; [intros _; apply NoDup_singleton|].
  intros [Hni ?]%NoDup_cons. case_decide; simplify_eq/=; [by constructor|].
  constructor; [|auto]. rewrite dict_set_keys. naive_solver.
Qed.

Lemma dict_get_setdefault_ne k k' v d :
  k ≠ k' → dict_get k (dict_setdefault k' v d) = dict_get k d.
Proof. intros ?. unfold dict_setdefault. case_match; [done|by apply dict_get_set_ne]. Qed.

Lemma dict_get_pop_ne k k' d : k ≠ k' → dict_get k (dict_pop k' d) = dict_get k d.
Proof.
  intros Hne. induction d as [|[k'' v''] d IH]; simpl; [done|].
  case_decide; simplify_eq/=; [by rewrite decide_False|]. by case_decide.
Qed.

Lemma dict_pop_keys k d x : x ∈ (dict_pop k d).*1 → x ∈ d.*1.
Proof.
  induction d as [|[k' v'] d IH]; simpl; [done|].
  case_decide; simplify_eq/=; set_solver.
Qed.

Lemma dict_get_pop_eq k d : NoDup d.*1 → dict_get k (dict_pop k d) = None.
Proof.
  induction d as [|[k' v'] d IH]; simpl; [done|].
  intros [Hni ?]%NoDup_cons. case_decide; simplify_eq/=.
  - by apply dict_get_None.
  - rewrite decide_False by done. auto.
Qed.

Lemma dict_pop_NoDup k d : NoDup d.*1 → NoDup (dict_pop k d).*1.
Proof.
  induction d as [|[k' v'] d IH]; simpl; [done|].
  intros [Hni ?]%NoDup_cons. case_decide; simplify_eq/=; [done|].
  constructor; [|auto]. intros ?%dict_pop_keys. done.
Qed.
End dict.
#[export] Hint Rewrite @dict_get_set_eq : linux_net.

(** [d.get(k, default)] on a metadata dictionary. *)
Definition dict_get_or {V} (k : string) (dflt : V) (d : list (string * V)) : V :=
  default dflt (dict_get k d).

(** ** Lists *)

(** [l[i] = x] for [0 <= i]: an [IndexError] out of range. *)
Definition set_item {A} (i : nat) (x : A) (l : list A) : res (list A) :=
  if decide (i < length l)%nat then Ok (<[i := x]> l)
  else Err (IndexError "list assignment index out of range").

(** [sum(l)] on integers *)
Definition sumZ (l : list Z) : Z := foldr Z.add 0%Z l.

Lemma sumZ_app l k : sumZ (l ++ k) = (sumZ l + sumZ k)%Z.
Proof. induction l as [|x l IH]; simpl; [done|]. rewrite IH. lia. Qed.

Lemma sumZ_permutation l k : l ≡ₚ k → sumZ l = sumZ k.
Proof. induction 1; simpl; lia. Qed.

Lemma sumZ_nonneg l : Forall (λ x, 0 ≤ x)%Z l → (0 ≤ sumZ l)%Z.
Proof. induction 1; simpl; lia. Qed.

(** [any(x)] of [l] satisfies [f] *)
Definition any {A} (f : A → bool) (l : list A) : bool := existsb f l.

Lemma any_true {A} (f : A → bool) l : any f l = true ↔ ∃ x, x ∈ l ∧ f x = true.
Proof.
  unfold any. rewrite existsb_exists. setoid_rewrite list_elem_of_In. done.
Qed.

Lemma any_false {A} (f : A → bool) l : any f l = false ↔ ∀ x, x ∈ l → f x = false.
Proof.
  rewrite <-not_true_iff_false, any_true. split.
  - intros Hn x Hx. apply not_true_iff_false. eauto.
  - intros H (x & Hx & Hf). rewrite (H x Hx) in Hf. done.
Qed.

(** ** [list.sort(key=...)]

    A stable insertion sort; Python's sort is stable too, so the two agree on
    every input. *)
Section sort.
Context {A : Type} (leb : A → A → bool).

Fixpoint insert_by (x : A) (l : list A) : list A :=
  match l with
  | [] => [x]
  | y :: l => if leb x y then x :: y :: l else y :: insert_by x l
  end.

Definition sort_by (l : list A) : list A := foldr insert_by [] l.

Lemma insert_by_perm x l : insert_by x l ≡ₚ x :: l.
Proof.
  induction l as [|y l IH]; simpl; [done|].
  destruct (leb x y); [done|]. rewrite IH. constructor.
Qed.

Lemma sort_by_perm l : sort_by l ≡ₚ l.
Proof.
  induction l as [|x l IH]; simpl; [done|]. by rewrite insert_by_perm, IH.
Qed.

Context (leb_total : ∀ x y, leb x y = true ∨ leb y x = true).
Context (leb_trans : ∀ x y z, leb x y = true → leb y z = true → leb x z = true).

Lemma insert_by_sorted x l :
  StronglySorted (λ x y, leb x y = true) l →
  StronglySorted (λ x y, leb x y = true) (insert_by x l).
Proof.
  induction 1 as [|y l Hl IH Hy]; simpl.
  { by repeat constructor. }
  destruct (leb x y) eqn:E.
  - constructor; [by constructor|]. constructor; [done|].
    eapply Forall_impl; [exact Hy|]. simpl. eauto.
  - constructor; [done|]. rewrite insert_by_perm. constructor; [|done].
    destruct (leb_total x y); congruence.
Qed.

Lemma sort_by_sorted l : StronglySorted (λ x y, leb x y = true) (sort_by l).
Proof. induction l; simpl; [constructor|by apply insert_by_sorted]. Qed.
End sort.
#[export] Hint Resolve sort_by_perm sort_by_sorted : linux_net.

Lemma sort_by_elem_of {A} (leb : A → A → bool) l x : x ∈ sort_by leb l ↔ x ∈ l.
Proof. by rewrite (sort_by_perm leb l). Qed.

(** Tuple keys [(int, int, str)] compare lexicographically. *)
Definition key3 : Type := Z * Z * string.

Definition key3_leb (k1 k2 : key3) : bool :=
  let '(a1, b1, s1) := k1 in
  let '(a2, b2, s2) := k2 in
  if (a1 <? a2)%Z then true else if (a2 <? a1)%Z then false else
  if (b1 <? b2)%Z then true else if (b2 <? b1)%Z then false else
  String.leb s1 s2.

Lemma string_leb_total s1 s2 : String.leb s1 s2 = true ∨ String.leb s2 s1 = true.
Proof. apply String.leb_total. Qed.

Lemma ascii_compare_trans_lt a b c :
  Ascii.compare a b = Lt → Ascii.compare b c = Lt → Ascii.compare a c = Lt.
Proof. unfold Ascii.compare. rewrite !N.compare_lt_iff. lia. Qed.

Lemma ascii_compare_refl a : Ascii.compare a a = Eq.
Proof. apply N.compare_refl. Qed.

Lemma string_leb_trans s1 s2 s3 :
  String.leb s1 s2 = true → String.leb s2 s3 = true → String.leb s1 s3 = true.
Proof.
  unfold String.leb.
  revert s2 s3. induction s1 as [|a s1 IH]; intros [|b s2] [|c s3]; simpl; try done.
  destruct (Ascii.compare a b) eqn:E1; [|..|done];
    destruct (Ascii.compare b c) eqn:E2; try done;
    try apply Ascii.compare_eq_iff in E1 as ->; try apply Ascii.compare_eq_iff in E2 as ->.
  - rewrite ascii_compare_refl. apply IH.
  - by rewrite E2.
  - by rewrite E1.
  - by rewrite (ascii_compare_trans_lt _ _ _ E1 E2).
Qed.

Lemma key3_leb_total k1 k2 : key3_leb k1 k2 = true ∨ key3_leb k2 k1 = true.
Proof.
  destruct k1 as [[a1 b1] s1], k2 as [[a2 b2] s2]; simpl.
  pose proof (string_leb_total s1 s2).
  repeat case_match; to_prop; try lia; auto.
Qed.

Lemma key3_leb_trans k1 k2 k3 :
  key3_leb k1 k2 = true → key3_leb k2 k3 = true → key3_leb k1 k3 = true.
Proof.
  destruct k1 as [[a1 b1] s1], k2 as [[a2 b2] s2], k3 as [[a3 b3] s3]; simpl.
  pose proof (string_leb_trans s1 s2 s3).
  repeat case_match; to_prop; try lia; auto.
Qed.
#[export] Hint Resolve key3_leb_total key3_leb_trans : linux_net.

(** ** Strings *)

(** [s.startswith(p)] *)
Definition startswith (s p : string) : bool := String.prefix p s.

Lemma startswith_spec s p : startswith s p = true ↔ ∃ r, s = p +:+ r.
Proof.
  unfold startswith. revert p. induction s as [|b s IH]; intros [|a p]; simpl.
  - split; [by exists ""|done].
  - split; [done|by intros [r ?]].
  - split; [by exists (String b s)|done].
  - destruct (ascii_dec a b) as [->|Hne].
    + rewrite IH. split; intros [r Hr]; exists r; [by rewrite Hr|by injection Hr].
    + split; [done|]. intros [r [= ? ?]]. congruence.
Qed.

Lemma string_app_assoc (s t u : string) : (s +:+ t) +:+ u = s +:+ (t +:+ u).
Proof. induction s as [|a s IH]; [done|]. exact (f_equal (String a) IH). Qed.

Lemma string_app_nil (s : string) : s +:+ "" = s.
Proof. induction s as [|a s IH]; [done|]. exact (f_equal (String a) IH). Qed.

Definition lower_ascii (a : ascii) : ascii :=
  let n := nat_of_ascii a in
  if (65 <=? n)%nat && (n <=? 90)%nat then ascii_of_nat (n + 32) else a.

(** [s.lower()], on ASCII letters *)
Fixpoint lower (s : string) : string :=
  match s with
  | EmptyString => EmptyString
  | String a s => String (lower_ascii a) (lower s)
  end.

(** [s.lstrip(c)] and [s.rstrip(c)] for one character *)
Fixpoint lstrip_char (c : ascii) (s : string) : string :=
  match s with
  | EmptyString => EmptyString
  | String a s' => if Ascii.eqb a c then lstrip_char c s' else s
  end.

Fixpoint rstrip_char (c : ascii) (s : string) : string :=
  match s with
  | EmptyString => EmptyString
  | String a s' =>
      match rstrip_char c s' with
      | EmptyString => if Ascii.eqb a c then EmptyString else String a EmptyString
      | t => String a t
      end
  end.

Definition strip_char (c : ascii) (s : string) : string := rstrip_char c (lstrip_char c s).

(** [s.split(c)] for one character: never empty. *)
Fixpoint split_char (c : ascii) (s : string) : list string :=
  match s with
  | EmptyString => [EmptyString]
  | String a s' =>
      if Ascii.eqb a c then EmptyString :: split_char c s'
      else match split_char c s' with
           | [] => [String a EmptyString]
           | t :: ts => String a t :: ts
           end
  end.

(** [sep.join(l)] *)
Definition join (sep : string) (l : list string) : string := String.concat sep l.

Definition newline : ascii := ascii_of_nat 10.
Definition nl : string := String newline EmptyString.

(** [p in s] on strings *)
Fixpoint contains (s p : string) : bool :=
  startswith s p || match s with EmptyString => false | String _ s' => contains s' p end.

Lemma startswith_app s t p : startswith s p = true → startswith (s +:+ t) p = true.
Proof. intros [r ->]%startswith_spec. apply startswith_spec. exists (r +:+ t). by rewrite string_app_assoc. Qed.

Lemma contains_app s t p : contains s p = true → contains (s +:+ t) p = true.
Proof.
  induction s as [|a s IH]; intros Hc.
  - destruct p as [|b p]; [by destruct t as [|[]]|done].
  - change (String a s +:+ t) with (String a (s +:+ t)). cbn [contains] in Hc |- *.
    apply orb_true_iff in Hc as [Hc|Hc]; apply orb_true_iff; [left|right; auto].
    by apply (startswith_app (String a s) t p).
Qed.

(** [str(z)] *)
Definition str_of_Z (z : Z) : string := pretty z.

(** [c in s] for one character *)
Fixpoint has_char (c : ascii) (s : string) : bool :=
  match s with EmptyString => false | String a s => Ascii.eqb a c || has_char c s end.

Lemma has_char_app c s t : has_char c (s +:+ t) = has_char c s || has_char c t.
Proof. induction s as [|a s IH]; [done|]. simpl. by rewrite IH, orb_assoc. Qed.

(** [s.replace(c, t)] for one character *)
Fixpoint replace_char (c : ascii) (t : string) (s : string) : string :=
  match s with
  | EmptyString => EmptyString
  | String a s => if Ascii.eqb a c then t +:+ replace_char c t s else String a (replace_char c t s)
  end.

(** [str.isspace], [str.strip], [str.lstrip] and [str.splitlines] on 8-bit
    characters *)
Definition is_space (a : ascii) : bool :=
  let n := nat_of_ascii a in
  (9 <=? n) && (n <=? 13) || (28 <=? n) && (n <=? 32) || (n =? 133) || (n =? 160).

Fixpoint lstrip (s : string) : string :=
  match s with
  | EmptyString => EmptyString
  | String a s' => if is_space a then lstrip s' else s
  end.

Fixpoint rstrip (s : string) : string :=
  match s with
  | EmptyString => EmptyString
  | String a s' =>
      match rstrip s' with
      | EmptyString => if is_space a then EmptyString else String a EmptyString
      | t => String a t
      end
  end.

Definition strip (s : string) : string := rstrip (lstrip s).

Definition is_line_end (a : ascii) : bool :=
  let n := nat_of_ascii a in
  (10 <=? n) && (n <=? 13) || (28 <=? n) && (n <=? 30) || (n =? 133).

(** [acc] is the current line, reversed. *)
Fixpoint splitlines_from (acc : list ascii) (s : string) : list string :=
  match s with
  | EmptyString => match acc with [] => [] | _ => [String.string_of_list_ascii (reverse acc)] end
  | String a s =>
      if is_line_end a then
        String.string_of_list_ascii (reverse acc) ::
        match s with
        | String b s' => if (nat_of_ascii a =? 13) && (nat_of_ascii b =? 10)
                         then splitlines_from [] s' else splitlines_from [] s
        | EmptyString => []
        end
      else splitlines_from (a :: acc) s
  end.

Definition splitlines (s : string) : list string := splitlines_from [] s.

(** [s.split()]: the maximal runs of characters that are no white space *)
Fixpoint split_ws_from (acc : list ascii) (s : string) : list string :=
  match s with
  | EmptyString => match acc with [] => [] | _ => [String.string_of_list_ascii (reverse acc)] end
  | String a s =>
      if is_space a
      then match acc with
           | [] => split_ws_from [] s
           | _ => String.string_of_list_ascii (reverse acc) :: split_ws_from [] s
           end
      else split_ws_from (a :: acc) s
  end.

Definition split_ws (s : string) : list string := split_ws_from [] s.

(** [s.isdigit()], on ASCII digits *)
Definition is_digit (a : ascii) : bool :=
  let n := nat_of_ascii a in (48 <=? n) && (n <=? 57).

Fixpoint all_digits (s : string) : bool :=
  match s with EmptyString => true | String a s => is_digit a && all_digits s end.

Definition isdigit (s : string) : bool := negb (String.eqb s "") && all_digits s.

(** [int(s)] in a base up to ten: white space around, a sign, digits with single
    underscores between them, and in base 8 the prefix 0o *)
Fixpoint digits (base : Z) (acc : Z) (after_digit : bool) (s : string) : option Z :=
  match s with
  | EmptyString => if after_digit then Some acc else None
  | String a s =>
      if Ascii.eqb a "_"%char then (if after_digit then digits base acc false s else None)
      else
        let d := (Z.of_nat (nat_of_ascii a) - 48)%Z in
        if (0 <=? d)%Z && (d <? base)%Z then digits base (acc * base + d) true s else None
  end.

Definition drop_underscore (s : string) : string :=
  match s with
  | String a t => if Ascii.eqb a "_"%char then t else s
  | EmptyString => s
  end.

Definition octal_prefix (base : Z) (s : string) : string :=
  match s with
  | String a (String b t) =>
      if (base =? 8)%Z && Ascii.eqb a "0"%char && (Ascii.eqb b "o"%char || Ascii.eqb b "O"%char)
      then drop_underscore t else s
  | _ => s
  end.

Definition py_int (base : Z) (s : string) : res Z :=
  let digits := λ t, digits base 0 false (octal_prefix base t) in
  let bad := Err (ValueError ("invalid literal for int() with base " +:+ str_of_Z base)) in
  let num o := match o with Some z => Ok z | None => bad end in
  match strip s with
  | String a t =>
      if Ascii.eqb a "-"%char then z ← num (digits t); Ok (- z)%Z
      else if Ascii.eqb a "+"%char then num (digits t)
      else num (digits (String a t))
  | EmptyString => bad
  end.

Lemma py_int_ordinary base s : ordinary (py_int base s).
Proof.
  unfold py_int. destruct (strip s) as [|a t]; [by apply ordinary_Err|].
  destruct (Ascii.eqb a "-"); [apply ordinary_bind; [|done]|destruct (Ascii.eqb a "+")];
    case_match; (done || by apply ordinary_Err).
Qed.

Example py_int_examples : py_int 10 " 1_024 " = Ok 1024%Z ∧ py_int 8 "0755" = Ok 493%Z
  ∧ py_int 8 "0o755" = Ok 493%Z ∧ is_ok (py_int 10 "0o7") = false ∧ is_ok (py_int 8 "0o") = false
  ∧ is_ok (py_int 10 "1__0") = false ∧ is_ok (py_int 10 "") = false.
Proof. vm_compute. done. Qed.

Example splitlines_example :
  splitlines ("a" +:+ String (ascii_of_nat 13) nl +:+ "b" +:+ nl +:+ nl) = ["a"; "b"; ""].
Proof. reflexivity. Qed.

Example split_ws_example : split_ws "  a  bc " = ["a"; "bc"].
Proof. reflexivity. Qed.

(** [s.replace(p, r)] for a non-empty [p]: its occurrences from left to right *)
Fixpoint replace_from (skip : nat) (p r s : string) : string :=
  match s with
  | EmptyString => EmptyString
  | String a t =>
      match skip with
      | S skip => replace_from skip p r t
      | O => if startswith s p then r +:+ replace_from (pred (String.length p)) p r t
             else String a (replace_from 0 p r t)
      end
  end.

Definition str_replace (p r s : string) : string := replace_from 0 p r s.

Example str_replace_example : str_replace "aa" "b" "aaa.aa" = "ba.b".
Proof. reflexivity. Qed.

(** [round(x, 3)] of a float in millionths, half to even *)
Definition round3 (us : Z) : Z :=
  let q := (us / 1000)%Z in
  let r := (us mod 1000)%Z in
  (1000 * (if (r <? 500) || ((r =? 500) && Z.even q) then q else q + 1))%Z.

(** [type(v).__name__] *)
Definition py_type (v : pyval) : string :=
  match v with
  | PNone => "NoneType" | PBool _ => "bool" | PInt _ => "int" | PFloat _ => "float"
  | PStr _ => "str" | PList _ => "list" | PDict _ => "dict"
  end.

(** [str(v)]; of a float, a list and a dictionary it is the library's [repr]. *)
Definition py_str (repr : pyval → string) (v : pyval) : string :=
  match v with
  | PNone => "None" | PBool b => if b then "True" else "False"
  | PInt z => str_of_Z z | PStr s => s | v => repr v
  end.

(** Text without white space is one word. *)
Fixpoint no_space (s : string) : bool :=
  match s with EmptyString => true | String a s => negb (is_space a) && no_space s end.

Lemma split_lstrip s : split_ws (lstrip s) = split_ws s.
Proof. unfold split_ws. induction s as [|a s IH]; [done|]. simpl. by destruct (is_space a) eqn:E; simpl; rewrite ?E. Qed.

Lemma split_rstrip s : ∀ acc, split_ws_from acc (rstrip s) = split_ws_from acc s.
Proof.
  induction s as [|a s IH]; intros acc; [done|]. cbn [rstrip]. specialize (IH (if is_space a then [] else a :: acc)) as IHa.
  destruct (rstrip s) as [|b t] eqn:E.
  - destruct (is_space a) eqn:Ea; cbn [split_ws_from] in *; rewrite Ea; cbn [split_ws_from] in *.
    + rewrite <-IHa. by destruct acc.
    + done.
  - cbn [split_ws_from]. destruct (is_space a) eqn:Ea; [|done]. destruct acc; [done|by f_equal].
Qed.

Lemma split_strip s : split_ws (strip s) = split_ws s.
Proof. unfold strip, split_ws at 1. rewrite split_rstrip. apply split_lstrip. Qed.

Lemma string_of_rev (l : list ascii) s :
  String.string_of_list_ascii (reverse l) +:+ s = String.string_of_list_ascii (reverse l ++ String.list_ascii_of_string s).
Proof.
  generalize (reverse l). intros k. induction k as [|a k IH]; simpl; [by rewrite String.string_of_list_ascii_of_string|].
  by rewrite <-IH.
Qed.

Lemma split_word x s : x ≠ "" → no_space x = true → head (split_ws (x +:+ " " +:+ s)) = Some x.
Proof.
  assert (∀ x acc, acc ≠ [] ∨ x ≠ "" → no_space x = true →
    head (split_ws_from acc (x +:+ " " +:+ s)) = Some (String.string_of_list_ascii (reverse acc) +:+ x)) as Hx.
  { clear x. induction x as [|a x IH]; intros acc Hne Hs.
    - rewrite string_app_nil. destruct acc; [naive_solver|done].
    - cbn [no_space] in Hs. apply andb_prop in Hs as [Ha Hs]. apply negb_true_iff in Ha.
      change (String a x +:+ ?t) with (String a (x +:+ t)). cbn [split_ws_from]. rewrite Ha.
      rewrite IH by (auto; by left). f_equal. rewrite !string_of_rev, reverse_cons, <-app_assoc. done. }
  intros Hne Hs. unfold split_ws. by rewrite Hx by auto.
Qed.

(** *** Printing a number and reading it back *)
Lemma all_digits_go x : ∀ s, all_digits s = true → all_digits (pretty_N_go x s) = true.
Proof.
  induction (N.lt_wf_0 x) as [x _ IH]. intros s Hs.
  destruct (decide (0 < x)%N) as [Hx|Hx]; [|by replace x with 0%N by lia].
  rewrite pretty_N_go_step by done. apply IH; [apply N.div_lt; lia|].
  assert (x `mod` 10 < 10)%N as Hm by (apply N.mod_lt; lia). revert Hm. generalize (x `mod` 10)%N. intros m Hm.
  cbn [all_digits]. rewrite Hs, andb_true_r.
  assert (m = 0 ∨ m = 1 ∨ m = 2 ∨ m = 3 ∨ m = 4 ∨ m = 5 ∨ m = 6 ∨ m = 7 ∨ m = 8 ∨ m = 9)%N as Hc by lia.
  by repeat destruct Hc as [->|Hc]; subst.
Qed.

Lemma digits_go x : ∀ s, (0 < x)%N → digits 10 0 false (pretty_N_go x s) = digits 10 (Z.of_N x) true s.
Proof.
  induction (N.lt_wf_0 x) as [x _ IH]. intros s Hx. rewrite pretty_N_go_step by done.
  assert (∀ acc b, digits 10 acc b (String (pretty_N_char (x `mod` 10)) s)
    = digits 10 (acc * 10 + Z.of_N (x `mod` 10)) true s) as Hd.
  { intros acc b. assert (x `mod` 10 < 10)%N as Hm by (apply N.mod_lt; lia). revert Hm.
    generalize (x `mod` 10)%N. intros m Hm.
    assert (m = 0 ∨ m = 1 ∨ m = 2 ∨ m = 3 ∨ m = 4 ∨ m = 5 ∨ m = 6 ∨ m = 7 ∨ m = 8 ∨ m = 9)%N as Hc by lia.
    by repeat destruct Hc as [->|Hc]; subst. }
  pose proof (N.div_mod' x 10) as Hx10. destruct (N.eq_0_gt_0_cases (x `div` 10)) as [Hq|Hq].
  - rewrite Hq, pretty_N_go_0, Hd. f_equal. rewrite Hq in Hx10. lia.
  - rewrite IH by (done || (apply N.div_lt; lia)). rewrite Hd. f_equal. lia.
Qed.

Lemma str_of_Z_digits z : (0 ≤ z)%Z → all_digits (str_of_Z z) = true ∧ str_of_Z z ≠ "".
Proof.
  intros Hz. destruct z as [|p|p]; [done| |done]. unfold str_of_Z, pretty, pretty_Z, pretty, pretty_positive, pretty, pretty_N.
  rewrite decide_False by done. split; [by apply all_digits_go|].
  intros E. pose proof (digits_go (N.pos p) "" eq_refl) as Hd. by rewrite E in Hd.
Qed.

Lemma digit_plain a : is_digit a = true → is_space a = false ∧ Ascii.eqb a "-" = false ∧ Ascii.eqb a "+" = false.
Proof. destruct a as [[] [] [] [] [] [] [] []]; by vm_compute. Qed.

Lemma strip_digits s u : all_digits s = true → u = "" ∨ u = nl → strip (s +:+ u) = s.
Proof.
  intros Hs Hu. assert (∀ t, all_digits t = true → rstrip (t +:+ u) = t) as Hr.
  { intros t. induction t as [|a t IH]; [intros _; by destruct Hu as [-> | ->]|].
    cbn [all_digits]. intros [Ha Ht]%andb_prop.
    change (String a t +:+ u) with (String a (t +:+ u)). cbn [rstrip]. rewrite IH by done.
    destruct t; [|done]. by destruct (digit_plain a Ha) as [-> _]. }
  unfold strip. destruct s as [|a s]; [by destruct Hu as [-> | ->]|].
  change (String a s +:+ u) with (String a (s +:+ u)). cbn [lstrip].
  assert (is_digit a = true) as Ha by (cbn [all_digits] in Hs; by apply andb_prop in Hs as [? _]).
  destruct (digit_plain a Ha) as [-> _]. by apply (Hr (String a s)).
Qed.

(** [int(str(z).strip())], with the newline a command prints *)
Lemma py_int_printed z : (0 ≤ z)%Z → py_int 10 (strip (str_of_Z z +:+ nl)) = Ok z.
Proof.
  intros Hz. destruct (str_of_Z_digits z Hz) as [Hd Hne]. rewrite strip_digits by auto.
  unfold py_int. rewrite <-(string_app_nil (str_of_Z z)) at 1. rewrite strip_digits by auto.
  destruct (str_of_Z z) as [|a t] eqn:E; [done|]. pose proof Hd as Hd'. cbn [all_digits] in Hd.
  apply andb_prop in Hd as [Ha Ht]. destruct (digit_plain a Ha) as (_ & -> & ->).
  assert (digits 10 0 false (octal_prefix 10 (String a t)) = Some z) as ->; [|done].
  assert (octal_prefix 10 (String a t) = String a t) as -> by (by destruct t).
  rewrite <-E. destruct z as [|p|p]; [done| |done].
  unfold str_of_Z, pretty, pretty_Z, pretty, pretty_positive, pretty, pretty_N.
  rewrite decide_False by done. by rewrite digits_go.
Qed.
