(* ===== verification/Models.v ===== *)
(** * Data models

    The records of [linux_net/models/] (common, driver, request, response), the
    queue names of [linux_net/utils/config.py] and the masking of
    [linux_net/utils/__init__.py].  A pydantic class is a record of its declared
    fields; [extra="allow"] adds a dictionary of the remaining ones.  The
    validators are the functions of the class, in the order they run. *)

From S2P Require Import Prelude PyLib.

(** ** Enumerations *)
Inductive QueueStrategy := FIFO | PINNED.
Inductive DriverName := NAPALM | NETMIKO | PARAMIKO | PYEAPI.
Inductive AuditMode := audit_full | audit_metadata | audit_none.

#[global] Instance QueueStrategy_eq_dec : EqDecision QueueStrategy.
Proof. solve_decision. Defined.
#[global] Instance DriverName_eq_dec : EqDecision DriverName.
Proof. solve_decision. Defined.
#[global] Instance AuditMode_eq_dec : EqDecision AuditMode.
Proof. solve_decision. Defined.

Definition driver_value (d : DriverName) : string :=
  match d with
  | NAPALM => "napalm" | NETMIKO => "netmiko" | PARAMIKO => "paramiko" | PYEAPI => "pyeapi"
  end.

Definition audit_value (a : AuditMode) : string :=
  match a with audit_full => "full" | audit_metadata => "metadata" | audit_none => "none" end.

(** ** [models/common.py] *)
Record NodeInfo := mkNodeInfo {
  ni_hostname : string;
  ni_count : Z;
  ni_capacity : Z;
  ni_queue : string;
}.
#[global] Instance NodeInfo_eq_dec : EqDecision NodeInfo.
Proof. solve_decision. Defined.

(** [NodeInfo.__eq__]: two nodes are equal when their host names are. *)
Definition NodeInfo_eqb (n m : NodeInfo) : bool := String.eqb (ni_hostname n) (ni_hostname m).

Record JobAdditionalData := mkJobAdditionalData {
  jd_error : option (string * string);
  jd_task_id : option string;
  jd_request_id : option string;
  jd_job_trace_id : option string;
  jd_device_name : option string;
  jd_command : option (list string);
}.

(** [JobAdditionalData()] *)
Definition JobAdditionalData_default : JobAdditionalData :=
  mkJobAdditionalData None None None None None None.

Definition opt_strs (o : option (list string)) : pyval :=
  from_option (λ l, PList (PStr <$> l)) PNone o.

(** [meta.model_dump()] *)
Definition JobAdditionalData_dump (m : JobAdditionalData) : list (string * pyval) :=
  [("error", from_option (λ p, PList [PStr p.1; PStr p.2]) PNone (jd_error m));
   ("task_id", opt_str (jd_task_id m));
   ("request_id", opt_str (jd_request_id m));
   ("job_trace_id", opt_str (jd_job_trace_id m));
   ("device_name", opt_str (jd_device_name m));
   ("command", opt_strs (jd_command m))].

(** [Optional[str]] *)
Definition field_str (k : string) (d : list (string * pyval)) : res (option string) :=
  match dict_get k d with
  | None | Some PNone => Ok None
  | Some (PStr s) => Ok (Some s)
  | Some _ => Err (ValidationError k)
  end.

Fixpoint strs_of (l : list pyval) : option (list string) :=
  match l with
  | [] => Some []
  | PStr s :: l => (s ::.) <$> strs_of l
  | _ => None
  end.

(** [Optional[List[str]]] *)
Definition field_strs (k : string) (d : list (string * pyval)) : res (option (list string)) :=
  match dict_get k d with
  | None | Some PNone => Ok None
  | Some (PList l) => match strs_of l with Some ss => Ok (Some ss) | None => Err (ValidationError k) end
  | Some _ => Err (ValidationError k)
  end.

(** [Optional[Tuple[str, str]]] *)
Definition field_pair (k : string) (d : list (string * pyval)) : res (option (string * string)) :=
  match dict_get k d with
  | None | Some PNone => Ok None
  | Some (PList [PStr a; PStr b]) => Ok (Some (a, b))
  | Some _ => Err (ValidationError k)
  end.

(** [JobAdditionalData.model_validate(meta)]: the declared fields are checked,
    any other key is ignored. *)
Definition JobAdditionalData_validate (d : list (string * pyval)) : res JobAdditionalData :=
  error ← field_pair "error" d;
  task_id ← field_str "task_id" d;
  request_id ← field_str "request_id" d;
  job_trace_id ← field_str "job_trace_id" d;
  device_name ← field_str "device_name" d;
  command ← field_strs "command" d;
  Ok (mkJobAdditionalData error task_id request_id job_trace_id device_name command).

Inductive WebHookMethod := GET | POST | PUT | DELETE | PATCH.

Record WebHook := mkWebHook {
  wh_name : string;
  wh_url : string;
  wh_method : WebHookMethod;
  wh_headers : option (list (string * string));
  wh_cookies : option (list (string * string));
  wh_auth : option (string * string);
  wh_timeout : Z;  (* seconds, in millionths *)
  wh_max_retries : Z;
  wh_retry_intervals : list Z;
}.

(** The [ge]/[le] constraints of the fields of [WebHook]. *)
Definition WebHook_ok (w : WebHook) : bool :=
  (500000 <=? wh_timeout w)%Z && (wh_timeout w <=? 120000000)%Z &&
  (0 <=? wh_max_retries w)%Z && (wh_max_retries w <=? 10)%Z.

Definition method_value (m : WebHookMethod) : string :=
  match m with
  | GET => "GET" | POST => "POST" | PUT => "PUT" | DELETE => "DELETE" | PATCH => "PATCH"
  end.
Definition method_of (s : string) : option WebHookMethod :=
  find (λ m, String.eqb (method_value m) s) [GET; POST; PUT; DELETE; PATCH].

Definition str_dict (o : option (list (string * string))) : pyval :=
  from_option (λ d, PDict ((λ kv, (kv.1, PStr kv.2)) <$> d)) PNone o.

(** [webhook.model_dump(mode="json")] *)
Definition WebHook_dump (w : WebHook) : list (string * pyval) :=
  [("name", PStr (wh_name w)); ("url", PStr (wh_url w));
   ("method", PStr (method_value (wh_method w)));
   ("headers", str_dict (wh_headers w)); ("cookies", str_dict (wh_cookies w));
   ("auth", from_option (λ p, PList [PStr p.1; PStr p.2]) PNone (wh_auth w));
   ("timeout", PFloat (wh_timeout w)); ("max_retries", PInt (wh_max_retries w));
   ("retry_intervals", PList (PInt <$> wh_retry_intervals w))].

Fixpoint ints_of (l : list pyval) : option (list Z) :=
  match l with
  | [] => Some []
  | PInt z :: l => (z ::.) <$> ints_of l
  | _ => None
  end.

Fixpoint str_pairs_of (d : list (string * pyval)) : option (list (string * string)) :=
  match d with
  | [] => Some []
  | (k, PStr v) :: d => ((k, v) ::.) <$> str_pairs_of d
  | _ => None
  end.

(** [Optional[Dict[str, str]]] *)
Definition field_dict (k : string) (d : list (string * pyval))
    : res (option (list (string * string))) :=
  match dict_get k d with
  | None | Some PNone => Ok None
  | Some (PDict e) => match str_pairs_of e with Some p => Ok (Some p) | None => Err (ValidationError k) end
  | Some _ => Err (ValidationError k)
  end.

(** [WebHook.model_validate(d)] and [WebHook( **d)], with the defaults and the
    field constraints. *)
Definition WebHook_validate (d : list (string * pyval)) : res WebHook :=
  name ← match dict_get "name" d with
         | None => Ok "basic" | Some (PStr s) => Ok s | _ => Err (ValidationError "name") end;
  url ← match dict_get "url" d with Some (PStr s) => Ok s | _ => Err (ValidationError "url") end;
  method ← match dict_get "method" d with
           | None => Ok POST
           | Some (PStr s) => match method_of s with
                              | Some m => Ok m
                              | None => Err (ValidationError "method")
                              end
           | _ => Err (ValidationError "method") end;
  headers ← field_dict "headers" d;
  cookies ← field_dict "cookies" d;
  auth ← field_pair "auth" d;
  timeout ← match dict_get "timeout" d with
            | None => Ok 5000000%Z
            | Some (PFloat us) => Ok us
            | Some (PInt z) => Ok (z * 1000000)%Z
            | _ => Err (ValidationError "timeout") end;
  max_retries ← match dict_get "max_retries" d with
                | None => Ok 3%Z | Some (PInt z) => Ok z
                | _ => Err (ValidationError "max_retries") end;
  retry_intervals ← match dict_get "retry_intervals" d with
                    | None => Ok [10; 30; 120]%Z
                    | Some (PList l) => match ints_of l with
                                        | Some zs => Ok zs
                                        | None => Err (ValidationError "retry_intervals")
                                        end
                    | _ => Err (ValidationError "retry_intervals") end;
  let w := mkWebHook name url method headers cookies auth timeout max_retries retry_intervals in
  if WebHook_ok w then Ok w else Err (ValidationError "WebHook").

Record CredentialRef := mkCredentialRef {
  cr_name : option string;
  cr_ref : string;
  cr_mount : option string;
  cr_version : option Z;
  cr_field_mapping : option (list (string * string));
  cr_namespace : option string;
}.

Record DriverConnectionArgs := mkDriverConnectionArgs {
  dc_device_type : option string;
  dc_host : option string;
  dc_username : option string;
  dc_password : option string;
  dc_extra : list (string * pyval);
}.

(** [getattr(args, "keepalive", None)] *)
Definition dc_keepalive (a : DriverConnectionArgs) : option pyval :=
  match dict_get "keepalive" (dc_extra a) with
  | Some PNone | None => None
  | Some v => Some v
  end.

(** [args.keepalive = v] *)
Definition dc_set_keepalive (v : pyval) (a : DriverConnectionArgs) : DriverConnectionArgs :=
  mkDriverConnectionArgs (dc_device_type a) (dc_host a) (dc_username a) (dc_password a)
    (dict_set "keepalive" v (dc_extra a)).

(** The declared fields.  [model_copy] does not validate and may leave one holding a
    value that is no text (see [conn_args_copy]): that value is then among the
    extra fields, under the field's name, and the component of the record is its
    [str], which is what queue names and Redis see of it. *)
Definition declared_dump (a : DriverConnectionArgs) : list (string * pyval) :=
  [("device_type", opt_str (dc_device_type a)); ("host", opt_str (dc_host a));
   ("username", opt_str (dc_username a)); ("password", opt_str (dc_password a))].

(** [args.model_dump(mode="json")] *)
Definition DriverConnectionArgs_dump (a : DriverConnectionArgs) : list (string * pyval) :=
  filter (λ kv, kv.1 ∉ (dc_extra a).*1) (declared_dump a) ++ dc_extra a.

Definition declared_conn_fields : list string := ["device_type"; "host"; "username"; "password"].

(** [DriverConnectionArgs] of the keyword arguments [d] *)
Definition DriverConnectionArgs_validate (d : list (string * pyval)) : res DriverConnectionArgs :=
  device_type ← field_str "device_type" d;
  host ← field_str "host" d;
  username ← field_str "username" d;
  password ← field_str "password" d;
  Ok (mkDriverConnectionArgs device_type host username password
        (filter (λ kv, kv.1 ∉ declared_conn_fields) d)).

Record BatchFailedItem := mkBatchFailedItem { bf_host : string; bf_reason : string }.
#[global] Instance BatchFailedItem_eq_dec : EqDecision BatchFailedItem.
Proof. solve_decision. Defined.

Inductive FileOperation := upload | download.
Inductive SyncMode := sync_full | sync_hash.

Record FileTransferModel := mkFileTransfer {
  ft_operation : FileOperation;
  ft_remote_path : string;
  ft_local_path : option string;
  ft_overwrite : bool;
  ft_resume : bool;
  ft_recursive : bool;
  ft_sync_mode : SyncMode;
  ft_chunk_size : Z;
  ft_chmod : option string;
  ft_execute_after_upload : bool;
  ft_execute_command : option string;
  ft_cleanup_after_exec : bool;
}.

(** [command] and [config]: [Union[dict, List[str], str, None]] *)
Inductive payload :=
  | PayDict (d : list (string * pyval))
  | PayList (l : list string)
  | PayStr (s : string).

(** ** [models/driver.py] *)
Record DriverExecutionResult := mkResult {
  r_command : string;
  r_stdout : pyval;
  r_stderr : string;
  r_exit_status : Z;
  r_download_url : option string;
  r_metadata : list (string * pyval);
  r_parsed : pyval;
}.

(** ** [models/request.py] *)
Record TemplateRenderRequest := mkRender {
  tr_name : string;
  tr_template : option string;
  tr_context : option (list (string * pyval));
  tr_extra : list (string * pyval);  (* undeclared fields *)
}.

Record TemplateParseRequest := mkParse {
  tp_name : string;
  tp_template : string;
  tp_context : option string;
  tp_extra : list (string * pyval);  (* undeclared fields *)
}.

Record ExecutionRequest := mkExecutionRequest {
  er_driver : DriverName;
  er_driver_args : option (list (string * pyval));
  er_connection_args : DriverConnectionArgs;
  er_credential : option CredentialRef;
  er_config : option payload;
  er_command : option payload;
  er_file_transfer : option FileTransferModel;
  er_rendering : option TemplateRenderRequest;
  er_parsing : option TemplateParseRequest;
  er_queue_strategy : option QueueStrategy;
  er_ttl : option Z;
  er_execution_timeout : option Z;
  er_result_ttl : option Z;
  er_audit_mode : AuditMode;
  er_webhook : option WebHook;
  er_detach : bool;
  er_push_interval : option Z;
  er_staged_file_id : option string;
  er_id : option string;  (* set by [execute], [extra="allow"] *)
  er_extra : list (string * pyval);  (* the other undeclared fields *)
}.

#[global] Instance FileOperation_eq_dec : EqDecision FileOperation.
Proof. solve_decision. Defined.
#[global] Instance SyncMode_eq_dec : EqDecision SyncMode.
Proof. solve_decision. Defined.
#[global] Instance WebHookMethod_eq_dec : EqDecision WebHookMethod.
Proof. solve_decision. Defined.
#[global] Instance DriverConnectionArgs_eq_dec : EqDecision DriverConnectionArgs.
Proof. solve_decision. Defined.
#[global] Instance CredentialRef_eq_dec : EqDecision CredentialRef.
Proof. solve_decision. Defined.
#[global] Instance payload_eq_dec : EqDecision payload.
Proof. solve_decision. Defined.
#[global] Instance FileTransferModel_eq_dec : EqDecision FileTransferModel.
Proof. solve_decision. Defined.
#[global] Instance TemplateRenderRequest_eq_dec : EqDecision TemplateRenderRequest.
Proof. solve_decision. Defined.
#[global] Instance TemplateParseRequest_eq_dec : EqDecision TemplateParseRequest.
Proof. solve_decision. Defined.
#[global] Instance WebHook_eq_dec : EqDecision WebHook.
Proof. solve_decision. Defined.
#[global] Instance ExecutionRequest_eq_dec : EqDecision ExecutionRequest.
Proof. solve_decision. Defined.

Definition in_range (lo hi : Z) (o : option Z) : bool :=
  match o with None => true | Some z => (lo <=? z)%Z && (z <=? hi)%Z end.

(** The [ge]/[le] constraints of the fields of [ExecutionRequest]. *)
Definition ExecutionRequest_ranges (r : ExecutionRequest) : bool :=
  in_range 1 86400 (er_ttl r) && in_range 1 86400 (er_execution_timeout r) &&
  in_range 60 604800 (er_result_ttl r) && in_range 1 3600 (er_push_interval r) &&
  from_option WebHook_ok true (er_webhook r).

Definition is_some {A} (o : option A) : bool := match o with Some _ => true | None => false end.

Module ExecutionRequest.
Definition check_detach_args (r : ExecutionRequest) : res ExecutionRequest :=
  if is_some (er_push_interval r) && negb (er_detach r) then
    Err (ValidationError "`push_interval` requires `detach=True`")
  else if er_detach r && negb (bool_decide (er_driver r = PARAMIKO)) then
    Err (ValidationError
      ("Detached mode is currently only supported by the " +:+ driver_value PARAMIKO +:+ " driver"))
  else Ok r.

Definition check_file_transfer_args (r : ExecutionRequest) : res ExecutionRequest :=
  if is_some (er_file_transfer r) &&
     negb (bool_decide (er_driver r = PARAMIKO) || bool_decide (er_driver r = NETMIKO)) then
    Err (ValidationError
      ("File transfer is currently not supported by the " +:+ driver_value (er_driver r)
        +:+ " driver"))
  else Ok r.

Definition check_exclusive_fields (r : ExecutionRequest) : res ExecutionRequest :=
  let is_actionable :=
    is_some (er_file_transfer r) || is_some (er_driver_args r) || is_some (er_staged_file_id r) in
  if is_some (er_config r) && is_some (er_command r) then
    Err (ValidationError "Only one of `config` or `command` can be set")
  else if negb (is_some (er_config r)) && negb (is_some (er_command r)) && negb is_actionable then
    Err (ValidationError
      "Either `config`, `command`, `file_transfer`, or an actionable `driver_args` set.")
  else Ok r.

Definition check_payload_type (r : ExecutionRequest) : res ExecutionRequest :=
  let valid_payload := match er_config r with Some c => Some c | None => er_command r end in
  match valid_payload, er_rendering r with
  | Some (PayDict _), None =>
      Err (ValidationError "`rendering` should be set when command/config is a dict")
  | _, _ => Ok r
  end.

Definition set_queue (q : option QueueStrategy) (a : DriverConnectionArgs) (r : ExecutionRequest)
    : ExecutionRequest :=
  mkExecutionRequest (er_driver r) (er_driver_args r) a (er_credential r) (er_config r)
    (er_command r) (er_file_transfer r) (er_rendering r) (er_parsing r) q (er_ttl r)
    (er_execution_timeout r) (er_result_ttl r) (er_audit_mode r) (er_webhook r) (er_detach r)
    (er_push_interval r) (er_staged_file_id r) (er_id r) (er_extra r).

Definition infer_defaults (r : ExecutionRequest) : res ExecutionRequest :=
  let q := match er_queue_strategy r with
           | Some q => q
           | None => if er_detach r then PINNED
                     else if bool_decide (er_driver r = NETMIKO) then PINNED else FIFO
           end in
  let a := er_connection_args r in
  let a := if bool_decide (q = PINNED) && negb (is_some (dc_keepalive a))
           then dc_set_keepalive (PInt 60) a else a in
  Ok (set_queue (Some q) a r).

(** [ExecutionRequest.model_validate]: the field constraints, then the
    validators in the order they are declared. *)
Definition model_validate (r : ExecutionRequest) : res ExecutionRequest :=
  if negb (ExecutionRequest_ranges r) then Err (ValidationError "out of range") else
  r ← check_detach_args r;
  r ← check_file_transfer_args r;
  r ← check_exclusive_fields r;
  r ← check_payload_type r;
  infer_defaults r.
End ExecutionRequest.

(** ** [models/response.py]: what the code reads of an RQ job, and [JobInResponse] *)
Inductive func :=
  | f_execute | f_spawn | f_manage_detached_task | f_dispatch_webhook
  | f_process_audit_log | f_process_detached_audit | f_node_remove.

(** The keyword arguments of an enqueued function. *)
Inductive kwargs :=
  | kw_none
  | kw_req (req : ExecutionRequest)
  | kw_spawn (q_name host : string)
  | kw_manage (task_id action : string) (params : option (option Z))
  | kw_webhook (webhook_data : WebHook) (body : list (string * pyval)) (attempt : Z)
  | kw_detached_audit (task_id : string) (metadata : list (string * pyval)) (job_id : option string)
  | kw_audit (job_id : string) (result : pyval) (mode : AuditMode)
  | kw_remove (pid : Z) (host : string).

Inductive callback := rpc_webhook_callback | rpc_exception_callback.

(** [job.latest_result()] *)
Record RqResult := mkRqResult { rr_type : Z; rr_return_value : option (list DriverExecutionResult) }.

Record Job := mkJob {
  job_id : string;
  job_status : option string;
  job_origin : string;
  job_created_at : option Z;
  job_enqueued_at : option Z;
  job_started_at : option Z;
  job_ended_at : option Z;
  job_worker_name : option string;
  job_latest_result : option RqResult;
  job_meta : list (string * pyval);
  job_kwargs : kwargs;
}.

Record JobResult := mkJobResult {
  jr_type : Z;
  jr_retval : option (list DriverExecutionResult);
  jr_error : option (string * string);  (* type, message *)
}.

Record JobInResponse := mkJobInResponse {
  ji_id : string;
  ji_status : string;
  ji_queue : string;
  ji_created_at : option Z;
  ji_enqueued_at : option Z;
  ji_started_at : option Z;
  ji_ended_at : option Z;
  ji_worker : option string;
  ji_result : option JobResult;
  ji_task_id : option string;
  ji_request_id : option string;
  ji_job_trace_id : option string;
  ji_device_name : option string;
  ji_command : option (list string);
}.

Module JobInResponse.
(** [duration], in microseconds *)
Definition duration (j : JobInResponse) : option Z :=
  match ji_started_at j, ji_ended_at j with
  | Some s, Some e => Some (e - s)%Z
  | _, _ => None
  end.

Definition queue_time (j : JobInResponse) : option Z :=
  match ji_enqueued_at j, ji_started_at j with
  | Some q, Some s => Some (s - q)%Z
  | _, _ => None
  end.

(** [JobInResponse.from_job] *)
Definition from_job (job : Job) : JobInResponse :=
  let meta := match JobAdditionalData_validate (job_meta job) with
              | Ok m => Some m
              | Err _ => None
              end in
  let error := meta ≫= jd_error in
  let result := (λ r, mkJobResult (rr_type r) (rr_return_value r) error)
                  <$> job_latest_result job in
  let status := match job_status job with None => "unknown" | Some s => s end in
  mkJobInResponse (job_id job) status (job_origin job) (job_created_at job)
    (job_enqueued_at job) (job_started_at job) (job_ended_at job) (job_worker_name job)
    result (meta ≫= jd_task_id) (meta ≫= jd_request_id) (meta ≫= jd_job_trace_id)
    (meta ≫= jd_device_name) (meta ≫= jd_command).
End JobInResponse.

(** ** Validation raises ordinary exceptions only *)
Lemma field_str_ordinary k d : ordinary (field_str k d).
Proof. unfold field_str. ordinary_cases. Qed.

Lemma conn_args_ordinary d : ordinary (DriverConnectionArgs_validate d).
Proof. unfold DriverConnectionArgs_validate. auto 10 using field_str_ordinary with linux_net. Qed.

Lemma model_validate_ordinary r : ordinary (ExecutionRequest.model_validate r).
Proof.
  unfold ExecutionRequest.model_validate. case_match; [by apply ordinary_Err|].
  apply ordinary_bind; [unfold ExecutionRequest.check_detach_args; ordinary_cases|intros r1].
  apply ordinary_bind; [unfold ExecutionRequest.check_file_transfer_args; ordinary_cases|intros r2].
  apply ordinary_bind; [unfold ExecutionRequest.check_exclusive_fields; ordinary_cases|intros r3].
  apply ordinary_bind; [unfold ExecutionRequest.check_payload_type; ordinary_cases|intros r4].
  done.
Qed.
#[export] Hint Resolve conn_args_ordinary model_validate_ordinary : linux_net.

(** ** [utils/config.py]: queue names *)
Definition get_host_queue_name (host : string) : string := "HostQ_" +:+ host.
Definition get_node_queue_name (node : string) : string := "NodeQ_" +:+ node.
Definition get_fifo_queue_name : string := "FifoQ".

(** ** [utils/__init__.py] *)
Definition sensitive_keys : list string := ["password"; "secret"; "private_key"; "token"].

Definition is_sensitive (k : string) : bool := bool_decide (lower k ∈ sensitive_keys).

Fixpoint mask_sensitive_data (data : pyval) : pyval :=
  match data with
  | PDict d =>
      PDict ((fix go d := match d with
                          | [] => []
                          | (k, v) :: d =>
                              (k, if is_sensitive k then PStr "******" else mask_sensitive_data v)
                              :: go d
                          end) d)
  | PList l => PList ((fix go l := match l with
                                   | [] => []
                                   | x :: l => mask_sensitive_data x :: go l
                                   end) l)
  | _ => data
  end.

(** ** Theorems on the models *)
Section execution_request.
Implicit Types r : ExecutionRequest.

(** What every later stage may assume of an accepted request. *)
Record request_wf r : Prop := {
  wf_ranges : ExecutionRequest_ranges r = true;
  wf_push : is_some (er_push_interval r) = true → er_detach r = true;
  wf_detach : er_detach r = true → er_driver r = PARAMIKO;
  wf_file : is_some (er_file_transfer r) = true → er_driver r = PARAMIKO ∨ er_driver r = NETMIKO;
  wf_exclusive : is_some (er_config r) && is_some (er_command r) = false;
  wf_actionable : is_some (er_config r) || is_some (er_command r) || is_some (er_file_transfer r)
    || is_some (er_driver_args r) || is_some (er_staged_file_id r) = true;
  wf_payload : ∀ d, match er_config r with Some c => Some c | None => er_command r end
    = Some (PayDict d) → is_some (er_rendering r) = true;
  wf_queue : is_some (er_queue_strategy r) = true;
  wf_keepalive : er_queue_strategy r = Some PINNED →
    is_some (dc_keepalive (er_connection_args r)) = true;
}.

Lemma dc_keepalive_set v a : v ≠ PNone → dc_keepalive (dc_set_keepalive v a) = Some v.
Proof. intros ?. unfold dc_keepalive; simpl. rewrite dict_get_set_eq. by destruct v. Qed.

Lemma check_detach_ok r r' : ExecutionRequest.check_detach_args r = Ok r' →
  r' = r ∧ (is_some (er_push_interval r) = true → er_detach r = true)
  ∧ (er_detach r = true → er_driver r = PARAMIKO).
Proof.
  unfold ExecutionRequest.check_detach_args.
  destruct (is_some (er_push_interval r)), (er_detach r); simpl; try done;
    try case_bool_decide; simpl; intros; simplify_eq; done.
Qed.

Lemma check_file_ok r r' : ExecutionRequest.check_file_transfer_args r = Ok r' →
  r' = r ∧ (is_some (er_file_transfer r) = true →
            er_driver r = PARAMIKO ∨ er_driver r = NETMIKO).
Proof.
  unfold ExecutionRequest.check_file_transfer_args.
  destruct (is_some (er_file_transfer r)); simpl;
    repeat case_bool_decide; simpl; naive_solver.
Qed.

Lemma check_exclusive_ok r r' : ExecutionRequest.check_exclusive_fields r = Ok r' →
  r' = r ∧ is_some (er_config r) && is_some (er_command r) = false
  ∧ is_some (er_config r) || is_some (er_command r) || is_some (er_file_transfer r)
    || is_some (er_driver_args r) || is_some (er_staged_file_id r) = true.
Proof.
  unfold ExecutionRequest.check_exclusive_fields.
  destruct (is_some (er_config r)), (is_some (er_command r)), (is_some (er_file_transfer r)),
    (is_some (er_driver_args r)), (is_some (er_staged_file_id r));
    simpl; intros; simplify_eq; auto.
Qed.

Lemma check_payload_ok r r' : ExecutionRequest.check_payload_type r = Ok r' →
  r' = r ∧ ∀ d, match er_config r with Some c => Some c | None => er_command r end
    = Some (PayDict d) → is_some (er_rendering r) = true.
Proof.
  unfold ExecutionRequest.check_payload_type.
  set (p := match er_config r with Some c => Some c | None => er_command r end).
  destruct p as [[]|], (er_rendering r); simpl; intros; simplify_eq; split; naive_solver.
Qed.

Lemma infer_defaults_ok r r' : ExecutionRequest.infer_defaults r = Ok r' →
  ∃ q a, r' = ExecutionRequest.set_queue (Some q) a r
    ∧ (q = PINNED → is_some (dc_keepalive a) = true)
    ∧ (∀ q', er_queue_strategy r = Some q' → q = q').
Proof.
  unfold ExecutionRequest.infer_defaults. intros [= <-].
  eexists _, _. split; [done|]. split; [|by intros q' ->].
  intros ->. rewrite bool_decide_true by done. simpl.
  destruct (is_some (dc_keepalive (er_connection_args r))) eqn:E; simpl; [done|].
  by rewrite dc_keepalive_set.
Qed.

Lemma model_validate_of_wf r : request_wf r → ExecutionRequest.model_validate r = Ok r.
Proof.
  intros [H1 H2 H3 H4 H5 H6 H7 H8 H9].
  unfold ExecutionRequest.model_validate. rewrite H1; simpl.
  assert (ExecutionRequest.check_detach_args r = Ok r) as ->.
  { unfold ExecutionRequest.check_detach_args.
    destruct (is_some (er_push_interval r)), (er_detach r); simpl; try done;
      try (by specialize (H2 eq_refl)); by rewrite bool_decide_true by auto. }
  simpl. assert (ExecutionRequest.check_file_transfer_args r = Ok r) as ->.
  { unfold ExecutionRequest.check_file_transfer_args.
    destruct (is_some (er_file_transfer r)); simpl; [|done].
    destruct H4 as [->| ->]; done. }
  simpl. assert (ExecutionRequest.check_exclusive_fields r = Ok r) as ->.
  { unfold ExecutionRequest.check_exclusive_fields.
    destruct (is_some (er_config r)), (is_some (er_command r)), (is_some (er_file_transfer r)),
      (is_some (er_driver_args r)), (is_some (er_staged_file_id r)); done. }
  simpl. assert (ExecutionRequest.check_payload_type r = Ok r) as ->.
  { unfold ExecutionRequest.check_payload_type. revert H7.
    set (p := match er_config r with Some c => Some c | None => er_command r end).
    intros H7. destruct p as [[d| |]|]; try done.
    specialize (H7 d eq_refl). by destruct (er_rendering r). }
  simpl. unfold ExecutionRequest.infer_defaults.
  destruct (er_queue_strategy r) as [q|] eqn:Eq; [|done].
  assert (bool_decide (q = PINNED) && negb (is_some (dc_keepalive (er_connection_args r))) = false)
    as ->.
  { case_bool_decide; subst; [|done]. by rewrite H9. }
  destruct r; simpl in *; by rewrite Eq.
Qed.

Lemma model_validate_inv r r' : ExecutionRequest.model_validate r = Ok r' →
  request_wf r'
  ∧ r' = ExecutionRequest.set_queue (er_queue_strategy r') (er_connection_args r') r
  ∧ (∀ q, er_queue_strategy r = Some q → er_queue_strategy r' = Some q).
Proof.
  unfold ExecutionRequest.model_validate.
  destruct (ExecutionRequest_ranges r) eqn:Hr; simpl; [|done].
  destruct (ExecutionRequest.check_detach_args r) as [r1|] eqn:E1; simpl; [|done].
  apply check_detach_ok in E1 as (-> & ? & ?).
  destruct (ExecutionRequest.check_file_transfer_args r) as [r1|] eqn:E2; simpl; [|done].
  apply check_file_ok in E2 as (-> & ?).
  destruct (ExecutionRequest.check_exclusive_fields r) as [r1|] eqn:E3; simpl; [|done].
  apply check_exclusive_ok in E3 as (-> & ? & ?).
  destruct (ExecutionRequest.check_payload_type r) as [r1|] eqn:E4; simpl; [|done].
  apply check_payload_ok in E4 as (-> & ?).
  intros (q & a & -> & Hk & Hq)%infer_defaults_ok. split_and!; [|done|].
  - constructor; simpl; auto. intros [= ->]; auto.
  - simpl. intros q' Hq'. by rewrite (Hq q').
Qed.

(** C26. Every request the API accepts is well formed: a push interval only on
    a detached request, detached only with Paramiko, file transfers only with
    Paramiko or Netmiko, at most one of command and config and something to
    do, a dictionary payload only with rendering, a queue strategy chosen,
    a keepalive on every pinned connection, the fields in range.  Validation
    only fills in the queue strategy and the connection arguments, keeps a
    strategy the caller chose, and validating the result again (as the bulk
    route and the drivers do) changes nothing. *)
Theorem model_validate_wf r r' :
  ExecutionRequest.model_validate r = Ok r' →
  request_wf r'
  ∧ r' = ExecutionRequest.set_queue (er_queue_strategy r') (er_connection_args r') r
  ∧ (∀ q, er_queue_strategy r = Some q → er_queue_strategy r' = Some q)
  ∧ ExecutionRequest.model_validate r' = Ok r'.
Proof. intros (Hwf & Hr & Hq)%model_validate_inv. auto using model_validate_of_wf. Qed.
End execution_request.

Section masking.
(** No entry under a sensitive key, at any depth, shows anything but stars. *)
Fixpoint secure (v : pyval) : bool :=
  match v with
  | PDict d =>
      (fix go d := match d with
                   | [] => true
                   | (k, v) :: d =>
                       (if is_sensitive k then bool_decide (v = PStr "******") else secure v)
                       && go d
                   end) d
  | PList l => (fix go l := match l with [] => true | x :: l => secure x && go l end) l
  | _ => true
  end.

(** No sensitive key at any depth. *)
Fixpoint innocuous (v : pyval) : bool :=
  match v with
  | PDict d =>
      (fix go d := match d with
                   | [] => true
                   | (k, v) :: d => negb (is_sensitive k) && innocuous v && go d
                   end) d
  | PList l => (fix go l := match l with [] => true | x :: l => innocuous x && go l end) l
  | _ => true
  end.

Lemma mask_secure v : secure (mask_sensitive_data v) = true.
Proof.
  induction v as [| | | | |l IH|d IH] using pyval_rect'; try done; simpl.
  - induction IH as [|x l Hx _ IHl]; [done|]. by rewrite Hx.
  - induction IH as [|[k v] d Hv _ IHd]; [done|]. simpl in *. rewrite IHd, andb_true_r.
    destruct (is_sensitive k); [by rewrite bool_decide_true|done].
Qed.

Lemma mask_of_secure v : secure v = true → mask_sensitive_data v = v.
Proof.
  induction v as [| | | | |l IH|d IH] using pyval_rect'; try done; simpl.
  - intros Hs. f_equal. revert Hs. induction IH as [|x l Hx _ IHl]; [done|].
    intros [??]%andb_prop. by rewrite Hx, IHl.
  - intros Hs. f_equal. revert Hs. induction IH as [|[k v] d Hv _ IHd]; [done|].
    simpl in *. intros [Hk Hd]%andb_prop. rewrite IHd by done. do 2 f_equal.
    destruct (is_sensitive k); [|auto]. by apply bool_decide_eq_true in Hk.
Qed.

Lemma innocuous_secure v : innocuous v = true → secure v = true.
Proof.
  induction v as [| | | | |l IH|d IH] using pyval_rect'; try done; simpl.
  - induction IH as [|x l Hx _ IHl]; [done|]. intros [??]%andb_prop. by rewrite Hx, IHl.
  - induction IH as [|[k v] d Hv _ IHd]; [done|]. simpl in *.
    destruct (is_sensitive k); simpl; [done|]. intros [??]%andb_prop. by rewrite Hv, IHd.
Qed.

(** Masking leaves no secret readable: in the masked document every
    entry under [password], [secret], [private_key] or [token], in any case
    and at any depth, is the six stars; masking again changes nothing, and a
    document without such keys is returned as it is. *)
Theorem mask_sensitive_data_spec v :
  secure (mask_sensitive_data v) = true
  ∧ mask_sensitive_data (mask_sensitive_data v) = mask_sensitive_data v
  ∧ (innocuous v = true → mask_sensitive_data v = v).
Proof.
  split_and!; [apply mask_secure|apply mask_of_secure, mask_secure|].
  intros. by apply mask_of_secure, innocuous_secure.
Qed.

Definition mask_example : pyval :=
  PDict [("host", PStr "r1"); ("Password", PStr "pw");
         ("args", PList [PDict [("token", PInt 7); ("timeout", PInt 3)]])].

Lemma mask_sensitive_data_witness :
  innocuous (PDict [("host", PStr "r1")]) = true
  ∧ mask_sensitive_data (PDict [("host", PStr "r1")]) = PDict [("host", PStr "r1")].
Proof. split; [reflexivity|apply mask_sensitive_data_spec; reflexivity]. Defined.

(** A secret under a key the list does not name is written as it is: the
    sudo password of a Paramiko request in the audit record. *)
Lemma mask_misses_sudo_password :
  mask_sensitive_data (PDict [("driver_args", PDict [("sudo_password", PStr "pw")])])
  = PDict [("driver_args", PDict [("sudo_password", PStr "pw")])].
Proof. reflexivity. Qed.
End masking.

Section connection_args.
Lemma filter_true {A} (P : A → Prop) `{∀ x, Decision (P x)} l :
  Forall P l → filter P l = l.
Proof. induction 1 as [|x l Hx _ IH]; [done|]. by rewrite filter_cons_True, IH. Qed.

(** A field that is not declared is an extra one. *)
Lemma dump_undeclared (a : DriverConnectionArgs) k : k ∉ declared_conn_fields →
  dict_get k (DriverConnectionArgs_dump a) = dict_get k (dc_extra a).
Proof.
  intros Hk. unfold DriverConnectionArgs_dump. rewrite dict_get_app.
  assert (dict_get k (filter (λ kv, kv.1 ∉ (dc_extra a).*1) (declared_dump a)) = None) as ->; [|done].
  apply dict_get_None. intros (kv & -> & [_ Hin]%list_elem_of_filter)%list_elem_of_fmap.
  apply Hk. unfold declared_dump, declared_conn_fields in *. set_solver.
Qed.

(** The connection arguments a detached task stores rebuild the same
    connection: validating the dump of [a] gives back [a], when its extra
    keys are not declared fields (which the class guarantees). *)
Theorem connection_args_roundtrip (a : DriverConnectionArgs) :
  Forall (λ kv, kv.1 ∉ declared_conn_fields) (dc_extra a) →
  DriverConnectionArgs_validate (DriverConnectionArgs_dump a) = Ok a.
Proof.
  intros Hx. destruct a as [dt h u p x]; simpl in *.
  assert (filter (λ kv, kv.1 ∉ x.*1) (declared_dump (mkDriverConnectionArgs dt h u p x))
    = declared_dump (mkDriverConnectionArgs dt h u p x)) as Hd.
  { apply filter_true. rewrite Forall_forall in *. intros kv Hkv (kv' & E & Hkv')%list_elem_of_fmap.
    apply (Hx kv' Hkv'). rewrite <-E. unfold declared_dump, declared_conn_fields in *. set_solver. }
  unfold DriverConnectionArgs_validate, DriverConnectionArgs_dump. cbn [dc_extra]. rewrite Hd.
  unfold declared_dump, field_str; simpl.
  assert (filter (λ kv, kv.1 ∉ declared_conn_fields) x = x) as Hf by by apply filter_true.
  rewrite !filter_cons_False by (simpl; set_solver).
  destruct dt, h, u, p; simpl; by rewrite Hf.
Qed.

Definition conn_example : DriverConnectionArgs :=
  mkDriverConnectionArgs (Some "cisco_ios") (Some "172.17.0.1") (Some "admin") None
    [("port", PInt 22); ("keepalive", PInt 60)].

Lemma connection_args_roundtrip_witness :
  DriverConnectionArgs_validate (DriverConnectionArgs_dump conn_example) = Ok conn_example.
Proof.
  apply connection_args_roundtrip. unfold conn_example, declared_conn_fields; simpl.
  repeat constructor; set_solver.
Defined.
End connection_args.

Section webhook_dump.
Lemma ints_of_dump l : ints_of (PInt <$> l) = Some l.
Proof. induction l as [|z l IH]; [done|]. rewrite fmap_cons. cbn [ints_of]. by rewrite IH. Qed.

Lemma str_pairs_dump (d : list (string * string)) :
  str_pairs_of ((λ kv, (kv.1, PStr kv.2)) <$> d) = Some d.
Proof. induction d as [|[k v] d IH]; [done|]. rewrite fmap_cons. cbn. by rewrite IH. Qed.

Lemma field_dict_dump k d o : dict_get k d = Some (str_dict o) → field_dict k d = Ok o.
Proof.
  unfold field_dict. intros ->. destruct o as [p|]; [|done].
  cbn -[str_pairs_of fmap]. by rewrite str_pairs_dump.
Qed.

Lemma field_pair_dump k d o :
  dict_get k d = Some (from_option (λ p, PList [PStr p.1; PStr p.2]) PNone o) →
  field_pair k d = Ok o.
Proof. unfold field_pair. intros ->. by destruct o as [[a b]|]. Qed.

(** What a detached task or a delayed delivery stores of its webhook
    rebuilds the same webhook. *)
Lemma webhook_roundtrip w : WebHook_ok w = true → WebHook_validate (WebHook_dump w) = Ok w.
Proof.
  intros Hok. unfold WebHook_validate.
  rewrite (field_dict_dump "headers" _ (wh_headers w)) by done.
  rewrite (field_dict_dump "cookies" _ (wh_cookies w)) by done.
  rewrite (field_pair_dump "auth" _ (wh_auth w)) by done.
  change (dict_get "retry_intervals" (WebHook_dump w))
    with (Some (PList (PInt <$> wh_retry_intervals w))).
  change (dict_get "name" (WebHook_dump w)) with (Some (PStr (wh_name w))).
  change (dict_get "url" (WebHook_dump w)) with (Some (PStr (wh_url w))).
  change (dict_get "method" (WebHook_dump w)) with (Some (PStr (method_value (wh_method w)))).
  change (dict_get "timeout" (WebHook_dump w)) with (Some (PFloat (wh_timeout w))).
  change (dict_get "max_retries" (WebHook_dump w)) with (Some (PInt (wh_max_retries w))).
  cbn -[WebHook_ok method_of ints_of fmap]. rewrite ints_of_dump.
  replace (method_of (method_value (wh_method w))) with (Some (wh_method w))
    by (by destruct (wh_method w)).
  cbn -[WebHook_ok]. destruct w; simpl in *. by rewrite Hok.
Qed.
End webhook_dump.
#[export] Hint Resolve webhook_roundtrip : linux_net.

Section request_witness.
Definition request_example : ExecutionRequest :=
  mkExecutionRequest NETMIKO None conn_example None None (Some (PayStr "show version")) None
    None None None (Some 300%Z) None None audit_full None false None None None [].

Lemma model_validate_wf_witness :
  ∃ r', ExecutionRequest.model_validate request_example = Ok r' ∧ request_wf r'
    ∧ er_queue_strategy r' = Some PINNED.
Proof.
  eexists. split; [reflexivity|]. split; [|reflexivity].
  apply (model_validate_wf request_example). reflexivity.
Defined.
End request_witness.
