(* ===== verification/Schedulers.v ===== *)
(** * Schedulers

    The four plugins of [linux_net/plugins/schedulers/]: each chooses a node
    for one host ([node_select]) or for a batch ([batch_node_select]).  The
    random source is the [Random] interface: what [random.randrange] and
    [random.uniform] return is not known, only that an index is in range. *)

From S2P Require Import Prelude PyLib Models.
From stdpp Require Import sorting.
From Stdlib Require Import SpecFloat.

(** ** The random source and binary64 floats *)
Class Random (W : Type) := {
  randrange : nat → W → nat * W;
  uniform : spec_float → spec_float → W → spec_float * W;
  py_hash : string → Z;
  randrange_lt : ∀ n w, (0 < n)%nat → ((randrange n w).1 < n)%nat;
}.

Module Float.
Definition prec : Z := 53.
Definition emax : Z := 1024.

Definition of_Z (z : Z) : spec_float := binary_normalize prec emax z 0 false.
Definition add : spec_float → spec_float → spec_float := SFadd prec emax.
Definition sub : spec_float → spec_float → spec_float := SFsub prec emax.
Definition mul : spec_float → spec_float → spec_float := SFmul prec emax.
Definition div : spec_float → spec_float → spec_float := SFdiv prec emax.
Definition leb : spec_float → spec_float → bool := SFleb.

(** [int(x)] of a finite float *)
Definition trunc (x : spec_float) : Z :=
  match x with
  | S754_finite s m e =>
      let n := if (0 <=? e)%Z then (Zpos m * 2 ^ e)%Z else (Zpos m / 2 ^ (- e))%Z in
      if s then (- n)%Z else n
  | _ => 0%Z
  end.

(** [x % 1] for [0 <= x], which is exact. *)
Definition mod1 (x : spec_float) : spec_float :=
  match x with
  | S754_finite s m e =>
      if (0 <=? e)%Z then S754_zero false
      else binary_normalize prec emax (Zpos m mod 2 ^ (- e))%Z e false
  | _ => x
  end.

(** [sum(l)] on floats: CPython 3.12 compensates the rounding (Neumaier). *)
Fixpoint sum_loop (l : list spec_float) (f_result c : spec_float) : spec_float :=
  match l with
  | [] => match c with
          | S754_finite _ _ _ => add f_result c
          | _ => f_result
          end
  | x :: l =>
      let t := add f_result x in
      let c := if leb (SFabs x) (SFabs f_result)
               then add c (add (sub f_result t) x)
               else add c (add (sub x t) f_result) in
      sum_loop l t c
  end.
Definition sum (l : list spec_float) : spec_float :=
  sum_loop l (S754_zero false) (S754_zero false).
End Float.

(** ** The interface of a scheduler *)

(** [n.count < n.capacity] *)
Definition has_capacity (n : NodeInfo) : bool := (ni_count n <? ni_capacity n)%Z.
(** [n.capacity - n.count] *)
Definition node_remaining (n : NodeInfo) : Z := (ni_capacity n - ni_count n)%Z.

Definition available_nodes (nodes : list NodeInfo) : list NodeInfo :=
  filter (λ n, has_capacity n = true) nodes.

Definition insufficient : exn :=
  WorkerUnavailableError "Insufficient capacity in node selection".

(** [BaseScheduler]: the operations the manager calls. *)
Class Scheduler (W : Type) := {
  node_select : list NodeInfo → string → M W (option NodeInfo);
  batch_node_select : list NodeInfo → list string → M W (list (option NodeInfo));
}.

(** Hosts of a batch given to [n]. *)
Definition used (n : NodeInfo) (l : list (option NodeInfo)) : nat :=
  length (filter (λ o, o = Some n) l).

(** A batch result the manager can act on: one entry per host, only nodes of
    the list that have capacity, and no node beyond its remaining capacity. *)
Record batch_ok (nodes : list NodeInfo) (hosts : list string) (l : list (option NodeInfo)) : Prop := {
  bo_length : length l = length hosts;
  bo_nodes : ∀ n, Some n ∈ l → n ∈ nodes ∧ has_capacity n = true;
  bo_capacity : ∀ n, n ∈ nodes → (Z.of_nat (used n l) ≤ Z.max 0 (node_remaining n))%Z;
}.

(** What a scheduler promises the manager: a chosen node is one of the list
    with capacity left, a single choice fails only when no node has capacity,
    and a batch is safe to act on. *)
Class SchedulerLaws (W : Type) `{Scheduler W} : Prop := {
  node_select_ok : ∀ nodes host w r w',
    node_select nodes host w = (Ok r, w') →
    ∃ n, r = Some n ∧ n ∈ nodes ∧ has_capacity n = true;
  node_select_progress : ∀ nodes host w n,
    n ∈ nodes → has_capacity n = true → is_ok (node_select nodes host w).1 = true;
  node_select_error : ∀ nodes host w e w',
    node_select nodes host w = (Err e, w') → is_exception e = true;
  batch_ok_of : ∀ nodes hosts w l w', NoDup (ni_hostname <$> nodes) →
    batch_node_select nodes hosts w = (Ok l, w') → batch_ok nodes hosts l;
  batch_error : ∀ nodes hosts w e w',
    batch_node_select nodes hosts w = (Err e, w') → is_exception e = true;
}.

(** ** [greedy] *)
Module Greedy.
Fixpoint node_select_loop (nodes : list NodeInfo) : res (option NodeInfo) :=
  match nodes with
  | [] => Err insufficient
  | n :: nodes => if has_capacity n then Ok (Some n) else node_select_loop nodes
  end.

Definition node_select (nodes : list NodeInfo) (host : string) : res (option NodeInfo) :=
  node_select_loop nodes.

(** The sort key [(-x.count, -(x.capacity - x.count), x.hostname)] *)
Definition key (n : NodeInfo) : key3 := (- ni_count n, - node_remaining n, ni_hostname n)%Z.
Definition leb (n m : NodeInfo) : bool := key3_leb (key n) (key m).

Fixpoint assign (available : list NodeInfo) (remaining : Z) : list NodeInfo :=
  match available with
  | [] => []
  | node :: rest =>
      if (remaining <=? 0)%Z then []
      else let a := Z.min (ni_capacity node - ni_count node) remaining in
           replicate (Z.to_nat a) node ++ assign rest (remaining - a)
  end.

Definition batch_node_select (nodes : list NodeInfo) (hosts : list string)
    : res (list (option NodeInfo)) :=
  let host_count := Z.of_nat (length hosts) in
  if (host_count =? 0)%Z then Ok []
  else if (sumZ ((λ n, ni_capacity n - ni_count n)%Z <$> nodes) <? host_count)%Z
  then Err insufficient
  else Ok (Some <$> assign (sort_by leb (available_nodes nodes)) host_count).
End Greedy.

(** ** [least_load] *)
Module LeastLoad.
(** One turn of the selection loop. *)
Definition better (node selected : NodeInfo) : NodeInfo :=
  if (ni_count node <? ni_count selected)%Z then node
  else if (ni_count node =? ni_count selected)%Z then
    let node_remaining := (ni_capacity node - ni_count node)%Z in
    let selected_remaining := (ni_capacity selected - ni_count selected)%Z in
    if (node_remaining >? selected_remaining)%Z then node
    else if (node_remaining =? selected_remaining)%Z then
      if String.ltb (ni_hostname node) (ni_hostname selected) then node else selected
    else selected
  else selected.

Definition select_step (selected : option NodeInfo) (node : NodeInfo) : option NodeInfo :=
  match selected with
  | None => Some node
  | Some s => Some (better node s)
  end.

Definition node_select (nodes : list NodeInfo) (host : string) : res (option NodeInfo) :=
  match available_nodes nodes with
  | [] => Err insufficient
  | l => Ok (foldl select_step None l)
  end.

(** [load_groups[count].append(x)] on a [defaultdict(list)] *)
Fixpoint group_append {A} (count : Z) (x : A) (groups : list (Z * list A)) : list (Z * list A) :=
  match groups with
  | [] => [(count, [x])]
  | (c, l) :: groups =>
      if decide (count = c) then (c, l ++ [x]) :: groups
      else (c, l) :: group_append count x groups
  end.

Definition group_step (groups : list (Z * list (NodeInfo * Z))) (node : NodeInfo) :=
  if (ni_count node <? ni_capacity node)%Z
  then group_append (ni_count node) (node, ni_capacity node - ni_count node)%Z groups
  else groups.

Definition load_groups (nodes : list NodeInfo) : list (Z * list (NodeInfo * Z)) :=
  foldl group_step [] nodes.

(** The key [(-x[1], x[0].hostname)] inside a group *)
Definition level_leb (x y : NodeInfo * Z) : bool :=
  key3_leb (0, - x.2, ni_hostname x.1)%Z (0, - y.2, ni_hostname y.1)%Z.

Definition key_leb {A} (g h : Z * A) : bool := (g.1 <=? h.1)%Z.

(** [for _ in range(assignments)] *)
Fixpoint assign_hosts (assignments : nat) (node : NodeInfo) (result : list (option NodeInfo))
    (host_index : nat) : res (list (option NodeInfo) * nat) :=
  match assignments with
  | O => Ok (result, host_index)
  | S k =>
      result ← set_item host_index (Some node) result;
      assign_hosts k node result (S host_index)
  end.

(** [while remaining_in_level > 0 and node_index < len(nodes_at_level)] *)
Fixpoint fill_level (nodes_at_level : list (NodeInfo * Z)) (remaining_in_level : Z)
    (result : list (option NodeInfo)) (host_index : nat) : res (list (option NodeInfo) * nat) :=
  match nodes_at_level with
  | [] => Ok (result, host_index)
  | (node, remaining) :: rest =>
      if (0 <? remaining_in_level)%Z then
        let assignments := Z.min remaining remaining_in_level in
        '(result, host_index) ← assign_hosts (Z.to_nat assignments) node result host_index;
        fill_level rest (remaining_in_level - assignments) result host_index
      else Ok (result, host_index)
  end.

(** [for count in sorted(load_groups.keys())] *)
Fixpoint fill_levels (groups : list (Z * list (NodeInfo * Z))) (host_count : nat)
    (result : list (option NodeInfo)) (host_index : nat) : res (list (option NodeInfo) * nat) :=
  match groups with
  | [] => Ok (result, host_index)
  | (_, nodes_at_level) :: rest =>
      if (host_count <=? host_index)%nat then Ok (result, host_index)
      else
        let hosts_for_level :=
          Z.min (sumZ (snd <$> nodes_at_level)) (Z.of_nat host_count - Z.of_nat host_index) in
        '(result, host_index) ← fill_level nodes_at_level hosts_for_level result host_index;
        fill_levels rest host_count result host_index
  end.

Definition batch_node_select (nodes : list NodeInfo) (hosts : list string)
    : res (list (option NodeInfo)) :=
  let host_count := length hosts in
  match hosts with
  | [] => Ok []
  | _ =>
      if (sumZ ((λ n, ni_capacity n - ni_count n)%Z <$> nodes) <? Z.of_nat host_count)%Z
      then Err insufficient
      else
        let groups := (λ g, (g.1, sort_by level_leb g.2)) <$> load_groups nodes in
        '(result, _) ← fill_levels (sort_by key_leb groups) host_count
                         (replicate host_count None) 0;
        Ok result
  end.
End LeastLoad.

(** ** [least_load_random] *)
Module LeastLoadRandom.
Section with_random.
Context {W : Type} `{Random W}.

(** [random.choice(l)] *)
Definition choice {A} (l : list A) : M W A := λ w,
  match l with
  | [] => (Err (IndexError "Cannot choose from an empty sequence"), w)
  | _ => let '(i, w) := randrange (length l) w in
         match l !! i with
         | Some x => (Ok x, w)
         | None => (Err (IndexError "list index out of range"), w)
         end
  end.

(** [min(l)] and [max(l)] of a non-empty list of integers *)
Definition min_list (l : list Z) : Z :=
  match l with [] => 0%Z | x :: l => foldl Z.min x l end.
Definition max_list (l : list Z) : Z :=
  match l with [] => 0%Z | x :: l => foldl Z.max x l end.

Definition phase2_candidates (nodes : list NodeInfo) : list NodeInfo :=
  let avail := available_nodes nodes in
  let min_count := min_list (ni_count <$> avail) in
  let phase1 := filter (λ n, ni_count n = min_count) avail in
  let max_remaining := max_list (node_remaining <$> phase1) in
  filter (λ n, node_remaining n = max_remaining) phase1.

Definition node_select (nodes : list NodeInfo) (host : string) : M W (option NodeInfo) :=
  match available_nodes nodes with
  | [] => raise insufficient
  | _ => n ← choice (phase2_candidates nodes); mret (Some n)
  end.

(** [while remaining_hosts > 0], on fuel *)
Fixpoint distribute (fuel : nat) (best_nodes : list (NodeInfo * Z)) (remaining_hosts : nat)
    (result : list (option NodeInfo)) (host_index : nat)
    : M W (list (option NodeInfo) * nat) :=
  match remaining_hosts with
  | O => mret (result, host_index)
  | S rh =>
      match fuel with
      | O => raise OutOfFuel
      | S fuel => λ w,
          match best_nodes with
          | [] => (Err (ValueError "empty range for randrange()"), w)
          | _ =>
              let '(node_idx, w) := randrange (length best_nodes) w in
              match best_nodes !! node_idx with
              | None => (Err (IndexError "list index out of range"), w)
              | Some (node, remaining) =>
                  if (remaining =? 0)%Z then
                    distribute fuel (delete node_idx best_nodes) remaining_hosts result
                      host_index w
                  else
                    match set_item host_index (Some node) result with
                    | Err e => (Err e, w)
                    | Ok result =>
                        distribute fuel (<[node_idx := (node, remaining - 1)%Z]> best_nodes) rh
                          result (S host_index) w
                    end
              end
          end
      end
  end.

(** The nodes of a level with the most remaining capacity *)
Definition best_of (nodes_at_count : list (NodeInfo * Z)) : list (NodeInfo * Z) :=
  let max_remaining := max_list (snd <$> nodes_at_count) in
  filter (λ x, x.2 = max_remaining) nodes_at_count.

(** [for count in sorted(count_groups.keys())] *)
Fixpoint fill_levels (groups : list (Z * list (NodeInfo * Z))) (host_count : nat)
    (result : list (option NodeInfo)) (host_index : nat) : M W (list (option NodeInfo) * nat) :=
  match groups with
  | [] => mret (result, host_index)
  | (_, nodes_at_count) :: rest =>
      if (host_count <=? host_index)%nat then mret (result, host_index)
      else
        let best_nodes := best_of nodes_at_count in
        let total_capacity := sumZ (snd <$> best_nodes) in
        let hosts_for_level :=
          Z.to_nat (Z.min total_capacity (Z.of_nat host_count - Z.of_nat host_index)) in
        '(result, host_index) ←
          distribute (hosts_for_level + length best_nodes) best_nodes hosts_for_level
            result host_index;
        fill_levels rest host_count result host_index
  end.

Definition batch_node_select (nodes : list NodeInfo) (hosts : list string)
    : M W (list (option NodeInfo)) :=
  let host_count := length hosts in
  match hosts with
  | [] => mret []
  | _ =>
      if (sumZ ((λ n, ni_capacity n - ni_count n)%Z <$> nodes) <? Z.of_nat host_count)%Z
      then raise insufficient
      else
        '(result, _) ← fill_levels (sort_by LeastLoad.key_leb (LeastLoad.load_groups nodes))
                         host_count (replicate host_count None) 0;
        mret result
  end.
End with_random.
End LeastLoadRandom.

(** ** [load_weighted_random] *)
Module LoadWeightedRandom.
Section with_random.
Context {W : Type} `{Random W}.

(** [w * (0.95 + 0.1 * ((host_hash + i / len(available_nodes)) % 1))] *)
Definition perturb (host_hash : spec_float) (len : nat) (i : nat) (w : Z) : spec_float :=
  let f := Float.mod1 (Float.add host_hash
             (Float.div (Float.of_Z (Z.of_nat i)) (Float.of_Z (Z.of_nat len)))) in
  Float.mul (Float.of_Z w)
    (Float.add (Float.div (Float.of_Z 95) (Float.of_Z 100))
       (Float.mul (Float.div (Float.of_Z 1) (Float.of_Z 10)) f)).

(** The first entry at which the running sum reaches [r] *)
Fixpoint pick (r acc : spec_float) (l : list (NodeInfo * spec_float)) : option NodeInfo :=
  match l with
  | [] => None
  | (n, w) :: l =>
      let acc := Float.add acc w in
      if Float.leb r acc then Some n else pick r acc l
  end.

Definition node_select (nodes : list NodeInfo) (host : string) : M W (option NodeInfo) :=
  let avail := available_nodes nodes in
  match avail with
  | [] => raise insufficient
  | _ =>
      let base_weights := (λ n, ni_capacity n - ni_count n)%Z <$> avail in
      let host_hash := Float.div (Float.of_Z (py_hash host mod 1000)) (Float.of_Z 1000) in
      let perturbed_weights := imap (perturb host_hash (length avail)) base_weights in
      let total_weight := Float.sum perturbed_weights in
      if Float.leb total_weight (S754_zero false) then
        n ← LeastLoadRandom.choice avail; mret (Some n)
      else
        rand ← update (uniform (S754_zero false) total_weight);
        match pick rand (S754_zero false) (zip avail perturbed_weights) with
        | Some n => mret (Some n)
        | None => mret (last avail)
        end
  end.

(** [{n: n.capacity - n.count for n in nodes}]: keys are host names, the
    equality of [NodeInfo]. *)
Definition remaining_map (nodes : list NodeInfo) : list (string * Z) :=
  foldl (λ d n, dict_set (ni_hostname n) (ni_capacity n - ni_count n)%Z d) [] nodes.

Definition remaining_of (remaining : list (string * Z)) (n : NodeInfo) : Z :=
  default 0%Z (dict_get (ni_hostname n) remaining).

(** [w * random.uniform(0.95, 1.05)] for every weight *)
Fixpoint noise (weights : list Z) : M W (list spec_float) :=
  match weights with
  | [] => mret []
  | w :: weights =>
      u ← update (uniform (Float.div (Float.of_Z 95) (Float.of_Z 100))
                    (Float.div (Float.of_Z 105) (Float.of_Z 100)));
      ws ← noise weights;
      mret (Float.mul (Float.of_Z w) u :: ws)
  end.

Fixpoint select_loop (nodes : list NodeInfo) (hosts : list string)
    (remaining : list (string * Z)) (result : list (option NodeInfo))
    : M W (list (option NodeInfo)) :=
  match hosts with
  | [] => mret result
  | _ :: hosts =>
      let candidates := filter (λ n, (0 < remaining_of remaining n)%Z) nodes in
      match candidates with
      | [] => raise (WorkerUnavailableError "No available nodes during selection")
      | _ =>
          let weights := (λ n, (remaining_of remaining n + 1) ^ 2)%Z <$> candidates in
          noisy_weights ← noise weights;
          let total := Float.sum noisy_weights in
          r ← update (uniform (S754_zero false) total);
          match pick r (S754_zero false) (zip candidates noisy_weights) with
          | None => raise (WorkerUnavailableError "Selection failed unexpectedly")
          | Some selected =>
              if (remaining_of remaining selected <=? 0)%Z
              then raise (WorkerUnavailableError "Selection failed unexpectedly")
              else select_loop nodes hosts
                     (dict_set (ni_hostname selected) (remaining_of remaining selected - 1)%Z
                        remaining)
                     (result ++ [Some selected])
          end
      end
  end.

Definition batch_node_select (nodes : list NodeInfo) (hosts : list string)
    : M W (list (option NodeInfo)) :=
  let remaining := remaining_map nodes in
  let total_remaining := sumZ (snd <$> remaining) in
  if (total_remaining <? Z.of_nat (length hosts))%Z
  then raise (WorkerUnavailableError
                ("Total capacity " +:+ str_of_Z total_remaining +:+ " < requested hosts "
                   +:+ str_of_Z (Z.of_nat (length hosts))))
  else select_loop nodes hosts remaining [].
End with_random.
End LoadWeightedRandom.

(** ** Lemmas on assignments

    [entries nodes] pairs every node that has capacity with what is left of
    it; a list of chosen nodes is [within] some entries when it uses no node
    more often than its entries leave room for. *)
Definition entries (nodes : list NodeInfo) : list (NodeInfo * Z) :=
  (λ n, (n, node_remaining n)) <$> available_nodes nodes.

Definition room (n : NodeInfo) (l : list (NodeInfo * Z)) : nat :=
  sum_list_with (λ e, if decide (e.1 = n) then Z.to_nat e.2 else O) l.

Definition times (n : NodeInfo) (l : list NodeInfo) : nat := length (filter (λ m, m = n) l).

Definition within (new : list NodeInfo) (l : list (NodeInfo * Z)) : Prop :=
  ∀ n, times n new ≤ room n l.

(** Every node of [l] as often as it has room. *)
Definition slots (l : list (NodeInfo * Z)) : list NodeInfo :=
  l ≫= λ e, replicate (Z.to_nat e.2) e.1.

Definition total (l : list (NodeInfo * Z)) : Z := sumZ (snd <$> l).

#[global] Arguments slots : simpl never.
#[global] Arguments total : simpl never.

Definition positive (l : list (NodeInfo * Z)) : Prop := Forall (λ e, (0 < e.2)%Z) l.

Section assignments.
Implicit Types (n : NodeInfo) (l : list (NodeInfo * Z)) (new nodes : list NodeInfo).

Lemma times_app n new k : times n (new ++ k) = times n new + times n k.
Proof. unfold times. by rewrite filter_app, length_app. Qed.

Lemma times_cons n m new : times n (m :: new) = (if decide (m = n) then 1 else 0) + times n new.
Proof.
  unfold times. destruct (decide (m = n)) as [->|].
  - by rewrite filter_cons_True.
  - by rewrite filter_cons_False.
Qed.

Lemma times_replicate n m k : times n (replicate k m) = if decide (m = n) then k else 0.
Proof.
  induction k as [|k IH]; simpl; [by case_decide|].
  rewrite times_cons, IH. case_decide; lia.
Qed.

Lemma times_take n k new : times n (take k new) ≤ times n new.
Proof. apply filter_take_le. Qed.

Lemma times_pos n new : n ∈ new → 1 ≤ times n new.
Proof.
  intros (l1 & l2 & ->)%list_elem_of_split.
  rewrite times_app, times_cons, decide_True by done. lia.
Qed.

Lemma room_app n l k : room n (l ++ k) = room n l + room n k.
Proof. apply sum_list_with_app. Qed.

#[export] Instance room_proper n : Proper ((≡ₚ) ==> eq) (room n).
Proof. unfold room. induction 1; simpl; lia. Qed.

#[export] Instance total_proper : Proper ((≡ₚ) ==> eq) total.
Proof. intros l k Hp. unfold total. apply sumZ_permutation. by rewrite Hp. Qed.

#[export] Instance within_proper : Proper (eq ==> (≡ₚ) ==> iff) within.
Proof. intros new ? <- l k Hp. unfold within. by setoid_rewrite Hp. Qed.

#[export] Instance positive_proper : Proper ((≡ₚ) ==> iff) positive.
Proof. intros l k Hp. unfold positive. by rewrite Hp. Qed.

Lemma room_pos n l : 1 ≤ room n l → n ∈ l.*1.
Proof.
  induction l as [|[m z] l IH]; simpl; [lia|].
  case_decide; set_solver.
Qed.

Lemma room_cons n e l :
  room n (e :: l) = (if decide (e.1 = n) then Z.to_nat e.2 else 0) + room n l.
Proof. done. Qed.

Lemma room_absent n l : n ∉ l.*1 → room n l = 0.
Proof. intros Hn. destruct (room n l) eqn:E; [done|]. destruct Hn. apply room_pos. lia. Qed.

Lemma entries_fst {B} (f : NodeInfo → B) nodes : ((λ n, (n, f n)) <$> nodes).*1 = nodes.
Proof. induction nodes as [|n nodes IH]; [done|]. rewrite !fmap_cons, IH. done. Qed.

Lemma within_nil l : within [] l.
Proof. intros n. unfold times; simpl. lia. Qed.

Lemma within_app new1 new2 l1 l2 :
  within new1 l1 → within new2 l2 → within (new1 ++ new2) (l1 ++ l2).
Proof. intros H1 H2 n. rewrite times_app, room_app. specialize (H1 n). specialize (H2 n). lia. Qed.

Lemma within_submseteq new l k : within new l → l ⊆+ k → within new k.
Proof.
  intros Hw (r & Hp)%submseteq_Permutation n. rewrite Hp, room_app. specialize (Hw n). lia.
Qed.

Lemma take_slots_nil k : take k (slots []) = [].
Proof. by destruct k. Qed.

Lemma slots_cons e l : slots (e :: l) = replicate (Z.to_nat e.2) e.1 ++ slots l.
Proof. done. Qed.

Lemma times_slots n l : times n (slots l) = room n l.
Proof.
  induction l as [|[m z] l IH]; [done|].
  rewrite slots_cons; simpl. by rewrite times_app, times_replicate, IH.
Qed.

Lemma slots_within k l : within (take k (slots l)) l.
Proof. intros n. rewrite <-times_slots. apply times_take. Qed.

Lemma total_cons e l : total (e :: l) = (e.2 + total l)%Z.
Proof. done. Qed.

Lemma length_slots l : positive l → Z.of_nat (length (slots l)) = total l.
Proof.
  induction 1 as [|[m z] l Hm _ IH]; [done|]. rewrite total_cons, slots_cons. simpl in *.
  rewrite length_app, length_replicate. lia.
Qed.

Lemma available_elem n nodes : n ∈ available_nodes nodes ↔ n ∈ nodes ∧ has_capacity n = true.
Proof. unfold available_nodes. rewrite list_elem_of_filter. naive_solver. Qed.

Lemma has_capacity_remaining n : has_capacity n = true ↔ (0 < node_remaining n)%Z.
Proof. unfold has_capacity, node_remaining. rewrite Z.ltb_lt. lia. Qed.

Lemma entries_positive nodes : positive (entries nodes).
Proof.
  apply Forall_fmap, Forall_forall. intros n [_ ?]%available_elem; simpl.
  by apply has_capacity_remaining.
Qed.

(** Full nodes only lower the sum the code compares with the host count. *)
Lemma total_entries nodes :
  (sumZ ((λ n, ni_capacity n - ni_count n)%Z <$> nodes) ≤ total (entries nodes))%Z.
Proof.
  induction nodes as [|n nodes IH]; [done|].
  rewrite fmap_cons. unfold sumZ; simpl; fold (sumZ ((λ n, ni_capacity n - ni_count n)%Z <$> nodes)).
  unfold entries, available_nodes in *. destruct (has_capacity n) eqn:E.
  - rewrite filter_cons_True, fmap_cons, total_cons by done.
    unfold node_remaining in *; simpl in *. lia.
  - rewrite filter_cons_False by congruence.
    unfold has_capacity in E. to_prop. lia.
Qed.

Lemma room_entries n nodes :
  NoDup (ni_hostname <$> nodes) →
  (Z.of_nat (room n (entries nodes)) ≤ Z.max 0 (node_remaining n))%Z.
Proof.
  intros Hnd%NoDup_fmap_1. unfold entries, available_nodes.
  apply (NoDup_filter (λ n, has_capacity n = true)) in Hnd.
  revert Hnd. generalize (filter (λ n, has_capacity n = true) nodes). clear nodes.
  intros nodes. induction 1 as [|m nodes Hm Hnd IH]; [simpl; lia|].
  rewrite fmap_cons, room_cons; simpl.
  destruct (decide (m = n)) as [->|]; [|done].
  rewrite room_absent; [lia|]. by rewrite entries_fst.
Qed.

Lemma used_somes n new k : used n ((Some <$> new) ++ replicate k None) = times n new.
Proof.
  unfold used, times. rewrite filter_app, length_app, filter_replicate_False by done.
  rewrite Nat.add_0_r. induction new as [|m new IH]; [done|]. simpl.
  destruct (decide (m = n)) as [->|].
  - rewrite !filter_cons_True by done. simpl. by f_equal.
  - rewrite !filter_cons_False by congruence. done.
Qed.

(** The one lemma every batch result goes through. *)
Lemma batch_ok_within nodes (hosts : list string) new k :
  NoDup (ni_hostname <$> nodes) → within new (entries nodes) →
  length new + k = length hosts →
  batch_ok nodes hosts ((Some <$> new) ++ replicate k None).
Proof.
  intros Hnd Hw Hlen. constructor.
  - by rewrite length_app, length_fmap, length_replicate.
  - intros n [(m & [= <-] & Hm)%list_elem_of_fmap|[? _]%elem_of_replicate]%elem_of_app; [|done].
    apply times_pos in Hm. specialize (Hw n). apply available_elem.
    assert (n ∈ (entries nodes).*1) as Hn by (apply room_pos; lia).
    unfold entries in Hn. by rewrite entries_fst in Hn.
  - intros n _. rewrite used_somes. specialize (Hw n).
    pose proof (room_entries n nodes Hnd). lia.
Qed.
End assignments.
#[export] Hint Resolve within_nil slots_within entries_positive : linux_net.

(** ** Greedy *)
Section greedy.
Implicit Types nodes : list NodeInfo.

Lemma greedy_select nodes host :
  match Greedy.node_select nodes host with
  | Ok r => ∃ n, r = Some n ∧ head (available_nodes nodes) = Some n
  | Err e => e = insufficient ∧ available_nodes nodes = []
  end.
Proof.
  unfold Greedy.node_select, available_nodes.
  induction nodes as [|n nodes IH]; [done|]. simpl.
  destruct (has_capacity n) eqn:E.
  - rewrite filter_cons_True by done. eauto.
  - by rewrite filter_cons_False by congruence.
Qed.

Lemma greedy_assign l r : (0 ≤ r)%Z → Forall (λ n, has_capacity n = true) l →
  Greedy.assign l r = take (Z.to_nat r) (slots ((λ n, (n, node_remaining n)) <$> l)).
Proof.
  intros Hr Hl. revert r Hr.
  induction Hl as [|n l Hn _ IH]; intros r Hr; [by destruct (Z.to_nat r)|].
  rewrite fmap_cons, slots_cons. simpl. apply has_capacity_remaining in Hn.
  destruct (r <=? 0)%Z eqn:E; to_prop; [by replace r with 0%Z by lia|].
  rewrite take_app, length_replicate, take_replicate, IH by lia.
  fold (node_remaining n). f_equal; f_equal; lia.
Qed.

(** The entries in the order of [leb]. *)
Lemma sorted_entries leb nodes :
  (λ n, (n, node_remaining n)) <$> sort_by leb (available_nodes nodes) ≡ₚ entries nodes.
Proof. unfold entries. by rewrite (sort_by_perm leb (available_nodes nodes)). Qed.

Lemma length_take_slots l k e :
  positive l → (Z.of_nat k ≤ total e)%Z → l ≡ₚ e → length (take k (slots l)) = k.
Proof.
  intros Hpos Htot Hp. rewrite length_take. pose proof (length_slots l Hpos) as Hl.
  rewrite Hp in Hl at 2. lia.
Qed.

(** The greedy batch: with room for every host in total, the hosts get
    the slots of the available nodes, the most loaded node first (then the
    one with the most room, then by name), a node filled before the next is
    used, one slot per host and never an error; without room the batch is
    refused. *)
Theorem greedy_batch_spec nodes hosts :
  let sorted := sort_by Greedy.leb (available_nodes nodes) in
  StronglySorted (λ n m, Greedy.leb n m = true) sorted
  ∧ Greedy.batch_node_select nodes hosts =
    (if bool_decide (hosts = []) then Ok []
     else if (sumZ (node_remaining <$> nodes) <? Z.of_nat (length hosts))%Z then Err insufficient
     else Ok (Some <$> take (length hosts) (slots ((λ n, (n, node_remaining n)) <$> sorted)))).
Proof.
  split.
  { apply sort_by_sorted; unfold Greedy.leb; eauto with linux_net. }
  unfold Greedy.batch_node_select.
  destruct hosts as [|h hosts]; [done|]. rewrite bool_decide_false by done.
  rewrite (proj2 (Z.eqb_neq _ _)) by (simpl; lia).
  unfold node_remaining at 1. case_match; [done|].
  rewrite greedy_assign, Nat2Z.id; [done|lia|].
  apply Forall_forall. intros n. rewrite sort_by_elem_of, available_elem. naive_solver.
Qed.

Lemma greedy_batch_ok nodes hosts l :
  NoDup (ni_hostname <$> nodes) →
  Greedy.batch_node_select nodes hosts = Ok l → batch_ok nodes hosts l.
Proof.
  intros Hnd. destruct (greedy_batch_spec nodes hosts) as [_ ->].
  case_bool_decide as Hh; subst.
  { intros [= <-]. apply (batch_ok_within nodes [] [] 0); auto with linux_net. }
  case_match; [done|]. intros [= <-]; to_prop.
  rewrite <-(app_nil_r (Some <$> _)). apply (batch_ok_within _ _ _ 0); [done|..].
  - rewrite <-(sorted_entries Greedy.leb). apply slots_within.
  - rewrite (length_take_slots _ _ (entries nodes)); [lia|..].
    + rewrite sorted_entries. apply entries_positive.
    + etrans; [exact H|]. apply total_entries.
    + apply sorted_entries.
Qed.
End greedy.

(** ** Filling a result array from the left *)

(** [done] assigned, [k] hosts to go. *)
Definition partial (done : list NodeInfo) (k : nat) : list (option NodeInfo) :=
  (Some <$> done) ++ replicate k None.

Section partial.
Implicit Types (n : NodeInfo) (done : list NodeInfo).

Lemma length_partial done k : length (partial done k) = length done + k.
Proof. unfold partial. by rewrite length_app, length_fmap, length_replicate. Qed.

Lemma set_partial done k n :
  set_item (length done) (Some n) (partial done (S k)) = Ok (partial (done ++ [n]) k).
Proof.
  unfold set_item. rewrite decide_True by (rewrite length_partial; lia).
  unfold partial. rewrite fmap_app, <-(app_assoc (Some <$> done)).
  rewrite insert_app_r_alt by (rewrite length_fmap; lia).
  by rewrite length_fmap, Nat.sub_diag.
Qed.

Lemma partial_nil k : partial [] k = replicate k None.
Proof. done. Qed.
End partial.

(** ** Least load *)
Section least_load.
Implicit Types (n m s : NodeInfo) (nodes : list NodeInfo).

(** The documented priorities: least count, then most room, then name. *)
Definition load_key n : key3 := (ni_count n, - node_remaining n, ni_hostname n)%Z.

Lemma string_leb_antisym a b : String.leb a b = true → String.leb b a = true → a = b.
Proof. apply String.leb_antisym. Qed.

Lemma string_ltb_leb a b : String.ltb a b = negb (String.leb b a).
Proof.
  unfold String.ltb, String.leb. rewrite (String.compare_antisym a b).
  destruct (String.compare b a); reflexivity.
Qed.

Lemma better_is n s : LeastLoad.better n s = n ∨ LeastLoad.better n s = s.
Proof. unfold LeastLoad.better. repeat case_match; auto. Qed.

Lemma better_eq n s :
  LeastLoad.better n s = if key3_leb (load_key s) (load_key n) then s else n.
Proof.
  unfold LeastLoad.better, load_key, node_remaining, key3_leb.
  rewrite string_ltb_leb, Z.gtb_ltb.
  destruct (String.leb (ni_hostname s) (ni_hostname n)); simpl;
    repeat (case_match; to_prop; try lia); done.
Qed.

Lemma better_leb n s :
  key3_leb (load_key (LeastLoad.better n s)) (load_key n) = true
  ∧ key3_leb (load_key (LeastLoad.better n s)) (load_key s) = true.
Proof.
  rewrite better_eq. destruct (key3_leb_total (load_key n) (load_key n)) as [Hn|Hn];
    destruct (key3_leb_total (load_key s) (load_key s)) as [Hs|Hs];
    destruct (key3_leb_total (load_key n) (load_key s)) as [Hns|Hns];
    destruct (key3_leb (load_key s) (load_key n)) eqn:E; rewrite ?E; auto; congruence.
Qed.

Lemma select_fold l s :
  ∃ r, foldl LeastLoad.select_step (Some s) l = Some r ∧ r ∈ s :: l
    ∧ ∀ m, m ∈ s :: l → key3_leb (load_key r) (load_key m) = true.
Proof.
  revert s. induction l as [|n l IH]; intros s; simpl.
  - exists s. split_and!; [done|set_solver|]. intros m ->%list_elem_of_singleton.
    by destruct (key3_leb_total (load_key s) (load_key s)).
  - destruct (IH (LeastLoad.better n s)) as (r & -> & Hin & Hmin).
    exists r. split_and!; [done| |].
    + destruct (better_is n s) as [E|E]; rewrite E in Hin; set_solver.
    + destruct (better_leb n s) as [H1 H2].
      assert (key3_leb (load_key r) (load_key (LeastLoad.better n s)) = true) by set_solver.
      intros m [->|[->|?]%elem_of_cons]%elem_of_cons; [| |set_solver].
      * exact (key3_leb_trans _ _ _ H H2).
      * exact (key3_leb_trans _ _ _ H H1).
Qed.

(** [least_load] chooses the best available node by the documented
    priorities (fewest bound hosts, then most remaining capacity, then the
    smallest host name), and refuses exactly when no node has capacity. *)
Theorem least_load_select_spec nodes host :
  match LeastLoad.node_select nodes host with
  | Ok r => ∃ n, r = Some n ∧ n ∈ nodes ∧ has_capacity n = true
      ∧ ∀ m, m ∈ nodes → has_capacity m = true →
          key3_leb (load_key n) (load_key m) = true
  | Err e => e = insufficient ∧ ∀ m, m ∈ nodes → has_capacity m = false
  end.
Proof.
  unfold LeastLoad.node_select. destruct (available_nodes nodes) as [|s l] eqn:E.
  - split; [done|]. intros m Hm. apply not_true_is_false. intros Hc.
    assert (m ∈ available_nodes nodes) by (by apply available_elem). rewrite E in *. set_solver.
  - simpl. destruct (select_fold l s) as (r & -> & Hin & Hmin).
    rewrite <-E in *. apply available_elem in Hin as [??].
    exists r. split_and!; [done..|]. intros m ??. by apply Hmin, available_elem.
Qed.
End least_load.

Section least_load_batch.
Implicit Types (n : NodeInfo) (nodes : list NodeInfo) (l : list (NodeInfo * Z)).
Implicit Types (groups : list (Z * list (NodeInfo * Z))).

Definition flat groups : list (NodeInfo * Z) := groups ≫= snd.
#[global] Arguments flat : simpl never.

Lemma flat_cons g groups : flat (g :: groups) = g.2 ++ flat groups.
Proof. done. Qed.

Lemma flat_append c e groups : flat (LeastLoad.group_append c e groups) ≡ₚ flat groups ++ [e].
Proof.
  induction groups as [|[c' l] groups IH]; [done|]. simpl. case_decide; rewrite !flat_cons; simpl.
  - by rewrite <-!app_assoc, (Permutation_app_comm [e]).
  - by rewrite IH, app_assoc.
Qed.

(** Every group holds the nodes of its count, and no group is empty. *)
Definition grouped groups : Prop :=
  Forall (λ g, g.2 ≠ [] ∧ Forall (λ e, ni_count e.1 = g.1 ∧ e.2 = node_remaining e.1
    ∧ has_capacity e.1 = true) g.2) groups.

Lemma grouped_append n groups : has_capacity n = true → grouped groups →
  grouped (LeastLoad.group_append (ni_count n) (n, node_remaining n) groups).
Proof.
  intros Hn. induction 1 as [|[c l] groups [Hne Hl] Hg IH]; simpl.
  { by repeat constructor. }
  case_decide; subst; constructor; simpl; auto.
  split; [by destruct l|]. apply Forall_app. split; [done|]. by repeat constructor.
Qed.

Lemma load_groups_spec nodes :
  flat (LeastLoad.load_groups nodes) ≡ₚ entries nodes ∧ grouped (LeastLoad.load_groups nodes).
Proof.
  unfold LeastLoad.load_groups. induction nodes as [|n nodes [IHp IHg]] using rev_ind.
  { split; [done|constructor]. }
  rewrite foldl_app; simpl. unfold LeastLoad.group_step at 1 3.
  unfold entries, available_nodes. rewrite filter_app, fmap_app.
  change (ni_count n <? ni_capacity n)%Z with (has_capacity n).
  destruct (has_capacity n) eqn:E.
  - rewrite filter_cons_True by done. split; [|by apply grouped_append].
    by rewrite flat_append, IHp.
  - rewrite filter_cons_False by congruence. simpl. by rewrite app_nil_r.
Qed.

Lemma grouped_positive groups : grouped groups → positive (flat groups).
Proof.
  induction 1 as [|g groups [_ Hg] _ IH]; [constructor|]. rewrite flat_cons.
  apply Forall_app. split; [|done]. eapply Forall_impl; [exact Hg|]. simpl.
  intros e (_ & -> & ?). by apply has_capacity_remaining.
Qed.

Lemma flat_perm groups1 groups2 : groups1 ≡ₚ groups2 → flat groups1 ≡ₚ flat groups2.
Proof. intros Hp. unfold flat. by rewrite Hp. Qed.

(** The levels the batch walks through. *)
Definition levels nodes : list (Z * list (NodeInfo * Z)) :=
  sort_by LeastLoad.key_leb
    ((λ g, (g.1, sort_by LeastLoad.level_leb g.2)) <$> LeastLoad.load_groups nodes).

Lemma levels_flat nodes : flat (levels nodes) ≡ₚ entries nodes.
Proof.
  unfold levels. rewrite (flat_perm _ _ (sort_by_perm _ _)).
  destruct (load_groups_spec nodes) as [<- _].
  generalize (LeastLoad.load_groups nodes). intros groups.
  induction groups as [|g groups IH]; [done|].
  rewrite fmap_cons, !flat_cons, IH; simpl. by rewrite sort_by_perm.
Qed.

(** ** Filling *)
Lemma assign_hosts_spec a n done k : a ≤ k →
  LeastLoad.assign_hosts a n (partial done k) (length done) =
    Ok (partial (done ++ replicate a n) (k - a), length done + a).
Proof.
  revert done k. induction a as [|a IH]; intros done k Hle; simpl.
  { by rewrite app_nil_r, Nat.sub_0_r, Nat.add_0_r. }
  destruct k as [|k]; [lia|]. rewrite set_partial; simpl.
  replace (S (length done)) with (length (done ++ [n])) by (rewrite length_app; simpl; lia).
  rewrite IH by lia. rewrite length_app; simpl. rewrite <-(app_assoc done). simpl.
  do 2 f_equal. lia.
Qed.

Lemma fill_level_spec l r done k : (0 ≤ r ≤ Z.of_nat k)%Z → positive l →
  let new := take (Z.to_nat r) (slots l) in
  LeastLoad.fill_level l r (partial done k) (length done) =
    Ok (partial (done ++ new) (k - length new), length done + length new).
Proof.
  intros Hr Hl. revert r done k Hr.
  induction Hl as [|[n z] l Hz Hl IH]; intros r done k Hr new; subst new; simpl in *.
  { unfold flat; simpl. rewrite take_slots_nil. by rewrite app_nil_r, Nat.sub_0_r, Nat.add_0_r. }
  destruct (0 <? r)%Z eqn:E; to_prop; last first.
  { replace r with 0%Z by lia. by rewrite app_nil_r, Nat.sub_0_r, Nat.add_0_r. }
  rewrite assign_hosts_spec by lia. simpl.
  replace (length done + _) with (length (done ++ replicate (Z.to_nat (Z.min z r)) n))
    by (by rewrite length_app, length_replicate).
  rewrite IH by lia. rewrite slots_cons; simpl.
  rewrite take_app, length_replicate, take_replicate, <-(app_assoc done), !length_app,
    !length_replicate.
  replace (Z.to_nat r `min` Z.to_nat z) with (Z.to_nat (Z.min z r)) by lia.
  replace (Z.to_nat r - Z.to_nat z) with (Z.to_nat (r - Z.min z r)) by lia.
  do 2 f_equal; [f_equal|]; lia.
Qed.

Lemma fill_levels_spec groups done k : positive (flat groups) →
  let new := take k (slots (flat groups)) in
  LeastLoad.fill_levels groups (length done + k) (partial done k) (length done) =
    Ok (partial (done ++ new) (k - length new), length done + length new).
Proof.
  revert done k. induction groups as [|[c l] groups IH]; intros done k Hpos new; subst new; simpl.
  { unfold flat; simpl. rewrite take_slots_nil. by rewrite app_nil_r, Nat.sub_0_r, Nat.add_0_r. }
  rewrite flat_cons in Hpos; simpl in Hpos. apply Forall_app in Hpos as [Hl Hg].
  destruct (length done + k <=? length done) eqn:E.
  { apply Nat.leb_le in E. replace k with 0 by lia. by rewrite app_nil_r, !Nat.add_0_r. }
  apply Nat.leb_gt in E. fold (total l).
  pose proof (length_slots l Hl) as Htot.
  rewrite fill_level_spec by (done || lia). simpl.
  replace (Z.to_nat (Z.min _ _)) with (min (length (slots l)) k) by lia.
  set (new := take (length (slots l) `min` k) (slots l)).
  assert (length new = min (length (slots l)) k) as Hnew by (subst new; rewrite length_take; lia).
  replace (length done + k) with (length (done ++ new) + (k - length new))
    by (rewrite length_app; lia).
  replace (length done + length new) with (length (done ++ new)) by (by rewrite length_app).
  rewrite IH by done. rewrite flat_cons; simpl.
  assert (slots (l ++ flat groups) = slots l ++ slots (flat groups)) as -> by apply bind_app.
  assert (take k (slots l ++ slots (flat groups))
    = new ++ take (k - length new) (slots (flat groups))) as ->.
  { rewrite take_app, Hnew. subst new. f_equal; [|f_equal; lia].
    destruct (decide (k ≤ length (slots l))); [f_equal; lia|].
    rewrite !take_ge by lia. done. }
  rewrite <-(app_assoc done), !length_app. do 2 f_equal; [f_equal|]; lia.
Qed.

(** ** The order of the levels *)
Definition entry_leb (e f : NodeInfo * Z) : bool := key3_leb (load_key e.1) (load_key f.1).

Lemma group_append_keys c e groups x :
  x ∈ (LeastLoad.group_append c e groups).*1 ↔ x = c ∨ x ∈ groups.*1.
Proof.
  induction groups as [|[c' l] groups IH]; simpl; [set_solver|].
  case_decide; subst; simpl; set_solver.
Qed.

Lemma group_append_NoDup c e groups :
  NoDup groups.*1 → NoDup (LeastLoad.group_append c e groups).*1.
Proof.
  induction groups as [|[c' l] groups IH]; simpl; [intros _; apply NoDup_singleton|].
  intros [Hni ?]%NoDup_cons. case_decide; subst; simpl; constructor; auto.
  rewrite group_append_keys. naive_solver.
Qed.

Lemma load_groups_NoDup nodes : NoDup (LeastLoad.load_groups nodes).*1.
Proof.
  unfold LeastLoad.load_groups. induction nodes as [|n nodes IH] using rev_ind.
  { constructor. }
  rewrite foldl_app; simpl. unfold LeastLoad.group_step at 1.
  case_match; [by apply group_append_NoDup|done].
Qed.

Lemma levels_grouped nodes :
  grouped (levels nodes) ∧ NoDup (levels nodes).*1
  ∧ StronglySorted (λ g h, LeastLoad.key_leb g h = true) (levels nodes)
  ∧ Forall (λ g, StronglySorted (λ x y, LeastLoad.level_leb x y = true) g.2) (levels nodes).
Proof.
  unfold levels. destruct (load_groups_spec nodes) as [_ Hg].
  pose proof (load_groups_NoDup nodes) as Hnd.
  set (gs := LeastLoad.load_groups nodes) in *.
  set (f := λ g : Z * list (NodeInfo * Z), (g.1, sort_by LeastLoad.level_leb g.2)).
  split_and!.
  - unfold grouped. rewrite sort_by_perm. apply Forall_fmap. eapply Forall_impl; [exact Hg|].
    intros [c l] [Hne Hl]; simpl in *. split.
    + intros Hnil. apply Hne. apply Permutation_nil. by rewrite <-(sort_by_perm LeastLoad.level_leb l), Hnil.
    + by rewrite sort_by_perm.
  - rewrite sort_by_perm. by rewrite <-list_fmap_compose.
  - apply sort_by_sorted; unfold LeastLoad.key_leb; intros *; rewrite !Z.leb_le; lia.
  - rewrite sort_by_perm. apply Forall_fmap, Forall_forall. intros [c l] _; simpl.
    apply sort_by_sorted; unfold LeastLoad.level_leb; intros *;
      [apply key3_leb_total|apply key3_leb_trans].
Qed.

Lemma level_entry_leb x y :
  ni_count x.1 = ni_count y.1 → x.2 = node_remaining x.1 → y.2 = node_remaining y.1 →
  LeastLoad.level_leb x y = true → entry_leb x y = true.
Proof.
  unfold LeastLoad.level_leb, entry_leb, load_key. intros -> -> ->.
  unfold key3_leb. by rewrite !Z.ltb_irrefl.
Qed.

Lemma flat_sorted groups :
  grouped groups → NoDup groups.*1 → StronglySorted (λ g h, LeastLoad.key_leb g h = true) groups →
  Forall (λ g, StronglySorted (λ x y, LeastLoad.level_leb x y = true) g.2) groups →
  StronglySorted (λ e f, entry_leb e f = true) (flat groups).
Proof.
  intros Hg Hnd Hs Hl. revert Hg Hnd Hl.
  induction Hs as [|g groups Hs IH Hle]; [constructor|].
  intros [[_ Hg1] Hg]%Forall_cons [Hni Hnd]%NoDup_cons [Hl1 Hl]%Forall_cons.
  rewrite flat_cons. rewrite Forall_forall in Hg1. apply StronglySorted_app. split_and!.
  - intros e f He Hf. apply Hg1 in He as (He & _).
    unfold flat in Hf. apply list_elem_of_bind in Hf as (h & Hf & Hh).
    unfold grouped in Hg. rewrite Forall_forall in Hg, Hle.
    destruct (Hg h Hh) as [_ Hgh]. rewrite Forall_forall in Hgh. apply Hgh in Hf as (Hf & _).
    specialize (Hle h Hh). apply Z.leb_le in Hle.
    assert (g.1 ≠ h.1) by (intros E; apply Hni; rewrite E; by apply list_elem_of_fmap_2).
    unfold entry_leb, load_key, key3_leb. rewrite (proj2 (Z.ltb_lt _ _)); [done|lia].
  - revert Hg1 Hl1. generalize (g.2). clear. intros l Hg1.
    induction 1 as [|x l Hx IH Hall]; constructor.
    + apply IH. set_solver.
    + rewrite Forall_forall in *. intros y Hy.
      destruct (Hg1 x) as (?&?&?); [set_solver|]. destruct (Hg1 y) as (?&?&?); [set_solver|].
      apply level_entry_leb; auto; congruence.
  - by apply IH.
Qed.

Lemma entry_leb_antisym nodes e f :
  NoDup (ni_hostname <$> nodes) → e ∈ entries nodes → f ∈ entries nodes →
  entry_leb e f = true → entry_leb f e = true → e = f.
Proof.
  unfold entries. intros Hnd (n & -> & [Hn _]%available_elem)%list_elem_of_fmap
    (m & -> & [Hm _]%available_elem)%list_elem_of_fmap.
  unfold entry_leb, load_key, key3_leb; simpl. intros H1 H2.
  assert (ni_hostname n = ni_hostname m) as E.
  { apply string_leb_antisym; repeat (case_match; to_prop; try lia); done. }
  by rewrite (NoDup_fmap_inj ni_hostname nodes n m).
Qed.

Lemma levels_sorted nodes : NoDup (ni_hostname <$> nodes) →
  flat (levels nodes) = sort_by entry_leb (entries nodes).
Proof.
  intros Hnd. destruct (levels_grouped nodes) as (Hg & Hk & Hs & Hl).
  apply (StronglySorted_unique_strong (λ e f, entry_leb e f = true)).
  - intros e f. rewrite levels_flat, sort_by_elem_of. by apply entry_leb_antisym.
  - by apply flat_sorted.
  - apply sort_by_sorted; unfold entry_leb; intros *; [apply key3_leb_total|apply key3_leb_trans].
  - by rewrite levels_flat, sort_by_perm.
Qed.

(** The level-by-level fill of [least_load] is the reference algorithm:
    sort the available nodes by (count, most room, name), line up their free
    slots and give the hosts the first ones.  So with room in total every
    host gets a node, no index runs out of range, and without room the
    batch is refused. *)
Theorem least_load_batch_spec nodes hosts :
  NoDup (ni_hostname <$> nodes) →
  LeastLoad.batch_node_select nodes hosts =
    if bool_decide (hosts = []) then Ok []
    else if (sumZ (node_remaining <$> nodes) <? Z.of_nat (length hosts))%Z then Err insufficient
    else Ok (Some <$> take (length hosts) (slots (sort_by entry_leb (entries nodes)))).
Proof.
  intros Hnd. rewrite <-levels_sorted by done.
  unfold LeastLoad.batch_node_select. destruct hosts as [|h hosts]; [done|].
  rewrite bool_decide_false by done. unfold node_remaining at 1.
  destruct (_ <? _)%Z eqn:E; [done|]. to_prop.
  fold (levels nodes). rewrite <-(partial_nil (length (h :: hosts))).
  pose proof (grouped_positive _ (proj1 (levels_grouped nodes))) as Hpos.
  pose proof (fill_levels_spec (levels nodes) [] (length (h :: hosts)) Hpos) as Hf.
  cbn zeta in Hf. rewrite app_nil_l in Hf.
  change (length [] + length (h :: hosts)) with (length (h :: hosts)) in Hf.
  change (length []) with 0 in Hf. rewrite Hf. cbn -[take slots length].
  rewrite (length_take_slots _ _ (entries nodes)); [|done|..|apply levels_flat].
  - unfold partial. rewrite Nat.sub_diag. simpl replicate. by rewrite app_nil_r.
  - etrans; [exact E|]. apply total_entries.
Qed.

Lemma least_load_batch_ok nodes hosts r :
  NoDup (ni_hostname <$> nodes) →
  LeastLoad.batch_node_select nodes hosts = Ok r → batch_ok nodes hosts r.
Proof.
  intros Hnd. unfold LeastLoad.batch_node_select.
  destruct hosts as [|h hosts].
  { intros [= <-]. apply (batch_ok_within nodes [] [] 0); auto with linux_net. }
  destruct (_ <? _)%Z eqn:E; [done|]. to_prop.
  fold (levels nodes). rewrite <-(partial_nil (length (h :: hosts))).
  pose proof (grouped_positive _ (proj1 (levels_grouped nodes))) as Hpos.
  pose proof (fill_levels_spec (levels nodes) [] (length (h :: hosts)) Hpos) as Hf.
  cbn zeta in Hf. rewrite app_nil_l in Hf.
  change (length [] + length (h :: hosts)) with (length (h :: hosts)) in Hf.
  change (length []) with 0 in Hf. rewrite Hf. cbn -[take slots length].
  intros [= <-]. unfold partial. apply batch_ok_within; [done|..].
  - rewrite <-levels_flat. apply slots_within.
  - rewrite length_take. change (length (h :: hosts)) with (S (length hosts)). lia.
Qed.
End least_load_batch.

(** ** Least load, random *)
Section least_load_random.
Context {W : Type} `{Random W}.
Implicit Types (n : NodeInfo) (nodes : list NodeInfo) (l best : list (NodeInfo * Z)).

Definition nonneg l : Prop := Forall (λ e, (0 ≤ e.2)%Z) l.

#[export] Instance nonneg_proper : Proper ((≡ₚ) ==> iff) nonneg.
Proof. intros l k Hp. unfold nonneg. by rewrite Hp. Qed.

Lemma total_nonneg l : nonneg l → (0 ≤ total l)%Z.
Proof. intros Hl. apply sumZ_nonneg, Forall_fmap. done. Qed.

(** The random loop of one level ends, raises nothing, assigns exactly the
    hosts asked for and never a node more often than it has room. *)
Lemma distribute_spec fuel best rem done k w :
  rem + length best ≤ fuel → nonneg best → (Z.of_nat rem ≤ total best)%Z → rem ≤ k →
  ∃ new w', LeastLoadRandom.distribute fuel best rem (partial done k) (length done) w
      = (Ok (partial (done ++ new) (k - rem), length done + rem), w')
    ∧ length new = rem ∧ within new best.
Proof.
  revert best rem done k w.
  induction fuel as [|fuel IH]; intros best rem done k w Hfuel Hpos Htot Hk;
    (destruct rem as [|rem];
     [exists [], w; rewrite app_nil_r, Nat.sub_0_r, Nat.add_0_r; simpl; by auto using within_nil|]);
    [lia|simpl].
  destruct best as [|e0 best0] eqn:Eb; [unfold total in Htot; simpl in Htot; lia|].
  rewrite <-Eb in *. clear e0 best0 Eb.
  assert (0 < length best) as Hlen.
  { destruct best; simpl; [unfold total in Htot; simpl in Htot; lia|lia]. }
  replace (match best with [] => _ | _ :: _ => _ end) with
    (let '(node_idx, w) := randrange (length best) w in
     match best !! node_idx with
     | None => (Err (IndexError "list index out of range"), w)
     | Some (node, remaining) =>
         if (remaining =? 0)%Z then
           LeastLoadRandom.distribute fuel (delete node_idx best) (S rem) (partial done k)
             (length done) w
         else
           match set_item (length done) (Some node) (partial done k) with
           | Err e => (Err e, w)
           | Ok result =>
               LeastLoadRandom.distribute fuel (<[node_idx := (node, remaining - 1)%Z]> best) rem
                 result (S (length done)) w
           end
     end) by (by destruct best).
  pose proof (randrange_lt (length best) w Hlen) as Hlt.
  destruct (randrange (length best) w) as [i w1]; simpl in Hlt.
  destruct (lookup_lt_is_Some_2 best i Hlt) as [[n z] Hi]. rewrite Hi.
  pose proof (delete_Permutation _ _ _ Hi) as Hp.
  pose proof Hpos as Hpos'. rewrite Hp in Hpos'. apply Forall_cons in Hpos' as [Hz Hd].
  pose proof Htot as Htot'. rewrite Hp, total_cons in Htot'. simpl in Hz, Htot'.
  destruct (z =? 0)%Z eqn:Ez; to_prop.
  - destruct (IH (delete i best) (S rem) done k w1) as (new & w' & -> & Hnew & Hw);
      [rewrite length_delete by eauto; lia|done|lia|done|].
    exists new, w'. split_and!; [done|done|].
    eapply within_submseteq; [exact Hw|]. rewrite Hp at 2. by apply submseteq_cons.
  - destruct k as [|k]; [lia|]. rewrite set_partial.
    replace (S (length done)) with (length (done ++ [n])) by (rewrite length_app; simpl; lia).
    pose proof (insert_delete_Permutation _ _ _ (n, z - 1)%Z Hi) as Hp'.
    destruct (IH (<[i := (n, z - 1)%Z]> best) rem (done ++ [n]) k w1)
      as (new & w' & -> & Hnew & Hw).
    + rewrite length_insert. lia.
    + rewrite Hp'. constructor; simpl; [lia|done].
    + rewrite Hp', total_cons. simpl. lia.
    + lia.
    + exists (n :: new), w'. rewrite length_app, <-(app_assoc done); simpl.
      split_and!; [do 3 f_equal; lia|lia|]. intros m. specialize (Hw m). revert Hw.
      pose proof (room_proper m _ _ Hp) as Hm. rewrite room_cons in Hm. simpl in Hm.
      rewrite Hp', room_cons, times_cons; simpl. case_decide; lia.
Qed.

Lemma foldl_select (f : Z → Z → Z) (zs : list Z) z :
  (∀ x y, f x y = x ∨ f x y = y) → foldl f z zs ∈ z :: zs.
Proof.
  intros Hf. revert z. induction zs as [|y zs IH]; intros z; simpl; [set_solver|].
  specialize (IH (f z y)). destruct (Hf z y) as [E|E]; rewrite E in *; set_solver.
Qed.

Lemma phase2_nonempty nodes :
  available_nodes nodes ≠ [] → LeastLoadRandom.phase2_candidates nodes ≠ [].
Proof.
  unfold LeastLoadRandom.phase2_candidates. intros Ha.
  set (m := LeastLoadRandom.min_list _).
  assert (filter (λ n, ni_count n = m) (available_nodes nodes) ≠ []) as Hp.
  { assert (m ∈ ni_count <$> available_nodes nodes) as (n & Hn & Hin)%list_elem_of_fmap.
    { subst m. destruct (available_nodes nodes); [done|]. apply foldl_select; lia. }
    apply elem_of_ne_nil with n. by apply list_elem_of_filter. }
  set (p := filter _ _) in *. clearbody p.
  assert (LeastLoadRandom.max_list (node_remaining <$> p) ∈ node_remaining <$> p)
    as (n & Hn & Hin)%list_elem_of_fmap.
  { destruct p; [done|]. apply foldl_select; lia. }
  apply elem_of_ne_nil with n. by apply list_elem_of_filter.
Qed.

Lemma best_of_submseteq l : LeastLoadRandom.best_of l ⊆+ l.
Proof. apply sublist_submseteq, sublist_filter. Qed.

Lemma fill_levels_random groups done k w : grouped groups →
  ∃ new w', LeastLoadRandom.fill_levels groups (length done + k) (partial done k) (length done) w
      = (Ok (partial (done ++ new) (k - length new), length done + length new), w')
    ∧ length new ≤ k ∧ within new (flat groups).
Proof.
  intros Hg. revert done k w. induction Hg as [|[c l] groups [_ Hl] _ IH]; intros done k w; simpl.
  { exists [], w. simpl. rewrite app_nil_r, Nat.sub_0_r, Nat.add_0_r.
    split_and!; [done|lia|apply within_nil]. }
  destruct (length done + k <=? length done) eqn:E.
  { exists [], w. simpl. apply Nat.leb_le in E. replace k with 0 by lia.
    rewrite app_nil_r, Nat.add_0_r. split_and!; [done|lia|apply within_nil]. }
  apply Nat.leb_gt in E. fold (total (LeastLoadRandom.best_of l)).
  assert (nonneg (LeastLoadRandom.best_of l)) as Hpos.
  { unfold LeastLoadRandom.best_of. apply Forall_forall. intros e [_ He]%list_elem_of_filter.
    rewrite Forall_forall in Hl. apply Hl in He as (_ & -> & ?%has_capacity_remaining). lia. }
  pose proof (total_nonneg _ Hpos) as Htot.
  set (r := Z.to_nat (Z.min (total (LeastLoadRandom.best_of l)) _)).
  destruct (distribute_spec (r + length (LeastLoadRandom.best_of l)) (LeastLoadRandom.best_of l)
    r done k w) as (new & w1 & Hd & Hnew & Hw); [lia|done|lia|lia|].
  unfold mbind, M_bind. rewrite Hd.
  replace (length done + k) with (length (done ++ new) + (k - r))
    by (rewrite length_app; lia).
  replace (length done + r) with (length (done ++ new)) by (rewrite length_app; lia).
  destruct (IH (done ++ new) (k - r) w1) as (new' & w2 & -> & Hnew' & Hw').
  exists (new ++ new'), w2. rewrite !length_app, <-(app_assoc done). rewrite flat_cons.
  split_and!; [do 3 f_equal; [f_equal|]; lia|lia|]. apply within_app; [|done].
  eapply within_submseteq; [exact Hw|apply best_of_submseteq].
Qed.

Lemma least_load_random_batch nodes hosts w :
  match LeastLoadRandom.batch_node_select nodes hosts w with
  | (Ok l, _) => NoDup (ni_hostname <$> nodes) → batch_ok nodes hosts l
  | (Err e, _) => e = insufficient
      ∧ (sumZ (node_remaining <$> nodes) < Z.of_nat (length hosts))%Z
  end.
Proof.
  unfold LeastLoadRandom.batch_node_select.
  destruct hosts as [|h hosts].
  { intros Hnd. apply (batch_ok_within nodes [] [] 0); auto with linux_net. }
  fold (length (h :: hosts)). destruct (_ <? _)%Z eqn:E; to_prop; [done|].
  set (groups := sort_by _ _).
  assert (groups ≡ₚ LeastLoad.load_groups nodes) as Hp by apply sort_by_perm.
  destruct (load_groups_spec nodes) as [Hf Hg].
  assert (grouped groups) as Hgs by (unfold grouped; by rewrite Hp).
  destruct (fill_levels_random groups [] (length (h :: hosts)) w Hgs) as (new & w' & Hr & Hle & Hw).
  rewrite app_nil_l in Hr. unfold mbind, M_bind. rewrite <-(partial_nil (length (h :: hosts))).
  change (length [] + length (h :: hosts)) with (length (h :: hosts)) in Hr.
  change (length []) with 0 in Hr. rewrite Hr. cbn -[length].
  intros Hnd. apply batch_ok_within; [done| |lia].
  rewrite <-Hf, <-(flat_perm _ _ Hp). done.
Qed.

Lemma choice_ok {A} (l : list A) w : l ≠ [] →
  ∃ x w', LeastLoadRandom.choice l w = (Ok x, w') ∧ x ∈ l.
Proof.
  intros Hl. unfold LeastLoadRandom.choice.
  assert (0 < length l) as Hlen by (destruct l; simpl; [done|lia]).
  pose proof (randrange_lt (length l) w Hlen) as Hlt.
  destruct l as [|a l]; [done|].
  destruct (randrange _ w) as [i w1]; cbn [fst] in Hlt.
  destruct (lookup_lt_is_Some_2 _ _ Hlt) as [x Hx]. rewrite Hx.
  exists x, w1. split; [done|]. by eapply list_elem_of_lookup_2.
Qed.
End least_load_random.

(** ** Load weighted random *)
Section load_weighted_random.
Context {W : Type} `{Random W}.
Implicit Types (n : NodeInfo) (nodes : list NodeInfo).

Lemma pick_elem_of r acc l n : LoadWeightedRandom.pick r acc l = Some n → n ∈ l.*1.
Proof.
  revert acc. induction l as [|[m x] l IH]; intros acc; simpl; [done|].
  case_match; [intros [= ->]; set_solver|]. intros ?%IH. set_solver.
Qed.

Lemma zip_fst {B} (l : list NodeInfo) (k : list B) n : n ∈ (zip l k).*1 → n ∈ l.
Proof.
  intros ([m x] & -> & Hin)%list_elem_of_fmap. apply list_elem_of_lookup in Hin as [i Hi].
  apply lookup_zip_with_Some in Hi as (? & ? & ? & ? & ?); simplify_eq/=.
  by eapply list_elem_of_lookup_2.
Qed.

Lemma weighted_select nodes host w :
  match LoadWeightedRandom.node_select nodes host w with
  | (Ok r, _) => ∃ n, r = Some n ∧ n ∈ available_nodes nodes
  | (Err e, _) => e = insufficient ∧ available_nodes nodes = []
  end.
Proof.
  unfold LoadWeightedRandom.node_select.
  destruct (available_nodes nodes) as [|n0 l0] eqn:E; [done|]. rewrite <-E.
  assert (available_nodes nodes ≠ []) as Hne by (by rewrite E). clear E n0 l0.
  destruct (Float.leb _ _).
  { destruct (choice_ok (available_nodes nodes) w Hne) as (n & w' & Hc & Hin).
    unfold mbind, M_bind. rewrite Hc. simpl. eauto. }
  unfold mbind, M_bind, update. destruct (uniform _ _ w) as [r w1].
  destruct (LoadWeightedRandom.pick _ _ _) as [n|] eqn:Ep; simpl.
  { exists n. split; [done|]. apply pick_elem_of in Ep. by eapply zip_fst. }
  destruct (last (available_nodes nodes)) as [n|] eqn:El.
  - exists n. split; [done|]. by eapply list_elem_of_lookup_2; rewrite <-last_lookup.
  - by apply last_None in El.
Qed.

(** What the batch may still give to every node. *)
Definition within_rem (new : list NodeInfo) (rem : list (string * Z)) : Prop :=
  ∀ n, (Z.of_nat (times n new) ≤ Z.max 0 (LoadWeightedRandom.remaining_of rem n))%Z.

Lemma remaining_of_set n m z rem :
  LoadWeightedRandom.remaining_of (dict_set (ni_hostname m) z rem) n =
    if decide (ni_hostname n = ni_hostname m) then z else LoadWeightedRandom.remaining_of rem n.
Proof.
  unfold LoadWeightedRandom.remaining_of. case_decide as E.
  - by rewrite E, dict_get_set_eq.
  - by rewrite dict_get_set_ne.
Qed.

Lemma select_loop_spec nodes hosts rem result w :
  match LoadWeightedRandom.select_loop nodes hosts rem result w with
  | (Ok l, _) => ∃ new, l = result ++ (Some <$> new) ∧ length new = length hosts
      ∧ within_rem new rem ∧ ∀ n, n ∈ new → n ∈ nodes
  | (Err e, _) => ∃ msg, e = WorkerUnavailableError msg
  end.
Proof.
  revert rem result w. induction hosts as [|h hosts IH]; intros rem result w; simpl.
  { exists []. rewrite app_nil_r. split_and!; [done|done| |set_solver]. intros n.
    unfold times; simpl. lia. }
  destruct (filter _ nodes) as [|c0 cs] eqn:Ec; [simpl; eauto|].
  unfold mbind, M_bind, update. destruct (LoadWeightedRandom.noise _ w) as [[ws|e] w1] eqn:En.
  2:{ exfalso. revert En. generalize ((λ n, (LoadWeightedRandom.remaining_of rem n + 1) ^ 2)%Z <$> c0 :: cs).
      intros zs. revert w e w1. induction zs as [|z zs IHz]; intros w e w1; simpl; [done|].
      unfold mbind, M_bind, update. destruct (uniform _ _ w) as [u w2].
      destruct (LoadWeightedRandom.noise zs w2) as [[|] ?] eqn:E'; [done|].
      intros [= -> ->]. by eapply IHz. }
  destruct (uniform _ _ w1) as [r w2].
  destruct (LoadWeightedRandom.pick _ _ _) as [n|] eqn:Ep; [|simpl; eauto].
  apply pick_elem_of, zip_fst in Ep. rewrite <-Ec in Ep.
  apply list_elem_of_filter in Ep as [Hrem Hn].
  destruct (_ <=? 0)%Z eqn:Ez; to_prop; [simpl; eauto|].
  specialize (IH (dict_set (ni_hostname n) (LoadWeightedRandom.remaining_of rem n - 1)%Z rem)
    (result ++ [Some n]) w2).
  destruct (LoadWeightedRandom.select_loop _ _ _ _ _) as [[l|e] ?]; [|done].
  destruct IH as (new & -> & Hlen & Hw & Hin). exists (n :: new).
  rewrite <-app_assoc. split_and!; [done|simpl; lia| |set_solver].
  intros m. specialize (Hw m). rewrite times_cons. revert Hw.
  rewrite remaining_of_set. destruct (decide (n = m)) as [->|].
  - rewrite decide_True by done. lia.
  - case_decide as E; [|lia]. unfold LoadWeightedRandom.remaining_of in *. rewrite E. lia.
Qed.

Lemma remaining_map_get nodes n :
  NoDup (ni_hostname <$> nodes) → n ∈ nodes →
  LoadWeightedRandom.remaining_of (LoadWeightedRandom.remaining_map nodes) n = node_remaining n.
Proof.
  unfold LoadWeightedRandom.remaining_map. induction nodes as [|m nodes IH] using rev_ind;
    [set_solver|].
  rewrite fmap_app, foldl_app. simpl. intros (Hnd & Hni & _)%NoDup_app Hin.
  rewrite remaining_of_set. case_decide as E.
  - apply elem_of_app in Hin as [Hin|Hin]; [|by apply list_elem_of_singleton in Hin as ->].
    destruct (Hni (ni_hostname n)); [by apply list_elem_of_fmap_2|]. rewrite E. set_solver.
  - apply elem_of_app in Hin as [Hin|Hin]; [auto|].
    by apply list_elem_of_singleton in Hin as ->.
Qed.

Lemma weighted_batch nodes hosts w :
  match LoadWeightedRandom.batch_node_select nodes hosts w with
  | (Ok l, _) => NoDup (ni_hostname <$> nodes) → batch_ok nodes hosts l ∧ None ∉ l
  | (Err e, _) => ∃ msg, e = WorkerUnavailableError msg
  end.
Proof.
  unfold LoadWeightedRandom.batch_node_select. destruct (_ <? _)%Z; [simpl; eauto|].
  pose proof (select_loop_spec nodes hosts (LoadWeightedRandom.remaining_map nodes) [] w) as Hs.
  destruct (LoadWeightedRandom.select_loop _ _ _ _ _) as [[l|e] ?]; [|done].
  destruct Hs as (new & -> & Hlen & Hw & Hin). intros Hnd. simpl.
  assert (∀ n, n ∈ nodes → (Z.of_nat (times n new) ≤ Z.max 0 (node_remaining n))%Z) as Hc.
  { intros n Hn. rewrite <-(remaining_map_get nodes) by done. apply Hw. }
  assert (∀ n, used n (Some <$> new) = times n new) as Hu.
  { intros n. rewrite <-(app_nil_r (Some <$> new)). apply (used_somes n new 0). }
  split; [constructor|].
  - by rewrite length_fmap.
  - intros n (m & [= <-] & Hm)%list_elem_of_fmap. split; [auto|].
    apply has_capacity_remaining. apply times_pos in Hm as Hm'. specialize (Hc n (Hin n Hm)). lia.
  - intros n Hn. rewrite Hu. auto.
  - intros (m & ? & _)%list_elem_of_fmap. done.
Qed.
End load_weighted_random.

(** ** The bundled schedulers behind the interface *)
Section bundled.
Context {W : Type} `{Random W}.

Definition greedy_scheduler : Scheduler W :=
  {| node_select := λ nodes host, of_res (Greedy.node_select nodes host);
     batch_node_select := λ nodes hosts, of_res (Greedy.batch_node_select nodes hosts) |}.
Definition least_load_scheduler : Scheduler W :=
  {| node_select := λ nodes host, of_res (LeastLoad.node_select nodes host);
     batch_node_select := λ nodes hosts, of_res (LeastLoad.batch_node_select nodes hosts) |}.
Definition least_load_random_scheduler : Scheduler W :=
  {| node_select := LeastLoadRandom.node_select;
     batch_node_select := LeastLoadRandom.batch_node_select |}.
Definition load_weighted_random_scheduler : Scheduler W :=
  {| node_select := LoadWeightedRandom.node_select;
     batch_node_select := LoadWeightedRandom.batch_node_select |}.

(** The schedulers by their [scheduler_name]. *)
Definition bundled_schedulers : list (string * Scheduler W) :=
  [("greedy", greedy_scheduler); ("least_load", least_load_scheduler);
   ("least_load_random", least_load_random_scheduler);
   ("load_weighted_random", load_weighted_random_scheduler)].

Lemma available_ne nodes n :
  n ∈ nodes → has_capacity n = true → available_nodes nodes ≠ [].
Proof. intros ??. apply elem_of_ne_nil with n. by apply available_elem. Qed.

#[export] Instance greedy_laws : @SchedulerLaws W greedy_scheduler.
Proof.
  constructor.
  - intros nodes host w r w' [= Hr <-]. pose proof (greedy_select nodes host) as Hs.
    rewrite Hr in Hs. destruct Hs as (n & -> & Hn). exists n. split; [done|].
    apply available_elem. by apply head_Some_elem_of.
  - intros nodes host w n Hn Hc. simpl. pose proof (greedy_select nodes host) as Hs.
    destruct (Greedy.node_select nodes host); [done|].
    destruct Hs as [_ Hs]. by destruct (available_ne nodes n).
  - intros nodes host w e w' [= Hr <-]. pose proof (greedy_select nodes host) as Hs.
    rewrite Hr in Hs. by destruct Hs as [-> _].
  - intros nodes hosts w l w' Hnd [= Hr <-]. by apply greedy_batch_ok.
  - intros nodes hosts w e w' [= Hr <-].
    destruct (greedy_batch_spec nodes hosts) as [_ Hs]. rewrite Hr in Hs.
    by repeat case_match; simplify_eq.
Qed.

#[export] Instance least_load_laws : @SchedulerLaws W least_load_scheduler.
Proof.
  constructor.
  - intros nodes host w r w' [= Hr <-].
    unfold LeastLoad.node_select in Hr. destruct (available_nodes nodes) as [|s l] eqn:E; [done|].
    simplify_eq/=. destruct (select_fold l s) as (r & -> & Hin & _).
    exists r. split; [done|]. apply available_elem. by rewrite E.
  - intros nodes host w n Hn Hc. simpl. unfold LeastLoad.node_select.
    pose proof (available_ne nodes n Hn Hc). by destruct (available_nodes nodes).
  - intros nodes host w e w' [= Hr <-]. unfold LeastLoad.node_select in Hr.
    by destruct (available_nodes nodes); simplify_eq.
  - intros nodes hosts w l w' Hnd [= Hr <-]. by apply least_load_batch_ok.
  - intros nodes hosts w e w' [= Hr <-].
    unfold LeastLoad.batch_node_select in Hr. destruct hosts as [|h hosts]; [done|].
    destruct (_ <? _)%Z; [by simplify_eq|]. fold (levels nodes) in Hr.
    pose proof (grouped_positive _ (proj1 (levels_grouped nodes))) as Hpos.
    pose proof (fill_levels_spec (levels nodes) [] (length (h :: hosts)) Hpos) as Hf.
    unfold partial in Hf. cbn -[take slots length replicate] in Hf.
    change (length [] + length (h :: hosts)) with (length (h :: hosts)) in Hf.
    change (length []) with 0 in Hf. rewrite Hf in Hr. done.
Qed.

#[export] Instance least_load_random_laws : @SchedulerLaws W least_load_random_scheduler.
Proof.
  constructor.
  - intros nodes host w r w'. simpl. unfold LeastLoadRandom.node_select.
    destruct (available_nodes nodes) as [|n0 l0] eqn:E; [done|].
    destruct (choice_ok (LeastLoadRandom.phase2_candidates nodes) w) as (n & w1 & Hc & Hin).
    { apply phase2_nonempty. by rewrite E. }
    unfold mbind, M_bind. rewrite Hc. simpl. intros [= <- <-]. exists n. split; [done|].
    unfold LeastLoadRandom.phase2_candidates in Hin.
    apply available_elem. by rewrite !list_elem_of_filter in Hin; destruct Hin as (_ & _ & ?).
  - intros nodes host w n Hn Hc. simpl. unfold LeastLoadRandom.node_select.
    pose proof (available_ne nodes n Hn Hc) as Hne.
    destruct (available_nodes nodes) as [|n0 l0] eqn:E; [done|].
    destruct (choice_ok (LeastLoadRandom.phase2_candidates nodes) w) as (m & w1 & Hch & _).
    { apply phase2_nonempty. by rewrite E. }
    unfold mbind, M_bind. by rewrite Hch.
  - intros nodes host w e w'. simpl. unfold LeastLoadRandom.node_select.
    destruct (available_nodes nodes) as [|n0 l0] eqn:E; [by intros [= <- _]|].
    destruct (choice_ok (LeastLoadRandom.phase2_candidates nodes) w) as (m & w1 & Hch & _).
    { apply phase2_nonempty. by rewrite E. }
    unfold mbind, M_bind. by rewrite Hch.
  - intros nodes hosts w l w' Hnd Hr. simpl in Hr.
    pose proof (least_load_random_batch nodes hosts w) as Hs. rewrite Hr in Hs. auto.
  - intros nodes hosts w e w' Hr. simpl in Hr.
    pose proof (least_load_random_batch nodes hosts w) as Hs. rewrite Hr in Hs.
    by destruct Hs as [-> _].
Qed.

#[export] Instance load_weighted_random_laws : @SchedulerLaws W load_weighted_random_scheduler.
Proof.
  constructor; simpl.
  - intros nodes host w r w' Hr. pose proof (weighted_select nodes host w) as Hs.
    rewrite Hr in Hs. destruct Hs as (n & -> & Hn). exists n. split; [done|].
    by apply available_elem.
  - intros nodes host w n Hn Hc. pose proof (weighted_select nodes host w) as Hs.
    destruct (LoadWeightedRandom.node_select nodes host w) as [[|] ?]; [done|].
    destruct Hs as [_ Hs]. by destruct (available_ne nodes n).
  - intros nodes host w e w' Hr. pose proof (weighted_select nodes host w) as Hs.
    rewrite Hr in Hs. by destruct Hs as [-> _].
  - intros nodes hosts w l w' Hnd Hr. pose proof (weighted_batch nodes hosts w) as Hs.
    rewrite Hr in Hs. by apply Hs.
  - intros nodes hosts w e w' Hr. pose proof (weighted_batch nodes hosts w) as Hs.
    rewrite Hr in Hs. by destruct Hs as [? ->].
Qed.

(** C13. Every bundled scheduler keeps the contract the manager relies on,
    whatever the random source does: a single choice is a node of the list
    with capacity left and fails only when there is none; a batch that is
    returned has one entry per host, chooses only nodes with capacity, and
    gives no node more hosts than it has room for; and nothing but an
    ordinary exception is raised (no loop runs out of fuel). *)
Theorem bundled_schedulers_lawful name (s : Scheduler W) :
  (name, s) ∈ bundled_schedulers → @SchedulerLaws W s.
Proof.
  unfold bundled_schedulers. rewrite !elem_of_cons, elem_of_nil.
  intros Hs. destruct_or! Hs; try done; injection Hs as -> ->; apply _.
Qed.
End bundled.

(** ** What a scheduler leaves alone

    A scheduler touches nothing but the random source: it stays within any
    preorder that the random steps stay in. *)
Class Quiet (W : Type) `{Scheduler W} (R : relation W) : Prop := {
  node_select_quiet : ∀ nodes host w, R w (node_select nodes host w).2;
  batch_node_select_quiet : ∀ nodes hosts w, R w (batch_node_select nodes hosts w).2;
}.

Section quiet.
Context {W : Type} `{Random W} (R : relation W) `{!PreOrder R}.
Context (randrange_R : ∀ n w, R w (randrange n w).2) (uniform_R : ∀ a b w, R w (uniform a b w).2).

Lemma choice_R {A} (l : list A) w : R w (LeastLoadRandom.choice l w).2.
Proof.
  unfold LeastLoadRandom.choice. destruct l as [|x l]; [done|].
  pose proof (randrange_R (length (x :: l)) w). destruct (randrange _ w) as [i w'].
  by destruct (_ !! i).
Qed.

Lemma distribute_R fuel best rem res hi w :
  R w (LeastLoadRandom.distribute fuel best rem res hi w).2.
Proof.
  revert best rem res hi w. induction fuel as [|fuel IH]; intros best [|rem] res hi w; simpl; try done.
  destruct best as [|b best]; [done|].
  pose proof (randrange_R (length (b :: best)) w) as Hr. cbn [length] in Hr.
  destruct (randrange _ w) as [i w']; simpl in Hr. destruct (_ !! i) as [[n z]|]; [|done].
  destruct (z =? 0)%Z; [etrans; [exact Hr|apply IH]|].
  destruct (set_item _ _ _); [etrans; [exact Hr|apply IH]|done].
Qed.

Lemma fill_levels_R groups hc res hi w : R w (LeastLoadRandom.fill_levels groups hc res hi w).2.
Proof.
  revert res hi w. induction groups as [|[c l] groups IH]; intros res hi w; simpl; [done|].
  destruct (_ <=? _); [done|]. unfold mbind, M_bind.
  match goal with |- context [LeastLoadRandom.distribute ?f ?b ?r res hi w] =>
    pose proof (distribute_R f b r res hi w) as Hd;
    destruct (LeastLoadRandom.distribute f b r res hi w) as [[[res' hi']|e] w'] end; [|done].
  etrans; [exact Hd|apply IH].
Qed.

Lemma noise_R ws w : R w (LoadWeightedRandom.noise ws w).2.
Proof.
  revert w. induction ws as [|z ws IH]; intros w; simpl; [done|].
  unfold mbind, M_bind, update.
  pose proof (uniform_R (Float.div (Float.of_Z 95) (Float.of_Z 100))
    (Float.div (Float.of_Z 105) (Float.of_Z 100)) w) as Hu.
  destruct (uniform _ _ w) as [u w1]; simpl in Hu. specialize (IH w1).
  destruct (LoadWeightedRandom.noise ws w1) as [[|] w2]; simpl in *; by etrans.
Qed.

Lemma select_loop_R nodes hosts rem res w :
  R w (LoadWeightedRandom.select_loop nodes hosts rem res w).2.
Proof.
  revert rem res w. induction hosts as [|h hosts IH]; intros rem res w; simpl; [done|].
  destruct (filter _ nodes) as [|n0 cs]; [done|]. unfold mbind, M_bind, update.
  match goal with |- context [LoadWeightedRandom.noise ?ws w] =>
    pose proof (noise_R ws w) as Hn; destruct (LoadWeightedRandom.noise ws w) as [[zs|e] w1] end;
    [|done]. simpl in Hn.
  pose proof (uniform_R (S754_zero false) (Float.sum zs) w1) as Hu.
  destruct (uniform _ _ w1) as [r w2]; simpl in Hu.
  destruct (LoadWeightedRandom.pick _ _ _) as [n|]; [|by etrans].
  destruct (_ <=? 0)%Z; [by etrans|]. etrans; [exact Hn|]. etrans; [exact Hu|apply IH].
Qed.

Lemma bundled_quiet name (s : Scheduler W) : (name, s) ∈ bundled_schedulers → @Quiet W s R.
Proof.
  unfold bundled_schedulers. rewrite !elem_of_cons, elem_of_nil.
  intros Hs. destruct_or! Hs; try done; injection Hs as -> ->; constructor; simpl; try done.
  - intros nodes host w. unfold LeastLoadRandom.node_select.
    destruct (available_nodes nodes); [done|]. unfold mbind, M_bind.
    pose proof (choice_R (LeastLoadRandom.phase2_candidates nodes) w).
    by destruct (LeastLoadRandom.choice _ w) as [[] ?].
  - intros nodes hosts w. unfold LeastLoadRandom.batch_node_select.
    destruct hosts; [done|]. destruct (_ <? _)%Z; [done|]. unfold mbind, M_bind.
    match goal with |- context [LeastLoadRandom.fill_levels ?g ?c ?r ?i w] =>
      pose proof (fill_levels_R g c r i w);
      destruct (LeastLoadRandom.fill_levels g c r i w) as [[[]|] ?] end; done.
  - intros nodes host w. unfold LoadWeightedRandom.node_select.
    destruct (available_nodes nodes) as [|n0 l] eqn:E; [done|]. rewrite <-E.
    destruct (Float.leb _ _); unfold mbind, M_bind, update.
    + pose proof (choice_R (available_nodes nodes) w).
      by destruct (LeastLoadRandom.choice _ w) as [[] ?].
    + match goal with |- context [uniform ?a ?b w] =>
        pose proof (uniform_R a b w); destruct (uniform a b w) as [r w1] end.
      by destruct (LoadWeightedRandom.pick _ _ _).
  - intros nodes hosts w. unfold LoadWeightedRandom.batch_node_select.
    destruct (_ <? _)%Z; [done|apply select_loop_R].
Qed.
End quiet.

(** A random source that walks down a list of choices, for the examples. *)
#[export, refine] Instance list_random : Random (list nat) :=
  {| randrange n w := match w with
                      | [] => (0, [])
                      | i :: w => (i mod n, w)
                      end;
     uniform lo hi w := (hi, tail w);
     py_hash s := Z.of_nat (String.length s) |}.
Proof.
  intros n [|i w] Hn; simpl; [done|]. apply Nat.mod_upper_bound. lia.
Defined.

Section scheduler_examples.
Definition node_a : NodeInfo := mkNodeInfo "a" 1 2 "NodeQ_a".
Definition node_b : NodeInfo := mkNodeInfo "b" 0 3 "NodeQ_b".
Definition node_c : NodeInfo := mkNodeInfo "c" 0 1 "NodeQ_c".

Lemma least_load_batch_spec_witness :
  NoDup (ni_hostname <$> [node_a; node_b; node_c])
  ∧ LeastLoad.batch_node_select [node_a; node_b; node_c] ["h1"; "h2"; "h3"; "h4"; "h5"]
    = Ok [Some node_b; Some node_b; Some node_b; Some node_c; Some node_a].
Proof.
  assert (NoDup (ni_hostname <$> [node_a; node_b; node_c])) as Hnd.
  { apply (bool_decide_unpack _). vm_compute. exact I. }
  split; [exact Hnd|]. rewrite (least_load_batch_spec _ _ Hnd). vm_compute. reflexivity.
Defined.

Lemma bundled_schedulers_lawful_witness :
  @SchedulerLaws (list nat) least_load_random_scheduler.
Proof.
  apply (bundled_schedulers_lawful "least_load_random"). unfold bundled_schedulers.
  apply list_elem_of_further, list_elem_of_further, list_elem_of_here.
Defined.

(** [greedy] does not use the least number of nodes: one node would do for
    these two hosts, and two are used, since the order puts a loaded node
    first whatever room it has. *)
Lemma greedy_not_least_nodes :
  Greedy.batch_node_select [node_a; node_b] ["h1"; "h2"] = Ok [Some node_a; Some node_b]
  ∧ Greedy.batch_node_select [node_b] ["h1"; "h2"] = Ok [Some node_b; Some node_b].
Proof. split; vm_compute; reflexivity. Qed.

(** [least_load_random] leaves a host without a node though the capacity
    suffices: at each level only the nodes with the most room are used. *)
Lemma least_load_random_leaves_host (w : list nat) :
  (LeastLoadRandom.batch_node_select [node_c; node_b] ["h1"; "h2"; "h3"; "h4"] w).1
  = Ok [Some node_b; Some node_b; Some node_b; None].
Proof.
  unfold LeastLoadRandom.batch_node_select.
  destruct w as [|i [|j [|k w]]]; simpl; reflexivity.
Qed.
End scheduler_examples.
