(* ===== verification/World.v ===== *)
(** * The world the program runs in

    Redis, RQ, the clock and the process table are not code of this
    repository.  Each is an interface over a world [W]: the operations the
    program calls, as functions of the world, and the documented behaviour the
    theorems rely on, as laws.  A Redis command is atomic and the server is
    reachable; the calls whose failure the program handles are fallible.  Other
    processes act on the world only inside [sleep].  [Toy] at the end is one
    concrete world, in which the examples run. *)

From S2P Require Import Prelude PyLib Models.
From Stdlib Require Import Ascii.

(** ** Configuration: the settings of [utils/config.py] the code reads *)
Record Config := mkConfig {
  cfg_job_ttl : Z;
  cfg_job_timeout : Z;
  cfg_job_result_ttl : Z;
  cfg_worker_ttl : Z;
  cfg_pinned_per_node : Z;
  cfg_host_to_node_map : string;
  cfg_node_info_map : string;
  cfg_mongodb_enabled : bool;
  cfg_staging : string;
  cfg_retention_hours : Z;
  cfg_external_url : option string;
  cfg_server_host : string;
  cfg_server_port : Z;
}.

(** The defaults of the configuration classes. *)
Definition default_config : Config :=
  mkConfig 1800 300 300 300 32 "linux_net:host_to_node_map" "linux_net:node_info_map"
    false "/app/storage/staging" 24 None "0.0.0.0" 9000.

Lemma default_maps_differ :
  cfg_host_to_node_map default_config ≠ cfg_node_info_map default_config.
Proof. done. Qed.

(** ** JSON

    [json.dumps] and [json.loads] on dictionary values: the text is not
    modelled, only that parsing gives back what was written and that the text
    is never empty. *)
Class Json := {
  dumps : pyval → string;
  loads : string → res pyval;
  loads_dumps : ∀ v, loads (dumps v) = Ok v;
  dumps_nonempty : ∀ v, dumps v ≠ "";
  loads_error : ∀ s, ordinary (loads s);
}.
#[export] Hint Resolve loads_error : linux_net.

(** [NodeInfo.model_dump_json] and [NodeInfo.model_validate_json] *)
Section node_json.
Context `{Json}.

Definition NodeInfo_dump_json (n : NodeInfo) : string :=
  dumps (PDict [("hostname", PStr (ni_hostname n)); ("count", PInt (ni_count n));
                ("capacity", PInt (ni_capacity n)); ("queue", PStr (ni_queue n))]).

Definition NodeInfo_validate_json (s : string) : res NodeInfo :=
  match loads s with
  | Ok (PDict d) =>
      match dict_get "hostname" d, dict_get "count" d, dict_get "capacity" d,
            dict_get "queue" d with
      | Some (PStr h), Some (PInt c), Some (PInt k), Some (PStr q) => Ok (mkNodeInfo h c k q)
      | _, _, _, _ => Err (ValidationError "NodeInfo")
      end
  | _ => Err (ValidationError "NodeInfo")
  end.

Lemma node_json_roundtrip n : NodeInfo_validate_json (NodeInfo_dump_json n) = Ok n.
Proof.
  unfold NodeInfo_validate_json, NodeInfo_dump_json. rewrite loads_dumps; simpl.
  by destruct n.
Qed.

Lemma node_json_nonempty n : NodeInfo_dump_json n ≠ "".
Proof. apply dumps_nonempty. Qed.
End node_json.
#[export] Hint Rewrite @node_json_roundtrip @loads_dumps : linux_net.

(** ** Redis *)
Class Redis (W : Type) := {
  (** The hashes, as a view for the laws. *)
  hashes : W → string → gmap string string;
  hset : string → string → string → W → W;
  hdel : string → string → W → W;
  hsetnx : string → string → string → W → bool * W;
  hscan_iter : string → W → list (string * string);
  rget : string → W → option string;
  (** [SET key value NX EX ttl] *)
  set_nx_ex : string → string → Z → W → bool * W;
  hset_hashes : ∀ k f v w k',
    hashes (hset k f v w) k' = if decide (k' = k) then <[f := v]> (hashes w k) else hashes w k';
  hdel_hashes : ∀ k f w k',
    hashes (hdel k f w) k' = if decide (k' = k) then delete f (hashes w k) else hashes w k';
  hsetnx_result : ∀ k f v w,
    (hsetnx k f v w).1 = bool_decide (hashes w k !! f = None);
  hsetnx_hashes : ∀ k f v w k',
    hashes (hsetnx k f v w).2 k' =
      if decide (k' = k ∧ hashes w k !! f = None) then <[f := v]> (hashes w k) else hashes w k';
  (** A scan of an unchanging hash yields its entries, perhaps repeatedly. *)
  hscan_elem : ∀ k w f v, (f, v) ∈ hscan_iter k w ↔ hashes w k !! f = Some v;
  set_nx_hashes : ∀ k v t w k', hashes (set_nx_ex k v t w).2 k' = hashes w k';
}.

Section redis.
Context {W : Type} `{Redis W}.

(** [HGET], [HMGET] and [HDEL] with several fields *)
Definition hget (k f : string) (w : W) : option string := hashes w k !! f.
Definition hmget (k : string) (fs : list string) (w : W) : list (option string) :=
  (λ f, hget k f w) <$> fs.
Definition hdels (k : string) (fs : list string) (w : W) : W := foldl (λ w f, hdel k f w) w fs.

Lemma hdels_hashes k fs w k' :
  hashes (hdels k fs w) k' =
    if decide (k' = k) then filter (λ kv, kv.1 ∉ fs) (hashes w k) else hashes w k'.
Proof.
  unfold hdels. revert w. induction fs as [|f fs IH]; intros w; simpl.
  - case_decide as E; [|done]. rewrite E. symmetry. apply map_filter_id. set_solver.
  - rewrite IH, !hdel_hashes. case_decide as E; [|done]. rewrite decide_True by done.
    apply map_eq. intros f'. apply option_eq. intros v.
    rewrite !map_lookup_filter_Some, lookup_delete_Some. simpl. set_solver.
Qed.

Lemma hget_hset k f v w k' f' :
  hget k' f' (hset k f v w) = if decide (k' = k ∧ f' = f) then Some v else hget k' f' w.
Proof.
  unfold hget. rewrite hset_hashes. destruct (decide (k' = k)) as [->|?].
  - destruct (decide (f' = f)) as [->|?].
    + rewrite lookup_insert_eq. by rewrite decide_True.
    + rewrite lookup_insert_ne by done. rewrite decide_False by naive_solver. done.
  - rewrite decide_False by naive_solver. done.
Qed.

Lemma hget_hdel k f w k' f' :
  hget k' f' (hdel k f w) = if decide (k' = k ∧ f' = f) then None else hget k' f' w.
Proof.
  unfold hget. rewrite hdel_hashes. destruct (decide (k' = k)) as [->|?].
  - destruct (decide (f' = f)) as [->|?].
    + rewrite lookup_delete_eq. by rewrite decide_True.
    + rewrite lookup_delete_ne by done. rewrite decide_False by naive_solver. done.
  - rewrite decide_False by naive_solver. done.
Qed.

Lemma hget_hdels k fs w k' f' :
  hget k' f' (hdels k fs w) = if decide (k' = k ∧ f' ∈ fs) then None else hget k' f' w.
Proof.
  unfold hdels. revert w. induction fs as [|f fs IH]; intros w; simpl.
  - rewrite decide_False; [done|set_solver].
  - rewrite IH, hget_hdel. repeat case_decide; try done; set_solver.
Qed.

Lemma hget_hsetnx k f v w k' f' :
  hget k' f' (hsetnx k f v w).2 =
    if decide (k' = k ∧ f' = f ∧ hget k f w = None) then Some v else hget k' f' w.
Proof.
  unfold hget. rewrite hsetnx_hashes. destruct (decide (_ ∧ _)) as [[-> Hn]|Hne].
  - destruct (decide (f' = f)) as [->|?].
    + rewrite lookup_insert_eq. by rewrite decide_True.
    + rewrite lookup_insert_ne by done. rewrite decide_False by naive_solver. done.
  - rewrite decide_False by naive_solver. done.
Qed.
End redis.

(** ** The clock, in microseconds *)
Class Clock (W : Type) := {
  now : W → Z;
  sleep : Z → W → W;
  now_sleep : ∀ d w, (0 ≤ d)%Z → (now w + d ≤ now (sleep d w))%Z;
}.

Definition seconds (s : Z) : Z := (s * 1000000)%Z.

(** ** RQ *)

(** [rq.Worker], the attributes the program reads *)
Record WorkerRec := mkWorker {
  w_name : string;
  w_death_date : option Z;
  w_last_heartbeat : option Z;
  w_state : string;
  w_queue_names : list string;
}.

(** [rq.job.Callback] *)
Record Callback := mkCallback { cb_func : callback; cb_timeout : option Z }.

(** The arguments of one [enqueue] *)
Record JobSpec := mkJobSpec {
  js_func : func;
  js_kwargs : kwargs;
  js_id : option string;
  js_timeout : option Z;
  js_ttl : option Z;
  js_result_ttl : option Z;
  js_failure_ttl : option Z;
  js_meta : list (string * pyval);
  js_on_success : option Callback;
  js_on_failure : option Callback;
}.

(** [q.enqueue(func, **kwargs)] with RQ's defaults *)
Definition plain_spec (f : func) (kw : kwargs) (id : option string) (timeout : option Z) : JobSpec :=
  mkJobSpec f kw id timeout None None None [] None None.

Class Rq (W : Type) `{Redis W} := {
  (** [Worker.all(queue=Queue(q))], or of every queue *)
  worker_all : option string → W → list WorkerRec;
  send_shutdown_command : string → W → W;
  register_death : WorkerRec → W → W;
  (** [Queue(q).enqueue(...)] and [enqueue_call] *)
  enqueue : string → JobSpec → M W Job;
  (** [prepare_data] of every job and [enqueue_many] *)
  enqueue_many : string → list JobSpec → M W (list Job);
  (** [enqueue_call(..., pipeline=pipe)]: the job, its commands left in the pipe *)
  enqueue_pipe : string → JobSpec → M W Job;
  (** [pipe.execute(raise_on_error=True)] of the commands of these jobs *)
  pipe_execute : list (string * JobSpec * Job) → M W unit;
  enqueue_in : string → Z → JobSpec → W → W;
  (** [Job.fetch]: [None] is [NoSuchJobError] *)
  job_fetch : string → W → option Job;
  job_exc_info : string → W → string;
  job_cancel : string → M W unit;
  job_save_meta : string → list (string * pyval) → W → W;
  all_job_keys : W → list string;
  queue_jobs : string → W → list Job;
  queue_count : string → W → Z;
  registry_job_ids : string → string → W → list string;
  (** What was enqueued: for the laws and theorems. *)
  queued : W → list (string * JobSpec);
  (** What was scheduled for later, with its delay in seconds. *)
  scheduled : W → list (string * Z * JobSpec);
  (** The function of the job stored under an id. *)
  stored : W → string → option func;

  enqueue_ok : ∀ q s w j w', enqueue q s w = (Ok j, w') →
    queued w' = queued w ++ [(q, s)]
    ∧ (∀ i, js_id s = Some i → job_id j = i)
    ∧ stored w' (job_id j) = Some (js_func s);
  enqueue_err : ∀ q s w e w', enqueue q s w = (Err e, w') →
    queued w' = queued w ∧ is_exception e = true;
  enqueue_hashes : ∀ q s w k, hashes (enqueue q s w).2 k = hashes w k;
  enqueue_many_ok : ∀ q ss w js w', enqueue_many q ss w = (Ok js, w') →
    queued w' = queued w ++ ((q,.) <$> ss) ∧ length js = length ss;
  enqueue_many_err : ∀ q ss w e w', enqueue_many q ss w = (Err e, w') →
    queued w' = queued w ∧ is_exception e = true;
  enqueue_many_hashes : ∀ q ss w k, hashes (enqueue_many q ss w).2 k = hashes w k;
  enqueue_pipe_err : ∀ q s w e w', enqueue_pipe q s w = (Err e, w') → is_exception e = true;
  enqueue_pipe_queued : ∀ q s w, queued (enqueue_pipe q s w).2 = queued w;
  enqueue_pipe_hashes : ∀ q s w k, hashes (enqueue_pipe q s w).2 k = hashes w k;
  pipe_execute_ok : ∀ l w u w', pipe_execute l w = (Ok u, w') →
    queued w' = queued w ++ l.*1;
  pipe_execute_err : ∀ l w e w', pipe_execute l w = (Err e, w') →
    queued w' = queued w ∧ is_exception e = true;
  pipe_execute_hashes : ∀ l w k, hashes (pipe_execute l w).2 k = hashes w k;
  enqueue_in_scheduled : ∀ q d s w, scheduled (enqueue_in q d s w) = scheduled w ++ [(q, d, s)];
  enqueue_in_queued : ∀ q d s w, queued (enqueue_in q d s w) = queued w;
  enqueue_in_hashes : ∀ q d s w k, hashes (enqueue_in q d s w) k = hashes w k;
  save_meta_hashes : ∀ i m w k, hashes (job_save_meta i m w) k = hashes w k;
  save_meta_queued : ∀ i m w, queued (job_save_meta i m w) = queued w;
  shutdown_hashes : ∀ n w k, hashes (send_shutdown_command n w) k = hashes w k;
  shutdown_queued : ∀ n w, queued (send_shutdown_command n w) = queued w;
  death_hashes : ∀ r w k, hashes (register_death r w) k = hashes w k;
  hset_queued : ∀ k f v w, queued (hset k f v w) = queued w;
  hdel_queued : ∀ k f w, queued (hdel k f w) = queued w;
}.

(** ** Processes: [multiprocessing.Process(target=...).start()] *)
Class Spawn (W : Type) `{Redis W} := {
  (** The pid of the new process, or the exception of [start]. *)
  process_start : M W Z;
  (** Pids of the children that run or are not yet reaped. *)
  live_pids : W → list Z;
  process_start_ok : ∀ w p w', process_start w = (Ok p, w') →
    p ∉ live_pids w ∧ live_pids w' = p :: live_pids w;
  process_start_err : ∀ w e w', process_start w = (Err e, w') →
    is_exception e = true ∧ live_pids w' = live_pids w;
  process_start_hashes : ∀ w k, hashes (process_start w).2 k = hashes w k;
  hset_pids : ∀ k f v w, live_pids (hset k f v w) = live_pids w;
  hdel_pids : ∀ k f w, live_pids (hdel k f w) = live_pids w;
  hsetnx_pids : ∀ k f v w, live_pids (hsetnx k f v w).2 = live_pids w;
}.

(** ** Files: what the program does with its own disk *)
Class Files (W : Type) `{Redis W} := {
  path_exists : string → W → bool;
  (** [os.remove] *)
  os_remove : string → M W unit;
  os_remove_safe : ∀ f, safe (os_remove f);
  os_remove_gone : ∀ f w u w', os_remove f w = (Ok u, w') → path_exists f w' = false;
  os_remove_hashes : ∀ f w k, hashes (os_remove f w).2 k = hashes w k;
}.
#[export] Hint Resolve os_remove_safe : linux_net.

(** ** Identifiers: the context variables of [services/observability.py] and
    [uuid.uuid4], as a string of 36 characters and as its hexadecimal digits *)
Class Trace (W : Type) `{Rq W} := {
  request_id_var : W → option string;
  job_trace_id_var : W → option string;
  uuid4_str : W → string * W;
  uuid4_hex : W → string * W;
  uuid4_str_hashes : ∀ w k, hashes (uuid4_str w).2 k = hashes w k;
  uuid4_hex_hashes : ∀ w k, hashes (uuid4_hex w).2 k = hashes w k;
  uuid4_str_queued : ∀ w, queued (uuid4_str w).2 = queued w;
  uuid4_hex_queued : ∀ w, queued (uuid4_hex w).2 = queued w;
}.

(** ** A concrete world for the examples *)
Section toy_json.
Fixpoint pyval_to_tree (v : pyval) : gen_tree (bool + Z + Z + string) :=
  match v with
  | PNone => GenNode 0 []
  | PBool b => GenLeaf (inl (inl (inl b)))
  | PInt z => GenLeaf (inl (inl (inr z)))
  | PFloat z => GenLeaf (inl (inr z))
  | PStr s => GenLeaf (inr s)
  | PList l => GenNode 1 (pyval_to_tree <$> l)
  | PDict d => GenNode 2 ((fix go d := match d with
                           | [] => []
                           | (k, v) :: d => GenLeaf (inr k) :: pyval_to_tree v :: go d
                           end) d)
  end.

Fixpoint tree_to_pyval (t : gen_tree (bool + Z + Z + string)) : pyval :=
  match t with
  | GenLeaf (inl (inl (inl b))) => PBool b
  | GenLeaf (inl (inl (inr z))) => PInt z
  | GenLeaf (inl (inr z)) => PFloat z
  | GenLeaf (inr s) => PStr s
  | GenNode 0 _ => PNone
  | GenNode 1 l => PList (tree_to_pyval <$> l)
  | GenNode _ l => PDict ((fix go l := match l with
                           | GenLeaf (inr k) :: t :: l => (k, tree_to_pyval t) :: go l
                           | _ => []
                           end) l)
  end.

Lemma tree_pyval v : tree_to_pyval (pyval_to_tree v) = v.
Proof.
  induction v as [| | | | |l IH|d IH] using pyval_rect'; try done; simpl; f_equal.
  - induction IH as [|x l Hx _ IHl]; [done|]. simpl. f_equal; done.
  - induction IH as [|[k v] d Hv _ IHd]; [done|]. simpl in *. f_equal; [by f_equal|done].
Qed.

#[export] Instance pyval_countable : Countable pyval :=
  inj_countable' pyval_to_tree tree_to_pyval tree_pyval.

Fixpoint pos_to_string (p : positive) : string :=
  match p with
  | xH => "1"
  | xO p => String "0"%char (pos_to_string p)
  | xI p => String "i"%char (pos_to_string p)
  end.

Fixpoint string_to_pos (s : string) : option positive :=
  match s with
  | EmptyString => None
  | String a s =>
      if Ascii.eqb a "1"%char then Some xH
      else if Ascii.eqb a "0"%char then xO <$> string_to_pos s else xI <$> string_to_pos s
  end.

Lemma string_pos p : string_to_pos (pos_to_string p) = Some p.
Proof. induction p as [p IH|p IH|]; simpl; by rewrite ?IH. Qed.
End toy_json.

Definition toy_loads (s : string) : res pyval :=
  match string_to_pos s ≫= decode with
  | Some v => Ok v
  | None => Err (OtherError "JSONDecodeError" s)
  end.

#[export, refine] Instance toy_json : Json :=
  {| dumps v := pos_to_string (encode v); loads := toy_loads |}.
Proof.
  - intros v. unfold toy_loads. rewrite string_pos. simpl. by rewrite decode_encode.
  - intros v. by destruct (encode v).
  - intros s. unfold toy_loads. case_match; auto with linux_net.
Defined.

Module Toy.
Record world := mkWorld {
  t_hashes : gmap string (gmap string string);
  t_time : Z;
  t_workers : list WorkerRec;
  t_queued : list (string * JobSpec);
  t_stored : list (string * func);
  t_jobs : list Job;
  t_next : nat;
  t_pids : list Z;
  t_shutdown : list string;
  t_bad_queues : list string;
  t_locks : list string;
  t_sched : list (string * Z * JobSpec);
  t_files : list string;
  t_ids : option string * option string;
}.

(** Nothing stored, at time [t], the workers [ws] alive. *)
Definition empty (t : Z) (ws : list WorkerRec) : world :=
  mkWorld ∅ t ws [] [] [] 0 [] [] [] [] [] [] (Some "req-7", None).

Definition view (w : world) (k : string) : gmap string string := default ∅ (t_hashes w !! k).
Definition set_hashes (f : gmap string (gmap string string)) (w : world) : world :=
  mkWorld f (t_time w) (t_workers w) (t_queued w) (t_stored w) (t_jobs w) (t_next w) (t_pids w)
    (t_shutdown w) (t_bad_queues w) (t_locks w) (t_sched w) (t_files w) (t_ids w).
Definition set_time (t : Z) (w : world) : world :=
  mkWorld (t_hashes w) t (t_workers w) (t_queued w) (t_stored w) (t_jobs w) (t_next w) (t_pids w)
    (t_shutdown w) (t_bad_queues w) (t_locks w) (t_sched w) (t_files w) (t_ids w).
Definition push (qs : list (string * JobSpec)) (st : list (string * func)) (w : world) : world :=
  mkWorld (t_hashes w) (t_time w) (t_workers w) (t_queued w ++ qs) (st ++ t_stored w) (t_jobs w)
    (t_next w + length qs) (t_pids w) (t_shutdown w) (t_bad_queues w) (t_locks w) (t_sched w) (t_files w) (t_ids w).
Definition set_pids (l : list Z) (w : world) : world :=
  mkWorld (t_hashes w) (t_time w) (t_workers w) (t_queued w) (t_stored w) (t_jobs w) (t_next w) l
    (t_shutdown w) (t_bad_queues w) (t_locks w) (t_sched w) (t_files w) (t_ids w).
Definition add_shutdown (n : string) (w : world) : world :=
  mkWorld (t_hashes w) (t_time w) (t_workers w) (t_queued w) (t_stored w) (t_jobs w) (t_next w)
    (t_pids w) (t_shutdown w ++ [n]) (t_bad_queues w) (t_locks w) (t_sched w) (t_files w) (t_ids w).
Definition add_lock (k : string) (w : world) : world :=
  mkWorld (t_hashes w) (t_time w) (t_workers w) (t_queued w) (t_stored w) (t_jobs w) (t_next w)
    (t_pids w) (t_shutdown w) (t_bad_queues w) (k :: t_locks w) (t_sched w) (t_files w) (t_ids w).
Definition set_bad (l : list string) (w : world) : world :=
  mkWorld (t_hashes w) (t_time w) (t_workers w) (t_queued w) (t_stored w) (t_jobs w) (t_next w)
    (t_pids w) (t_shutdown w) l (t_locks w) (t_sched w) (t_files w) (t_ids w).
Definition schedule (q : string) (d : Z) (s : JobSpec) (w : world) : world :=
  mkWorld (t_hashes w) (t_time w) (t_workers w) (t_queued w) (t_stored w) (t_jobs w) (t_next w)
    (t_pids w) (t_shutdown w) (t_bad_queues w) (t_locks w) (t_sched w ++ [(q, d, s)]) (t_files w) (t_ids w).
Definition set_files (l : list string) (w : world) : world :=
  mkWorld (t_hashes w) (t_time w) (t_workers w) (t_queued w) (t_stored w) (t_jobs w) (t_next w)
    (t_pids w) (t_shutdown w) (t_bad_queues w) (t_locks w) (t_sched w) l (t_ids w).
Definition set_ids (p : option string * option string) (w : world) : world :=
  mkWorld (t_hashes w) (t_time w) (t_workers w) (t_queued w) (t_stored w) (t_jobs w) (t_next w)
    (t_pids w) (t_shutdown w) (t_bad_queues w) (t_locks w) (t_sched w) (t_files w) p.
Definition set_jobs (l : list Job) (w : world) : world :=
  mkWorld (t_hashes w) (t_time w) (t_workers w) (t_queued w) (t_stored w) l (t_next w)
    (t_pids w) (t_shutdown w) (t_bad_queues w) (t_locks w) (t_sched w) (t_files w) (t_ids w).

Definition put (k f v : string) (w : world) : world :=
  set_hashes (<[k := <[f := v]> (view w k)]> (t_hashes w)) w.
Definition del (k f : string) (w : world) : world :=
  set_hashes (<[k := delete f (view w k)]> (t_hashes w)) w.

Lemma view_set k m w k' :
  view (set_hashes (<[k := m]> (t_hashes w)) w) k' = if decide (k' = k) then m else view w k'.
Proof.
  unfold view; simpl. case_decide as E.
  - by rewrite E, lookup_insert_eq.
  - by rewrite lookup_insert_ne.
Qed.

#[global, refine] Instance toy_redis : Redis world :=
  {| hashes := view; hset := put; hdel := del;
     hsetnx k f v w := match view w k !! f with
                       | Some _ => (false, w)
                       | None => (true, put k f v w)
                       end;
     hscan_iter k w := map_to_list (view w k);
     rget k w := None;
     set_nx_ex k v t w := if decide (k ∈ t_locks w) then (false, w) else (true, add_lock k w) |}.
Proof.
  - intros *. apply view_set.
  - intros *. apply view_set.
  - intros *. by destruct (view w k !! f).
  - intros *. destruct (view w k !! f) eqn:E; simpl.
    + by rewrite decide_False by naive_solver.
    + unfold put. rewrite view_set. destruct (decide (k' = k)); destruct (decide _); naive_solver.
  - intros *. apply elem_of_map_to_list.
  - intros k v t w k'. simpl. by destruct (decide (k ∈ t_locks w)).
Defined.

#[global, refine] Instance toy_clock : Clock world :=
  {| now := t_time; sleep d w := set_time (t_time w + Z.max 0 d) w |}.
Proof. intros d w Hd. simpl. lia. Defined.

Definition job_of (q : string) (s : JobSpec) (w : world) (i : nat) : Job :=
  mkJob (default ("job-" +:+ str_of_Z (Z.of_nat (t_next w + i))) (js_id s)) (Some "queued") q
    (Some (t_time w)) (Some (t_time w)) None None None None (js_meta s) (js_kwargs s).

Definition redis_down : exn := OtherError "ConnectionError" "Redis is down".
Definition bad (q : string) (w : world) : bool := bool_decide (q ∈ t_bad_queues w).

#[global, refine] Instance toy_rq : Rq world :=
  {| worker_all q w := match q with
                       | None => t_workers w
                       | Some q => filter (λ r, q ∈ w_queue_names r) (t_workers w)
                       end;
     send_shutdown_command := add_shutdown;
     register_death r w := w;
     enqueue q s w :=
       if bad q w then (Err redis_down, w)
       else let j := job_of q s w 0 in (Ok j, push [(q, s)] [(job_id j, js_func s)] w);
     enqueue_many q ss w :=
       if bad q w then (Err redis_down, w)
       else (Ok (imap (λ i s, job_of q s w i) ss),
             push ((q,.) <$> ss) (imap (λ i s, (job_id (job_of q s w i), js_func s)) ss) w);
     enqueue_pipe q s w := (Ok (job_of q s w 0), w);
     pipe_execute l w :=
       if any (λ x, bad x.1.1 w) l then (Err redis_down, w)
       else (Ok tt, push l.*1 [] w);
     enqueue_in := schedule;
     job_fetch i w := head (filter (λ j, job_id j = i) (t_jobs w));
     job_exc_info i w := "";
     job_cancel i w := (Ok tt, w);
     job_save_meta i m w := w;
     all_job_keys w := (λ j, "rq:job:" +:+ job_id j) <$> t_jobs w;
     queue_jobs q w := filter (λ j, job_origin j = q) (t_jobs w);
     queue_count q w := Z.of_nat (length (filter (λ j, job_origin j = q) (t_jobs w)));
     registry_job_ids st q w :=
       job_id <$> filter (λ j, job_origin j = q ∧ job_status j = Some st) (t_jobs w);
     queued := t_queued;
     scheduled := t_sched;
     stored w i := dict_get i (t_stored w) |}.
Proof.
  all: try (intros *; try case_match; done).
  - intros *. case_match; [done|]. intros [= <- <-]. simpl. split_and!; [done| |].
    + by intros i ->.
    + by rewrite decide_True.
  - intros *. case_match; [by intros [= <- <-]|done].
  - intros *. case_match; [done|]. intros [= <- <-]. simpl. by rewrite length_imap.
  - intros *. case_match; [by intros [= <- <-]|done].
  - intros *. case_match; [done|]. by intros [= <- <-].
  - intros *. case_match; [by intros [= <- <-]|done].
Defined.

#[global, refine] Instance toy_spawn : Spawn world :=
  {| process_start w :=
       let p := (foldr Z.max 100 (t_pids w) + 1)%Z in (Ok p, set_pids (p :: t_pids w) w);
     live_pids := t_pids |}.
Proof.
  - intros w p w' [= <- <-]. split; [|done].
    assert (∀ x, x ∈ t_pids w → (x ≤ foldr Z.max 100 (t_pids w))%Z) as Hm.
    { induction (t_pids w) as [|y l IH]; simpl; [set_solver|].
      intros x [->|?]%elem_of_cons; [lia|]. specialize (IH x H). lia. }
    intros Hin%Hm. lia.
  - done.
  - done.
  - done.
  - done.
  - intros *. simpl. by case_match.
Defined.

#[global, refine] Instance toy_files : Files world :=
  {| path_exists f w := bool_decide (f ∈ t_files w);
     os_remove f w :=
       if decide (f ∈ t_files w) then (Ok tt, set_files (filter (λ g, g ≠ f) (t_files w)) w)
       else (Err (FileNotFoundError f), w) |}.
Proof.
  - intros f w. simpl. case_match; simpl; [done|by apply ordinary_Err].
  - intros f w u w'. case_match; [|done]. intros [= _ <-]. apply bool_decide_eq_false_2.
    simpl. rewrite list_elem_of_filter. naive_solver.
  - intros f w k. simpl. by case_match.
Defined.

#[global, refine] Instance toy_trace : Trace world :=
  {| request_id_var w := (t_ids w).1; job_trace_id_var w := (t_ids w).2;
     uuid4_str w := ("00000000-1111-2222-3333-444444444444", w);
     uuid4_hex w := ("00000000111122223333444444444444", w) |}.
Proof. all: done. Defined.
End Toy.
