(* ===== verification/NodeWorker.v ===== *)
(** * The node worker

    [linux_net/worker/node.py]: the daemon of one node, which spawns the
    pinned workers of the hosts bound to it and keeps the two Redis maps, from
    host to node and from node to [NodeInfo].  The state of a handler is the
    object and the world; a host is bound by [HSETNX], so the binding is a lock
    shared by all nodes. *)

From S2P Require Import Prelude PyLib Models World.

(** ** State *)
Record NodeWorker := mkNodeWorker {
  nw_name : string;
  nw_pid_to_host_map : list (Z * string);
  nw_signaled : bool;
  nw_listened_queue : option string;
  nw_worker : bool;  (* is there a [_worker]? *)
}.

Definition nw_set_pids (m : list (Z * string)) (nw : NodeWorker) : NodeWorker :=
  mkNodeWorker (nw_name nw) m (nw_signaled nw) (nw_listened_queue nw) (nw_worker nw).
Definition nw_signal (nw : NodeWorker) : NodeWorker :=
  mkNodeWorker (nw_name nw) (nw_pid_to_host_map nw) true (nw_listened_queue nw) (nw_worker nw).
(** [RedisWorker.listen] up to [self._worker.work()] *)
Definition nw_listening (q : string) (nw : NodeWorker) : NodeWorker :=
  mkNodeWorker (nw_name nw) (nw_pid_to_host_map nw) (nw_signaled nw) (Some q) true.

(** [NodeWorker()] on the host [hostname] *)
Definition NodeWorker_init (hostname : string) : NodeWorker := mkNodeWorker hostname [] false None false.

Definition nw_hosts (nw : NodeWorker) : list string := (nw_pid_to_host_map nw).*2.

(** ** Handlers *)
Section handlers.
Context {W : Type} `{Json} `{Redis W} `{!Rq W} `{!Spawn W}.
Context (c : Config).

Definition _get_node (nw : NodeWorker) (w : W) : res (option NodeInfo) :=
  let node_info := hget (cfg_node_info_map c) (nw_name nw) w in
  if negb (str_truthy node_info) then Ok None
  else n ← NodeInfo_validate_json (default "" node_info); Ok (Some n).

Definition cleanup : M (NodeWorker * W) unit := λ s,
  let '(nw, w) := s in
  let nw := nw_signal nw in
  let keys_to_delete := (nw_pid_to_host_map nw).*2 in
  let w := match keys_to_delete with
           | [] => w
           | _ => hdels (cfg_host_to_node_map c) keys_to_delete w
           end in
  let w := hdel (cfg_node_info_map c) (nw_name nw) w in
  let w := foldl (λ w host,
             foldl (λ w r, send_shutdown_command (w_name r) w) w
               (worker_all (Some (get_host_queue_name host)) w)) w keys_to_delete in
  (Ok tt, (nw, w)).

(** The registration part of [listen]: entries a previous run left behind
    under this name are removed, then the node is published with no host. *)
Definition register_node (nw : NodeWorker) (w : W) : W :=
  let node_info := mkNodeInfo (nw_name nw) 0 (cfg_pinned_per_node c)
                     (get_node_queue_name (nw_name nw)) in
  let keys_to_delete :=
    (filter (λ hn, hn.2 = nw_name nw) (hscan_iter (cfg_host_to_node_map c) w)).*1 in
  let w := foldl (λ w host,
             foldl (λ w r, register_death r w) w
               (worker_all (Some (get_host_queue_name host)) w)) w keys_to_delete in
  let w := foldl (λ w r, register_death r w) w (worker_all (Some (ni_queue node_info)) w) in
  let w := match keys_to_delete with
           | [] => w
           | _ => hdels (cfg_host_to_node_map c) keys_to_delete w
           end in
  hset (cfg_node_info_map c) (nw_name nw) (NodeInfo_dump_json node_info) w.

(** [listen], for the outcome [acquired] of the file lock and the worker
    loop [work] of RQ, which runs the queued handlers. *)
Definition listen (acquired : bool) (work : M (NodeWorker * W) unit) : M (NodeWorker * W) unit :=
  λ s,
  if acquired then
    try_finally
      (try_except
         (λ '(nw, w),
            match _get_node nw w with
            | Err e => (Err e, (nw, w))
            | Ok _ =>
                work (nw_listening (get_node_queue_name (nw_name nw)) nw, register_node nw w)
            end)
         (λ _, raise (SystemExit 1)))
      cleanup s
  else (Err (SystemExit 1), s).

Definition add (q_name host : string) : M (NodeWorker * W) unit := λ s,
  let '(nw, w) := s in
  if any (λ ph, String.eqb ph.2 host) (nw_pid_to_host_map nw) then (Ok tt, (nw, w)) else
  let node_info_json := hget (cfg_node_info_map c) (nw_name nw) w in
  if negb (str_truthy node_info_json) then (Err (SystemExit 1), (nw, w)) else
  match NodeInfo_validate_json (default "" node_info_json) with
  | Err e => (Err e, (nw, w))
  | Ok node_info =>
      if (ni_count node_info >=? ni_capacity node_info)%Z then
        (Err (NodePreemptedError ("Node " +:+ nw_name nw +:+ " has reached its capacity")), (nw, w))
      else
        let node_info := mkNodeInfo (ni_hostname node_info) (ni_count node_info + 1)
                           (ni_capacity node_info) (ni_queue node_info) in
        let '(result, w) := hsetnx (cfg_host_to_node_map c) host (nw_name nw) w in
        if negb result then
          (Err (HostAlreadyPinnedError ("Host " +:+ host +:+ " is already pinned")), (nw, w))
        else
          match process_start w with
          | (Err e, w) =>
              if is_exception e
              then (Err e, (nw, hdel (cfg_host_to_node_map c) host w))
              else (Err e, (nw, w))
          | (Ok pid, w) =>
              (Ok tt, (nw_set_pids (dict_set pid host (nw_pid_to_host_map nw)) nw,
                       hset (cfg_node_info_map c) (nw_name nw) (NodeInfo_dump_json node_info) w))
          end
  end.

(** [_remove], on the module's [g_node_worker] *)
Definition _remove (pid : Z) (host : string) : M (option NodeWorker * W) unit := λ s,
  match s with
  | (None, w) => (Err (LinuxNetWorkerError "Node worker not initialized"), s)
  | (Some nw, w) =>
      match dict_get pid (nw_pid_to_host_map nw) with
      | None => (Ok tt, s)
      | Some _ =>
          let nw := nw_set_pids (dict_pop pid (nw_pid_to_host_map nw)) nw in
          let node_info_json := hget (cfg_node_info_map c) (nw_name nw) w in
          if negb (str_truthy node_info_json) then (Ok tt, (Some nw, w)) else
          match NodeInfo_validate_json (default "" node_info_json) with
          | Err e => (Err e, (Some nw, w))
          | Ok node_info =>
              let node_info := mkNodeInfo (ni_hostname node_info) (ni_count node_info - 1)
                                 (ni_capacity node_info) (ni_queue node_info) in
              let w := hdel (cfg_host_to_node_map c) host w in
              let w := hset (cfg_node_info_map c) (nw_name nw) (NodeInfo_dump_json node_info) w in
              (Ok tt, (Some nw, w))
          end
      end
  end.

Definition remove (pid : Z) : M (NodeWorker * W) unit := λ s,
  let '(nw, w) := s in
  match dict_get pid (nw_pid_to_host_map nw) with
  | None | Some "" => (Ok tt, s)
  | Some host =>
      match nw_listened_queue nw with
      | None => (Err (AssertionError "NodeWorker's listened_queue is None"), s)
      | Some q =>
          match enqueue q (plain_spec f_node_remove (kw_remove pid host) None None) w with
          | (Ok _, w) => (Ok tt, (nw, w))
          | (Err e, w) => (Err e, (nw, w))
          end
      end
  end.

Definition start_pinned_worker (q_name host : string) : M (option NodeWorker * W) unit := λ s,
  match s with
  | (None, w) => (Err (LinuxNetWorkerError "Node worker not initialized"), s)
  | (Some nw, w) =>
      let '(r, (nw, w)) := add q_name host (nw, w) in (r, (Some nw, w))
  end.

(** [sigchld_handler], for the pids [os.waitpid] returns one after another. *)
Fixpoint sigchld_handler (reaped : list Z) : M (option NodeWorker * W) unit := λ s,
  match reaped with
  | [] => (Ok tt, s)
  | pid :: reaped =>
      match s with
      | (None, w) => sigchld_handler reaped s
      | (Some nw, w) =>
          if nw_signaled nw then sigchld_handler reaped s
          else match remove pid (nw, w) with
               | (Ok _, (nw, w)) => sigchld_handler reaped (Some nw, w)
               | (Err e, (nw, w)) => (Err e, (Some nw, w))
               end
      end
  end.

(** For [request_stop] of RQ's worker, which may raise [StopRequested] *)
Definition signaled_to_exit (request_stop : M W unit) : M (NodeWorker * W) unit := λ s,
  let '(nw, w) := s in
  let nw := nw_signal nw in
  if nw_worker nw then let '(r, w) := request_stop w in (r, (nw, w)) else (Ok tt, (nw, w)).

Definition sigterm_sigint_handler (request_stop : M W unit) : M (option NodeWorker * W) unit := λ s,
  match s with
  | (None, w) => (Err (SystemExit 1), s)
  | (Some nw, w) =>
      let '(r, (nw, w)) := signaled_to_exit request_stop (nw, w) in (r, (Some nw, w))
  end.
End handlers.

(** ** Dictionaries of children *)
Lemma dict_set_fresh {V} (p : Z) (v : V) d : p ∉ d.*1 → dict_set p v d = d ++ [(p, v)].
Proof.
  induction d as [|[q x] d IH]; simpl; [done|]. intros Hp.
  rewrite decide_False by set_solver. rewrite IH by set_solver. done.
Qed.

Lemma dict_pop_elem (p : Z) (h x : string) (d : list (Z * string)) :
  NoDup d.*2 → dict_get p d = Some h → x ∈ (dict_pop p d).*2 ↔ x ∈ d.*2 ∧ x ≠ h.
Proof.
  induction d as [|[q y] d IH]; simpl; [done|]. intros [Hni Hnd]%NoDup_cons.
  case_decide; intros; simplify_eq/=; [set_solver|].
  assert (y ≠ h).
  { intros ->. apply Hni. by apply (list_elem_of_fmap_2 snd _ (p, h)), dict_get_elem_of. }
  rewrite !elem_of_cons, IH by done. naive_solver.
Qed.

Lemma dict_pop_length (p : Z) (h : string) (d : list (Z * string)) :
  dict_get p d = Some h → length d = S (length (dict_pop p d)).
Proof.
  induction d as [|[q y] d IH]; simpl; [done|]. case_decide; [done|].
  intros Hp. simpl. by rewrite <-IH.
Qed.

Lemma dict_pop_sublist (p : Z) (d : list (Z * string)) : dict_pop p d `sublist_of` d.
Proof.
  induction d as [|[q y] d IH]; simpl; [done|]. case_decide; [by constructor|by constructor].
Qed.

(** ** The invariant of a node

    The published entry counts the running pinned workers and stays within the
    capacity; no host has two workers; the hosts bound to the node are exactly
    those it runs a worker for. *)
Section invariant.
Context {W : Type} `{Json} `{Redis W} `{!Rq W} `{!Spawn W}.
Context (c : Config).
Context (maps_differ : cfg_host_to_node_map c ≠ cfg_node_info_map c).
Implicit Types (nw : NodeWorker) (w : W).

Definition node_entry nw : NodeInfo :=
  mkNodeInfo (nw_name nw) (Z.of_nat (length (nw_pid_to_host_map nw))) (cfg_pinned_per_node c)
    (get_node_queue_name (nw_name nw)).

Record node_inv nw w : Prop := {
  inv_entry : hget (cfg_node_info_map c) (nw_name nw) w = Some (NodeInfo_dump_json (node_entry nw));
  inv_bound : (Z.of_nat (length (nw_pid_to_host_map nw)) ≤ Z.max 0 (cfg_pinned_per_node c))%Z;
  inv_pids : NoDup (nw_pid_to_host_map nw).*1;
  inv_hosts : NoDup (nw_hosts nw);
  inv_owned : ∀ h, hget (cfg_host_to_node_map c) h w = Some (nw_name nw) ↔ h ∈ nw_hosts nw;
  inv_live : ∀ p, p ∈ (nw_pid_to_host_map nw).*1 → p ∈ live_pids w;
}.

(** What the handlers leave alone: the entries of the other nodes, and the
    bindings of the other hosts. *)
Definition others_kept nw (host : string) w w' : Prop :=
  (∀ n, n ≠ nw_name nw → hget (cfg_node_info_map c) n w' = hget (cfg_node_info_map c) n w)
  ∧ (∀ h, h ≠ host → hget (cfg_host_to_node_map c) h w' = hget (cfg_host_to_node_map c) h w).

Lemma host_pinned nw host :
  any (λ ph, String.eqb ph.2 host) (nw_pid_to_host_map nw) = bool_decide (host ∈ nw_hosts nw).
Proof.
  apply eq_bool_prop_intro. rewrite Is_true_true, any_true, bool_decide_spec.
  unfold nw_hosts. rewrite list_elem_of_fmap. split.
  - intros (x & ? & ?%String.eqb_eq). eauto.
  - intros (x & -> & ?). exists x. by rewrite String.eqb_refl.
Qed.

Lemma hget_entry nw w : node_inv nw w →
  str_truthy (hget (cfg_node_info_map c) (nw_name nw) w) = true
  ∧ NodeInfo_validate_json (default "" (hget (cfg_node_info_map c) (nw_name nw) w))
    = Ok (node_entry nw).
Proof.
  intros Hi. rewrite (inv_entry _ _ Hi); simpl. rewrite node_json_roundtrip. split; [|done].
  rewrite (proj2 (String.eqb_neq _ _)); [done|apply node_json_nonempty].
Qed.

Lemma hget_process_start k f w : hget k f (process_start w).2 = hget k f w.
Proof. unfold hget. by rewrite process_start_hashes. Qed.

Lemma node_inv_add nw w host p w2 :
  node_inv nw w → host ∉ nw_hosts nw →
  (Z.of_nat (length (nw_pid_to_host_map nw)) < cfg_pinned_per_node c)%Z →
  hget (cfg_host_to_node_map c) host w = None → p ∉ live_pids w →
  (∀ k f, hget k f w2 = if decide (k = cfg_host_to_node_map c ∧ f = host
                           ∧ hget (cfg_host_to_node_map c) host w = None)
                        then Some (nw_name nw) else hget k f w) →
  live_pids w2 = p :: live_pids w →
  let nw' := nw_set_pids (dict_set p host (nw_pid_to_host_map nw)) nw in
  let w' := hset (cfg_node_info_map c) (nw_name nw)
              (NodeInfo_dump_json (mkNodeInfo (nw_name nw)
                 (Z.of_nat (length (nw_pid_to_host_map nw)) + 1) (cfg_pinned_per_node c)
                 (get_node_queue_name (nw_name nw)))) w2 in
  node_inv nw' w' ∧ others_kept nw host w w'
  ∧ hget (cfg_host_to_node_map c) host w' = Some (nw_name nw)
  ∧ ∃ p, p ∉ live_pids w ∧ nw' = nw_set_pids (nw_pid_to_host_map nw ++ [(p, host)]) nw.
Proof.
  intros Hi Hni Hcap Hnone Hfresh Hg Hlive nw' w'. subst nw' w'.
  assert (p ∉ (nw_pid_to_host_map nw).*1) as Hp by (intros ?%(inv_live _ _ Hi); done).
  rewrite dict_set_fresh by done.
  assert (∀ v h, hget (cfg_host_to_node_map c) h
    (hset (cfg_node_info_map c) (nw_name nw) v w2)
    = if decide (h = host) then Some (nw_name nw) else hget (cfg_host_to_node_map c) h w) as Hm.
  { intros v h. rewrite hget_hset, decide_False by naive_solver. rewrite Hg.
    repeat case_decide; naive_solver. }
  split_and!; [constructor; simpl|split|rewrite Hm; by rewrite decide_True|eauto].
  - rewrite hget_hset, decide_True by done. do 2 f_equal. unfold node_entry; simpl.
    rewrite length_app; simpl. f_equal. lia.
  - rewrite length_app; simpl. lia.
  - rewrite fmap_app. apply NoDup_app. split_and!; [apply Hi|set_solver|apply NoDup_singleton].
  - unfold nw_hosts; simpl. rewrite fmap_app. apply NoDup_app.
    split_and!; [apply Hi|set_solver|apply NoDup_singleton].
  - intros h. rewrite Hm. unfold nw_hosts; simpl. rewrite fmap_app. simpl.
    pose proof (inv_owned _ _ Hi h) as Ho. unfold nw_hosts in Ho. case_decide; set_solver.
  - intros q. rewrite hset_pids, Hlive, fmap_app. pose proof (inv_live _ _ Hi q). set_solver.
  - intros n Hn. rewrite hget_hset, decide_False by naive_solver. rewrite Hg.
    by rewrite decide_False by naive_solver.
  - intros h Hh. rewrite Hm. by rewrite decide_False.
Qed.

Lemma node_inv_remove nw w p host :
  node_inv nw w → dict_get p (nw_pid_to_host_map nw) = Some host →
  let nw' := nw_set_pids (dict_pop p (nw_pid_to_host_map nw)) nw in
  let w' := hset (cfg_node_info_map c) (nw_name nw)
              (NodeInfo_dump_json (mkNodeInfo (nw_name nw)
                 (Z.of_nat (length (nw_pid_to_host_map nw)) - 1) (cfg_pinned_per_node c)
                 (get_node_queue_name (nw_name nw))))
              (hdel (cfg_host_to_node_map c) host w) in
  node_inv nw' w' ∧ others_kept nw host w w' ∧ hget (cfg_host_to_node_map c) host w' = None.
Proof.
  intros Hi Hp nw' w'. subst nw' w'.
  pose proof (dict_pop_length _ _ _ Hp) as Hlen.
  assert (∀ v h, hget (cfg_host_to_node_map c) h (hset (cfg_node_info_map c) (nw_name nw) v
    (hdel (cfg_host_to_node_map c) host w))
    = if decide (h = host) then None else hget (cfg_host_to_node_map c) h w) as Hm.
  { intros v h. rewrite hget_hset, decide_False by naive_solver. rewrite hget_hdel.
    repeat case_decide; naive_solver. }
  split_and!; [constructor; simpl|split|rewrite Hm; by rewrite decide_True].
  - rewrite hget_hset, decide_True by done. do 2 f_equal. unfold node_entry; simpl. f_equal. lia.
  - pose proof (inv_bound _ _ Hi). lia.
  - apply dict_pop_NoDup, Hi.
  - unfold nw_hosts; simpl. eapply sublist_NoDup; [apply (inv_hosts _ _ Hi)|].
    apply (fmap_sublist snd), dict_pop_sublist.
  - intros h. rewrite Hm. unfold nw_hosts; simpl.
    rewrite (dict_pop_elem p host) by (done || apply Hi).
    pose proof (inv_owned _ _ Hi h) as Ho. unfold nw_hosts in Ho. case_decide; naive_solver.
  - intros q Hq%dict_pop_keys. rewrite hset_pids, hdel_pids. by apply (inv_live _ _ Hi).
  - intros n Hn. rewrite hget_hset, decide_False by naive_solver.
    rewrite hget_hdel. by rewrite decide_False by naive_solver.
  - intros h Hh. rewrite Hm. by rewrite decide_False.
Qed.

(** C4. Binding a host, on every branch, from a consistent node: a host that
    has a worker is left as it is; a full node and a host bound by another
    node are refused and nothing is written; a failed spawn gives the
    binding back; otherwise the host is bound to the node, exactly one
    process more is counted, and the node is consistent again. *)
Theorem add_spec q_name host nw w :
  node_inv nw w →
  let '(r, (nw', w')) := add c q_name host (nw, w) in
  node_inv nw' w' ∧ others_kept nw host w w' ∧
  if decide (host ∈ nw_hosts nw) then r = Ok tt ∧ nw' = nw ∧ w' = w
  else if (Z.of_nat (length (nw_hosts nw)) >=? cfg_pinned_per_node c)%Z then
    (∃ m, r = Err (NodePreemptedError m)) ∧ nw' = nw ∧ w' = w
  else match hget (cfg_host_to_node_map c) host w with
  | Some _ => (∃ m, r = Err (HostAlreadyPinnedError m)) ∧ nw' = nw
      ∧ hget (cfg_host_to_node_map c) host w' = hget (cfg_host_to_node_map c) host w
  | None =>
      match r with
      | Ok _ => hget (cfg_host_to_node_map c) host w' = Some (nw_name nw)
          ∧ ∃ p, p ∉ live_pids w
              ∧ nw' = nw_set_pids (nw_pid_to_host_map nw ++ [(p, host)]) nw
      | Err e => is_exception e = true ∧ nw' = nw
          ∧ hget (cfg_host_to_node_map c) host w' = None
      end
  end.
Proof.
  intros Hi. unfold add. rewrite host_pinned.
  destruct (decide (host ∈ nw_hosts nw)) as [Hin|Hni].
  { rewrite bool_decide_true by done. unfold others_kept. auto. }
  rewrite bool_decide_false by done. destruct (hget_entry nw w Hi) as [-> ->]. simpl.
  unfold nw_hosts. rewrite length_fmap. rewrite !Z.geb_leb.
  destruct (_ <=? _)%Z eqn:Ecap; to_prop.
  { unfold others_kept. eauto 10. }
  pose proof (hsetnx_result (cfg_host_to_node_map c) host (nw_name nw) w) as Hr.
  pose proof (λ k f, hget_hsetnx (cfg_host_to_node_map c) host (nw_name nw) w k f) as Hg.
  pose proof (hsetnx_pids (cfg_host_to_node_map c) host (nw_name nw) w) as Hl.
  destruct (hsetnx _ _ _ _) as [ok w1]; simpl in Hr, Hg, Hl. fold (hget (cfg_host_to_node_map c) host w) in Hr.
  destruct (hget (cfg_host_to_node_map c) host w) as [n0|] eqn:Eh.
  - rewrite bool_decide_false in Hr by done. subst ok. simpl.
    assert (∀ k f, hget k f w1 = hget k f w) as Hsame.
    { intros k f. rewrite Hg. by rewrite decide_False by naive_solver. }
    split_and!; [|split; auto|eauto|done|by rewrite Hsame].
    destruct Hi. constructor; rewrite ?Hl; auto; intros; rewrite ?Hsame; auto.
  - rewrite bool_decide_true in Hr by done. subst ok. simpl.
    pose proof (λ k f, hget_process_start k f w1) as Hp.
    pose proof (process_start_ok w1) as Hok. pose proof (process_start_err w1) as Herr.
    destruct (process_start w1) as [[p|e] w2]; simpl in Hp.
    + destruct (Hok _ _ eq_refl) as [Hfresh Hlive]. rewrite Hl in Hfresh, Hlive.
      apply node_inv_add; auto. intros k f. by rewrite Hp, Hg, Eh.
    + destruct (Herr _ _ eq_refl) as [He Hlive]. rewrite He. rewrite Hl in Hlive.
      assert (∀ k f, hget k f (hdel (cfg_host_to_node_map c) host w2) = hget k f w) as Hsame.
      { intros k f. rewrite hget_hdel, Hp, Hg. repeat case_decide; naive_solver. }
      rewrite Hsame, Eh. split_and!; [|split; auto|done..].
      destruct Hi. constructor; rewrite ?hdel_pids, ?Hlive; auto; intros; rewrite ?Hsame; auto.
Qed.

(** Unbinding a host whose worker exited: the binding is released, the
    published count goes down with the process, the node stays consistent;
    an unknown pid (a restarted daemon) changes nothing. *)
Theorem remove_spec pid host nw w :
  node_inv nw w →
  match dict_get pid (nw_pid_to_host_map nw) with
  | None => _remove c pid host (Some nw, w) = (Ok tt, (Some nw, w))
  | Some h => h = host →
      ∃ w', _remove c pid host (Some nw, w)
        = (Ok tt, (Some (nw_set_pids (dict_pop pid (nw_pid_to_host_map nw)) nw), w'))
      ∧ node_inv (nw_set_pids (dict_pop pid (nw_pid_to_host_map nw)) nw) w'
      ∧ others_kept nw host w w'
      ∧ hget (cfg_host_to_node_map c) host w' = None
  end.
Proof.
  intros Hi. unfold _remove. destruct (dict_get pid _) as [h|] eqn:Ep; [|done]. intros ->.
  cbn [nw_name nw_set_pids].
  destruct (hget_entry nw w Hi) as [Ht Hv]. cbn. rewrite Ht, Hv. cbn.
  eexists. split; [done|]. by apply node_inv_remove.
Qed.

(** ** Joining and leaving *)
Lemma hget_shutdowns l k f w :
  hget k f (foldl (λ w r, send_shutdown_command (w_name r) w) w l) = hget k f w.
Proof.
  apply (foldl_preserves (λ w', hget k f w' = hget k f w)); [|done].
  intros r w' <-. unfold hget. by rewrite shutdown_hashes.
Qed.

Lemma hget_deaths l k f w : hget k f (foldl (λ w r, register_death r w) w l) = hget k f w.
Proof.
  apply (foldl_preserves (λ w', hget k f w' = hget k f w)); [|done].
  intros r w' <-. unfold hget. by rewrite death_hashes.
Qed.

Lemma hdels_match k fs w : match fs with [] => w | _ => hdels k fs w end = hdels k fs w.
Proof. by destruct fs. Qed.

(** The maps after [register_node]: the node is published with no host, the
    stale bindings to its name are gone, all else is kept. *)
Lemma hget_register nw w k f : k = cfg_host_to_node_map c ∨ k = cfg_node_info_map c →
  hget k f (register_node c nw w) =
    if decide (k = cfg_node_info_map c ∧ f = nw_name nw) then
      Some (NodeInfo_dump_json (mkNodeInfo (nw_name nw) 0 (cfg_pinned_per_node c)
              (get_node_queue_name (nw_name nw))))
    else if decide (k = cfg_host_to_node_map c
                    ∧ hget (cfg_host_to_node_map c) f w = Some (nw_name nw)) then None
    else hget k f w.
Proof.
  intros Hk. unfold register_node. rewrite hdels_match, hget_hset. case_decide; [done|].
  rewrite hget_hdels, hget_deaths.
  assert (∀ l, hget k f (foldl (λ w host, foldl (λ w r, register_death r w) w
    (worker_all (Some (get_host_queue_name host)) w)) w l) = hget k f w) as Hd.
  { intros l. apply (foldl_preserves (λ w', hget k f w' = hget k f w)); [|done].
    intros h w' <-. apply hget_deaths. }
  rewrite Hd. apply decide_ext. f_equiv. rewrite list_elem_of_fmap. split.
  - intros ([h n] & -> & [Hn Hin]%list_elem_of_filter). simpl in *. subst n.
    by apply hscan_elem in Hin.
  - intros Hh. exists (f, nw_name nw). split; [done|]. apply list_elem_of_filter.
    split; [done|]. by apply hscan_elem.
Qed.

Lemma register_inv nw w : nw_pid_to_host_map nw = [] → node_inv nw (register_node c nw w).
Proof.
  intros Hnil. constructor; unfold nw_hosts; rewrite ?Hnil; simpl; try (constructor || lia).
  - rewrite hget_register by auto. rewrite decide_True by done. unfold node_entry.
    by rewrite Hnil.
  - intros Hh. rewrite hget_register in Hh by auto.
    rewrite decide_False in Hh by naive_solver. by case_decide; naive_solver.
  - intros Hh. set_solver.
  - intros p Hp. set_solver.
Qed.

(** The maps after [cleanup]. *)
Lemma hget_cleanup nw w r nw' w' k f : cleanup c (nw, w) = (r, (nw', w')) →
  r = Ok tt ∧ nw' = nw_signal nw ∧
  hget k f w' = if decide (k = cfg_node_info_map c ∧ f = nw_name nw) then None
                else if decide (k = cfg_host_to_node_map c ∧ f ∈ nw_hosts nw) then None
                else hget k f w.
Proof.
  unfold cleanup. cbn -[hdels]. rewrite hdels_match. intros [= <- <- <-]. split_and!; [done..|].
  assert (∀ l w0, hget k f (foldl (λ w host, foldl (λ w r, send_shutdown_command (w_name r) w) w
    (worker_all (Some (get_host_queue_name host)) w)) w0 l) = hget k f w0) as Hs.
  { intros l w0. apply (foldl_preserves (λ w', hget k f w' = hget k f w0)); [|done].
    intros h w'' <-. apply hget_shutdowns. }
  rewrite Hs, hget_hdel, hget_hdels. done.
Qed.

End invariant.

(** ** Signals *)
Section signals.
Context {W : Type} `{Json} `{Redis W} `{!Rq W} `{!Spawn W}.

Definition removal (nw : NodeWorker) (q : string) (pid : Z) : option (string * JobSpec) :=
  match dict_get pid (nw_pid_to_host_map nw) with
  | None | Some "" => None
  | Some host => Some (q, plain_spec f_node_remove (kw_remove pid host) None None)
  end.

Lemma remove_enqueues pid nw (w : W) r nw' w' q :
  nw_listened_queue nw = Some q → remove pid (nw, w) = (r, (nw', w')) →
  nw' = nw ∧ (∀ k, hashes w' k = hashes w k)
  ∧ match r with
    | Ok _ => queued w' = queued w ++ option_list (removal nw q pid)
    | Err e => queued w' = queued w ∧ is_exception e = true
    end.
Proof.
  intros Hq. unfold remove, removal.
  destruct (dict_get pid _) as [[|a host]|]; [by intros [= <- <- <-]; rewrite app_nil_r| |
    by intros [= <- <- <-]; rewrite app_nil_r].
  rewrite Hq. set (sp := plain_spec _ _ _ _).
  pose proof (enqueue_hashes q sp w) as Hh. pose proof (enqueue_ok q sp w) as Hok.
  pose proof (enqueue_err q sp w) as Herr.
  destruct (enqueue q sp w) as [[j|e] w1]; intros [= <- <- <-]; simpl in Hh.
  - destruct (Hok _ _ eq_refl) as (-> & _). auto.
  - destruct (Herr _ _ eq_refl). auto.
Qed.

#[local] Arguments remove : simpl never.

(** The handler of SIGCHLD never touches the maps itself: for every
    reaped child the node runs it queues one removal, in the order of the
    exits, on the node's own queue (so a removal never interleaves with a
    binding), and once the node is told to exit it queues nothing. *)
Theorem sigchld_spec reaped nw (w : W) r s' q :
  nw_listened_queue nw = Some q →
  sigchld_handler reaped (Some nw, w) = (r, s') →
  s'.1 = Some nw ∧ (∀ k, hashes s'.2 k = hashes w k)
  ∧ if nw_signaled nw then s'.2 = w ∧ r = Ok tt
    else match r with
         | Ok _ => queued s'.2 = queued w ++ omap (removal nw q) reaped
         | Err e => is_exception e = true
             ∧ ∃ n, queued s'.2 = queued w ++ omap (removal nw q) (take n reaped)
         end.
Proof.
  intros Hq. revert w. induction reaped as [|pid reaped IH]; intros w; cbn [sigchld_handler].
  { intros [= <- <-]. simpl. rewrite app_nil_r. by destruct (nw_signaled nw). }
  destruct (nw_signaled nw) eqn:Es; [apply IH|].
  destruct (remove pid (nw, w)) as [r1 [nw1 w1]] eqn:Er.
  destruct (remove_enqueues _ _ _ _ _ _ _ Hq Er) as (-> & Hh & Hr).
  destruct r1 as [[]|e].
  - intros Hs. destruct (IH _ Hs) as (-> & Hh' & Hr'). split; [done|].
    split; [intros k; by rewrite Hh', Hh|]. rewrite Hr in Hr'.
    assert (∀ l, omap (removal nw q) (pid :: l)
      = option_list (removal nw q pid) ++ omap (removal nw q) l) as Ho.
    { intros l. simpl. by destruct (removal nw q pid). }
    destruct r as [|e]; [by rewrite Ho, app_assoc|].
    destruct Hr' as (? & n & Hn). split; [done|]. exists (S n).
    rewrite Hn. simpl take. by rewrite Ho, app_assoc.
  - intros [= <- <-]. destruct Hr as [Hr ?]. split; [done|]. split; [done|]. split; [done|].
    exists 0. simpl. by rewrite app_nil_r.
Qed.
End signals.

(** ** Examples *)
Section node_examples.
Definition toy_node : NodeWorker := NodeWorker_init "n1".
Definition toy_registered : Toy.world := register_node default_config toy_node (Toy.empty 0 []).

Lemma toy_node_inv : node_inv default_config toy_node toy_registered.
Proof. by apply (register_inv default_config default_maps_differ). Qed.

Lemma add_spec_witness :
  let '(r, (nw', w')) := add default_config "HostQ_h1" "h1" (toy_node, toy_registered) in
  r = Ok tt ∧ hget (cfg_host_to_node_map default_config) "h1" w' = Some "n1".
Proof.
  pose proof (add_spec default_config default_maps_differ "HostQ_h1" "h1" _ _ toy_node_inv) as Hs.
  assert ((add default_config "HostQ_h1" "h1" (toy_node, toy_registered)).1 = Ok tt) as Hr
    by (vm_compute; reflexivity).
  destruct (add _ _ _ _) as [r [nw' w']]; simpl in Hr; subst r.
  destruct Hs as (_ & _ & Hs). rewrite decide_False in Hs by apply not_elem_of_nil.
  replace (_ >=? _)%Z with false in Hs by reflexivity.
  replace (hget _ "h1" toy_registered) with (@None string) in Hs by (vm_compute; reflexivity).
  destruct Hs as [Hh _]. split; [reflexivity|exact Hh].
Defined.

Definition toy_one : NodeWorker * Toy.world :=
  (add default_config "HostQ_h1" "h1" (toy_node, toy_registered)).2.

Lemma remove_spec_witness :
  ∃ w', _remove default_config 101 "h1" (Some toy_one.1, toy_one.2)
    = (Ok tt, (Some (nw_set_pids [] toy_one.1), w'))
  ∧ hget (cfg_host_to_node_map default_config) "h1" w' = None.
Proof.
  assert (node_inv default_config toy_one.1 toy_one.2) as Hi.
  { pose proof (add_spec default_config default_maps_differ "HostQ_h1" "h1" _ _ toy_node_inv) as Hs.
    unfold toy_one. destruct (add _ _ _ _) as [r [nw w]]. apply Hs. }
  destruct (remove_spec default_config default_maps_differ 101 "h1" _ _ Hi eq_refl)
    as (w' & Hr & _ & _ & Hh).
  exists w'. split; [exact Hr|exact Hh].
Defined.

(** The loop binds [h1] and is then stopped. *)
Definition toy_work : M (NodeWorker * Toy.world) unit :=
  λ s, let '(_, s) := add default_config "HostQ_h1" "h1" s in (Err (SystemExit 0), s).

Lemma toy_work_name s : nw_name (toy_work s).2.1 = nw_name s.1.
Proof. unfold toy_work. destruct s as [nw w]. unfold add. by repeat case_match; simplify_eq. Qed.


Lemma sigchld_spec_witness :
  let nw := nw_listening "NodeQ_n1" toy_one.1 in
  let '(r, s') := sigchld_handler [7%Z; 101%Z] (Some nw, toy_one.2) in
  Toy.t_queued s'.2
  = [("NodeQ_n1", plain_spec f_node_remove (kw_remove 101 "h1") None None)].
Proof.
  cbn zeta.
  assert ((sigchld_handler [7%Z; 101%Z] (Some (nw_listening "NodeQ_n1" toy_one.1), toy_one.2)).1
    = Ok tt) as Hr by (vm_compute; reflexivity).
  assert (omap (removal (nw_listening "NodeQ_n1" toy_one.1) "NodeQ_n1") [7%Z; 101%Z]
    = [("NodeQ_n1", plain_spec f_node_remove (kw_remove 101 "h1") None None)]) as Ho
    by (vm_compute; reflexivity).
  assert (Toy.t_queued toy_one.2 = []) as Hq0 by (vm_compute; reflexivity).
  destruct (sigchld_handler _ _) as [r s'] eqn:E. simpl in Hr. subst r.
  destruct (sigchld_spec [7%Z; 101%Z] (nw_listening "NodeQ_n1" toy_one.1) toy_one.2 (Ok tt) s'
    "NodeQ_n1" eq_refl E) as (_ & _ & Hq). cbn [nw_signaled nw_listening] in Hq.
  replace (nw_signaled toy_one.1) with false in Hq by (vm_compute; reflexivity).
  rewrite Ho in Hq. cbn -[toy_one] in Hq. rewrite Hq0 in Hq. exact Hq.
Defined.
End node_examples.
