(* ===== verification/Registry.v ===== *)
(** * The registry of detached tasks

    [DetachedTaskRegistry] of [linux_net/services/rediz.py]: one Redis hash
    from task id to the JSON of the task's metadata, and the audit job that a
    registration of a launched or completed task enqueues. *)

From S2P Require Import Prelude PyLib Models World.

Definition KEY : string := "linux_net:detached_task_registry".

Definition metadata : Type := list (string * pyval).

Section registry.
Context {W : Type} `{Json} `{Redis W} `{!Rq W}.
Context (c : Config).

(** [metadata.get("status") in ("launching", "completed")] *)
Definition lifecycle (m : metadata) : bool :=
  bool_decide (dict_get "status" m = Some (PStr "launching"))
  || bool_decide (dict_get "status" m = Some (PStr "completed")).

(** RQ takes [job_id] as the id of the new job and does not pass it on. *)
Definition audit_spec (task_id : string) (m : metadata) (job_id : option string) : JobSpec :=
  plain_spec f_process_detached_audit (kw_detached_audit task_id m None) job_id None.

Definition register (task_id : string) (m : metadata) (job_id : option string) : M W unit :=
  writes (hset KEY task_id (dumps (PDict m))) ≫= λ _,
  if cfg_mongodb_enabled c && lifecycle m then
    try_except (enqueue "AuditLogQ" (audit_spec task_id m job_id) ≫= λ _, mret tt)
      (λ _, mret tt)
  else mret tt.

(** The value of a stored entry: metadata is a dictionary. *)
Definition loads_dict (s : string) : res metadata :=
  match loads s with
  | Ok (PDict d) => Ok d
  | Ok _ => Err (TypeError "metadata is not a dictionary")
  | Err e => Err e
  end.

Definition get (task_id : string) (w : W) : res (option metadata) :=
  let data := hget KEY task_id w in
  if negb (str_truthy data) then Ok None
  else d ← loads_dict (default "" data); Ok (Some d).

Definition unregister (task_id : string) (w : W) : W := hdel KEY task_id w.

Fixpoint list_loop (l : list (string * string)) (result : list (string * metadata))
    : res (list (string * metadata)) :=
  match l with
  | [] => Ok result
  | (k, v) :: l => d ← loads_dict v; list_loop l (dict_set k d result)
  end.

Definition list_all (w : W) : res (list (string * metadata)) := list_loop (hscan_iter KEY w) [].
End registry.

Section registry_theorems.
Context {W : Type} `{Json} `{Redis W} `{!Rq W}.
Context (c : Config).
Implicit Types (m : metadata) (w : W).

Lemma loads_dict_dumps m : loads_dict (dumps (PDict m)) = Ok m.
Proof. unfold loads_dict. by rewrite loads_dumps. Qed.

Lemma truthy_dumps v : str_truthy (Some (dumps v)) = true.
Proof.
  simpl. rewrite (proj2 (String.eqb_neq _ _)); [done|apply dumps_nonempty].
Qed.

Lemma loads_dict_ordinary s : ordinary (loads_dict s).
Proof.
  unfold loads_dict. pose proof (loads_error s) as Hl.
  destruct (loads s) as [[]|e]; try (by apply ordinary_Err); [done|].
  apply ordinary_Err. by apply Hl.
Qed.

Lemma get_ordinary t w : ordinary (get t w).
Proof. unfold get. case_match; [done|]. by apply ordinary_bind; [apply loads_dict_ordinary|]. Qed.

Lemma list_all_ordinary w : ordinary (list_all w).
Proof.
  unfold list_all. generalize (@nil (string * metadata)).
  induction (hscan_iter KEY w) as [|[k v] l IH]; intros acc; [done|].
  simpl. apply ordinary_bind; [apply loads_dict_ordinary|]. intros d. apply IH.
Qed.

Lemma register_safe t m jid : safe (register c t m jid).
Proof.
  unfold register. apply safe_bind; [auto with linux_net|]. intros _.
  case_match; [|auto with linux_net]. apply safe_try; [|auto with linux_net].
  apply safe_bind; [|auto with linux_net]. intros w e He.
  destruct (enqueue _ _ w) as [r w'] eqn:E. simpl in He. subst r. by eapply enqueue_err.
Qed.

(** Every stored entry is the JSON of a dictionary; [register] is the only
    writer. *)
Definition registry_ok w : Prop :=
  ∀ t s, hget KEY t w = Some s → ∃ m, s = dumps (PDict m).

(** The registry is what its hash holds. *)
Lemma registry_same w w' : hashes w' KEY = hashes w KEY →
  (registry_ok w → registry_ok w') ∧ ∀ t, get t w' = get t w.
Proof.
  intros Hh. assert (∀ t, hget KEY t w' = hget KEY t w) as Hg by (intros; unfold hget; by rewrite Hh).
  split; [intros Hok t s; rewrite Hg; apply Hok|]. intros t. unfold get. by rewrite Hg.
Qed.

Lemma get_ok t w : registry_ok w →
  get t w = Ok (match hget KEY t w with
                | Some s => match loads s with Ok (PDict m) => Some m | _ => None end
                | None => None
                end).
Proof.
  intros Hok. unfold get. destruct (hget KEY t w) as [s|] eqn:E; [|done].
  destruct (Hok _ _ E) as [m ->]. rewrite truthy_dumps. simpl.
  by rewrite loads_dict_dumps, loads_dumps.
Qed.

Lemma registry_ok_get t w m : registry_ok w →
  get t w = Ok (Some m) ↔ hget KEY t w = Some (dumps (PDict m)).
Proof.
  intros Hok. rewrite get_ok by done. split.
  - intros [= Hg]. destruct (hget KEY t w) as [s|] eqn:E; [|done].
    destruct (Hok _ _ E) as [m' ->]. rewrite loads_dumps in Hg. by simplify_eq.
  - intros ->. by rewrite loads_dumps.
Qed.

Lemma register_eq t m jid w : ∃ w1,
  register c t m jid w = (Ok tt, w1)
  ∧ (∀ k, hashes w1 k = hashes (hset KEY t (dumps (PDict m)) w) k)
  ∧ (queued w1 = queued w ∨
     cfg_mongodb_enabled c = true ∧ lifecycle m = true
     ∧ queued w1 = queued w ++ [("AuditLogQ", audit_spec t m jid)]).
Proof.
  unfold register, writes, mbind, M_bind; simpl. set (w0 := hset _ _ _ w).
  assert (queued w0 = queued w) as Hq by apply hset_queued.
  destruct (cfg_mongodb_enabled c && lifecycle m) eqn:E; [|by eauto].
  apply andb_prop in E as [? ?].
  unfold try_except. pose proof (enqueue_hashes "AuditLogQ" (audit_spec t m jid) w0) as Hh.
  pose proof (enqueue_ok "AuditLogQ" (audit_spec t m jid) w0) as Hok.
  pose proof (enqueue_err "AuditLogQ" (audit_spec t m jid) w0) as Herr.
  destruct (enqueue _ _ w0) as [[j|e] w1]; simpl in *.
  - destruct (Hok _ _ eq_refl) as (Hq' & _). eexists. split; [done|]. split; [done|].
    right. rewrite Hq', Hq. auto.
  - destruct (Herr _ _ eq_refl) as [Hq' ->]. eexists. split; [done|]. split; [done|].
    left. by rewrite Hq', Hq.
Qed.

Lemma register_get t m jid w t' : registry_ok w →
  let w' := (register c t m jid w).2 in
  registry_ok w' ∧ get t' w' = if decide (t' = t) then Ok (Some m) else get t' w.
Proof.
  intros Hok w'. destruct (register_eq t m jid w) as (w1 & Hr & Hh & _).
  subst w'. rewrite Hr. simpl.
  assert (∀ u, hget KEY u w1 = if decide (u = t) then Some (dumps (PDict m)) else hget KEY u w) as Hg.
  { intros u. unfold hget at 1. rewrite Hh. fold (hget KEY u (hset KEY t (dumps (PDict m)) w)).
    rewrite hget_hset. repeat case_decide; naive_solver. }
  assert (registry_ok w1) as Hok'.
  { intros u s. rewrite Hg. case_decide; [intros [= <-]; eauto|apply Hok]. }
  split; [done|]. rewrite !get_ok by done. rewrite Hg. case_decide; [|done].
  by rewrite loads_dumps.
Qed.

Lemma unregister_get t w t' : registry_ok w →
  registry_ok (unregister t w)
  ∧ get t' (unregister t w) = if decide (t' = t) then Ok None else get t' w.
Proof.
  intros Hok.
  assert (∀ u, hget KEY u (unregister t w) = if decide (u = t) then None else hget KEY u w) as Hg.
  { intros u. unfold unregister. rewrite hget_hdel. repeat case_decide; naive_solver. }
  assert (registry_ok (unregister t w)) as Hok'.
  { intros u s. rewrite Hg. case_decide; [done|apply Hok]. }
  split; [done|]. rewrite !get_ok by done. rewrite Hg. by case_decide.
Qed.

Lemma list_all_NoDup w d : list_all w = Ok d → NoDup d.*1.
Proof.
  unfold list_all. assert (NoDup (@nil (string * metadata)).*1) as Hnd by constructor.
  revert Hnd. generalize (@nil (string * metadata)).
  induction (hscan_iter KEY w) as [|[k v] l IH]; intros acc Hnd; simpl; [by intros [= <-]|].
  destruct (loads_dict v) as [m|e]; [|done]. by apply IH, dict_set_NoDup.
Qed.

(** [list_all] yields exactly what [get] yields, id by id. *)
Lemma list_loop_spec l acc : (∀ k v, (k, v) ∈ l → ∃ m, v = dumps (PDict m)) →
  (∀ k v v', (k, v) ∈ l → (k, v') ∈ l → v = v') → NoDup acc.*1 →
  ∃ d, list_loop l acc = Ok d ∧ NoDup d.*1
    ∧ ∀ k m, dict_get k d = Some m ↔
        (k, dumps (PDict m)) ∈ l ∨ (k ∉ l.*1 ∧ dict_get k acc = Some m).
Proof.
  revert acc. induction l as [|[k v] l IH]; intros acc Hv Hfun Hnd; simpl.
  { exists acc. split_and!; [done|done|]. intros k m. set_solver. }
  destruct (Hv k v) as [m ->]; [set_solver|]. rewrite loads_dict_dumps. simpl.
  destruct (IH (dict_set k m acc)) as (d & -> & Hd & Hg);
    [set_solver|set_solver|by apply dict_set_NoDup|].
  exists d. split_and!; [done|done|]. intros k' m'. rewrite Hg.
  destruct (decide (k' = k)) as [->|Hne].
  - rewrite dict_get_set_eq. split.
    + intros [?|[? [= <-]]]; [set_solver|]. left. set_solver.
    + intros [[Heq|?]%elem_of_cons|[Hni _]]; [|by left|set_solver].
      injection Heq as Heq. assert (m' = m) as ->.
      { pose proof (loads_dumps (PDict m)). pose proof (loads_dumps (PDict m')). congruence. }
      destruct (decide (k ∈ l.*1)) as [Hin|?]; [|by right].
      left. apply list_elem_of_fmap in Hin as ([k' v'] & -> & Hin). simpl in *.
      by rewrite <-(Hfun k' v' (dumps (PDict m))) by set_solver.
  - rewrite dict_get_set_ne by done. set_solver.
Qed.

Lemma list_all_get w : registry_ok w →
  ∃ d, list_all w = Ok d ∧ NoDup d.*1 ∧ ∀ t, get t w = Ok (dict_get t d).
Proof.
  intros Hok. unfold list_all.
  destruct (list_loop_spec (hscan_iter KEY w) []) as (d & Hd & Hnd & Hg).
  - intros k v Hin%hscan_elem. by eapply Hok.
  - intros k v v' H1%hscan_elem H2%hscan_elem. congruence.
  - constructor.
  - exists d. split_and!; [done|done|]. intros t.
    rewrite get_ok by done. f_equal. apply option_eq. intros m. rewrite Hg. split.
    + destruct (hget KEY t w) as [s|] eqn:E; [|done].
      destruct (Hok _ _ E) as [m' ->]. rewrite loads_dumps. intros [= ->].
      left. by apply hscan_elem.
    + intros [Hin%hscan_elem|[_ ?]]; [|done]. unfold hget. rewrite Hin. by rewrite loads_dumps.
Qed.

(** The registry is a map: a registered task is found with exactly the
    metadata given, until it is registered again or removed, other tasks are
    not affected, and listing yields exactly the entries that looking up
    yields.  Registering never fails, even when the audit job cannot be
    queued, and queues one only when auditing is on and the task is
    launched or completed. *)
Theorem registry_spec t m jid w : registry_ok w →
  let w1 := (register c t m jid w).2 in
  let w2 := unregister t w1 in
  (register c t m jid w).1 = Ok tt
  ∧ registry_ok w1 ∧ registry_ok w2
  ∧ (∀ t', get t' w1 = if decide (t' = t) then Ok (Some m) else get t' w)
  ∧ (∀ t', get t' w2 = if decide (t' = t) then Ok None else get t' w)
  ∧ (∃ d, list_all w1 = Ok d ∧ ∀ t', get t' w1 = Ok (dict_get t' d))
  ∧ (cfg_mongodb_enabled c && lifecycle m = false → queued w1 = queued w).
Proof.
  intros Hok w1 w2. pose proof (λ t', register_get t m jid w t' Hok) as Hr.
  fold w1 in Hr. assert (registry_ok w1) as Hok1 by apply (Hr t).
  pose proof (λ t', unregister_get t w1 t' Hok1) as Hu. fold w2 in Hu.
  destruct (register_eq t m jid w) as (w' & He & _ & Hq).
  split_and!.
  - by rewrite He.
  - done.
  - apply (Hu t).
  - intros t'. apply Hr.
  - intros t'. destruct (Hu t') as [_ ->]. case_decide; [done|].
    destruct (Hr t') as [_ ->]. by rewrite decide_False.
  - destruct (list_all_get w1 Hok1) as (d & ? & _ & ?). eauto.
  - subst w1. rewrite He. simpl. destruct Hq as [|(-> & -> & _)]; [done|done].
Qed.
End registry_theorems.
#[export] Hint Resolve get_ordinary list_all_ordinary register_safe : linux_net.

Lemma registry_spec_witness :
  registry_ok (Toy.empty 0 []) ∧
  get "t1" (register default_config "t1" [("status", PStr "running")] None (Toy.empty 0 [])).2
  = Ok (Some [("status", PStr "running")]).
Proof.
  assert (registry_ok (Toy.empty 0 [])) as Hok by (intros t s Hs; vm_compute in Hs; discriminate).
  split; [exact Hok|].
  destruct (registry_spec default_config "t1" [("status", PStr "running")] None _ Hok)
    as (_ & _ & _ & Hg & _).
  rewrite Hg, decide_True by reflexivity. reflexivity.
Defined.
