(* ===== verification/Manager.v ===== *)
(** * The manager

    [linux_net/services/manager.py]: which queue a job goes to, how a host is
    bound to a node and its worker launched, single and bulk dispatch, the
    listing and cancelling of jobs and workers, and the calls on detached
    tasks that wait for their job. *)

From S2P Require Import Prelude PyLib Models Schedulers World Registry.
From Stdlib Require Import Ascii.

(** ** Liveness *)

(** [is_alive] of one worker at time [t], in microseconds *)
Definition is_alive (job_timeout worker_ttl : Z) (t : Z) (r : WorkerRec) : bool :=
  match w_death_date r, w_last_heartbeat r with
  | Some _, _ | _, None => false
  | None, Some hb =>
      let interval := (t - hb)%Z in
      if String.eqb (w_state r) "busy"
      then (interval <=? seconds (Z.max job_timeout worker_ttl + 5))%Z
      else (interval <=? seconds (worker_ttl + 5))%Z
  end.

(** The arguments of a dispatch that every job of it shares. *)
Record SendArgs := mkSendArgs {
  sa_ttl : option Z;
  sa_timeout : option Z;
  sa_result_ttl : option Z;
  sa_on_success : option callback;
  sa_on_failure : option callback;
}.

(** [rpc_callback_factory] *)
Definition rpc_callback_factory (f : option callback) (timeout : option Z) : option Callback :=
  (λ f, mkCallback f timeout) <$> f.

Definition payload_val (p : payload) : pyval :=
  match p with
  | PayDict d => PDict d
  | PayList l => PList (PStr <$> l)
  | PayStr s => PStr s
  end.

(** [get_command_list] *)
Definition get_command_list (r : ExecutionRequest) : option pyval :=
  let listed p := match p with PayStr s => PList [PStr s] | _ => payload_val p end in
  match er_command r with
  | Some p => if truthy (payload_val p) then Some (listed p)
              else match er_config r with
                   | Some p => if truthy (payload_val p) then Some (listed p) else None
                   | None => None
                   end
  | None => match er_config r with
            | Some p => if truthy (payload_val p) then Some (listed p) else None
            | None => None
            end
  end.

(** The effective timeout of a request *)
Definition effective_timeout (job_timeout : Z) (r : ExecutionRequest) : Z :=
  match er_execution_timeout r with
  | Some t => t
  | None => if is_some (er_file_transfer r) then 3600%Z else job_timeout
  end.

Section manager.
Context {W : Type} `{Json} `{Redis W} `{!Rq W} `{!Clock W} `{!Trace W} `{!Scheduler W}.
Context (c : Config).

(** ** Jobs *)
Definition new_trace_id (prefix : string) : M W string :=
  h ← update uuid4_hex; mret (prefix +:+ "_" +:+ String.substring 0 16 h).

(** [x or new_trace_id(prefix)] *)
Definition id_or_new (x : option string) (prefix : string) : M W string :=
  match x with
  | Some i => if String.eqb i "" then new_trace_id prefix else mret i
  | None => new_trace_id prefix
  end.

Definition _job_meta (meta : option (list (string * pyval))) : M W (list (string * pyval)) :=
  let job_meta := match meta with
                  | None | Some [] => JobAdditionalData_dump JobAdditionalData_default
                  | Some m => m
                  end in
  rid ← reads request_id_var;
  request_id ← id_or_new rid "req";
  let job_meta := dict_setdefault "request_id" (PStr request_id) job_meta in
  tid ← reads job_trace_id_var;
  job_trace_id ← id_or_new tid "job";
  mret (dict_setdefault "job_trace_id" (PStr job_trace_id) job_meta).

Definition job_spec (f : func) (kw : kwargs) (a : SendArgs) (meta : option (list (string * pyval)))
    : M W JobSpec :=
  let on_failure := match sa_on_failure a with None => Some rpc_exception_callback | o => o end in
  let job_timeout := default (cfg_job_timeout c) (sa_timeout a) in
  let on_success_cb := rpc_callback_factory (sa_on_success a) (Some job_timeout) in
  let on_failure_cb := rpc_callback_factory on_failure (Some job_timeout) in
  let effective_result_ttl := default (cfg_job_result_ttl c) (sa_result_ttl a) in
  let ttl := if int_truthy (sa_ttl a) then sa_ttl a else Some (cfg_job_ttl c) in
  m ← _job_meta meta;
  mret (mkJobSpec f kw None (Some job_timeout) ttl (Some effective_result_ttl)
          (Some effective_result_ttl) m on_success_cb on_failure_cb).

Definition _send_job (q_name : string) (f : func) (kw : kwargs) (a : SendArgs)
    (meta : option (list (string * pyval))) : M W Job :=
  s ← job_spec f kw a meta; enqueue q_name s.

(** [_send_job] with a pipeline: the job and what the pipe holds of it *)
Definition _send_job_pipe (q_name : string) (f : func) (kw : kwargs) (a : SendArgs)
    (meta : option (list (string * pyval))) : M W (string * JobSpec * Job) :=
  s ← job_spec f kw a meta; j ← enqueue_pipe q_name s; mret (q_name, s, j).

(** [metas[idx] if metas and idx < len(metas) else meta] *)
Definition meta_at (metas : list (list (string * pyval))) (meta : option (list (string * pyval)))
    (idx : nat) : option (list (string * pyval)) :=
  match metas !! idx with Some m => Some m | None => meta end.

Fixpoint batch_specs (idx : nat) (jobs : list (func * kwargs)) (a : SendArgs)
    (meta : option (list (string * pyval))) (metas : list (list (string * pyval)))
    : M W (list JobSpec) :=
  match jobs with
  | [] => mret []
  | (f, kw) :: jobs =>
      s ← job_spec f kw a (meta_at metas meta idx);
      ss ← batch_specs (S idx) jobs a meta metas;
      mret (s :: ss)
  end.

Definition _send_batch_jobs (q_name : string) (funcs : list func) (kwargses : list kwargs)
    (a : SendArgs) (meta : option (list (string * pyval)))
    (metas : list (list (string * pyval))) : M W (list Job) :=
  if negb (length funcs =? length kwargses) then raise (AssertionError "Function and kwargs mismatch")
  else ss ← batch_specs 0 (zip funcs kwargses) a meta metas; enqueue_many q_name ss.

(** ** Nodes *)
Definition _check_worker_alive (q_name : string) (w : W) : bool :=
  any (is_alive (cfg_job_timeout c) (cfg_worker_ttl c) (now w)) (worker_all (Some q_name) w).

Fixpoint assign_results (l : list (nat * option string)) (final_results : list (option NodeInfo))
    : res (list (option NodeInfo)) :=
  match l with
  | [] => Ok final_results
  | (idx, value) :: l =>
      if str_truthy value then
        n ← NodeInfo_validate_json (default "" value);
        final_results ← set_item idx (Some n) final_results;
        assign_results l final_results
      else assign_results l final_results
  end.

(** [_get_assigned_node_for_host] of a list; Redis refuses an [HMGET] of no
    field. *)
Definition _get_assigned_node_for_host (hosts : list string) (w : W)
    : res (list (option NodeInfo)) :=
  if (length hosts =? 0)
  then Err (OtherError "ResponseError" "wrong number of arguments for 'hmget' command") else
  let host_mappings := hmget (cfg_host_to_node_map c) hosts w in
  if negb (any str_truthy host_mappings) then Ok (replicate (length hosts) None)
  else
    let valid_data :=
      omap (λ im, match im.2 with Some m => Some (im.1, m) | None => None end)
        (imap pair host_mappings) in
    let node_values := hmget (cfg_node_info_map c) valid_data.*2 w in
    assign_results (zip valid_data.*1 node_values) (replicate (length hosts) None).

Definition get_node (node : string) (w : W) : res (option NodeInfo) :=
  let node_info := hget (cfg_node_info_map c) node w in
  if negb (str_truthy node_info) then Ok None
  else n ← NodeInfo_validate_json (default "" node_info); Ok (Some n).

Fixpoint nodes_loop (l : list (string * string)) (nodes_dict : list (string * NodeInfo))
    : res (list (string * NodeInfo)) :=
  match l with
  | [] => Ok nodes_dict
  | (hostname, node_json) :: l =>
      if str_truthy (Some node_json) then
        n ← NodeInfo_validate_json node_json; nodes_loop l (dict_set hostname n nodes_dict)
      else nodes_loop l nodes_dict
  end.

Definition get_all_nodes (w : W) : res (list NodeInfo) :=
  d ← nodes_loop (hscan_iter (cfg_node_info_map c) w) []; Ok d.*2.

Definition no_args : SendArgs := mkSendArgs None None None None None.

Definition _try_launch_pinned_worker (hosts : list string) (node : NodeInfo) : M W (list string) :=
  let funcs := replicate (length hosts) f_spawn in
  let kwargses := (λ host, kw_spawn (get_host_queue_name host) host) <$> hosts in
  _send_batch_jobs (ni_queue node) funcs kwargses no_args None [] ≫= λ _,
  mret (get_host_queue_name <$> hosts).

Definition _force_delete_node (node : NodeInfo) (w : W) : W :=
  let keys_to_delete :=
    (filter (λ hn, hn.2 = ni_hostname node) (hscan_iter (cfg_host_to_node_map c) w)).*1 in
  let w := match keys_to_delete with
           | [] => w
           | _ => hdels (cfg_host_to_node_map c) keys_to_delete w
           end in
  let w := hdel (cfg_node_info_map c) (ni_hostname node) w in
  foldl (λ w host, foldl (λ w r, send_shutdown_command (w_name r) w) w
           (worker_all (Some (get_host_queue_name host)) w)) w keys_to_delete.

(** ** Single dispatch *)

(** [while cnt <= MAX_RETRIES]: at most [tries] iterations *)
Fixpoint select_loop (tries : nat) (host : string) (node : option NodeInfo)
    : M W (option NodeInfo) :=
  match tries with
  | O => mret node
  | S tries => λ w,
      match _get_assigned_node_for_host [host] w with
      | Err e => (Err e, w)
      | Ok l =>
          match head l with
          | Some (Some n) =>
              if negb (_check_worker_alive (ni_queue n) w)
              then select_loop tries host None (_force_delete_node n w)
              else (Ok (Some n), w)
          | _ =>
              match (nodes ← of_res (get_all_nodes w); node_select nodes host) w with
              | (Err e, w) =>
                  if is_exception e then select_loop tries host None w else (Err e, w)
              | (Ok (Some n), w) =>
                  if negb (_check_worker_alive (ni_queue n) w)
                  then select_loop tries host None (_force_delete_node n w)
                  else (Ok (Some n), w)
              | (Ok None, w) => select_loop tries host None w
              end
          end
      end
  end.

Definition MAX_RETRIES : nat := 3.

(** The queue of a PINNED job: the host is bound to a live node, and the
    launch of its worker is queued when it has none. *)
Definition pinned_queue (host : string) : M W string :=
  let q_name := get_host_queue_name host in
  node ← select_loop (S MAX_RETRIES) host None;
  match node with
  | None => raise (WorkerUnavailableError "No available node to run the job")
  | Some node =>
      alive ← reads (_check_worker_alive q_name);
      if negb alive then
        qs ← _try_launch_pinned_worker [host] node; mret (default q_name (head qs))
      else mret q_name
  end.

Definition fifo_queue : M W string :=
  alive ← reads (_check_worker_alive get_fifo_queue_name);
  if negb alive
  then raise (WorkerUnavailableError "No available FIFO worker to run the job")
  else mret get_fifo_queue_name.

Definition dispatch_rpc_job (conn_arg : DriverConnectionArgs) (q_strategy : QueueStrategy)
    (f : func) (kw : kwargs) (a : SendArgs) (meta : option (list (string * pyval)))
    : M W JobInResponse :=
  q_name ←
    match q_strategy with
    | FIFO => fifo_queue
    | PINNED =>
        if negb (str_truthy (dc_host conn_arg))
        then raise (AssertionError "Host is required for Pinned Worker")
        else pinned_queue (default "" (dc_host conn_arg))
    end;
  job ← _send_job q_name f kw a meta;
  mret (JobInResponse.from_job job).

(** ** Bulk dispatch *)

(** A Redis command refuses [None] as an argument. *)
Fixpoint conn_hosts (conn_args : list DriverConnectionArgs) : res (list string) :=
  match conn_args with
  | [] => Ok []
  | a :: conn_args =>
      match dc_host a with
      | None => Err (OtherError "DataError" "Invalid input of type: 'NoneType'.")
      | Some h => hs ← conn_hosts conn_args; Ok (h :: hs)
      end
  end.

Definition has_failed (failed_hosts : list BatchFailedItem) (host : string) : bool :=
  any (λ f, String.eqb (bf_host f) host) failed_hosts.

(** The first loop over [selected_nodes]: hosts without a node fail, every
    other one is a group of its own. *)
Fixpoint group_selected (hosts : list string) (unassigned_host_idx : list nat)
    (idx : nat) (selected_nodes : list (option NodeInfo))
    (failed_hosts : list BatchFailedItem) (node_group : list (NodeInfo * nat))
    : res (list (NodeInfo * nat)) * list BatchFailedItem :=
  match selected_nodes with
  | [] => (Ok node_group, failed_hosts)
  | n :: selected_nodes =>
      match unassigned_host_idx !! idx with
      | None => (Err (IndexError "list index out of range"), failed_hosts)
      | Some original_idx =>
          match n with
          | None =>
              group_selected hosts unassigned_host_idx (S idx) selected_nodes
                (failed_hosts
                   ++ [mkBatchFailedItem (default "" (hosts !! original_idx)) "No capacity on nodes"])
                node_group
          | Some n =>
              group_selected hosts unassigned_host_idx (S idx) selected_nodes failed_hosts
                (node_group ++ [(n, original_idx)])
          end
      end
  end.

(** The second loop: a dead node is deleted, a live one gets the launch. *)
Fixpoint launch_groups (hosts : list string) (node_group : list (NodeInfo * nat))
    (failed_hosts : list BatchFailedItem) : M W (list BatchFailedItem) :=
  match node_group with
  | [] => mret failed_hosts
  | (n, i) :: node_group => λ w,
      let host := default "" (hosts !! i) in
      if negb (_check_worker_alive (ni_queue n) w) then
        launch_groups hosts node_group
          (failed_hosts
             ++ [mkBatchFailedItem host ("Node " +:+ ni_hostname n +:+ " dead")])
          (_force_delete_node n w)
      else
        match _try_launch_pinned_worker [host] n w with
        | (Ok _, w) => launch_groups hosts node_group failed_hosts w
        | (Err e, w) =>
            if is_exception e
            then launch_groups hosts node_group
                   (failed_hosts ++ [mkBatchFailedItem host (exn_str e)]) w
            else (Err e, w)
        end
  end.

(** The handler [except Exception]: every unassigned host that has not failed
    yet fails. *)
Definition fail_rest (hosts : list string) (unassigned_host_idx : list nat) (e : exn)
    (failed_hosts : list BatchFailedItem) : list BatchFailedItem :=
  foldl (λ failed i,
    let host := default "" (hosts !! i) in
    if has_failed failed host then failed else failed ++ [mkBatchFailedItem host (exn_str e)])
    failed_hosts unassigned_host_idx.

Definition schedule_unassigned (hosts : list string) (unassigned_host_idx : list nat)
    : M W (list BatchFailedItem) := λ w,
  let handle e failed w :=
    if is_exception e then (Ok (fail_rest hosts unassigned_host_idx e failed), w) else (Err e, w) in
  match (nodes ← of_res (get_all_nodes w);
         batch_node_select nodes ((λ i, default "" (hosts !! i)) <$> unassigned_host_idx)) w with
  | (Err e, w) => handle e [] w
  | (Ok [], w) => handle (WorkerUnavailableError "No available nodes to run the job") [] w
  | (Ok selected_nodes, w) =>
      match group_selected hosts unassigned_host_idx 0 selected_nodes [] [] with
      | (Err e, failed) => handle e failed w
      | (Ok node_group, failed) => launch_groups hosts node_group failed w
      end
  end.

Fixpoint send_ready (hosts : list string) (ready_idx : list nat) (f : func)
    (kwargses : list kwargs) (a : SendArgs) (meta : option (list (string * pyval)))
    (metas : list (list (string * pyval))) : M W (list (string * JobSpec * Job)) :=
  match ready_idx with
  | [] => mret []
  | i :: ready_idx =>
      kw ← match kwargses !! i with
           | Some kw => mret kw
           | None => raise (IndexError "list index out of range")
           end;
      x ← _send_job_pipe (get_host_queue_name (default "" (hosts !! i))) f kw a (meta_at metas meta i);
      xs ← send_ready hosts ready_idx f kwargses a meta metas;
      mret (x :: xs)
  end.

Definition is_none {A} (o : option A) : bool := negb (is_some o).

Definition idx_where (p : option NodeInfo → bool) (nodes : list (option NodeInfo)) : list nat :=
  omap (λ im, if p im.2 then Some im.1 else None) (imap pair nodes).

Definition dispatch_bulk_rpc_jobs (conn_args : list DriverConnectionArgs)
    (q_strategy : QueueStrategy) (f : func) (kwargses : list kwargs) (a : SendArgs)
    (meta : option (list (string * pyval))) (metas : list (list (string * pyval)))
    : M W (list JobInResponse * list BatchFailedItem) :=
  if negb (length conn_args =? length kwargses)
  then raise (AssertionError "conn_args and kwargs mismatch") else
  match q_strategy with
  | FIFO =>
      q_name ← fifo_queue;
      jobs ← _send_batch_jobs q_name (replicate (length conn_args) f) kwargses a meta metas;
      mret (JobInResponse.from_job <$> jobs, [])
  | PINNED => λ w,
      match (hosts ← conn_hosts conn_args;
             nodes ← _get_assigned_node_for_host hosts w; Ok (hosts, nodes)) with
      | Err e => (Err e, w)
      | Ok (hosts, nodes) =>
          if negb (length hosts =? length nodes)
          then (Err (AssertionError "Host and node number mismatch"), w) else
          let assigned_host_idx := idx_where is_some nodes in
          let unassigned_host_idx := idx_where is_none nodes in
          match (match unassigned_host_idx with
                 | [] => mret []
                 | _ => schedule_unassigned hosts unassigned_host_idx
                 end) w with
          | (Err e, w) => (Err e, w)
          | (Ok failed_hosts, w) =>
              let ready_idx := assigned_host_idx
                ++ filter (λ i, has_failed failed_hosts (default "" (hosts !! i)) = false)
                     unassigned_host_idx in
              match ready_idx with
              | [] => (Ok ([], failed_hosts), w)
              | _ =>
                  match (xs ← send_ready hosts ready_idx f kwargses a meta metas;
                         pipe_execute xs ≫= λ _, mret xs) w with
                  | (Ok xs, w) => (Ok (JobInResponse.from_job <$> xs.*2, failed_hosts), w)
                  | (Err e, w) =>
                      if is_exception e then
                        (Ok ([], failed_hosts ++
                           ((λ i, mkBatchFailedItem (default "" (hosts !! i))
                                    ("Redis error: " +:+ exn_str e)) <$> ready_idx)), w)
                      else (Err e, w)
                  end
              end
          end
      end
  end.

(** ** Execution requests *)
Definition exec_args (req : ExecutionRequest) : SendArgs :=
  mkSendArgs (er_ttl req) (Some (effective_timeout (cfg_job_timeout c) req)) (er_result_ttl req)
    (Some rpc_webhook_callback) (Some rpc_webhook_callback).

(** [meta.model_dump()] of the fields [execute_on_device] assigns, which
    pydantic does not check *)
Definition exec_meta (task_id : option string) (req : ExecutionRequest) : list (string * pyval) :=
  [("error", PNone); ("task_id", opt_str task_id); ("request_id", PNone); ("job_trace_id", PNone);
   ("device_name", opt_str (dc_host (er_connection_args req)));
   ("command", default PNone (get_command_list req))].

Definition webhook_val (o : option WebHook) : pyval :=
  from_option (λ w, PDict (WebHook_dump w)) PNone o.

Definition launching_meta (task_id : string) (req : ExecutionRequest) (t : Z) : metadata :=
  [("task_id", PStr task_id); ("status", PStr "launching");
   ("host", opt_str (dc_host (er_connection_args req)));
   ("driver", PStr (driver_value (er_driver req))); ("worker_id", PNone);
   ("push_interval", opt_int (er_push_interval req)); ("webhook", webhook_val (er_webhook req));
   ("connection_args", PDict (DriverConnectionArgs_dump (er_connection_args req)));
   ("last_sync", PInt 0); ("created_at", PFloat t)].

Definition execute_on_device (req : ExecutionRequest) : M W JobInResponse :=
  match er_queue_strategy req with
  | None => raise (AssertionError "Queue strategy is required for execution request")
  | Some q_strategy =>
      task_id ← (if er_detach req
                 then u ← update uuid4_str; mret (Some (String.substring 0 12 u))
                 else mret None);
      r ← dispatch_rpc_job (er_connection_args req) q_strategy f_execute (kw_req req)
            (exec_args req) (Some (exec_meta task_id req));
      match task_id with
      | None => mret r
      | Some t =>
          at_ ← reads now;
          register c t (launching_meta t req at_) (Some (ji_id r)) ≫= λ _, mret r
      end
  end.

(** [JobAdditionalData(device_name=..., command=...)] of one request *)
Definition bulk_meta (req : ExecutionRequest) : res (list (string * pyval)) :=
  m ← JobAdditionalData_validate
        [("device_name", opt_str (dc_host (er_connection_args req)));
         ("command", default PNone (get_command_list req))];
  Ok (JobAdditionalData_dump m).

Definition execute_on_bulk_devices (reqs : list ExecutionRequest)
    : M W (list JobInResponse * list BatchFailedItem) :=
  match reqs with
  | [] => raise (AssertionError "Empty execution request list")
  | req0 :: _ =>
      match er_queue_strategy req0 with
      | None => raise (AssertionError "Queue strategy is required for execution request")
      | Some q_strategy =>
          metas ← of_res (mapR bulk_meta reqs);
          dispatch_bulk_rpc_jobs (er_connection_args <$> reqs) q_strategy f_execute
            (kw_req <$> reqs) (exec_args req0) None metas
      end
  end.

(** ** Job and worker lists; a Python [set] is taken in order of first
    occurrence, and a limit is not negative. *)
Definition limited {A} (limit : option nat) (l : list A) : list A :=
  match limit with None => l | Some n => take n l end.

Definition _get_all_job_id (w : W) : list string :=
  remove_dups ((λ k, List.last (split_char ":"%char k) "") <$> all_job_keys w).

Definition _get_job_id_by_status (state q_name : string) (w : W) : list string :=
  if bool_decide (state ∈ ["started"; "finished"; "failed"])
  then registry_job_ids state q_name w else [].

Definition _get_job_id_by_status_all_queues (state : string) (w : W) : list string :=
  if bool_decide (state ∈ ["started"; "finished"; "failed"; "queued"]) then
    let queue_names :=
      remove_dups ((worker_all None w ≫= w_queue_names) ++ [get_fifo_queue_name]) in
    let all_job_ids :=
      queue_names ≫= λ q,
        if String.eqb state "queued" then job_id <$> queue_jobs q w
        else _get_job_id_by_status state q w in
    remove_dups all_job_ids
  else [].

Definition get_job_list_by_ids (job_ids : list string) (w : W) : list JobInResponse :=
  JobInResponse.from_job <$> omap (λ i, job_fetch i w) job_ids.

Definition get_job_list (q_name status : option string) (limit : option nat) (w : W)
    : list JobInResponse :=
  if str_truthy q_name then
    let q := default "" q_name in
    if str_truthy status then
      limited limit (get_job_list_by_ids (_get_job_id_by_status (default "" status) q w) w)
    else
      match limit with
      | Some (S n) => take (S n) (JobInResponse.from_job <$> take (S n) (queue_jobs q w))
      | _ => JobInResponse.from_job <$> queue_jobs q w
      end
  else if str_truthy status then
    limited limit (get_job_list_by_ids (_get_job_id_by_status_all_queues (default "" status) w) w)
  else get_job_list_by_ids (limited limit (_get_all_job_id w)) w.

(** [except (InvalidJobOperation, JobOperationError)] *)
Definition is_job_operation (e : exn) : bool :=
  match e with InvalidJobOperation _ | JobOperationError _ => true | _ => false end.

Fixpoint cancel_queued (jobs : list Job) (cancelled : list string) : M W (list string) :=
  match jobs with
  | [] => mret cancelled
  | j :: jobs =>
      if bool_decide (job_status j = Some "queued") then
        λ w, match job_cancel (job_id j) w with
             | (Ok _, w) => cancel_queued jobs (cancelled ++ [job_id j]) w
             | (Err e, w) => if is_exception e then cancel_queued jobs cancelled w else (Err e, w)
             end
      else cancel_queued jobs cancelled
  end.

Definition cancel_job (id q_name : option string) : M W (list string) :=
  if str_truthy id then λ w,
    let i := default "" id in
    match job_fetch i w with
    | None => (Ok [], w)
    | Some job =>
        if bool_decide (job_status job = Some "queued") then
          match job_cancel i w with
          | (Ok _, w) => (Ok [i], w)
          | (Err (NoSuchJobError m), w) => (Ok [], w)
          | (Err e, w) => if is_job_operation e then (Ok [], w) else (Err e, w)
          end
        else (Ok [], w)
    end
  else if str_truthy q_name then λ w, cancel_queued (queue_jobs (default "" q_name) w) [] w
  else mret [].

Definition get_worker_list (q_name : option string) (w : W) : list WorkerRec :=
  worker_all q_name w.

Definition kill_worker (name q_name : option string) (w : W) : list string * W :=
  if str_truthy name then
    ([default "" name], send_shutdown_command (default "" name) w)
  else if str_truthy q_name then
    let workers := worker_all q_name w in
    (w_name <$> workers, foldl (λ w r, send_shutdown_command (w_name r) w) w workers)
  else ([], w).

(** ** Detached tasks *)
Definition status_is (status : string) (m : metadata) : bool :=
  bool_decide (dict_get "status" m = Some (PStr status)).

Definition list_detached_tasks (status : option string) (w : W)
    : res (list (string * metadata)) :=
  tasks ← list_all w;
  Ok (if str_truthy status then filter (λ kv, status_is (default "" status) kv.2 = true) tasks
      else tasks).

Definition clear_detached_tasks : M W nat := λ w,
  match list_all w with
  | Err e => (Err e, w)
  | Ok tasks => (Ok (length tasks), foldl (λ w kv, unregister kv.1 w) w tasks)
  end.

(** [DriverConnectionArgs( **meta["connection_args"])] *)
Definition meta_conn_args (meta : metadata) : res DriverConnectionArgs :=
  match dict_get "connection_args" meta with
  | None => Err (KeyError "connection_args")
  | Some (PDict d) => DriverConnectionArgs_validate d
  | Some _ => Err (TypeError "argument after ** must be a mapping")
  end.

Definition management_args : SendArgs := mkSendArgs (Some 30%Z) None (Some 60%Z) None None.

Definition job_is (status : string) (j : Job) : bool :=
  bool_decide (job_status j = Some status).

(** [rq_job.result] *)
Definition job_result (j : Job) : option (list DriverExecutionResult) :=
  job_latest_result j ≫= rr_return_value.

(** [while time.time() - start < limit: ... time.sleep(0.1)], on fuel; [None]
    is the end of the wait. *)
Fixpoint poll {A} (fuel : nat) (start limit : Z) (id : string)
    (step : Job → option (M W A)) : M W (option A) :=
  match fuel with
  | O => raise OutOfFuel
  | S fuel => λ w,
      if (now w - start <? limit)%Z then
        match job_fetch id w with
        | None => (Err (NoSuchJobError ("No such job: " +:+ id)), w)
        | Some rq_job =>
            match step rq_job with
            | Some m => (a ← m; mret (Some a)) w
            | None => poll fuel start limit id step (sleep 100000 w)
            end
        end
      else (Ok None, w)
  end.

(** Enough iterations for [limit], in steps of a tenth of a second *)
Definition poll_fuel (limit : Z) : nat := S (Z.to_nat (limit / 100000 + 1)).

(** The registry update after a successful query; an exception is only logged. *)
Fixpoint query_update (result : list DriverExecutionResult) (jid task_id : string)
    : M W (string * bool) :=
  match result with
  | [] => mret (task_id, true)
  | val :: result =>
      match dict_get "task_id" (r_metadata val) with
      | Some (PStr task_id) =>
          let next_offset := dict_get_or "next_offset" PNone (r_metadata val) in
          let is_running := truthy (dict_get_or "is_running" (PBool true) (r_metadata val)) in
          try_except
            (m ← (λ w, (get task_id w, w));
             match m with
             | Some (kv :: m) =>
                 let m := kv :: m in
                 let m := if bool_decide (next_offset = PNone) then m
                          else dict_set "last_offset" next_offset m in
                 t ← reads now;
                 let m := dict_set "last_sync" (PFloat t) m in
                 let m := dict_set "status" (PStr (if is_running then "running" else "completed")) m in
                 register c task_id m (Some jid)
             | _ => mret tt
             end) (λ _, mret tt) ≫= λ _, mret (task_id, is_running)
      | _ => query_update result jid task_id
      end
  end.

(** The answer: the task, whether it still runs, and what the job returned *)
Definition query_detached_task (task_id : string) (offset : option Z)
    : M W (string * bool * option (list DriverExecutionResult)) :=
  m ← (λ w, (get task_id w, w));
  match m with
  | None | Some [] => raise (ValueError ("Detached Task " +:+ task_id +:+ " not found in registry"))
  | Some meta =>
      conn_arg ← of_res (meta_conn_args meta);
      job ← dispatch_rpc_job conn_arg PINNED f_manage_detached_task
              (kw_manage task_id "query" (Some offset)) management_args None;
      start ← reads now;
      r ← poll (poll_fuel (seconds 5)) start (seconds 5) (ji_id job) (λ rq_job,
            if job_is "finished" rq_job then
              let result := job_result rq_job in
              Some ('(task_id, is_running) ← query_update (default [] result) (ji_id job) task_id;
                    mret (task_id, is_running, result))
            else if job_is "failed" rq_job then
              Some (λ w, (Err (JobOperationError ("Detached Task query failed: "
                                 +:+ job_exc_info (ji_id job) w)), w))
            else None);
      match r with
      | Some a => mret a
      | None => raise (JobOperationError "Detached Task query timed out")
      end
  end.

Definition kill_detached_task (task_id : string) : M W bool :=
  m ← (λ w, (get task_id w, w));
  match m with
  | None | Some [] => mret false
  | Some meta =>
      conn_arg ← of_res (meta_conn_args meta);
      job ← dispatch_rpc_job conn_arg PINNED f_manage_detached_task
              (kw_manage task_id "kill" None) management_args None;
      start ← reads now;
      r ← poll (poll_fuel (seconds 10)) start (seconds 10) (ji_id job) (λ rq_job,
            if job_is "finished" rq_job then
              Some (writes (unregister task_id) ≫= λ _,
                    mret (match job_result rq_job with
                          | Some (v :: _) => (r_exit_status v =? 0)%Z
                          | _ => true
                          end))
            else if job_is "failed" rq_job then Some (mret false)
            else None);
      mret (default false r)
  end.

(** [any(at["task_id"] == tid for at in active_tasks)] *)
Definition task_found (tid : string) (active_tasks : list pyval) : bool :=
  any (λ t, match t with
            | PDict d => bool_decide (dict_get "task_id" d = Some (PStr tid))
            | _ => false
            end) active_tasks.

Fixpoint sync_off (host : option string) (active_tasks : list pyval) (jid : string)
    (all_tasks : list (string * metadata)) (updated_count : nat) : M W nat :=
  match all_tasks with
  | [] => mret updated_count
  | (tid, meta) :: all_tasks =>
      if bool_decide (dict_get_or "host" PNone meta = opt_str host) && status_is "running" meta
         && negb (task_found tid active_tasks)
      then
        t ← reads now;
        let meta := dict_set "last_sync" (PFloat t) (dict_set "status" (PStr "completed") meta) in
        register c tid meta (Some jid) ≫= λ _,
        sync_off host active_tasks jid all_tasks (S updated_count)
      else sync_off host active_tasks jid all_tasks updated_count
  end.

Definition discovery_request (driver : DriverName) (conn_arg : DriverConnectionArgs)
    : ExecutionRequest :=
  mkExecutionRequest driver (Some [("list_active_detached_tasks", PBool true)]) conn_arg None None
    (Some (PayList [])) None None None None None None None audit_full None false None None None [].

Definition discover_detached_tasks (conn_arg : DriverConnectionArgs) (driver : DriverName)
    : M W (nat * nat * list pyval) :=
  req ← of_res (ExecutionRequest.model_validate (discovery_request driver conn_arg));
  job ← dispatch_rpc_job conn_arg PINNED f_execute (kw_req req) management_args None;
  start ← reads now;
  r ← poll (poll_fuel (seconds 10)) start (seconds 10) (ji_id job) (λ rq_job,
        if job_is "finished" rq_job then
          Some (match job_result rq_job with
                | Some (val :: _) =>
                    let active_tasks := match dict_get "active_tasks" (r_metadata val) with
                                        | Some (PList l) => l
                                        | _ => []
                                        end in
                    all_tasks ← (λ w, (list_all w, w));
                    updated_count ← sync_off (dc_host conn_arg) active_tasks (ji_id job) all_tasks 0;
                    mret (length active_tasks, updated_count, active_tasks)
                | Some [] => raise (IndexError "list index out of range")
                | None => raise (TypeError "'NoneType' object is not subscriptable")
                end)
        else if job_is "failed" rq_job then
          Some (raise (JobOperationError "Detached Task discovery failed"))
        else None);
  match r with
  | Some a => mret a
  | None => raise (JobOperationError "Detached Task discovery timed out")
  end.
End manager.

(** ** Lemmas on sending jobs *)
Section sending.
Context {W : Type} `{Json} `{Redis W} `{!Rq W} `{!Clock W} `{!Trace W} `{!Scheduler W}.
Context (c : Config).
Implicit Types (w : W) (a : SendArgs).

(** The world as far as hashes and the queue log go. *)
Definition same w w' : Prop := (∀ k, hashes w' k = hashes w k) ∧ queued w' = queued w.

Lemma same_refl w : same w w.
Proof. done. Qed.
Lemma same_trans w1 w2 w3 : same w1 w2 → same w2 w3 → same w1 w3.
Proof. intros [H1 H2] [H3 H4]. split; [intros k; by rewrite H3|congruence]. Qed.

Lemma new_trace_id_ok prefix w : ∃ i w', new_trace_id prefix w = (Ok i, w') ∧ same w w'.
Proof.
  unfold new_trace_id, mbind, M_bind, update.
  pose proof (uuid4_hex_hashes w). pose proof (uuid4_hex_queued w).
  destruct (uuid4_hex w) as [h w']. simpl in *. eexists _, _. split; [done|]. done.
Qed.

Lemma id_or_new_ok x prefix w : ∃ i w', id_or_new x prefix w = (Ok i, w') ∧ same w w'.
Proof.
  unfold id_or_new. destruct x as [i|]; [|apply new_trace_id_ok].
  destruct (String.eqb i ""); [apply new_trace_id_ok|]. by eexists _, _.
Qed.

Definition meta_or_default (meta : option (list (string * pyval))) : list (string * pyval) :=
  match meta with
  | None | Some [] => JobAdditionalData_dump JobAdditionalData_default
  | Some m => m
  end.

Lemma job_meta_ok meta w : ∃ r t w',
  _job_meta meta w
    = (Ok (dict_setdefault "job_trace_id" (PStr t)
             (dict_setdefault "request_id" (PStr r) (meta_or_default meta))), w')
  ∧ same w w'.
Proof.
  unfold _job_meta, mbind, M_bind, reads.
  destruct (id_or_new_ok (request_id_var w) "req" w) as (r & w1 & -> & H1).
  destruct (id_or_new_ok (job_trace_id_var w1) "job" w1) as (t & w2 & -> & H2).
  exists r, t, w2. split; [|by eapply same_trans]. by destruct meta as [[]|].
Qed.

(** A job carries the metadata it was given, its identifiers apart. *)
Definition meta_kept (meta : option (list (string * pyval))) (s : JobSpec) : Prop :=
  ∀ k, k ≠ "request_id" → k ≠ "job_trace_id" →
    dict_get k (js_meta s) = dict_get k (meta_or_default meta).

Lemma job_spec_ok f kw a meta w : ∃ s w', job_spec c f kw a meta w = (Ok s, w') ∧ same w w'
  ∧ js_func s = f ∧ js_kwargs s = kw ∧ js_id s = None
  ∧ js_timeout s = Some (default (cfg_job_timeout c) (sa_timeout a))
  ∧ js_on_failure s = Some (mkCallback (default rpc_exception_callback (sa_on_failure a)) (js_timeout s))
  ∧ js_on_success s = ((λ cb, mkCallback cb (js_timeout s)) <$> sa_on_success a)
  ∧ meta_kept meta s.
Proof.
  unfold job_spec, mbind, M_bind.
  destruct (job_meta_ok meta w) as (r & t & w' & -> & Hs).
  eexists _, _. split; [done|]. split; [done|]. simpl. split_and!; try done.
  - by destruct (sa_on_failure a).
  - intros k Hr Ht. simpl. by rewrite !dict_get_setdefault_ne.
Qed.

(** Finding: the identifiers of the request never reach a job.  The dump of
    the metadata has the keys already, with [None], and [setdefault] keeps
    them. *)
Lemma job_meta_drops_request_id meta w m w' :
  dict_get "request_id" (meta_or_default meta) = Some PNone →
  _job_meta meta w = (Ok m, w') → dict_get "request_id" m = Some PNone.
Proof.
  intros Hn. destruct (job_meta_ok meta w) as (r & t & w1 & -> & _). intros [= <- _].
  rewrite dict_get_setdefault_ne by done. unfold dict_setdefault. by rewrite Hn.
Qed.

Lemma send_job_ok q f kw a meta w :
  match _send_job c q f kw a meta w with
  | (Ok j, w') => ∃ s, queued w' = queued w ++ [(q, s)] ∧ js_func s = f ∧ js_kwargs s = kw
      ∧ stored w' (job_id j) = Some f ∧ meta_kept meta s
      ∧ js_on_success s = ((λ cb, mkCallback cb (js_timeout s)) <$> sa_on_success a)
  | (Err e, w') => queued w' = queued w ∧ is_exception e = true
  end ∧ ∀ k, hashes (_send_job c q f kw a meta w).2 k = hashes w k.
Proof.
  unfold _send_job, mbind, M_bind.
  destruct (job_spec_ok f kw a meta w)
    as (s & w1 & -> & [Hh Hq] & Hf & Hk & _ & _ & _ & Hcb & Hm).
  pose proof (enqueue_hashes q s w1) as He. pose proof (enqueue_ok q s w1) as Hok.
  pose proof (enqueue_err q s w1) as Herr.
  destruct (enqueue q s w1) as [[j|e] w2]; simpl in *.
  - destruct (Hok _ _ eq_refl) as (Hq' & _ & Hst).
    split; [|intros k; by rewrite He]. exists s. rewrite Hq', Hq, Hst, Hf. done.
  - destruct (Herr _ _ eq_refl) as [Hq' ?]. split; [by rewrite Hq', Hq|intros k; by rewrite He].
Qed.

Lemma batch_specs_ok idx jobs a meta metas w : ∃ ss w',
  batch_specs c idx jobs a meta metas w = (Ok ss, w') ∧ same w w'
  ∧ js_func <$> ss = jobs.*1 ∧ js_kwargs <$> ss = jobs.*2.
Proof.
  revert idx w. induction jobs as [|[f kw] jobs IH]; intros idx w; simpl.
  { exists [], w. done. }
  unfold mbind, M_bind.
  destruct (job_spec_ok f kw a (meta_at metas meta idx) w) as (s & w1 & -> & H1 & Hf & Hk & _).
  destruct (IH (S idx) w1) as (ss & w2 & -> & H2 & Hfs & Hks).
  exists (s :: ss), w2. split_and!; [done|by eapply same_trans| |].
  - by rewrite !fmap_cons, Hf, Hfs.
  - by rewrite !fmap_cons, Hk, Hks.
Qed.

Lemma send_batch_ok q fs kws a meta metas w : length fs = length kws →
  match _send_batch_jobs c q fs kws a meta metas w with
  | (Ok js, w') => length js = length fs ∧ ∃ ss, queued w' = queued w ++ ((q,.) <$> ss)
      ∧ js_func <$> ss = fs ∧ js_kwargs <$> ss = kws
  | (Err e, w') => queued w' = queued w ∧ is_exception e = true
  end ∧ ∀ k, hashes (_send_batch_jobs c q fs kws a meta metas w).2 k = hashes w k.
Proof.
  intros Hlen. unfold _send_batch_jobs. rewrite Hlen, Nat.eqb_refl. simpl.
  unfold mbind, M_bind.
  destruct (batch_specs_ok 0 (zip fs kws) a meta metas w) as (ss & w1 & -> & [Hh Hq] & Hf & Hk).
  rewrite fst_zip in Hf by lia. rewrite snd_zip in Hk by lia.
  pose proof (enqueue_many_hashes q ss w1) as He. pose proof (enqueue_many_ok q ss w1) as Hok.
  pose proof (enqueue_many_err q ss w1) as Herr.
  destruct (enqueue_many q ss w1) as [[js|e] w2]; simpl in *.
  - destruct (Hok _ _ eq_refl) as (Hq' & Hl). split; [|intros k; by rewrite He].
    split; [|exists ss; by rewrite Hq', Hq].
    apply (f_equal length) in Hf. rewrite length_fmap in Hf. congruence.
  - destruct (Herr _ _ eq_refl) as [Hq' ?]. split; [by rewrite Hq', Hq|intros k; by rewrite He].
Qed.

(** A launch queues one [spawn] per host on the node's queue. *)
Definition spawn_job (node : NodeInfo) (host : string) (qs : string * JobSpec) : Prop :=
  qs.1 = ni_queue node ∧ js_func qs.2 = f_spawn
  ∧ js_kwargs qs.2 = kw_spawn (get_host_queue_name host) host.

Lemma launch_ok hosts node w :
  match _try_launch_pinned_worker c hosts node w with
  | (Ok qs, w') => qs = get_host_queue_name <$> hosts
      ∧ ∃ l, queued w' = queued w ++ l ∧ Forall2 (spawn_job node) hosts l
  | (Err e, w') => queued w' = queued w ∧ is_exception e = true
  end ∧ ∀ k, hashes (_try_launch_pinned_worker c hosts node w).2 k = hashes w k.
Proof.
  unfold _try_launch_pinned_worker, mbind, M_bind.
  pose proof (send_batch_ok (ni_queue node) (replicate (length hosts) f_spawn)
    ((λ host, kw_spawn (get_host_queue_name host) host) <$> hosts) no_args None [] w) as [Hs Hh];
    [by rewrite length_replicate, length_fmap|].
  destruct (_send_batch_jobs _ _ _ _ _ _ _ w) as [[js|e] w']; simpl in *; [|done].
  split; [|done]. split; [done|]. destruct Hs as (_ & ss & Hq & Hf & Hk).
  exists ((ni_queue node,.) <$> ss). split; [done|]. apply Forall2_same_length_lookup_2.
  { apply (f_equal length) in Hf. rewrite length_fmap, length_replicate in Hf.
    by rewrite length_fmap. }
  intros i h [q s'] Hi Hj. apply list_lookup_fmap_Some in Hj as (s & [= -> ->] & Hj).
  split_and!; simpl; [done| |].
  - pose proof (list_lookup_fmap js_func ss i) as E. rewrite Hj, Hf in E; simpl in E. by apply lookup_replicate in E as [-> _].
  - pose proof (list_lookup_fmap js_kwargs ss i) as E. rewrite Hj, Hk in E.
    rewrite list_lookup_fmap, Hi in E. by injection E.
Qed.
End sending.

(** ** Nodes and hosts *)
Section nodes.
Context {W : Type} `{Json} `{Redis W} `{!Rq W} `{!Clock W} `{!Trace W} `{!Scheduler W}.
Context (c : Config).
Context (maps_differ : cfg_host_to_node_map c ≠ cfg_node_info_map c).
Implicit Types (w : W) (n : NodeInfo).

(** The node a host is bound to, read one command at a time. *)
Definition assigned w (host : string) : res (option NodeInfo) :=
  match hget (cfg_host_to_node_map c) host w with
  | None => Ok None
  | Some name => get_node c name w
  end.

Lemma assign_results_spec (hosts : list string) w (pre : list (option NodeInfo)) :
  let maps := (λ h, hget (cfg_host_to_node_map c) h w) <$> hosts in
  let valid := omap (λ im : nat * option string,
      match im.2 with Some m => Some (im.1, m) | None => None end)
      (imap (λ i m, (length pre + i, m)) maps) in
  assign_results (zip valid.*1 (hmget (cfg_node_info_map c) valid.*2 w))
    (pre ++ replicate (length hosts) None)
  = match mapR (assigned w) hosts with Ok l => Ok (pre ++ l) | Err e => Err e end.
Proof.
  revert pre. induction hosts as [|h hosts IH]; intros pre; [done|].
  cbn zeta. rewrite fmap_cons, imap_cons. cbn [length replicate mapR].
  specialize (IH (pre ++ [None])) as IHn.
  assert (∀ (x : option NodeInfo) l, (pre ++ [x]) ++ l = pre ++ x :: l) as Happ
    by (intros; by rewrite <-app_assoc).
  cbn zeta in IH, IHn. rewrite !Happ, !length_app in IHn. cbn [length] in IHn.
  assert (∀ m, imap ((λ i m, (length pre + i, m)) ∘ S) m
    = imap (λ i (m : option string), (length pre + 1 + i, m)) m) as Hs.
  { intros m. apply imap_ext. intros i x _. simpl. f_equal. lia. }
  rewrite Hs. assert (assigned w h = match hget (cfg_host_to_node_map c) h w with
    | None => Ok None | Some name => get_node c name w end) as -> by done.
  destruct (hget (cfg_host_to_node_map c) h w) as [name|] eqn:Eh; cbn [omap list_omap fst snd].
  - unfold hmget in *. cbn [fmap list_fmap fst snd zip zip_with assign_results].
    unfold get_node.
    destruct (str_truthy (hget (cfg_node_info_map c) name w)) eqn:Et; cbn [negb].
    + destruct (NodeInfo_validate_json _) as [n|e]; cbn [mbind res_bind]; [|done].
      unfold set_item. rewrite decide_True by (rewrite length_app; simpl; lia).
      cbn [mbind res_bind]. rewrite insert_app_r_alt by lia.
      replace (length pre + 0 - length pre) with 0 by lia. cbn [insert list_insert].
      specialize (IH (pre ++ [Some n])). rewrite !Happ, !length_app in IH. cbn [length] in IH.
      rewrite IH. destruct (mapR (assigned w) hosts); cbn [mbind res_bind]; [|done].
      by rewrite Happ.
    + rewrite IHn. cbn [mbind res_bind]. destruct (mapR (assigned w) hosts); [|done].
      cbn [mbind res_bind]. by rewrite Happ.
  - rewrite IHn. cbn [mbind res_bind]. destruct (mapR (assigned w) hosts); [|done].
    cbn [mbind res_bind]. by rewrite Happ.
Qed.

Lemma mapR_None w hosts :
  (∀ h, h ∈ hosts → hget (cfg_host_to_node_map c) h w = None) →
  mapR (assigned w) hosts = Ok (replicate (length hosts) None).
Proof.
  induction hosts as [|h hosts IH]; intros Hn; [done|]. simpl.
  assert (assigned w h = Ok None) as -> by (unfold assigned; by rewrite Hn by set_solver).
  simpl. rewrite IH by set_solver. done.
Qed.

(** The pipelined lookup of many hosts (one [HMGET] for the bindings,
    one for the nodes of the bound ones, answers put back by index) is the
    lookup host by host: one entry per host in order, nothing for a host
    that is not bound or whose node has no entry, and the first unreadable
    entry as the error; no index is out of range. *)
Theorem assigned_nodes_spec hosts w :
  hosts ≠ [] → (∀ h, h ∈ hosts → hget (cfg_host_to_node_map c) h w ≠ Some "") →
  _get_assigned_node_for_host c hosts w = mapR (assigned w) hosts.
Proof.
  intros Hnil Hne. unfold _get_assigned_node_for_host, hmget.
  destruct (length hosts =? 0) eqn:E0; [by destruct hosts|clear E0].
  destruct (any str_truthy _) eqn:Ea; cbn [negb].
  - pose proof (assign_results_spec hosts w []) as Hs. cbn [app length] in Hs.
    unfold hmget in Hs. cbn zeta in Hs.
    assert (∀ m : list (option string), imap (λ i m, (0 + i, m)) m = imap pair m) as Hp by done.
    rewrite Hp in Hs. rewrite Hs. by destruct (mapR (assigned w) hosts).
  - rewrite mapR_None; [done|]. intros h Hh.
    rewrite any_false in Ea. specialize (Ea (hget (cfg_host_to_node_map c) h w)).
    destruct (hget (cfg_host_to_node_map c) h w) as [s|] eqn:E; [|done].
    assert (str_truthy (Some s) = false) as Hs.
    { apply Ea. rewrite <-E. apply (list_elem_of_fmap_2 (λ h, hget _ h w)). done. }
    simpl in Hs. destruct (String.eqb s "") eqn:Es; [|done].
    apply String.eqb_eq in Es as ->. by destruct (Hne h Hh).
Qed.

(** ** All nodes *)
Lemma nodes_loop_spec l acc d : nodes_loop l acc = Ok d →
  (∀ k n, (k, n) ∈ d → (k, n) ∈ acc ∨ ∃ j, (k, j) ∈ l ∧ j ≠ "" ∧ NodeInfo_validate_json j = Ok n)
  ∧ (NoDup acc.*1 → NoDup d.*1).
Proof.
  revert acc. induction l as [|[k j] l IH]; intros acc; cbn [nodes_loop].
  { intros [= <-]. auto. }
  destruct (str_truthy (Some j)) eqn:Et.
  - destruct (NodeInfo_validate_json j) as [n|e] eqn:Ev; cbn; [|done].
    intros Hl. destruct (IH _ Hl) as [Hin Hnd]. split.
    + intros k' n' Hd. apply Hin in Hd as [Hd|(j' & ? & ?)]; [|right; set_solver].
      assert ((k', n') = (k, n) ∨ (k', n') ∈ acc) as [[= -> ->]|?].
      { clear -Hd. induction acc as [|[k0 n0] acc IH]; simpl in Hd; [set_solver|].
        case_decide; set_solver. }
      * right. exists j. split_and!; [set_solver| |done]. intros ->. done.
      * by left.
    + intros. by apply Hnd, dict_set_NoDup.
  - intros Hl. destruct (IH _ Hl) as [Hin Hnd]. split; [|done].
    intros k' n' Hd. apply Hin in Hd as [?|(j' & ? & ?)]; [by left|right; set_solver].
Qed.

(** The entries name their own nodes, as the node workers write them. *)
Definition nodes_named w : Prop :=
  ∀ k j n, hget (cfg_node_info_map c) k w = Some j →
    NodeInfo_validate_json j = Ok n → ni_hostname n = k.

Lemma get_all_nodes_spec w nodes : nodes_named w → get_all_nodes c w = Ok nodes →
  NoDup (ni_hostname <$> nodes)
  ∧ ∀ n, n ∈ nodes → ∃ j, hget (cfg_node_info_map c) (ni_hostname n) w = Some j
      ∧ NodeInfo_validate_json j = Ok n.
Proof.
  intros Hnamed. unfold get_all_nodes.
  destruct (nodes_loop _ _) as [d|e] eqn:El; cbn; [|done]. intros [= <-].
  destruct (nodes_loop_spec _ _ _ El) as [Hin Hnd].
  assert (∀ k n, (k, n) ∈ d → ni_hostname n = k ∧ ∃ j, hget (cfg_node_info_map c) k w = Some j
    ∧ NodeInfo_validate_json j = Ok n) as Hd.
  { intros k n [?|(j & Hj%hscan_elem & _ & Hv)]%Hin; [set_solver|].
    split; [by eapply Hnamed|eauto]. }
  split.
  - assert (ni_hostname <$> d.*2 = d.*1) as ->; [|apply Hnd; constructor].
    clear -Hd. induction d as [|[k n] d IH]; [done|]. rewrite !fmap_cons. f_equal.
    + apply (Hd k n). set_solver.
    + apply IH. set_solver.
  - intros n ([k n'] & -> & Hk)%list_elem_of_fmap. destruct (Hd k n' Hk) as [<- ?]. done.
Qed.

(** ** Deleting a node *)

(** What a forced delete leaves in the two maps. *)
Lemma hget_force_delete n w k f : k = cfg_host_to_node_map c ∨ k = cfg_node_info_map c →
  hget k f (_force_delete_node c n w) =
    if decide (k = cfg_node_info_map c ∧ f = ni_hostname n) then None
    else if decide (k = cfg_host_to_node_map c
                    ∧ hget (cfg_host_to_node_map c) f w = Some (ni_hostname n)) then None
    else hget k f w.
Proof.
  intros Hk. unfold _force_delete_node.
  assert (∀ l w0, hget k f (foldl (λ w host, foldl (λ w r, send_shutdown_command (w_name r) w) w
    (worker_all (Some (get_host_queue_name host)) w)) w0 l) = hget k f w0) as Hs.
  { intros l w0. apply (foldl_preserves (λ w', hget k f w' = hget k f w0)); [|done].
    intros h w' <-. apply (foldl_preserves (λ w1, hget k f w1 = hget k f w')); [|done].
    intros r w1 <-. unfold hget. by rewrite shutdown_hashes. }
  rewrite Hs, hget_hdel.
  replace (match _ with [] => w | _ => _ end) with
    (hdels (cfg_host_to_node_map c)
      (filter (λ hn, hn.2 = ni_hostname n) (hscan_iter (cfg_host_to_node_map c) w)).*1 w)
    by (by destruct ((filter _ _).*1)).
  case_decide; [done|]. rewrite hget_hdels. apply decide_ext. f_equiv.
  rewrite list_elem_of_fmap. split.
  - intros ([h m] & -> & [Hn Hin]%list_elem_of_filter). simpl in *. subst m.
    by apply hscan_elem in Hin.
  - intros Hh. exists (f, ni_hostname n). split; [done|]. apply list_elem_of_filter.
    split; [done|]. by apply hscan_elem.
Qed.

Lemma force_delete_hashes n w k : k ≠ cfg_host_to_node_map c → k ≠ cfg_node_info_map c →
  hashes (_force_delete_node c n w) k = hashes w k.
Proof.
  intros Hh Hn. unfold _force_delete_node.
  match goal with |- hashes (foldl _ ?w1 _) k = _ => assert (hashes w1 k = hashes w k) as <- end.
  { rewrite hdel_hashes, decide_False by done.
    destruct ((filter _ _).*1); [done|]. by rewrite hdels_hashes, decide_False. }
  match goal with |- hashes (foldl _ ?w1 _) k = _ =>
    apply (foldl_preserves (λ w', hashes w' k = hashes w1 k)); [|done] end.
  intros h w' <-. apply (foldl_preserves (λ w1, hashes w1 k = hashes w' k)); [|done].
  intros r w1 <-. apply shutdown_hashes.
Qed.

Lemma queued_force_delete n w : queued (_force_delete_node c n w) = queued w.
Proof.
  unfold _force_delete_node.
  assert (∀ l w0, queued (foldl (λ w host, foldl (λ w r, send_shutdown_command (w_name r) w) w
    (worker_all (Some (get_host_queue_name host)) w)) w0 l) = queued w0) as Hs.
  { intros l w0. apply (foldl_preserves (λ w', queued w' = queued w0)); [|done].
    intros h w' <-. apply (foldl_preserves (λ w1, queued w1 = queued w')); [|done].
    intros r w1 <-. apply shutdown_queued. }
  rewrite Hs, hdel_queued. destruct ((filter _ _).*1); [done|].
  unfold hdels. apply (foldl_preserves (λ w', queued w' = queued w)); [|done].
  intros f w' <-. apply hdel_queued.
Qed.
End nodes.
