(* ===== verification/Cluster.v ===== *)
(** * The nodes of a cluster, interleaved

    Several node daemons ([linux_net/worker/node.py]) and the controllers
    ([linux_net/services/manager.py]) share the two Redis maps.  A daemon runs
    its handlers one after another, but the Redis commands of different
    daemons interleave.  Here the handlers [add], [_remove], [listen] and
    [cleanup] are cut at their Redis commands: a daemon is a [NodeWorker] and
    the command it will issue next, and a controller that deletes a node is a
    scan and, at any later time, its transaction.  A step of the cluster is one
    command of one daemon, a daemon that starts, stops or dies, one of the two
    commands of a deletion, or anything that leaves the two maps alone.  A
    pipeline of redis-py is a transaction and so one step, and so is a scan,
    whose pages are read together here. *)

From S2P Require Import Prelude PyLib Models Schedulers World NodeWorker Registry Manager.

(** ** The state *)
(** What a daemon does next: commit its registration, wait for a job, the
    [HSETNX] of [add], the start of the worker's process, the [HDEL] after a
    failed start, the [HSET] after a start, the pipeline of [_remove]. *)
Inductive phase :=
  | Registering (keys_to_delete : list string)
  | Idle
  | Checked (host : string) (node_info : NodeInfo)
  | Bound (host : string) (node_info : NodeInfo)
  | Unbinding (host : string)
  | Spawned (node_info : NodeInfo)
  | Removing (host : string) (node_info : NodeInfo).

Notation daemon := (NodeWorker * phase)%type.

(** A deletion that commits: the node it is of, the hosts its scan has found
    bound to the node, those of them that are bound to a running node now, and
    whether the node itself runs. *)
Record deletion := mkDeletion {
  del_node : string;
  del_keys : list string;
  del_taken : list string;
  del_live : bool;
}.

(** Who makes a step *)
Inductive label := LNode (n : string) | LStart (n : string) | LStop (n : string)
  | LCrash (n : string) | LScan (n : string) | LDelete (d : deletion) | LEnv.

(** ** What a run has done

    The hosts whose binding a deletion took from a running node, and whether
    one took the entry of a node that was running, since its last start. *)
Definition taken_by (l : label) : list string := match l with LDelete d => del_taken d | _ => [] end.
Definition taken (ls : list label) : list string := concat (taken_by <$> ls).

Definition unlist (n : string) (b : bool) (l : label) : bool :=
  match l with
  | LStart m => if String.eqb m n then false else b
  | LDelete d => b || String.eqb (del_node d) n && del_live d
  | _ => b
  end.
Definition unlisted (n : string) (ls : list label) : bool := foldl (unlist n) false ls.

Lemma taken_snoc ls l : taken (ls ++ [l]) = taken ls ++ taken_by l.
Proof. unfold taken. rewrite fmap_app, concat_app. simpl. by rewrite app_nil_r. Qed.

Lemma unlisted_snoc n ls l : unlisted n (ls ++ [l]) = unlist n (unlisted n ls) l.
Proof. unfold unlisted. by rewrite foldl_app. Qed.

Section cluster.
Context {W : Type} `{Json} `{Redis W} `{!Rq W} `{!Spawn W}.
Context (c : Config).
Implicit Types (nw : NodeWorker) (w : W).

Definition bound w (h : string) : option string := hget (cfg_host_to_node_map c) h w.
Definition entry w (n : string) : option string := hget (cfg_node_info_map c) n w.

(** The daemons that run, by their host name, and the deletions that have
    scanned and not committed *)
Record cluster := mkCluster {
  cl_world : W;
  cl_nodes : gmap string daemon;
  cl_deleting : list (NodeInfo * list string);
}.

(** ** The commands of a handler *)
Definition count_by (d : Z) (i : NodeInfo) : NodeInfo :=
  mkNodeInfo (ni_hostname i) (ni_count i + d) (ni_capacity i) (ni_queue i).

Definition get_entry nw w : res NodeInfo :=
  let node_info_json := entry w (nw_name nw) in
  if negb (str_truthy node_info_json) then Err (SystemExit 1)
  else NodeInfo_validate_json (default "" node_info_json).

Definition put_entry nw (i : NodeInfo) w : W :=
  hset (cfg_node_info_map c) (nw_name nw) (NodeInfo_dump_json i) w.

Definition register_scan nw w : list string :=
  (filter (λ hn, hn.2 = nw_name nw) (hscan_iter (cfg_host_to_node_map c) w)).*1.

Definition register_commit nw (keys_to_delete : list string) w : W :=
  put_entry nw (mkNodeInfo (nw_name nw) 0 (cfg_pinned_per_node c)
                  (get_node_queue_name (nw_name nw)))
    (match keys_to_delete with
     | [] => w
     | _ => hdels (cfg_host_to_node_map c) keys_to_delete w
     end).

(** [register_death] of the workers a previous run left behind: between the
    scan and the commit, and outside of the two maps *)
Definition register_deaths nw (keys_to_delete : list string) w : W :=
  foldl (λ w r, register_death r w)
    (foldl (λ w host, foldl (λ w r, register_death r w) w
              (worker_all (Some (get_host_queue_name host)) w)) w keys_to_delete)
    (worker_all (Some (get_node_queue_name (nw_name nw)))
       (foldl (λ w host, foldl (λ w r, register_death r w) w
                 (worker_all (Some (get_host_queue_name host)) w)) w keys_to_delete)).

Inductive dstep : daemon → W → daemon → W → Prop :=
  | d_register nw keys w :
      dstep (nw, Registering keys) w
        (nw_listening (get_node_queue_name (nw_name nw)) nw, Idle) (register_commit nw keys w)
  | d_check nw host i w :
      any (λ ph, String.eqb ph.2 host) (nw_pid_to_host_map nw) = false →
      get_entry nw w = Ok i → (ni_count i >=? ni_capacity i)%Z = false →
      dstep (nw, Idle) w (nw, Checked host (count_by 1 i)) w
  | d_bind nw host i w w' :
      hsetnx (cfg_host_to_node_map c) host (nw_name nw) w = (true, w') →
      dstep (nw, Checked host i) w (nw, Bound host i) w'
  | d_taken nw host i w w' :
      hsetnx (cfg_host_to_node_map c) host (nw_name nw) w = (false, w') →
      dstep (nw, Checked host i) w (nw, Idle) w'
  | d_spawn nw host i p w w' :
      process_start w = (Ok p, w') → p ∉ (nw_pid_to_host_map nw).*1 →
      dstep (nw, Bound host i) w
        (nw_set_pids (dict_set p host (nw_pid_to_host_map nw)) nw, Spawned i) w'
  | d_spawn_fails nw host i e w w' :
      process_start w = (Err e, w') →
      dstep (nw, Bound host i) w (nw, Unbinding host) w'
  | d_unbind nw host w :
      dstep (nw, Unbinding host) w (nw, Idle) (hdel (cfg_host_to_node_map c) host w)
  | d_commit nw i w :
      dstep (nw, Spawned i) w (nw, Idle) (put_entry nw i w)
  | d_pop nw p host i w :
      dict_get p (nw_pid_to_host_map nw) = Some host → get_entry nw w = Ok i →
      dstep (nw, Idle) w
        (nw_set_pids (dict_pop p (nw_pid_to_host_map nw)) nw, Removing host (count_by (-1) i)) w
  | d_pop_fails nw p host e w :
      dict_get p (nw_pid_to_host_map nw) = Some host → get_entry nw w = Err e →
      dstep (nw, Idle) w (nw_set_pids (dict_pop p (nw_pid_to_host_map nw)) nw, Idle) w
  | d_release nw host i w :
      dstep (nw, Removing host i) w (nw, Idle)
        (put_entry nw i (hdel (cfg_host_to_node_map c) host w))
  | d_signal nw ph w : dstep (nw, ph) w (nw_signal nw, ph) w.

(** ** The deletion of a node

    The scan and the transaction of [_force_delete_node] are two commands; the
    shutdowns it sends afterwards are outside of the two maps. *)
Definition force_scan (node : NodeInfo) w : list string :=
  (filter (λ hn, hn.2 = ni_hostname node) (hscan_iter (cfg_host_to_node_map c) w)).*1.

Definition force_commit (node : NodeInfo) (keys_to_delete : list string) w : W :=
  hdel (cfg_node_info_map c) (ni_hostname node)
    (match keys_to_delete with
     | [] => w
     | _ => hdels (cfg_host_to_node_map c) keys_to_delete w
     end).

Definition force_shutdowns (keys_to_delete : list string) w : W :=
  foldl (λ w host, foldl (λ w r, send_shutdown_command (w_name r) w) w
           (worker_all (Some (get_host_queue_name host)) w)) w keys_to_delete.

(** Is the host bound to a node that runs? *)
Definition runs w (nodes : gmap string daemon) (h : string) : bool :=
  match bound w h with Some m => bool_decide (is_Some (nodes !! m)) | None => false end.

Definition deletion_of (i : NodeInfo) (keys_to_delete : list string) w (nodes : gmap string daemon) : deletion :=
  mkDeletion (ni_hostname i) keys_to_delete (filter (λ h, runs w nodes h = true) keys_to_delete)
    (bool_decide (is_Some (nodes !! ni_hostname i))).

(** ** The steps of the cluster *)
(** A stop is the [finally] of [listen], wherever a signal or an exception
    leaves the handlers; a crash runs nothing.  [_force_delete_node] is said to
    be for nodes that are not available, which controllers judge by a heartbeat:
    any node may be deleted at any time. *)
Inductive step : label → cluster → cluster → Prop :=
  | s_node n d d' w w' nodes dels :
      nodes !! n = Some d → dstep d w d' w' →
      step (LNode n) (mkCluster w nodes dels) (mkCluster w' (<[n := d']> nodes) dels)
  | s_start n w nodes dels o :
      nodes !! n = None → _get_node c (NodeWorker_init n) w = Ok o →
      step (LStart n) (mkCluster w nodes dels)
        (mkCluster w (<[n := (NodeWorker_init n,
                              Registering (register_scan (NodeWorker_init n) w))]> nodes) dels)
  | s_start_fails n w nodes dels e :
      nodes !! n = None → _get_node c (NodeWorker_init n) w = Err e →
      step (LStart n) (mkCluster w nodes dels)
        (mkCluster (cleanup c (NodeWorker_init n, w)).2.2 nodes dels)
  | s_stop n nw ph w nodes dels :
      nodes !! n = Some (nw, ph) →
      step (LStop n) (mkCluster w nodes dels) (mkCluster (cleanup c (nw, w)).2.2 (delete n nodes) dels)
  | s_crash n d w nodes dels :
      nodes !! n = Some d →
      step (LCrash n) (mkCluster w nodes dels) (mkCluster w (delete n nodes) dels)
  | s_scan i w nodes dels :
      step (LScan (ni_hostname i)) (mkCluster w nodes dels)
        (mkCluster w nodes ((i, force_scan i w) :: dels))
  | s_delete i keys w nodes dels1 dels2 :
      step (LDelete (deletion_of i keys w nodes)) (mkCluster w nodes (dels1 ++ (i, keys) :: dels2))
        (mkCluster (force_commit i keys w) nodes (dels1 ++ dels2))
  | s_env w w' nodes dels :
      (∀ h, bound w' h = bound w h) → (∀ n, entry w' n = entry w n) →
      step LEnv (mkCluster w nodes dels) (mkCluster w' nodes dels).

Inductive steps : list label → cluster → cluster → Prop :=
  | steps_nil st : steps [] st st
  | steps_snoc ls l st st' st'' : steps ls st st' → step l st' st'' → steps (ls ++ [l]) st st''.

(** From a Redis with any content, where no daemon runs. *)
Definition run (ls : list label) (st : cluster) : Prop := ∃ w, steps ls (mkCluster w ∅ []) st.
Definition reachable (st : cluster) : Prop := ∃ ls, run ls st.
(** ** The invariant

    Between two commands a node may hold one host more than it runs workers
    for, and its published count may be off by the worker being started or
    removed.  What deletions took is left out: of a host in [T] nothing is said,
    and a node that was [u]nlisted may have no entry, and bindings it does not
    know of. *)
Record held (T : list string) (u : bool) nw (extra : option string) (cnt : Z) w : Prop := {
  held_entry : entry w (nw_name nw) = Some (NodeInfo_dump_json
      (mkNodeInfo (nw_name nw) cnt (cfg_pinned_per_node c) (get_node_queue_name (nw_name nw))))
    ∨ u = true ∧ entry w (nw_name nw) = None;
  held_hosts : NoDup (nw_hosts nw);
  held_cap : (Z.of_nat (length (nw_hosts nw)) ≤ Z.max 0 (cfg_pinned_per_node c))%Z;
  held_owned : ∀ h, h ∉ T → h ∈ nw_hosts nw ∨ extra = Some h → bound w h = Some (nw_name nw);
  held_known : u = false → ∀ h, h ∉ T → bound w h = Some (nw_name nw) → h ∈ nw_hosts nw ∨ extra = Some h;
}.

Definition workers_of nw : Z := Z.of_nat (length (nw_hosts nw)).
Definition entry_with nw (cnt : Z) : NodeInfo :=
  mkNodeInfo (nw_name nw) cnt (cfg_pinned_per_node c) (get_node_queue_name (nw_name nw)).

Definition phase_ok (T : list string) (u : bool) (d : daemon) w : Prop :=
  let '(nw, ph) := d in
  match ph with
  | Registering keys => nw_pid_to_host_map nw = []
      ∧ (∀ h, h ∉ T → h ∈ keys ↔ bound w h = Some (nw_name nw))
  | Idle => held T u nw None (workers_of nw) w
  | Checked host i => held T u nw None (workers_of nw) w ∧ (host ∉ nw_hosts nw)
      ∧ i = entry_with nw (workers_of nw + 1) ∧ (workers_of nw < cfg_pinned_per_node c)%Z
  | Bound host i => held T u nw (Some host) (workers_of nw) w ∧ (host ∉ nw_hosts nw)
      ∧ i = entry_with nw (workers_of nw + 1) ∧ (workers_of nw < cfg_pinned_per_node c)%Z
  | Unbinding host => held T u nw (Some host) (workers_of nw) w ∧ (host ∉ nw_hosts nw)
  | Spawned i => held T u nw None (workers_of nw - 1) w ∧ i = entry_with nw (workers_of nw)
  | Removing host i => held T u nw (Some host) (workers_of nw + 1) w ∧ (host ∉ nw_hosts nw)
      ∧ i = entry_with nw (workers_of nw)
  end.

Definition cluster_inv (ls : list label) (st : cluster) : Prop :=
  ∀ n d, cl_nodes st !! n = Some d → nw_name d.1 = n
    ∧ phase_ok (taken ls) (unlisted n ls) d (cl_world st).

(** What a node sees of the world: its entry and the hosts bound to it. *)
Definition same_view (T : list string) (n : string) w w' : Prop :=
  entry w' n = entry w n ∧ ∀ h, h ∉ T → bound w' h = Some n ↔ bound w h = Some n.

Lemma same_view_refl T n w : same_view T n w w.
Proof. done. Qed.

(** More may have been taken since, and the entry of an unlisted node. *)
Lemma held_mono T T' (u u' : bool) nw extra cnt w w' : T ⊆ T' → (u = true → u' = true) →
  (entry w' (nw_name nw) = entry w (nw_name nw) ∨ u' = true ∧ entry w' (nw_name nw) = None) →
  (∀ h, h ∉ T' → bound w' h = Some (nw_name nw) ↔ bound w h = Some (nw_name nw)) →
  held T u nw extra cnt w → held T' u' nw extra cnt w'.
Proof.
  intros HT Hu He Hb [H1 H2 H3 H4 H5]. constructor; [|done|done| |].
  - destruct He as [->|He]; [|by right]. destruct H1 as [|[? ?]]; auto.
  - intros h Hh Hin. apply Hb; [done|]. apply H4; [|done]. set_solver.
  - intros -> h Hh Hbd%Hb; [|done]. apply H5; [by destruct u; [destruct (Hu eq_refl)|]|set_solver|done].
Qed.

Lemma phase_ok_mono T T' (u u' : bool) d w w' : T ⊆ T' → (u = true → u' = true) →
  (entry w' (nw_name d.1) = entry w (nw_name d.1) ∨ u' = true ∧ entry w' (nw_name d.1) = None) →
  (∀ h, h ∉ T' → bound w' h = Some (nw_name d.1) ↔ bound w h = Some (nw_name d.1)) →
  phase_ok T u d w → phase_ok T' u' d w'.
Proof.
  destruct d as [nw ph]; simpl. intros HT Hu He Hb.
  pose proof (λ extra cnt, held_mono T T' u u' nw extra cnt w w' HT Hu He Hb) as Hm. destruct ph; simpl;
    try (clear He Hb; intuition; fail).
  intros [? Hk]. split; [done|]. intros h Hh. rewrite Hk by set_solver. symmetry. by apply Hb.
Qed.

Lemma held_view T u nw extra cnt w w' :
  same_view T (nw_name nw) w w' → held T u nw extra cnt w → held T u nw extra cnt w'.
Proof. intros [He Hb]. apply held_mono; auto. Qed.

Lemma phase_ok_view T u d w w' :
  same_view T (nw_name d.1) w w' → phase_ok T u d w → phase_ok T u d w'.
Proof. intros [He Hb]. apply phase_ok_mono; auto. Qed.

Lemma held_signal T u nw extra cnt w : held T u nw extra cnt w → held T u (nw_signal nw) extra cnt w.
Proof. by intros []; constructor. Qed.

(** ** The maps after a command *)
Context (maps_differ : cfg_host_to_node_map c ≠ cfg_node_info_map c).

Lemma entry_put nw i w n :
  entry (put_entry nw i w) n
  = if decide (n = nw_name nw) then Some (NodeInfo_dump_json i) else entry w n.
Proof.
  unfold entry, put_entry. rewrite hget_hset. apply decide_ext. naive_solver.
Qed.

Lemma bound_put nw i w h : bound (put_entry nw i w) h = bound w h.
Proof. unfold bound, put_entry. rewrite hget_hset. by rewrite decide_False by naive_solver. Qed.

Lemma entry_hdel h w n : entry (hdel (cfg_host_to_node_map c) h w) n = entry w n.
Proof. unfold entry. rewrite hget_hdel. by rewrite decide_False by naive_solver. Qed.

Lemma bound_hdel h w h' :
  bound (hdel (cfg_host_to_node_map c) h w) h' = if decide (h' = h) then None else bound w h'.
Proof. unfold bound. rewrite hget_hdel. apply decide_ext. naive_solver. Qed.

Lemma bound_hdels hs w h' :
  bound (hdels (cfg_host_to_node_map c) hs w) h' = if decide (h' ∈ hs) then None else bound w h'.
Proof. unfold bound. rewrite hget_hdels. apply decide_ext. naive_solver. Qed.

Lemma entry_hdels hs w n : entry (hdels (cfg_host_to_node_map c) hs w) n = entry w n.
Proof. unfold entry. rewrite hget_hdels. by rewrite decide_False by naive_solver. Qed.

Lemma setnx_maps h n w ok w' :
  hsetnx (cfg_host_to_node_map c) h n w = (ok, w') →
  ok = bool_decide (bound w h = None)
  ∧ (∀ m, entry w' m = entry w m)
  ∧ ∀ h', bound w' h' = if decide (h' = h ∧ ok = true) then Some n else bound w h'.
Proof.
  intros E. pose proof (hsetnx_result (cfg_host_to_node_map c) h n w) as Hr.
  pose proof (λ k f, hget_hsetnx (cfg_host_to_node_map c) h n w k f) as Hg.
  rewrite E in Hr, Hg. simpl in Hr, Hg.
  fold (hget (cfg_host_to_node_map c) h w) in Hr. fold (bound w h) in Hr, Hg.
  split_and!; [done| |].
  - intros m. unfold entry. rewrite Hg. by rewrite decide_False by naive_solver.
  - intros h'. unfold bound at 1. rewrite Hg. apply decide_ext. rewrite Hr, bool_decide_eq_true.
    naive_solver.
Qed.

Lemma start_maps w : (∀ n, entry (process_start w).2 n = entry w n)
  ∧ ∀ h, bound (process_start w).2 h = bound w h.
Proof. unfold entry, bound. split; intros; apply hget_process_start. Qed.

Lemma get_entry_held T u nw extra cnt w i :
  held T u nw extra cnt w → get_entry nw w = Ok i → i = entry_with nw cnt.
Proof.
  intros Hh. unfold get_entry. destruct (held_entry _ _ _ _ _ _ Hh) as [->|[_ ->]]; [|done]. simpl.
  rewrite node_json_roundtrip, (proj2 (String.eqb_neq _ _)) by apply node_json_nonempty.
  by intros [= <-].
Qed.

Lemma get_entry_error T u nw extra cnt w e : held T u nw extra cnt w → get_entry nw w = Err e →
  u = true ∧ entry w (nw_name nw) = None.
Proof.
  intros Hh. unfold get_entry. destruct (held_entry _ _ _ _ _ _ Hh) as [->|]; [|done]. simpl.
  by rewrite node_json_roundtrip, (proj2 (String.eqb_neq _ _)) by apply node_json_nonempty.
Qed.
(** ** Every command keeps the invariant, and the other nodes' view *)
Section commands.
Context (T : list string) (u : bool).

Definition keeps (d : daemon) w (d' : daemon) w' : Prop :=
  nw_name d'.1 = nw_name d.1 ∧ phase_ok T u d' w'
  ∧ ∀ m, m ≠ nw_name d.1 → same_view T m w w'.

Lemma keeps_view n m w w' :
  m ≠ n → (∀ m', m' ≠ n → entry w' m' = entry w m') →
  (∀ h, h ∉ T → bound w' h = bound w h
     ∨ (bound w h = None ∨ bound w h = Some n) ∧ (bound w' h = None ∨ bound w' h = Some n)) →
  same_view T m w w'.
Proof.
  intros Hm He Hb. split; [by apply He|]. intros h Hh.
  destruct (Hb h Hh) as [->|[[->| ->] [->| ->]]]; naive_solver.
Qed.

Lemma register_keeps nw keys w : phase_ok T u (nw, Registering keys) w →
  keeps (nw, Registering keys) w
    (nw_listening (get_node_queue_name (nw_name nw)) nw, Idle) (register_commit nw keys w).
Proof.
  intros [Hnil Hk]. unfold register_commit. rewrite hdels_match.
  assert (∀ h, bound (put_entry nw (entry_with nw 0) (hdels (cfg_host_to_node_map c) keys w)) h
    = if decide (h ∈ keys) then None else bound w h) as Hb.
  { intros h. by rewrite bound_put, bound_hdels. }
  split; [done|]. split.
  - constructor; unfold workers_of, nw_hosts; simpl; rewrite ?Hnil; simpl;
      [|constructor|lia| |].
    + left. by rewrite entry_put, decide_True.
    + intros h _ [Hin|[=]]. by apply not_elem_of_nil in Hin.
    + intros _ h Hh. unfold entry_with in Hb. rewrite Hb. specialize (Hk h Hh). case_decide; naive_solver.
  - intros m Hm. apply (keeps_view (nw_name nw)); [done| |].
    + intros m' Hm'. by rewrite entry_put, decide_False, entry_hdels.
    + intros h Hh. unfold entry_with in Hb. rewrite Hb. specialize (Hk h Hh). case_decide; naive_solver.
Qed.

Lemma bind_keeps nw host i ok w w' : phase_ok T u (nw, Checked host i) w →
  hsetnx (cfg_host_to_node_map c) host (nw_name nw) w = (ok, w') →
  keeps (nw, Checked host i) w (nw, if ok : bool then Bound host i else Idle) w'.
Proof.
  intros (Hh & Hn & Hi & Hc) (Hok & He & Hb)%setnx_maps. split; [done|]. split.
  - destruct ok; simpl; [split_and!; try done|]; destruct Hh as [H1 H2 H3 H4 H5];
      (constructor; [by rewrite He|done|done| |]);
      [intros h Hh Hin|intros Hu h Hh|intros h Hh Hin|intros Hu h Hh]; rewrite Hb.
    + destruct (decide _) as [|Hd]; [done|]. apply H4; [done|]. naive_solver.
    + destruct (decide _) as [[-> _]|Hd]; [naive_solver|]. intros Hbd%H5; naive_solver.
    + rewrite decide_False by naive_solver. by apply H4.
    + rewrite decide_False by naive_solver. by apply H5.
  - intros m Hm. apply (keeps_view (nw_name nw)); [done|by intros; rewrite He|].
    intros h _. rewrite Hb. destruct (decide _) as [[-> ->]|]; [|by left].
    symmetry in Hok. rewrite bool_decide_eq_true in Hok. auto.
Qed.

Lemma hosts_set nw p host : p ∉ (nw_pid_to_host_map nw).*1 →
  nw_hosts (nw_set_pids (dict_set p host (nw_pid_to_host_map nw)) nw) = nw_hosts nw ++ [host].
Proof.
  intros Hp. unfold nw_hosts; simpl. rewrite dict_set_fresh by done. by rewrite fmap_app.
Qed.

Lemma spawn_keeps nw host i p w w' : phase_ok T u (nw, Bound host i) w →
  process_start w = (Ok p, w') → p ∉ (nw_pid_to_host_map nw).*1 →
  keeps (nw, Bound host i) w
    (nw_set_pids (dict_set p host (nw_pid_to_host_map nw)) nw, Spawned i) w'.
Proof.
  intros (Hh & Hn & -> & Hc) E Hp. destruct (start_maps w) as [He Hb]. rewrite E in He, Hb.
  simpl in He, Hb. pose proof (hosts_set nw p host Hp) as Hset.
  assert (workers_of (nw_set_pids (dict_set p host (nw_pid_to_host_map nw)) nw)
    = workers_of nw + 1)%Z as Hlen.
  { unfold workers_of. rewrite Hset, length_app. simpl. lia. }
  split; [done|]. split; [|intros m Hm; apply (keeps_view (nw_name nw)); auto].
  split; [|by rewrite Hlen]. destruct Hh as [H1 H2 H3 H4 H5].
  constructor; cbn [nw_name nw_set_pids]; rewrite ?Hlen, ?Hset, ?He.
  - destruct H1 as [->|]; [left; do 3 f_equal; lia|by right].
  - apply NoDup_app. split_and!; [done|set_solver|apply NoDup_singleton].
  - rewrite length_app. unfold workers_of in Hc. simpl. lia.
  - intros h Hh. rewrite Hb, elem_of_app, list_elem_of_singleton. intros Hin. apply H4; naive_solver.
  - intros Hu h Hh. rewrite Hb, elem_of_app, list_elem_of_singleton. intros Hbd%H5; naive_solver.
Qed.

Lemma commit_keeps nw i w : phase_ok T u (nw, Spawned i) w →
  keeps (nw, Spawned i) w (nw, Idle) (put_entry nw i w).
Proof.
  intros [[H1 H2 H3 H4 H5] ->]. split; [done|]. split.
  - constructor; [left; by rewrite entry_put, decide_True|done|done| |].
    + intros h. rewrite bound_put. apply H4.
    + intros Hu h. rewrite bound_put. by apply H5.
  - intros m Hm. apply (keeps_view (nw_name nw)); [done| |].
    + intros m' Hm'. by rewrite entry_put, decide_False.
    + intros h _. rewrite bound_put. auto.
Qed.

(** Releasing the one host it holds beyond its workers *)
Lemma release_held nw host cnt w : (host ∉ nw_hosts nw) → held T u nw (Some host) cnt w →
  held T u nw None cnt (hdel (cfg_host_to_node_map c) host w)
  ∧ ∀ m, m ≠ nw_name nw → same_view T m w (hdel (cfg_host_to_node_map c) host w).
Proof.
  intros Hn [H1 H2 H3 H4 H5]. split.
  - constructor; [by rewrite entry_hdel|done|done| |].
    + intros h Hh [Hin|[=]]. rewrite bound_hdel, decide_False by naive_solver. apply H4; auto.
    + intros Hu h Hh. rewrite bound_hdel. case_decide; [done|]. intros Hbd%H5; naive_solver.
  - intros m Hm. apply (keeps_view (nw_name nw)); [done|by intros; rewrite entry_hdel|].
    intros h Hh. rewrite bound_hdel. case_decide; [|auto]. subst. right. split; [|auto].
    right. apply H4; auto.
Qed.

Lemma unbind_keeps nw host w : phase_ok T u (nw, Unbinding host) w →
  keeps (nw, Unbinding host) w (nw, Idle) (hdel (cfg_host_to_node_map c) host w).
Proof. intros [Hh Hn]. destruct (release_held _ _ _ _ Hn Hh). by split. Qed.

Lemma release_keeps nw host i w : phase_ok T u (nw, Removing host i) w →
  keeps (nw, Removing host i) w (nw, Idle)
    (put_entry nw i (hdel (cfg_host_to_node_map c) host w)).
Proof.
  intros (Hh & Hn & ->). destruct (release_held _ _ _ _ Hn Hh) as [[H1 H2 H3 H4 H5] Hv].
  split; [done|]. split.
  - constructor; [left; by rewrite entry_put, decide_True|done|done| |].
    + intros h. rewrite bound_put. apply H4.
    + intros Hu h. rewrite bound_put. by apply H5.
  - intros m Hm. destruct (Hv m Hm) as [He Hb]. split.
    + by rewrite entry_put, decide_False.
    + intros h Hh'. rewrite bound_put. by apply Hb.
Qed.

Lemma pop_keeps nw p host w : NoDup (nw_hosts nw) →
  dict_get p (nw_pid_to_host_map nw) = Some host →
  let nw' := nw_set_pids (dict_pop p (nw_pid_to_host_map nw)) nw in
  (host ∉ nw_hosts nw') ∧ (workers_of nw = workers_of nw' + 1)%Z ∧ NoDup (nw_hosts nw')
  ∧ ∀ h, h ∈ nw_hosts nw ↔ h ∈ nw_hosts nw' ∨ Some host = Some h.
Proof.
  intros Hnd Hp nw'. subst nw'. unfold nw_hosts, workers_of in *; simpl.
  pose proof (λ x, dict_pop_elem p host x _ Hnd Hp) as He.
  split_and!.
  - rewrite He. naive_solver.
  - unfold nw_hosts. rewrite !length_fmap, (dict_pop_length _ _ _ Hp). simpl. lia.
  - eapply sublist_NoDup; [apply Hnd|]. apply (fmap_sublist snd), dict_pop_sublist.
  - intros h. rewrite He. destruct (decide (h = host)) as [->|]; [|naive_solver].
    split; [auto|]. intros _. apply (list_elem_of_fmap_2 snd _ (p, host)), dict_get_elem_of, Hp.
Qed.

(** The node has no entry any more: the worker is forgotten. *)
Lemma pop_forgets nw p host w : phase_ok T u (nw, Idle) w →
  dict_get p (nw_pid_to_host_map nw) = Some host → u = true → entry w (nw_name nw) = None →
  phase_ok T u (nw_set_pids (dict_pop p (nw_pid_to_host_map nw)) nw, Idle) w.
Proof.
  intros [H1 H2 H3 H4 H5] Hp Hu He. destruct (pop_keeps nw p host w H2 Hp) as (Hn & Hlen & Hnd & Hin).
  constructor; [by right|done|unfold workers_of in Hlen; lia| |congruence].
  intros h Hh [Hh'|[=]]. apply H4; [done|]. left. apply Hin. auto.
Qed.

Lemma dstep_keeps d w d' w' : dstep d w d' w' → phase_ok T u d w → keeps d w d' w'.
Proof.
  intros Hs Hok. destruct Hs as [nw keys w|nw host i w Ha Hg Hc|nw host i w w' E|nw host i w w' E
    |nw host i p w w' E Hp|nw host i e w w' E|nw host w|nw i w|nw p host i w Hp Hg
    |nw p host e w Hp Hg|nw host i w|nw ph w].
  - by apply register_keeps.
  - rewrite (get_entry_held _ _ _ _ _ _ _ Hok Hg) in *. rewrite host_pinned in Ha.
    apply bool_decide_eq_false in Ha. rewrite Z.geb_leb in Hc. to_prop. simpl in Hc.
    split; [done|]. split; [|done]. split_and!; auto.
  - exact (bind_keeps _ _ _ _ _ _ Hok E).
  - exact (bind_keeps _ _ _ _ _ _ Hok E).
  - by apply spawn_keeps.
  - destruct (start_maps w) as [He Hb]. rewrite E in He, Hb. simpl in He, Hb.
    split; [done|]. destruct Hok as (Hh & Hn & _).
    split; [split; [|done]|intros m Hm; apply (keeps_view (nw_name nw)); auto].
    apply (held_view _ _ _ _ _ w); [|done]. split; [apply He|]. intros h _. by rewrite Hb.
  - by apply unbind_keeps.
  - by apply commit_keeps.
  - rewrite (get_entry_held _ _ _ _ _ _ _ Hok Hg). destruct Hok as [H1 H2 H3 H4 H5].
    destruct (pop_keeps nw p host w H2 Hp) as (Hn & Hlen & Hnd & Hin).
    split; [done|]. split; [|done]. split_and!; [|done|].
    + constructor; cbn [nw_name nw_set_pids]; [by rewrite <-Hlen|done|unfold workers_of in Hlen; lia| |].
      * intros h Hh Hx. apply H4; [done|]. rewrite Hin. naive_solver.
      * intros Hu h Hh Hbd%H5; [|done..]. rewrite Hin in Hbd. naive_solver.
    + unfold count_by, entry_with; simpl. f_equal. lia.
  - destruct (get_entry_error _ _ _ _ _ _ _ Hok Hg) as [Hu He].
    split; [done|]. split; [by eapply pop_forgets|done].
  - by apply release_keeps.
  - split; [done|]. split; [|done].
    destruct ph; simpl in *; intuition auto using held_signal.
Qed.
End commands.

(** ** Every step keeps the invariant *)
Lemma scan_elem nw w h : h ∈ register_scan nw w ↔ bound w h = Some (nw_name nw).
Proof.
  unfold register_scan. rewrite list_elem_of_fmap. split.
  - intros ([h' n] & -> & [Hn Hin]%list_elem_of_filter). simpl in *. subst n.
    by apply hscan_elem in Hin.
  - intros Hh. exists (h, nw_name nw). split; [done|]. apply list_elem_of_filter.
    split; [done|]. by apply hscan_elem.
Qed.

Lemma force_scan_elem i w h : h ∈ force_scan i w ↔ bound w h = Some (ni_hostname i).
Proof. apply (scan_elem (NodeWorker_init (ni_hostname i))). Qed.

(** A cleanup takes the node's entry and the bindings of its workers. *)
Lemma cleanup_view T nw w m :
  (∀ h, h ∉ T → h ∈ nw_hosts nw → bound w h = Some (nw_name nw)) → m ≠ nw_name nw →
  same_view T m w (cleanup c (nw, w)).2.2.
Proof.
  intros Hown Hm. destruct (cleanup c (nw, w)) as [r [nw' w']] eqn:E. simpl.
  assert (∀ k f, hget k f w' = if decide (k = cfg_node_info_map c ∧ f = nw_name nw) then None
    else if decide (k = cfg_host_to_node_map c ∧ f ∈ nw_hosts nw) then None
    else hget k f w) as Hc.
  { intros k f. by destruct (hget_cleanup _ _ _ _ _ _ k f E) as (_ & _ & ?). }
  apply (keeps_view _ (nw_name nw)); [done| |].
  - intros m' Hm'. unfold entry. rewrite Hc, !decide_False by naive_solver. done.
  - intros h Hh. unfold bound. rewrite Hc. rewrite decide_False by naive_solver.
    destruct (decide _) as [[_ Hin]|]; [|auto]. right. split; [|auto]. right. by apply Hown.
Qed.

Lemma phase_owned T u nw ph w h : phase_ok T u (nw, ph) w → h ∉ T → h ∈ nw_hosts nw →
  bound w h = Some (nw_name nw).
Proof.
  intros Hok Hh Hin. destruct ph; simpl in Hok; destruct_and?;
    try match goal with Hd : held _ _ _ _ _ _ |- _ => apply (held_owned _ _ _ _ _ _ Hd); auto end.
  unfold nw_hosts in Hin. replace (nw_pid_to_host_map nw) with (@nil (Z * string)) in Hin by done.
  by apply not_elem_of_nil in Hin.
Qed.

Lemma bound_commit i keys w h :
  bound (force_commit i keys w) h = if decide (h ∈ keys) then None else bound w h.
Proof.
  unfold force_commit. rewrite hdels_match. unfold bound at 1. rewrite hget_hdel, decide_False by naive_solver.
  apply bound_hdels.
Qed.

Lemma entry_commit i keys w n :
  entry (force_commit i keys w) n = if decide (n = ni_hostname i) then None else entry w n.
Proof.
  unfold force_commit. rewrite hdels_match. unfold entry. rewrite hget_hdel.
  destruct (decide (n = _)) as [->|]; [by rewrite decide_True|]. rewrite decide_False by naive_solver.
  apply entry_hdels.
Qed.

(** What it takes from a node that runs is on the label of the step. *)
Lemma commit_taken i keys w nodes h n d : nodes !! n = Some d →
  h ∉ del_taken (deletion_of i keys w nodes) →
  bound (force_commit i keys w) h = Some n ↔ bound w h = Some n.
Proof.
  intros Hn Hh. rewrite bound_commit. destruct (decide (h ∈ keys)) as [Hin|]; [|done].
  split; [done|]. intros Hb. destruct Hh. simpl. apply list_elem_of_filter. split; [|done].
  unfold runs. rewrite Hb. apply bool_decide_eq_true. eauto.
Qed.

Lemma unlist_keeps n b l : l ≠ LStart n → (b = true → unlist n b l = true).
Proof.
  destruct l; simpl; try done; [|by intros _ ->]. intros Hl ->. destruct (String.eqb_spec n0 n); [|done].
  congruence.
Qed.

(** Another node's view of a world in which this one took a step *)
Lemma view_inv l ls w w' (nodes nodes' : gmap string daemon) n :
  taken_by l = [] → (∀ m, m ≠ n → unlist m (unlisted m ls) l = unlisted m ls) →
  (∀ m, m ≠ n → same_view (taken ls) m w w') →
  (∀ m d, m ≠ n → nodes' !! m = Some d → nodes !! m = Some d) →
  (∀ m d, nodes !! m = Some d → nw_name d.1 = m ∧ phase_ok (taken ls) (unlisted m ls) d w) →
  ∀ m d, m ≠ n → nodes' !! m = Some d →
    nw_name d.1 = m ∧ phase_ok (taken (ls ++ [l])) (unlisted m (ls ++ [l])) d w'.
Proof.
  intros Ht Hu Hv Hsub Hi m d Hne Hm. destruct (Hi m d (Hsub m d Hne Hm)) as [Hname Hok].
  split; [done|]. rewrite taken_snoc, Ht, app_nil_r, unlisted_snoc, Hu by done.
  apply (phase_ok_view _ _ d w); [|done]. rewrite Hname. by apply Hv.
Qed.

Lemma delete_inv i keys w nodes ls n d :
  nw_name d.1 = n → nodes !! n = Some d → phase_ok (taken ls) (unlisted n ls) d w →
  let l := LDelete (deletion_of i keys w nodes) in
  phase_ok (taken (ls ++ [l])) (unlisted n (ls ++ [l])) d (force_commit i keys w).
Proof.
  intros Hname Hn Hok l. rewrite taken_snoc, unlisted_snoc.
  apply (phase_ok_mono (taken ls) _ (unlisted n ls) _ d w); [set_solver| | | |done].
  - by apply unlist_keeps.
  - rewrite Hname, entry_commit. case_decide as Heq; [|by left]. right. split; [|done].
    simpl. rewrite <-Heq, String.eqb_refl, Hn. apply orb_true_iff. right. by apply bool_decide_eq_true.
  - intros h Hh. rewrite Hname. apply (commit_taken _ _ _ nodes h n d Hn). simpl in *. set_solver.
Qed.

Lemma step_inv ls l st st' : step l st st' → cluster_inv ls st → cluster_inv (ls ++ [l]) st'.
Proof.
  intros Hs Hi.
  destruct Hs as [n d d' w w' nodes dels Hn Hd|n w nodes dels o Hn Hg|n w nodes dels e Hn Hg
    |n nw ph w nodes dels Hn|n d w nodes dels Hn|i w nodes dels|i keys w nodes dels1 dels2
    |w w' nodes dels Hb He]; unfold cluster_inv in *; simpl in *.
  - destruct (Hi n d Hn) as [Hname Hok]. destruct (dstep_keeps _ _ _ _ _ _ Hd Hok) as (Hn' & Hok' & Hv).
    intros m dm. destruct (decide (m = n)) as [->|Hne].
    + rewrite lookup_insert_eq. intros [= <-]. split; [congruence|].
      by rewrite taken_snoc, app_nil_r, unlisted_snoc.
    + apply (view_inv (LNode n) ls w w' nodes _ n); [done|done| | |done|done].
      * intros m' Hm'. apply Hv. congruence.
      * intros m' d0 Hm'. by rewrite lookup_insert_ne.
  - intros m dm. destruct (decide (m = n)) as [->|Hne].
    + rewrite lookup_insert_eq. intros [= <-]. split; [done|]. rewrite taken_snoc, app_nil_r.
      split; [done|]. intros h _. apply scan_elem.
    + apply (view_inv (LStart n) ls w w nodes _ n); [done| |done| |done|done].
      * intros m' Hm'. simpl. by rewrite (proj2 (String.eqb_neq n m')).
      * intros m' d0 Hm'. by rewrite lookup_insert_ne.
  - intros m dm Hm. assert (m ≠ n) as Hne by (intros ->; congruence).
    apply (view_inv (LStart n) ls w _ nodes nodes n); [done| | |done|done|done|done].
    + intros m' Hm'. simpl. by rewrite (proj2 (String.eqb_neq n m')).
    + intros m' Hm'. apply (cleanup_view _ (NodeWorker_init n)); [|done]. intros h _ Hin. by apply not_elem_of_nil in Hin.
  - destruct (Hi n _ Hn) as [Hname Hok]. simpl in Hname. intros m dm Hm.
    apply lookup_delete_Some in Hm as [Hne Hm].
    apply (view_inv (LStop n) ls w _ nodes nodes n); [done|done| |done|done|done|done].
    intros m' Hm'. apply (cleanup_view _ nw); [|congruence]. intros h. by apply (phase_owned _ _ nw ph _ h Hok).
  - intros m dm Hm. apply lookup_delete_Some in Hm as [Hne Hm].
    by apply (view_inv (LCrash n) ls w w nodes nodes n).
  - intros m dm Hm. rewrite taken_snoc, app_nil_r, unlisted_snoc. exact (Hi m dm Hm).
  - intros m dm Hm. destruct (Hi m dm Hm) as [Hname Hok]. split; [done|]. by apply delete_inv.
  - intros m dm Hm. destruct (Hi m dm Hm) as [Hname Hok]. split; [done|].
    rewrite taken_snoc, app_nil_r, unlisted_snoc. apply (phase_ok_view _ _ dm w); [|done].
    split; [by rewrite He|]. intros h _. by rewrite Hb.
Qed.

Lemma run_inv ls st : run ls st → cluster_inv ls st.
Proof.
  intros [w Hs]. remember (mkCluster w ∅ []) as st0. induction Hs as [|ls l st st1 st2 _ IH Hl]; subst;
    [|by eauto using step_inv].
  intros n d Hn. simpl in Hn. by rewrite lookup_empty in Hn.
Qed.

Lemma phase_bounds T u nw ph w : phase_ok T u (nw, ph) w →
  NoDup (nw_hosts nw) ∧ (workers_of nw ≤ Z.max 0 (cfg_pinned_per_node c))%Z.
Proof.
  intros Hok. destruct ph; simpl in Hok; destruct_and?;
    try match goal with Hh : held _ _ _ _ _ _ |- _ => split; apply Hh end.
  unfold workers_of, nw_hosts. replace (nw_pid_to_host_map nw) with (@nil (Z * string)) by done.
  split; [constructor|simpl; lia].
Qed.

(** ** The handlers are runs of these steps *)
Lemma reach_step l st st' : reachable st → step l st st' → reachable st'.
Proof. intros (ls & w & Hs) Hl. exists (ls ++ [l]), w. by eapply steps_snoc. Qed.

Lemma run_step l ls st st' : run ls st → step l st st' → run (ls ++ [l]) st'.
Proof. intros [w Hs] Hl. exists w. by eapply steps_snoc. Qed.

Lemma run_node n d d' w w' nodes dels ls :
  run ls (mkCluster w (<[n := d]> nodes) dels) → dstep d w d' w' →
  run (ls ++ [LNode n]) (mkCluster w' (<[n := d']> nodes) dels).
Proof.
  intros Hr Hd. rewrite <-(insert_insert_eq _ _ d' d). apply (run_step (LNode n) _ _ _ Hr).
  apply (s_node n d); [apply lookup_insert_eq|done].
Qed.

Lemma reach_node n d d' w w' nodes dels :
  reachable (mkCluster w (<[n := d]> nodes) dels) → dstep d w d' w' →
  reachable (mkCluster w' (<[n := d']> nodes) dels).
Proof. intros [ls Hr] Hd. eexists. by eapply run_node. Qed.

Lemma get_entry_cases nw w :
  get_entry nw w = if negb (str_truthy (hget (cfg_node_info_map c) (nw_name nw) w))
    then Err (SystemExit 1)
    else NodeInfo_validate_json (default "" (hget (cfg_node_info_map c) (nw_name nw) w)).
Proof. done. Qed.

Lemma add_run q host nw w nodes dels n r nw' w' :
  reachable (mkCluster w (<[n := (nw, Idle)]> nodes) dels) →
  (∀ p, p ∈ (nw_pid_to_host_map nw).*1 → p ∈ live_pids w) →
  add c q host (nw, w) = (r, (nw', w')) →
  reachable (mkCluster w' (<[n := (nw', Idle)]> nodes) dels).
Proof.
  intros Hr Hlive. unfold add. destruct (any _ _) eqn:Ea; [by intros [= _ <- <-]|].
  pose proof (get_entry_cases nw w) as Hg.
  destruct (negb _) eqn:Et; [by intros [= _ <- <-]|].
  destruct (NodeInfo_validate_json _) as [i|e]; [|by intros [= _ <- <-]].
  destruct (_ >=? _)%Z eqn:Ec; [by intros [= _ <- <-]|].
  pose proof (reach_node n _ _ _ _ nodes dels Hr (d_check nw host i w Ea Hg Ec)) as Hr1.
  pose proof (hsetnx_pids (cfg_host_to_node_map c) host (nw_name nw) w) as Hl.
  destruct (hsetnx _ _ _ _) as [[] w1] eqn:Ex; simpl;
    [|intros [= _ <- <-]; apply (reach_node n _ _ _ _ nodes dels Hr1); by apply d_taken].
  pose proof (reach_node n _ _ _ _ nodes dels Hr1 (d_bind nw host _ w w1 Ex)) as Hr2.
  pose proof (process_start_ok w1) as Hok. pose proof (process_start_err w1) as Herr.
  destruct (process_start w1) as [[p|e] w2] eqn:Ep.
  - intros [= _ <- <-]. destruct (Hok _ _ eq_refl) as [Hfresh _]. simpl in Hl. rewrite Hl in Hfresh.
    assert (p ∉ (nw_pid_to_host_map nw).*1) as Hp by (intros Hin; by apply Hfresh, Hlive).
    pose proof (reach_node n _ _ _ _ nodes dels Hr2 (d_spawn nw host _ p w1 w2 Ep Hp)) as Hr3.
    apply (reach_node n _ _ _ _ nodes dels Hr3), (d_commit (nw_set_pids _ nw)).
  - destruct (Herr _ _ eq_refl) as [-> _]. intros [= _ <- <-].
    pose proof (reach_node n _ _ _ _ nodes dels Hr2 (d_spawn_fails nw host _ e w1 w2 Ep)) as Hr3.
    apply (reach_node n _ _ _ _ nodes dels Hr3), d_unbind.
Qed.

Lemma remove_run pid host nw w nodes dels n r nw' w' :
  reachable (mkCluster w (<[n := (nw, Idle)]> nodes) dels) →
  (∀ h, dict_get pid (nw_pid_to_host_map nw) = Some h → h = host) →
  _remove c pid host (Some nw, w) = (r, (Some nw', w')) →
  reachable (mkCluster w' (<[n := (nw', Idle)]> nodes) dels).
Proof.
  intros Hr Hh. unfold _remove.
  destruct (dict_get pid _) as [h|] eqn:Ep; [|by intros [= _ <- <-]].
  rewrite (Hh h eq_refl) in Ep. pose proof (get_entry_cases nw w) as Hg. cbn [nw_name nw_set_pids].
  destruct (negb _) eqn:Et.
  { intros [= _ <- <-]. apply (reach_node n _ _ _ _ nodes dels Hr). by eapply d_pop_fails. }
  destruct (NodeInfo_validate_json _) as [i|e].
  - intros [= _ <- <-].
    pose proof (reach_node n _ _ _ _ nodes dels Hr (d_pop nw pid host i w Ep Hg)) as Hr1.
    apply (reach_node n _ _ _ _ nodes dels Hr1), (d_release (nw_set_pids _ nw)).
  - intros [= _ <- <-]. apply (reach_node n _ _ _ _ nodes dels Hr). by eapply d_pop_fails.
Qed.

Lemma register_node_split nw w : let keys := register_scan nw w in
  register_node c nw w = register_commit nw keys (register_deaths nw keys w).
Proof. done. Qed.

Lemma deaths_maps nw keys w : let w' := register_deaths nw keys w in
  (∀ h, bound w' h = bound w h) ∧ ∀ n, entry w' n = entry w n.
Proof.
  assert (∀ k f, hget k f (register_deaths nw keys w) = hget k f w) as Hd.
  { intros k f. unfold register_deaths. rewrite hget_deaths.
    apply (foldl_preserves (λ w', hget k f w' = hget k f w)); [|done].
    intros h w' <-. apply hget_deaths. }
  split; intros; apply Hd.
Qed.

Lemma start_run ls nw w nodes dels n o :
  run ls (mkCluster w nodes dels) → nodes !! n = None → nw = NodeWorker_init n →
  _get_node c nw w = Ok o →
  run (ls ++ [LStart n; LEnv; LNode n]) (mkCluster (register_node c nw w)
    (<[n := (nw_listening (get_node_queue_name n) nw, Idle)]> nodes) dels).
Proof.
  intros Hr Hn -> Hg. rewrite register_node_split.
  set (nw := NodeWorker_init n) in *. set (keys := register_scan nw w).
  pose proof (run_step (LStart n) _ _ _ Hr (s_start n w nodes dels o Hn Hg)) as Hr1.
  destruct (deaths_maps nw keys w) as [Hb He].
  pose proof (run_step LEnv _ _ _ Hr1 (s_env w _ _ dels Hb He)) as Hr2.
  pose proof (run_node n _ _ _ _ nodes dels _ Hr2 (d_register nw keys _)) as Hr3.
  by rewrite <-!(assoc (++)) in Hr3.
Qed.

Lemma shutdowns_maps keys w : (∀ h, bound (force_shutdowns keys w) h = bound w h)
  ∧ ∀ n, entry (force_shutdowns keys w) n = entry w n.
Proof.
  assert (∀ k f, hget k f (force_shutdowns keys w) = hget k f w) as Hd.
  { intros k f. unfold force_shutdowns.
    apply (foldl_preserves (λ w', hget k f w' = hget k f w)); [|done].
    intros h w' <-. apply hget_shutdowns. }
  split; intros; apply Hd.
Qed.

Lemma force_delete_split node w : let keys := force_scan node w in
  _force_delete_node c node w = force_shutdowns keys (force_commit node keys w).
Proof. done. Qed.

Lemma delete_run i w nodes dels : reachable (mkCluster w nodes dels) →
  reachable (mkCluster (_force_delete_node c i w) nodes dels).
Proof.
  intros Hr. rewrite force_delete_split. set (keys := force_scan i w).
  pose proof (reach_step _ _ _ Hr (s_scan i w nodes dels)) as Hr1.
  pose proof (reach_step _ _ _ Hr1 (s_delete i keys w nodes [] dels)) as Hr2.
  destruct (shutdowns_maps keys (force_commit i keys w)) as [Hb He].
  exact (reach_step LEnv _ _ Hr2 (s_env _ _ nodes dels Hb He)).
Qed.

(** C12. The interleaved steps include the handlers of the code: from a
    reachable cluster, a whole run of [start_pinned_worker], of [_remove], of
    the registration in [listen] or of [cleanup] on one node, or of
    [_force_delete_node], ends in a reachable cluster, with the result the
    handler has in the code. *)
Theorem handlers_reachable w nodes dels n nw :
  reachable (mkCluster w nodes dels) →
  (nodes !! n = Some (nw, Idle) →
     (∀ q host r o w',
        (∀ p, p ∈ (nw_pid_to_host_map nw).*1 → p ∈ live_pids w) →
        start_pinned_worker c q host (Some nw, w) = (r, (o, w')) →
        ∃ nw', o = Some nw' ∧ reachable (mkCluster w' (<[n := (nw', Idle)]> nodes) dels))
     ∧ (∀ pid host r o w',
          (∀ h, dict_get pid (nw_pid_to_host_map nw) = Some h → h = host) →
          _remove c pid host (Some nw, w) = (r, (o, w')) →
          ∃ nw', o = Some nw' ∧ reachable (mkCluster w' (<[n := (nw', Idle)]> nodes) dels))
     ∧ reachable (mkCluster (cleanup c (nw, w)).2.2 (delete n nodes) dels))
  ∧ (nodes !! n = None → nw = NodeWorker_init n → is_ok (_get_node c nw w) = true →
       reachable (mkCluster (register_node c nw w)
         (<[n := (nw_listening (get_node_queue_name n) nw, Idle)]> nodes) dels))
  ∧ ∀ i, reachable (mkCluster (_force_delete_node c i w) nodes dels).
Proof.
  intros Hr. split_and!; [| |intros i; by apply delete_run].
  - intros Hn. assert (nodes = <[n := (nw, Idle)]> nodes) as Hself by (by rewrite insert_id).
    rewrite Hself in Hr. split_and!.
    + intros q host r o w' Hl. unfold start_pinned_worker.
      destruct (add c q host (nw, w)) as [r1 [nw1 w1]] eqn:Ea. intros [= _ <- <-].
      eauto using add_run.
    + intros pid host r o w' Hh Hrem.
      assert (∃ nw', o = Some nw') as [nw' ->].
      { revert Hrem. unfold _remove. repeat case_match; intros; simplify_eq; eauto. }
      eauto using remove_run.
    + rewrite Hself, delete_insert_eq. apply (reach_step (LStop n) _ _ Hr).
      rewrite <-(delete_insert_eq nodes n (nw, Idle)). eapply s_stop, lookup_insert_eq.
  - intros Hn -> Hg. destruct (_get_node _ _ _) as [o|] eqn:E; [|done].
    destruct Hr as [ls Hr]. eexists. by eapply start_run.
Qed.
(** ** Bindings to a node that does not run

    A daemon stopped between the [HSETNX] and the [HSET] of [add] does not know
    of the host it has bound.  A daemon releases only what it has a claim on. *)
Definition claims (d : daemon) : list string :=
  nw_hosts d.1 ++ match d.2 with
                  | Registering keys => keys
                  | Bound host _ | Unbinding host | Removing host _ => [host]
                  | _ => []
                  end.

(** [h] is bound to [n], which does not run, and no daemon has a claim on it. *)
Definition stranded (n h : string) (st : cluster) : Prop :=
  cl_nodes st !! n = None ∧ bound (cl_world st) h = Some n
  ∧ ∀ m d, cl_nodes st !! m = Some d → nw_name d.1 = m ∧ h ∉ claims d.

Lemma dict_pop_hosts nw p h :
  h ∈ nw_hosts (nw_set_pids (dict_pop p (nw_pid_to_host_map nw)) nw) → h ∈ nw_hosts nw.
Proof.
  unfold nw_hosts; simpl. rewrite !list_elem_of_fmap. intros (x & -> & Hx). exists x. split; [done|].
  eapply elem_of_sublist; [apply Hx|apply dict_pop_sublist].
Qed.

(** A command of a daemon that has no claim on a bound host leaves it. *)
Lemma dstep_unclaimed d w d' w' n h : dstep d w d' w' →
  bound w h = Some n → nw_name d.1 ≠ n → h ∉ claims d →
  bound w' h = Some n ∧ nw_name d'.1 = nw_name d.1 ∧ h ∉ claims d'.
Proof.
  intros Hs Hb Hn. unfold claims.
  destruct Hs as [nw keys w|nw host i w Ha Hg Hc|nw host i w w' E|nw host i w w' E
    |nw host i p w w' E Hp|nw host i e w w' E|nw host w|nw i w|nw p host i w Hp Hg
    |nw p host e w Hp Hg|nw host i w|nw ph w]; simpl in *; rewrite ?app_nil_r; intros Hcl;
    (split; [|split; [done|]]); try exact Hcl; try exact Hb.
  - unfold register_commit. rewrite hdels_match, bound_put, bound_hdels, decide_False by set_solver. done.
  - set_solver.
  - apply setnx_maps in E as (Hok & _ & ->). symmetry in Hok. rewrite bool_decide_eq_true in Hok.
    rewrite decide_False by naive_solver. done.
  - apply setnx_maps in E as (Hok & _ & _). symmetry in Hok. rewrite bool_decide_eq_true in Hok. set_solver.
  - apply setnx_maps in E as (_ & _ & ->). by rewrite decide_False by naive_solver.
  - destruct (start_maps w) as [_ Hb']. rewrite E in Hb'. simpl in Hb'. by rewrite Hb'.
  - rewrite (hosts_set nw p host Hp). set_solver.
  - destruct (start_maps w) as [_ Hb']. rewrite E in Hb'. simpl in Hb'. by rewrite Hb'.
  - rewrite bound_hdel, decide_False by set_solver. done.
  - set_solver.
  - by rewrite bound_put.
  - intros [Hin%dict_pop_hosts|Hin%list_elem_of_singleton]%elem_of_app; [done|subst h].
    apply Hcl, (list_elem_of_fmap_2 snd _ (p, host)), dict_get_elem_of, Hp.
  - intros Hin%dict_pop_hosts. done.
  - rewrite bound_put, bound_hdel, decide_False by set_solver. done.
  - set_solver.
Qed.

Lemma bound_cleanup nw w h :
  bound (cleanup c (nw, w)).2.2 h = if decide (h ∈ nw_hosts nw) then None else bound w h.
Proof.
  destruct (cleanup c (nw, w)) as [r [nw' w']] eqn:E. simpl.
  destruct (hget_cleanup _ _ _ _ _ _ (cfg_host_to_node_map c) h E) as (_ & _ & Hg).
  unfold bound. rewrite Hg, decide_False by naive_solver. apply decide_ext. naive_solver.
Qed.

Lemma step_stranded n h l st st' : step l st st' → stranded n h st → l ≠ LStart n →
  (∀ d, l = LDelete d → h ∉ del_keys d) → stranded n h st'.
Proof.
  intros Hs (Hn & Hb & Hc) Hl Hd. unfold stranded.
  destruct Hs as [m d d' w w' nodes dels Hm Hs|m w nodes dels o Hm Hg|m w nodes dels e Hm Hg
    |m nw ph w nodes dels Hm|m d w nodes dels Hm|i w nodes dels|i keys w nodes dels1 dels2
    |w w' nodes dels Hb' He]; cbn [cl_nodes cl_world] in *.
  - assert (m ≠ n) as Hne by (intros ->; congruence). destruct (Hc m d Hm) as [Hname Hcl].
    destruct (dstep_unclaimed _ _ _ _ n h Hs Hb) as (Hb' & Hname' & Hcl'); [congruence|done|].
    split_and!; [by rewrite lookup_insert_ne|done|]. intros m' d0. rewrite lookup_insert_Some.
    intros [[<- <-]|[_ Hm']]; [split; [congruence|done]|by apply Hc].
  - assert (m ≠ n) as Hne by congruence. split_and!; [by rewrite lookup_insert_ne|done|].
    intros m' d0. rewrite lookup_insert_Some. intros [[<- <-]|[_ Hm']]; [|by apply Hc].
    split; [done|]. unfold claims; simpl. rewrite scan_elem. simpl. congruence.
  - split_and!; [done| |done]. rewrite bound_cleanup, decide_False by apply not_elem_of_nil. done.
  - destruct (Hc m _ Hm) as [_ Hcl]. split_and!; [rewrite lookup_delete_None; auto| |].
    + rewrite bound_cleanup, decide_False; [done|]. unfold claims in Hcl. simpl in Hcl. set_solver.
    + intros m' d0 [_ Hm']%lookup_delete_Some. by apply Hc.
  - split_and!; [rewrite lookup_delete_None; auto|done|]. intros m' d0 [_ Hm']%lookup_delete_Some. by apply Hc.
  - done.
  - split_and!; [done| |done]. rewrite bound_commit, decide_False; [done|]. exact (Hd _ eq_refl).
  - split_and!; [done|by rewrite Hb'|done].
Qed.

Lemma steps_stranded n h ls st st' : steps ls st st' → stranded n h st → LStart n ∉ ls →
  (∀ d, LDelete d ∈ ls → h ∉ del_keys d) → stranded n h st'.
Proof.
  induction 1 as [st|ls l st st1 st2 Hs IH Hl]; [done|]. intros Hst Hns Hd.
  eapply step_stranded; [done|apply IH; [done|set_solver|]| |].
  - intros d Hin. apply Hd. set_solver.
  - intros ->. set_solver.
  - intros d ->. apply Hd. set_solver.
Qed.

(** What a daemon claims and no deletion took is bound to it. *)
Lemma claims_bound T u d w h : phase_ok T u d w → h ∉ T → h ∈ claims d → bound w h = Some (nw_name d.1).
Proof.
  destruct d as [nw ph]. unfold claims; simpl. intros Hok Hh.
  intros [Hin|Hin]%elem_of_app; [by apply (phase_owned _ _ _ ph _ _ Hok)|].
  destruct ph; simpl in Hok; try (by apply not_elem_of_nil in Hin); try apply list_elem_of_singleton in Hin as ->;
    destruct_and?; try match goal with Hd : held _ _ _ _ _ _ |- _ => apply (held_owned _ _ _ _ _ _ Hd); auto end.
  naive_solver.
Qed.

Lemma run_stranded ls st n h : run ls st → cl_nodes st !! n = None →
  bound (cl_world st) h = Some n → h ∉ taken ls → stranded n h st.
Proof.
  intros Hi%run_inv Hn Hb Hh. split_and!; [done..|]. intros m d Hm. destruct (Hi m d Hm) as [Hname Hok].
  split; [done|]. intros Hin. pose proof (claims_bound _ _ _ _ _ Hok Hh Hin). congruence.
Qed.


(** A deletion of a node that is down takes nothing from a running one when,
    between its scan and its commit, the node is not started and no other
    deletion commits. *)
Theorem lone_deletion_safe ls0 ls w nodes dels i st d st' :
  run ls0 (mkCluster w nodes dels) → taken ls0 = [] → nodes !! ni_hostname i = None →
  steps ls (mkCluster w nodes ((i, force_scan i w) :: dels)) st →
  LStart (ni_hostname i) ∉ ls → (∀ d, LDelete d ∉ ls) →
  step (LDelete d) st st' → del_node d = ni_hostname i → del_keys d = force_scan i w →
  del_taken d = [] ∧ del_live d = false.
Proof.
  intros Hr Ht Hn Hs Hls Hld Hd Hnode Hkeys. set (n := ni_hostname i) in *.
  assert (∀ h, h ∈ force_scan i w → stranded n h st) as Hstr.
  { intros h Hh%force_scan_elem. eapply (steps_stranded n h); [exact Hs| |done|].
    - destruct (run_stranded ls0 _ n h Hr) as (? & ? & ?); [done..| |done]. rewrite Ht. apply not_elem_of_nil.
    - intros d' Hin. by apply Hld in Hin. }
  assert (cl_nodes st !! n = None) as Hdown.
  { clear -Hs Hls Hn. remember (mkCluster w nodes _) as st0 eqn:E. revert Hls. induction Hs as [st|ls l st st1 st2 Hs IH Hl].
    - by subst.
    - intros Hls. specialize (IH E ltac:(set_solver)). assert (l ≠ LStart n) by set_solver.
      destruct Hl; simpl in *; rewrite ?lookup_insert_ne, ?lookup_delete_None; auto; congruence. }
  inversion Hd as [| | | | | |i' keys w' nodes' d1 d2|]; subst. simpl in *. split.
  - apply elem_of_nil_inv. intros h [Hrn Hin]%list_elem_of_filter. rewrite Hkeys in Hin.
    destruct (Hstr h Hin) as (_ & Hb & _). simpl in Hb. unfold runs in Hrn. rewrite Hb in Hrn.
    apply bool_decide_eq_true in Hrn as [? Hx]. congruence.
  - apply bool_decide_eq_false. rewrite Hnode, Hdown. by intros [].
Qed.
End cluster.

Arguments mkCluster {W} _ _.
Arguments cl_world {W} _.
Arguments cl_nodes {W} _.
Arguments cl_deleting {W} _.

(** ** Examples *)
Module ToyCluster.
Notation c := default_config.
Notation md := default_maps_differ.
Definition w0 : Toy.world := Toy.empty 0 [].
Definition node (n : string) : NodeWorker :=
  nw_listening (get_node_queue_name n) (NodeWorker_init n).

(** Two nodes are up. *)
Definition w2 : Toy.world :=
  register_node c (NodeWorker_init "n2") (register_node c (NodeWorker_init "n1") w0).
Definition both : gmap string daemon :=
  <["n2" := (node "n2", Idle)]> (<["n1" := (node "n1", Idle)]> ∅).

Definition starts : list label := ([] ++ [LStart "n1"; LEnv; LNode "n1"]) ++ [LStart "n2"; LEnv; LNode "n2"].

Lemma both_up : run c starts (mkCluster w2 both []).
Proof.
  eapply (start_run c); [|by vm_compute..].
  eapply (start_run c); [|by vm_compute..]. exists w0. constructor.
Qed.

(** Both nodes are asked for [h1] and find it free; [n1] is faster. *)
Definition info (n : string) : NodeInfo := mkNodeInfo n 1 32 (get_node_queue_name n).
Definition w3 : Toy.world := (hsetnx (cfg_host_to_node_map c) "h1" "n1" w2).2.
Definition w4 : Toy.world := (hsetnx (cfg_host_to_node_map c) "h1" "n2" w3).2.
Definition pinned : NodeWorker := nw_set_pids [(101%Z, "h1")] (node "n1").
Definition w5 : Toy.world := put_entry c pinned (info "n1") (process_start w4).2.
Definition raced : gmap string daemon :=
  <["n1" := (pinned, Idle)]> (<["n1" := (pinned, Spawned (info "n1"))]>
  (<["n2" := (node "n2", Idle)]> (<["n1" := (node "n1", Bound "h1" (info "n1"))]>
  (<["n2" := (node "n2", Checked "h1" (info "n2"))]>
  (<["n1" := (node "n1", Checked "h1" (info "n1"))]> both))))).

Ltac run n := eapply (run_step c (LNode n)); [|eapply (s_node c n); [by vm_compute|]].

Definition free (n : string) : NodeInfo := mkNodeInfo n 0 32 (get_node_queue_name n).
Definition race_labels : list label := (((((starts ++ [LNode "n1"]) ++ [LNode "n2"]) ++ [LNode "n1"])
  ++ [LNode "n2"]) ++ [LNode "n1"]) ++ [LNode "n1"].

Lemma race : run c race_labels (mkCluster w5 raced []).
Proof.
  run "n1"; [|exact (d_commit c pinned (info "n1") (process_start w4).2)].
  run "n1"; [|refine (d_spawn c (node "n1") "h1" (info "n1") 101 w4 _ _ _); [by vm_compute|apply not_elem_of_nil]].
  run "n2"; [|refine (d_taken c (node "n2") "h1" (info "n2") w3 w4 _); by vm_compute].
  run "n1"; [|refine (d_bind c (node "n1") "h1" (info "n1") w2 w3 _); by vm_compute].
  run "n2"; [|refine (d_check c (node "n2") "h1" (free "n2") w2 _ _ _); by vm_compute].
  run "n1"; [|refine (d_check c (node "n1") "h1" (free "n1") w2 _ _ _); by vm_compute].
  apply both_up.
Qed.


Lemma handlers_reachable_witness : ∃ nw w,
  start_pinned_worker c "HostQ_h1" "h1" (Some (node "n1"), w2) = (Ok tt, (Some nw, w))
  ∧ nw_hosts nw = ["h1"] ∧ reachable c (mkCluster w (<["n1" := (nw, Idle)]> both) []).
Proof.
  destruct (handlers_reachable c w2 both [] "n1" (node "n1") (ex_intro (λ ls, run c ls _) starts both_up)) as [Hh _].
  destruct (Hh ltac:(vm_compute; reflexivity)) as [Hadd _].
  destruct (start_pinned_worker c "HostQ_h1" "h1" (Some (node "n1"), w2)) as [r [o w]] eqn:E.
  destruct (Hadd "HostQ_h1" "h1" r o w) as (nw & Ho & Hr);
    [intros p Hp; by apply not_elem_of_nil in Hp|exact E|].
  assert ((start_pinned_worker c "HostQ_h1" "h1" (Some (node "n1"), w2)).1 = Ok tt
    ∧ nw_hosts <$> (start_pinned_worker c "HostQ_h1" "h1" (Some (node "n1"), w2)).2.1
      = Some ["h1"]) as [H1 H2] by (vm_compute; auto).
  rewrite E in H1, H2. simpl in H1, H2. rewrite Ho in H2. injection H2 as H2.
  exists nw, w. rewrite H1, Ho. split; [reflexivity|]. split; [exact H2|exact Hr].
Defined.

(** [n1] is stopped when it has bound [h1] and before it knows the worker: the
    binding stays, the entry of [n1] is gone, and [n2] cannot pin [h1]. *)
Definition stopped : Toy.world := (cleanup c (node "n1", w3)).2.2.
Definition left : gmap string daemon :=
  delete "n1" (<["n1" := (node "n1", Bound "h1" (info "n1"))]>
    (<["n1" := (node "n1", Checked "h1" (info "n1"))]> both)).
Definition stop_labels : list label := ((starts ++ [LNode "n1"]) ++ [LNode "n1"]) ++ [LStop "n1"].

Lemma stopped_run : run c stop_labels (mkCluster stopped left []).
Proof.
  apply (run_step c (LStop "n1") _ (mkCluster w3 (<["n1" := (node "n1", Bound "h1" (info "n1"))]>
    (<["n1" := (node "n1", Checked "h1" (info "n1"))]> both)) []));
    [|eapply s_stop; apply lookup_insert_eq].
  run "n1"; [|refine (d_bind c (node "n1") "h1" (info "n1") w2 w3 _); by vm_compute].
  run "n1"; [|refine (d_check c (node "n1") "h1" (free "n1") w2 _ _ _); by vm_compute].
  apply both_up.
Qed.

Lemma left_behind : bound c stopped "h1" = Some "n1" ∧ entry c stopped "n1" = None
  ∧ (add c "HostQ_h1" "h1" (node "n2", stopped)).1
    = Err (HostAlreadyPinnedError "Host h1 is already pinned").
Proof. by vm_compute. Qed.


(** Two controllers delete [n1], which has crashed and whose host was [h1]: one
    has scanned, the other deletes, [n2] pins [h1], and the first commits.
    Then [h1] is free although [n2] runs its worker, and [n3] pins it too. *)
Definition crashed : Toy.world := register_node c (NodeWorker_init "n3") w5.
Definition scanned : list string := force_scan c (info "n1") crashed.
Definition repinned : res unit * (NodeWorker * Toy.world) :=
  add c "HostQ_h1" "h1" (node "n2", _force_delete_node c (info "n1") crashed).
Definition late : Toy.world := force_commit c (info "n1") scanned repinned.2.2.
Definition late_pinned : res unit * (NodeWorker * Toy.world) := add c "HostQ_h1" "h1" (node "n3", late).

Lemma stale_delete :
  repinned.1 = Ok tt ∧ nw_hosts repinned.2.1 = ["h1"] ∧ bound c late "h1" = None
  ∧ late_pinned.1 = Ok tt ∧ nw_hosts late_pinned.2.1 = ["h1"].
Proof. by vm_compute. Qed.

(** That is a run of the steps: the label of the late commit says what it took. *)
Definition down (nodes : gmap string daemon) : gmap string daemon :=
  <["n3" := (node "n3", Idle)]> (delete "n1" nodes).
Definition twice : gmap string daemon :=
  <["n3" := (late_pinned.2.1, Idle)]> (<["n2" := (repinned.2.1, Idle)]> (down raced)).

Lemma add_reaches n q h r nw w nodes dels nw' w' :
  nodes !! n = Some (nw, Idle) → nw_pid_to_host_map nw = [] →
  add c q h (nw, w) = (r, (nw', w')) →
  reachable c (mkCluster w nodes dels) → reachable c (mkCluster w' (<[n := (nw', Idle)]> nodes) dels).
Proof.
  intros Hn Hp Ha Hr. eapply (add_run c q h nw w nodes dels n); [by rewrite insert_id| |exact Ha].
  rewrite Hp. intros p Hin. by apply not_elem_of_nil in Hin.
Qed.

Lemma crashed_reachable : reachable c (mkCluster crashed (down raced) []).
Proof.
  exists ((race_labels ++ [LCrash "n1"]) ++ [LStart "n3"; LEnv; LNode "n3"]).
  apply (start_run c _ (NodeWorker_init "n3") w5 (delete "n1" raced) [] "n3" None); [|by vm_compute..].
  apply (run_step c _ _ (mkCluster w5 raced [])); [apply race|].
  apply (s_crash c "n1" (pinned, Idle)). by vm_compute.
Qed.

Lemma scan_reachable : reachable c (mkCluster crashed (down raced) [(info "n1", scanned)]).
Proof. exact (reach_step c _ _ _ crashed_reachable (s_scan c (info "n1") crashed (down raced) [])). Qed.

Lemma repinned_reachable : reachable c
  (mkCluster repinned.2.2 (<["n2" := (repinned.2.1, Idle)]> (down raced)) [(info "n1", scanned)]).
Proof.
  refine (add_reaches "n2" "HostQ_h1" "h1" repinned.1 (node "n2")
    (_force_delete_node c (info "n1") crashed) (down raced) [(info "n1", scanned)]
    repinned.2.1 repinned.2.2 _ _ _ (delete_run c (info "n1") crashed _ _ scan_reachable)).
  - by vm_compute.
  - done.
  - unfold repinned. by destruct (add _ _ _ _) as [? [? ?]].
Qed.

Lemma twice_reachable : reachable c (mkCluster late_pinned.2.2 twice []).
Proof.
  refine (add_reaches "n3" "HostQ_h1" "h1" late_pinned.1 (node "n3") late _ []
    late_pinned.2.1 late_pinned.2.2 _ _ _ (reach_step c _ _ _ repinned_reachable
      (s_delete c (info "n1") scanned repinned.2.2 (<["n2" := (repinned.2.1, Idle)]> (down raced)) [] []))).
  - by vm_compute.
  - done.
  - unfold late_pinned. by destruct (add _ _ _ _) as [? [? ?]].
Qed.

(** A node that is deleted although it runs (its heartbeat is late): [h1] has a
    worker on [n1] and on [n2], and the next job of [n1] ends in an exit. *)
Lemma late_heartbeat :
  nw_hosts pinned = ["h1"]
  ∧ nw_hosts (add c "HostQ_h1" "h1" (node "n2", _force_delete_node c (info "n1") w5)).2.1 = ["h1"]
  ∧ (add c "HostQ_h2" "h2" (pinned, _force_delete_node c (info "n1") w5)).1 = Err (SystemExit 1).
Proof. by vm_compute. Qed.
End ToyCluster.
