(* ===== verification/Dispatch.v ===== *)
(** * Theorems on dispatch

    What the manager's single and bulk dispatch do: which jobs are queued,
    where, and on which outcome, for any scheduler that keeps its contract. *)

From S2P Require Import Prelude PyLib Models Schedulers World Registry Manager.

Section dispatch.
Context {W : Type} `{Json} `{Redis W} `{!Rq W} `{!Clock W} `{!Trace W} `{!Scheduler W}.
Context (c : Config).
Implicit Types (w : W) (n : NodeInfo).

(** A step that changes neither Redis nor the queues, the workers, the time. *)
Definition calm w w' : Prop :=
  same w w' ∧ (∀ q, worker_all q w' = worker_all q w) ∧ now w' = now w.

#[export] Instance calm_preorder : PreOrder calm.
Proof.
  split; [done|]. intros w1 w2 w3 ([]&?&?) ([]&?&?).
  split_and!; [split|..]; intros; congruence.
Qed.

Context `{!SchedulerLaws W} `{!Quiet W calm}.

Lemma alive_calm w w' q : calm w w' → _check_worker_alive c q w' = _check_worker_alive c q w.
Proof. intros (_ & Hw & Ht). unfold _check_worker_alive. by rewrite Hw, Ht. Qed.

Lemma hget_calm w w' k f : calm w w' → hget k f w' = hget k f w.
Proof. intros ([Hh _] & _). unfold hget. by rewrite Hh. Qed.

Definition pick_node (host : string) : M W (option NodeInfo) := λ w,
  (nodes ← of_res (get_all_nodes c w); node_select nodes host) w.

Lemma validate_exception s e : NodeInfo_validate_json s = Err e → is_exception e = true.
Proof. unfold NodeInfo_validate_json. intros. by repeat (case_match; simplify_eq/=). Qed.

Lemma nodes_loop_exception l acc e : nodes_loop l acc = Err e → is_exception e = true.
Proof.
  revert acc. induction l as [|[k j] l IH]; intros acc; cbn [nodes_loop]; [done|].
  destruct (str_truthy _); [|apply IH].
  destruct (NodeInfo_validate_json j) eqn:E; cbn; [apply IH|].
  intros [= <-]. by eapply validate_exception.
Qed.

Lemma pick_node_spec host w :
  match pick_node host w with
  | (Ok r, w') => ∃ n nodes, r = Some n ∧ get_all_nodes c w = Ok nodes ∧ n ∈ nodes
      ∧ has_capacity n = true
  | (Err e, _) => is_exception e = true
  end ∧ calm w (pick_node host w).2.
Proof.
  unfold pick_node, of_res, mbind, M_bind.
  destruct (get_all_nodes c w) as [nodes|e] eqn:Eg.
  - pose proof (node_select_quiet nodes host w) as Hq.
    pose proof (node_select_ok nodes host w) as Hok.
    pose proof (node_select_error nodes host w) as Herr.
    destruct (node_select nodes host w) as [[r|e] w'].
    + split; [|done]. destruct (Hok _ _ eq_refl) as (n & -> & ? & ?). eauto 10.
    + split; [|done]. by eapply Herr.
  - split; [|done]. unfold get_all_nodes in Eg.
    destruct (nodes_loop _ _) eqn:El; simplify_eq/=. by eapply nodes_loop_exception.
Qed.

(** Where the node of a pinned job comes from: the binding of the host, or
    the scheduler's choice among the nodes with room. *)
Definition node_source (host : string) w n : Prop :=
  _get_assigned_node_for_host c [host] w = Ok [Some n]
  ∨ ∃ nodes, get_all_nodes c w = Ok nodes ∧ n ∈ nodes ∧ has_capacity n = true.

Lemma select_loop_unfold tries host node w :
  select_loop c (S tries) host node w =
    match _get_assigned_node_for_host c [host] w with
    | Err e => (Err e, w)
    | Ok l =>
        match head l with
        | Some (Some n) =>
            if negb (_check_worker_alive c (ni_queue n) w)
            then select_loop c tries host None (_force_delete_node c n w)
            else (Ok (Some n), w)
        | _ =>
            match pick_node host w with
            | (Err e, w) =>
                if is_exception e then select_loop c tries host None w else (Err e, w)
            | (Ok (Some n), w) =>
                if negb (_check_worker_alive c (ni_queue n) w)
                then select_loop c tries host None (_force_delete_node c n w)
                else (Ok (Some n), w)
            | (Ok None, w) => select_loop c tries host None w
            end
        end
    end.
Proof. done. Qed.

Lemma assign_results_exception l acc e :
  (∀ x, x ∈ l → x.1 < length acc) →
  assign_results l acc = Err e → is_exception e = true.
Proof.
  revert acc. induction l as [|[i v] l IH]; intros acc Hl; cbn [assign_results]; [done|].
  destruct (str_truthy v); [|apply IH; set_solver].
  destruct (NodeInfo_validate_json _) as [n|e'] eqn:E; cbn;
    [|intros [= <-]; by eapply validate_exception].
  unfold set_item. rewrite decide_True by (apply (Hl (i, v)); set_solver). cbn.
  apply IH. intros x Hx. rewrite length_insert. apply Hl. set_solver.
Qed.

Lemma assigned_exception hosts w e :
  _get_assigned_node_for_host c hosts w = Err e → is_exception e = true.
Proof.
  unfold _get_assigned_node_for_host. destruct (_ =? _); [by intros [= <-]|]. destruct (negb _); [done|].
  apply assign_results_exception. intros [i v] Hx. rewrite length_replicate. simpl.
  apply list_elem_of_lookup in Hx as [k Hk].
  apply lookup_zip_with_Some in Hk as (i' & v' & [= <- <-] & Hi & _).
  apply list_elem_of_lookup_2, list_elem_of_fmap in Hi as ([j m] & -> & Hj).
  apply list_elem_of_omap in Hj as ([j' m'] & Hj & E). simpl in *.
  destruct m'; simplify_eq. apply list_elem_of_lookup in Hj as [k' Hk'].
  rewrite list_lookup_imap in Hk'. apply fmap_Some in Hk' as (m'' & Hm & E'). simplify_eq/=.
  apply lookup_lt_Some in Hm. unfold hmget in Hm. by rewrite length_fmap in Hm.
Qed.

(** The retry loop: it queues nothing, raises only ordinary exceptions, and
    the node it settles on is alive and comes from the binding or from the
    scheduler. *)
Lemma retry_loop_spec tries host w :
  match select_loop c tries host None w with
  | (Ok (Some n), w') => _check_worker_alive c (ni_queue n) w' = true
      ∧ ∃ w1, node_source host w1 n ∧ calm w1 w'
  | (Ok None, w') => True
  | (Err e, w') => is_exception e = true
  end ∧ queued (select_loop c tries host None w).2 = queued w.
Proof.
  revert w. induction tries as [|tries IH]; intros w; [done|].
  rewrite select_loop_unfold.
  destruct (_get_assigned_node_for_host c [host] w) as [l|e] eqn:Ea;
    [|split; [by eapply assigned_exception|done]].
  pose proof (pick_node_spec host w) as [Hp Hc].
  assert (∀ n w1, calm w w1 → node_source host w n →
    let r := (if negb (_check_worker_alive c (ni_queue n) w1)
              then select_loop c tries host None (_force_delete_node c n w1)
              else (Ok (Some n), w1)) in
    match r with
    | (Ok (Some n), w') => _check_worker_alive c (ni_queue n) w' = true
        ∧ ∃ w1, node_source host w1 n ∧ calm w1 w'
    | (Ok None, w') => True
    | (Err e, w') => is_exception e = true
    end ∧ queued r.2 = queued w) as Hstep.
  { intros n w1 Hw1 Hs. cbn zeta.
    destruct (_check_worker_alive c (ni_queue n) w1) eqn:Eal; cbn [negb].
    - split; [split; eauto|]. apply Hw1.
    - destruct (IH (_force_delete_node c n w1)) as [IH1 IH2]. split; [done|].
      rewrite IH2, queued_force_delete. apply Hw1. }
  assert (match pick_node host w with
    | (Err e, w) => if is_exception e then select_loop c tries host None w else (Err e, w)
    | (Ok (Some n), w) => if negb (_check_worker_alive c (ni_queue n) w)
                then select_loop c tries host None (_force_delete_node c n w)
                else (Ok (Some n), w)
    | (Ok None, w) => select_loop c tries host None w end = 
    match pick_node host w with
    | (Err e, w) => select_loop c tries host None w
    | (Ok (Some n), w) => if negb (_check_worker_alive c (ni_queue n) w)
                then select_loop c tries host None (_force_delete_node c n w)
                else (Ok (Some n), w)
    | (Ok None, w) => select_loop c tries host None w end) as Hpick.
  { destruct (pick_node host w) as [[o|e] w1]; [done|]. by rewrite Hp. }
  assert (∀ w1, calm w w1 → match select_loop c tries host None w1 with
    | (Ok (Some n), w') => _check_worker_alive c (ni_queue n) w' = true
        ∧ ∃ w1, node_source host w1 n ∧ calm w1 w'
    | (Ok None, w') => True
    | (Err e, w') => is_exception e = true
    end ∧ queued (select_loop c tries host None w1).2 = queued w) as Hskip.
  { intros w1 Hw1. destruct (IH w1) as [IH1 ->]. split; [done|apply Hw1]. }
  destruct (head l) as [[n|]|] eqn:Eh; [| |].
  - apply Hstep; [done|]. left. rewrite Ea. f_equal.
    assert (length l = 1) as Hl.
    { revert Ea. unfold _get_assigned_node_for_host, hmget. simpl.
      destruct (hget _ host w) as [s|]; simpl; [|by intros [= <-]].
      destruct (String.eqb s ""); simpl; [by intros [= <-]|].
      destruct (hget _ s w) as [j|]; simpl; [|by intros [= <-]].
      destruct (String.eqb j ""); simpl; [by intros [= <-]|].
      destruct (NodeInfo_validate_json j); simpl; [by intros [= <-]|done]. }
    destruct l as [|x [|]]; simplify_eq/=; done.
  - rewrite Hpick. destruct (pick_node host w) as [[o|e] w1]; simpl in Hc.
    + destruct Hp as (n & nodes & -> & ? & ? & ?). apply Hstep; [done|]. right. eauto.
    + by apply Hskip.
  - rewrite Hpick. destruct (pick_node host w) as [[o|e] w1]; simpl in Hc.
    + destruct Hp as (n & nodes & -> & ? & ? & ?). apply Hstep; [done|]. right. eauto.
    + by apply Hskip.
Qed.

(** C3. Single dispatch.  A FIFO job is refused, and nothing changes, when
    no FIFO worker is alive; otherwise exactly that job is queued on the FIFO
    queue.  A PINNED job that is accepted is queued on its host's own queue,
    last, for a host bound to (or placed on) a node that was alive; the launch
    of the host's worker is queued before it exactly when the host had no
    live worker, on the node's queue.  When dispatch fails the job is not
    queued, and the failure is an ordinary exception. *)
Theorem dispatch_spec conn_arg q_strategy f kw a meta w :
  let '(r, w') := dispatch_rpc_job c conn_arg q_strategy f kw a meta w in
  match q_strategy, r with
  | FIFO, _ =>
      if _check_worker_alive c get_fifo_queue_name w then
        match r with
        | Ok _ => ∃ s, queued w' = queued w ++ [(get_fifo_queue_name, s)]
            ∧ js_func s = f ∧ js_kwargs s = kw
        | Err e => queued w' = queued w ∧ is_exception e = true
        end
      else w' = w
        ∧ r = Err (WorkerUnavailableError "No available FIFO worker to run the job")
  | PINNED, Ok _ =>
      ∃ host n w1 launched s, dc_host conn_arg = Some host
        ∧ queued w' = queued w ++ launched ++ [(get_host_queue_name host, s)]
        ∧ js_func s = f ∧ js_kwargs s = kw
        ∧ _check_worker_alive c (ni_queue n) w1 = true ∧ (∃ w0, node_source host w0 n ∧ calm w0 w1)
        ∧ if _check_worker_alive c (get_host_queue_name host) w1 then launched = []
          else Forall2 (spawn_job n) [host] launched
  | PINNED, Err e => is_exception e = true
      ∧ ∃ launched, queued w' = queued w ++ launched
        ∧ (launched = [] ∨ ∃ host n, Forall2 (spawn_job n) [host] launched)
  end.
Proof.
  destruct (dispatch_rpc_job _ _ _ _ _ _ _ w) as [r w'] eqn:E.
  revert E. unfold dispatch_rpc_job. destruct q_strategy.
  - unfold fifo_queue, mbind, M_bind, reads, mret, M_ret.
    destruct (_check_worker_alive c get_fifo_queue_name w); cbn [negb]; [|by intros [= <- <-]].
    destruct (send_job_ok c get_fifo_queue_name f kw a meta w) as [Hs _].
    destruct (_send_job _ _ _ _ _ _ w) as [[j|e] w1]; intros [= <- <-]; [|done].
    destruct Hs as (s & ? & ? & ? & _). eauto.
  - destruct (dc_host conn_arg) as [host|] eqn:Eh; [|intros [= <- <-]; split; [done|];
      exists []; rewrite app_nil_r; auto].
    destruct (str_truthy (Some host)); cbn [negb default]; [|intros [= <- <-]; split; [done|];
      exists []; rewrite app_nil_r; auto].
    unfold pinned_queue, mbind, M_bind, reads. change (id host) with host.
    destruct (retry_loop_spec (S MAX_RETRIES) host w) as [Hsel Hq].
    destruct (select_loop _ _ _ _ w) as [[[n|]|e] w1]; cbn [snd] in Hq.
    2:{ intros [= <- <-]. split; [done|]. exists []. rewrite app_nil_r. auto. }
    2:{ intros [= <- <-]. split; [done|]. exists []. rewrite app_nil_r. auto. }
    destruct Hsel as (Halive & w0 & Hsrc & Hcalm).
    destruct (_check_worker_alive c (get_host_queue_name host) w1) eqn:Ew; cbn [negb].
    + unfold mret, M_ret. cbv beta iota. destruct (send_job_ok c (get_host_queue_name host) f kw a meta w1) as [Hs _].
      destruct (_send_job _ _ _ _ _ _ w1) as [[j|e] w2]; intros [= <- <-].
      * destruct Hs as (s & Hs & ? & ? & _). exists host, n, w1, [], s.
        rewrite Hs, Hq, Ew. split_and!; eauto.
      * destruct Hs as [Hs ?]. split; [done|]. exists []. rewrite Hs, Hq, app_nil_r. auto.
    + destruct (launch_ok c [host] n w1) as [Hl _].
      destruct (_try_launch_pinned_worker c [host] n w1) as [[qs|e] w2].
      2:{ intros [= <- <-]. destruct Hl as [Hl ?]. split; [done|]. exists [].
          rewrite Hl, Hq, app_nil_r. auto. }
      destruct Hl as (-> & l & Hl & Hsp). unfold mret, M_ret. cbn [fmap list_fmap head default from_option].
      cbv beta iota.
      destruct (send_job_ok c (get_host_queue_name host) f kw a meta w2) as [Hs _].
      destruct (_send_job _ _ _ _ _ _ w2) as [[j|e] w3]; intros [= <- <-].
      * destruct Hs as (s & Hs & ? & ? & _). exists host, n, w1, l, s.
        rewrite Hs, Hl, Hq, Ew, <-app_assoc. split_and!; eauto.
      * destruct Hs as [Hs ?]. split; [done|]. exists l. rewrite Hs, Hl, Hq. eauto.
Qed.

(** C27. A host that is not bound gets a node at the first attempt, when the
    entries are readable, the registered nodes are alive and one of them has
    room: nothing is deleted, and the node is one with room. *)
Theorem select_progress host w nodes n0 :
  _get_assigned_node_for_host c [host] w = Ok [None] →
  get_all_nodes c w = Ok nodes → n0 ∈ nodes → has_capacity n0 = true →
  (∀ n, n ∈ nodes → _check_worker_alive c (ni_queue n) w = true) →
  ∃ n w', select_loop c (S MAX_RETRIES) host None w = (Ok (Some n), w')
    ∧ n ∈ nodes ∧ has_capacity n = true ∧ calm w w'.
Proof.
  intros Ha Hg Hn0 Hc0 Hal. rewrite select_loop_unfold, Ha. cbn [head].
  destruct (pick_node_spec host w) as [Hp Hc].
  assert (is_ok (pick_node host w).1 = true) as Hok.
  { unfold pick_node, of_res, mbind, M_bind. rewrite Hg.
    pose proof (node_select_progress nodes host w n0 Hn0 Hc0).
    by destruct (node_select nodes host w) as [[] ?]. }
  destruct (pick_node host w) as [[r|e] w1]; [|done].
  destruct Hp as (n & nodes' & -> & Hg' & Hn & Hcap).
  assert (nodes' = nodes) as -> by congruence.
  cbn [snd] in Hc. rewrite (alive_calm w w1 _ Hc), (Hal n) by done. cbn [negb]. eauto 10.
Qed.

(** ** Bulk dispatch *)
Implicit Types (failed : list BatchFailedItem) (hosts U : list string).

Definition host_at hosts (i : nat) : string := default "" (hosts !! i).

Lemma idx_where_filter (p : option NodeInfo → bool) nodes :
  idx_where p nodes = filter (λ i, from_option p false (nodes !! i) = true) (seq 0 (length nodes)).
Proof.
  unfold idx_where. induction nodes as [|x nodes IH] using rev_ind; [done|].
  rewrite imap_app, omap_app, IH, length_app, seq_app, filter_app. f_equal.
  - apply list_filter_iff_strong. intros i Hi%elem_of_seq. rewrite lookup_app_l by lia. done.
  - simpl. rewrite Nat.add_0_r. destruct (p x) eqn:E.
    + rewrite filter_cons_True; [done|]. by rewrite lookup_app_r, Nat.sub_diag by lia.
    + rewrite filter_cons_False; [done|]. rewrite lookup_app_r, Nat.sub_diag by lia.
      simpl. by rewrite E.
Qed.

Lemma idx_partition nodes :
  idx_where is_some nodes ++ idx_where is_none nodes ≡ₚ seq 0 (length nodes).
Proof.
  rewrite !idx_where_filter.
  etrans; [|apply (filter_app_complement
    (λ i, from_option is_some false (nodes !! i) = true) (seq 0 (length nodes)))].
  apply Permutation_app_head, Permutation_refl', list_filter_iff_strong.
  intros i Hi%elem_of_seq. destruct (lookup_lt_is_Some_2 nodes i) as [x ->]; [lia|].
  simpl. unfold is_none. by destruct x.
Qed.

Lemma host_at_seq hosts : (host_at hosts <$> seq 0 (length hosts)) = hosts.
Proof.
  apply list_eq. intros i. rewrite list_lookup_fmap.
  destruct (decide (i < length hosts)) as [Hi|Hi].
  - rewrite lookup_seq_lt by done. simpl. unfold host_at.
    by destruct (lookup_lt_is_Some_2 hosts i Hi) as [h ->].
  - rewrite lookup_seq_ge by lia. simpl. symmetry. apply lookup_ge_None. lia.
Qed.

Lemma has_failed_spec failed h : has_failed failed h = bool_decide (h ∈ bf_host <$> failed).
Proof.
  apply eq_bool_prop_intro. unfold has_failed.
  rewrite Is_true_true, any_true, bool_decide_spec, list_elem_of_fmap. split.
  - intros (x & ? & ?%String.eqb_eq). eauto.
  - intros (x & -> & ?). exists x. by rewrite String.eqb_refl.
Qed.

(** Failed hosts: each once, and only hosts of [U]. *)
Definition failed_in failed U : Prop := NoDup (bf_host <$> failed) ∧ bf_host <$> failed ⊆ U.

Lemma fail_rest_spec hosts U idxs e failed :
  (host_at hosts <$> idxs) ⊆ U → failed_in failed U →
  failed_in (fail_rest hosts idxs e failed) U
  ∧ ∀ i, i ∈ idxs → host_at hosts i ∈ bf_host <$> fail_rest hosts idxs e failed.
Proof.
  unfold fail_rest. revert failed. induction idxs as [|i idxs IH]; intros failed HU Hf;
    cbn [foldl]; [by split; [|set_solver]|].
  rewrite fmap_cons in HU. rewrite has_failed_spec. fold (host_at hosts i).
  assert (∀ l f, bf_host <$> f ⊆ bf_host <$> foldl (λ failed i,
    if has_failed failed (default "" (hosts !! i)) then failed
    else failed ++ [mkBatchFailedItem (default "" (hosts !! i)) (exn_str e)]) f l) as Hmono.
  { clear. induction l as [|i l IH]; intros f; cbn [foldl]; [done|].
    etrans; [|apply IH]. case_match; [done|]. rewrite fmap_app. set_solver. }
  case_bool_decide as Hin.
  - destruct (IH failed) as [H1 H2]; [set_solver|done|]. split; [done|].
    intros j [->|?]%elem_of_cons; [|auto]. by apply Hmono.
  - destruct (IH (failed ++ [mkBatchFailedItem (host_at hosts i) (exn_str e)])) as [H1 H2];
      [set_solver| |].
    + destruct Hf as [Hnd Hsub]. split; rewrite fmap_app; simpl; [|set_solver].
      apply NoDup_app. split_and!; [done|set_solver|apply NoDup_singleton].
    + split; [done|]. intros j [->|?]%elem_of_cons; [|auto].
      apply Hmono. rewrite fmap_app. set_solver.
Qed.

(** The grouping loop, with the scheduler's list as long as the hosts. *)
Lemma group_selected_spec hosts idxs k sel failed groups :
  length idxs = k + length sel →
  ∃ groups' failed', group_selected hosts idxs k sel failed groups
      = (Ok (groups ++ groups'), failed ++ failed')
    ∧ (host_at hosts <$> groups'.*2) ++ (bf_host <$> failed')
        ≡ₚ (host_at hosts <$> drop k idxs)
    ∧ groups'.*1 = omap id sel.
Proof.
  revert k failed groups. induction sel as [|o sel IH]; intros k failed groups Hlen; simpl in *.
  { exists [], []. rewrite !app_nil_r, drop_ge by lia. done. }
  destruct (lookup_lt_is_Some_2 idxs k) as [i Hi]; [lia|]. rewrite Hi.
  rewrite (drop_S _ _ _ Hi), fmap_cons. destruct o as [n|].
  - destruct (IH (S k) failed (groups ++ [(n, i)])) as (g & fl & -> & Hp & Hin); [lia|].
    exists ((n, i) :: g), fl. rewrite <-(app_assoc groups). split_and!; [done| |].
    + rewrite !fmap_cons. simpl. by rewrite Hp.
    + rewrite fmap_cons. by f_equal.
  - destruct (IH (S k) (failed ++ [mkBatchFailedItem (host_at hosts i) "No capacity on nodes"]) groups)
      as (g & fl & Hg & Hp & Hin); [lia|].
    exists g, (mkBatchFailedItem (host_at hosts i) "No capacity on nodes" :: fl).
    unfold host_at in Hg. rewrite Hg, <-(app_assoc failed). split_and!; [done| |].
    + rewrite fmap_cons. simpl. rewrite <-Permutation_middle. by rewrite Hp.
    + done.
Qed.

(** The launching loop: every host of a group either fails or gets exactly
    one launch, on the group's node. *)
Lemma launch_groups_spec hosts groups failed w :
  ∃ failed' launched w', launch_groups c hosts groups failed w = (Ok (failed ++ failed'), w')
    ∧ queued w' = queued w ++ launched
    ∧ ∃ ok : list (NodeInfo * nat), ok `sublist_of` groups
      ∧ (host_at hosts <$> ok.*2) ++ (bf_host <$> failed') ≡ₚ (host_at hosts <$> groups.*2)
      ∧ Forall2 (λ ni qs, spawn_job ni.1 (host_at hosts ni.2) qs) ok launched.
Proof.
  revert failed w. induction groups as [|[n i] groups IH]; intros failed w; cbn [launch_groups].
  { exists [], [], w. rewrite !app_nil_r. split_and!; [done..|]. exists []. split_and!; done. }
  fold (host_at hosts i). rewrite !fmap_cons.
  assert (∀ reason w1, queued w1 = queued w →
    ∃ failed' launched w',
      launch_groups c hosts groups (failed ++ [mkBatchFailedItem (host_at hosts i) reason]) w1
        = (Ok (failed ++ failed'), w') ∧ queued w' = queued w ++ launched
      ∧ ∃ ok : list (NodeInfo * nat), ok `sublist_of` (n, i) :: groups
        ∧ (host_at hosts <$> ok.*2) ++ (bf_host <$> failed')
            ≡ₚ host_at hosts i :: (host_at hosts <$> groups.*2)
        ∧ Forall2 (λ ni qs, spawn_job ni.1 (host_at hosts ni.2) qs) ok launched) as Hfail.
  { intros reason w1 Hq.
    destruct (IH (failed ++ [mkBatchFailedItem (host_at hosts i) reason]) w1)
      as (fl & l & w2 & -> & Hq2 & ok & Hok & Hp & Hl).
    exists (mkBatchFailedItem (host_at hosts i) reason :: fl), l, w2.
    rewrite <-(app_assoc failed), Hq2, Hq. split_and!; [done..|]. exists ok.
    split_and!; [by constructor| |done]. rewrite fmap_cons. simpl.
    rewrite <-Permutation_middle. by rewrite Hp. }
  destruct (_check_worker_alive c (ni_queue n) w) eqn:Ea; cbn [negb].
  - destruct (launch_ok c [host_at hosts i] n w) as [Hl _].
    destruct (_try_launch_pinned_worker c [host_at hosts i] n w) as [[qs|e] w1].
    + destruct Hl as (_ & l1 & Hq1 & Hl1).
      destruct (IH failed w1) as (fl & l & w2 & -> & Hq2 & ok & Hok & Hp & Hl).
      exists fl, (l1 ++ l), w2. rewrite Hq2, Hq1, app_assoc. split_and!; [done..|].
      exists ((n, i) :: ok). split_and!; [by constructor| |].
      * rewrite !fmap_cons. simpl. by rewrite Hp.
      * inversion Hl1 as [|? q ? ? Hs Hnil]; subst. inversion Hnil; subst. by constructor.
    + destruct Hl as [Hq1 ->]. by apply Hfail.
  - apply Hfail. apply queued_force_delete.
Qed.

Lemma times_omap n sel : times n (omap id sel) = used n sel.
Proof.
  unfold times, used. induction sel as [|[m|] sel IH]; [done|..]; simpl.
  - destruct (decide (m = n)) as [->|].
    + rewrite !filter_cons_True by done. simpl. by f_equal.
    + by rewrite !filter_cons_False by congruence.
  - by rewrite (filter_cons_False (λ o, o = Some n)) by done.
Qed.

Lemma sublist_times n (l k : list NodeInfo) : l `sublist_of` k → times n l ≤ times n k.
Proof.
  intros Hs. apply sublist_length. unfold times.
  induction Hs as [|x l k Hs IH|x l k Hs IH]; [done|..].
  - destruct (decide (x = n)).
    + rewrite !filter_cons_True by done. by constructor.
    + by rewrite !filter_cons_False by done.
  - destruct (decide (x = n)).
    + rewrite (filter_cons_True _ x k) by done. by constructor.
    + by rewrite (filter_cons_False _ x k) by done.
Qed.

(** The launches [ok] of a batch respect the room the nodes have. *)
Definition respects_room w (ok : list (NodeInfo * nat)) : Prop :=
  ok = [] ∨ ∃ nodes, get_all_nodes c w = Ok nodes
    ∧ (∀ n, n ∈ ok.*1 → n ∈ nodes ∧ has_capacity n = true)
    ∧ ∀ n, n ∈ nodes → (Z.of_nat (times n ok.*1) ≤ Z.max 0 (node_remaining n))%Z.

Context (maps_differ : cfg_host_to_node_map c ≠ cfg_node_info_map c).

Lemma schedule_unassigned_spec hosts idxs w :
  idxs ≠ [] → NoDup (host_at hosts <$> idxs) → nodes_named c w →
  ∃ failed (ok : list (NodeInfo * nat)) launched w',
    schedule_unassigned c hosts idxs w = (Ok failed, w')
    ∧ (host_at hosts <$> ok.*2) ++ (bf_host <$> failed) ≡ₚ (host_at hosts <$> idxs)
    ∧ queued w' = queued w ++ launched
    ∧ Forall2 (λ ni qs, spawn_job ni.1 (host_at hosts ni.2) qs) ok launched
    ∧ respects_room w ok.
Proof.
  intros Hne Hnd Hnamed. unfold schedule_unassigned, of_res, mbind, M_bind.
  assert (∀ e w1, is_exception e = true → queued w1 = queued w →
    ∃ failed (ok : list (NodeInfo * nat)) launched w',
      (if is_exception e then (Ok (fail_rest hosts idxs e []), w1) else (Err e, w1)) = (Ok failed, w')
      ∧ (host_at hosts <$> ok.*2) ++ (bf_host <$> failed) ≡ₚ (host_at hosts <$> idxs)
      ∧ queued w' = queued w ++ launched
      ∧ Forall2 (λ ni qs, spawn_job ni.1 (host_at hosts ni.2) qs) ok launched
      ∧ respects_room w ok) as Hfail.
  { intros e w1 -> Hq. eexists _, [], [], w1. split_and!; [done| |by rewrite app_nil_r|done|by left].
    destruct (fail_rest_spec hosts (host_at hosts <$> idxs) idxs e []) as [[Hn Hs] Hall];
      [done|split; [constructor|set_solver]|].
    simpl. apply NoDup_Permutation; [done|done|]. intros h. split; [apply Hs|].
    intros (i & -> & Hi)%list_elem_of_fmap. auto. }
  destruct (get_all_nodes c w) as [nodes|e] eqn:Eg.
  2:{ apply Hfail; [|done]. unfold get_all_nodes in Eg.
      destruct (nodes_loop _ _) eqn:El; simplify_eq/=. by eapply nodes_loop_exception. }
  change ((λ i, default "" (hosts !! i)) <$> idxs) with (host_at hosts <$> idxs).
  set (U := host_at hosts <$> idxs) in *.
  pose proof (batch_node_select_quiet nodes U w) as [[_ Hq] _].
  destruct (get_all_nodes_spec c maps_differ w nodes Hnamed Eg) as [Hnn _].
  pose proof (batch_ok_of nodes U w) as Hok. pose proof (batch_error nodes U w) as Herr.
  destruct (batch_node_select nodes U w) as [[sel|e] w1]; cbn [snd] in Hq;
    [|apply Hfail; [by eapply Herr|done]].
  destruct (Hok _ _ Hnn eq_refl) as [Hlen Hin Hcap].
  destruct sel as [|o sel].
  { destruct idxs; [done|]. simpl in Hlen. done. }
  destruct (group_selected_spec hosts idxs 0 (o :: sel) [] []) as (g & fl & Hg & Hp & Hg1).
  { unfold U in Hlen. by rewrite length_fmap in Hlen. }
  rewrite Hg. rewrite !app_nil_l. rewrite drop_0 in Hp.
  destruct (launch_groups_spec hosts g fl w1) as (fl' & l & w2 & -> & Hq2 & ok & Hsub & Hp2 & Hl).
  eexists _, ok, l, w2. split_and!; [done| |by rewrite Hq2, Hq|done|].
  - rewrite fmap_app. fold U in Hp. rewrite <-Hp, <-Hp2. solve_Permutation.
  - right. exists nodes. split; [done|].
    assert (∀ n, times n ok.*1 ≤ used n (o :: sel)) as Ht.
    { intros n. rewrite <-times_omap, <-Hg1. apply sublist_times. by apply (fmap_sublist fst). }
    split.
    + intros n Hn%times_pos. apply Hin. specialize (Ht n). unfold used in Ht.
      assert (filter (λ o, o = Some n) (o :: sel) ≠ []) as Hf.
      { intros Hf. rewrite Hf in Ht. simpl in Ht. lia. }
      destruct (filter _ _) as [|x l0] eqn:Ef; [done|].
      assert (x ∈ filter (λ o, o = Some n) (o :: sel)) as Hx by (rewrite Ef; set_solver).
      apply list_elem_of_filter in Hx as [-> ?]. done.
    + intros n Hn. specialize (Hcap n Hn). specialize (Ht n). lia.
Qed.

Lemma send_ready_spec hosts ready f kwargses a meta metas w :
  (∀ i, i ∈ ready → i < length kwargses) →
  match send_ready c hosts ready f kwargses a meta metas w with
  | (Ok xs, w') => Forall2 (λ i x, x.1.1 = get_host_queue_name (host_at hosts i)
      ∧ js_func x.1.2 = f ∧ kwargses !! i = Some (js_kwargs x.1.2)) ready xs
  | (Err e, _) => is_exception e = true
  end ∧ queued (send_ready c hosts ready f kwargses a meta metas w).2 = queued w.
Proof.
  revert w. induction ready as [|i ready IH]; intros w Hlt; cbn [send_ready]; [by split; [constructor|]|].
  destruct (lookup_lt_is_Some_2 kwargses i) as [kw Hkw]; [apply Hlt; set_solver|].
  rewrite Hkw. unfold mbind, M_bind, mret, M_ret, _send_job_pipe, mbind, M_bind.
  fold (host_at hosts i).
  destruct (job_spec_ok c f kw a (meta_at metas meta i) w) as (s & w1 & -> & [_ Hq1] & Hf & Hk & _).
  pose proof (enqueue_pipe_err (get_host_queue_name (host_at hosts i)) s w1) as Herr.
  pose proof (enqueue_pipe_queued (get_host_queue_name (host_at hosts i)) s w1) as Hq2.
  destruct (enqueue_pipe _ s w1) as [[j|e] w2]; cbn [snd] in Hq2.
  2:{ split; [by eapply Herr|]. simpl. congruence. }
  unfold mret, M_ret. destruct (IH w2) as [IH1 IH2]; [set_solver|].
  destruct (send_ready _ _ ready _ _ _ _ _ w2) as [[xs|e] w3]; simpl in *.
  - split; [|congruence]. constructor; [|done]. simpl. by rewrite Hkw, Hk.
  - split; [done|congruence].
Qed.

Lemma schedule_step_spec hosts (U : list nat) w :
  NoDup (host_at hosts <$> U) → nodes_named c w →
  ∃ failed (ok : list (NodeInfo * nat)) launched w',
    (match U with [] => mret [] | _ => schedule_unassigned c hosts U end) w = (Ok failed, w')
    ∧ (host_at hosts <$> ok.*2) ++ (bf_host <$> failed) ≡ₚ (host_at hosts <$> U)
    ∧ queued w' = queued w ++ launched
    ∧ Forall2 (λ ni qs, spawn_job ni.1 (host_at hosts ni.2) qs) ok launched
    ∧ respects_room w ok.
Proof.
  intros Hnd Hnamed. destruct U as [|i U].
  - exists [], [], [], w. split_and!; [done|done|by rewrite app_nil_r|constructor|by left].
  - by apply schedule_unassigned_spec.
Qed.

(** The hosts that are ready are those bound and those launched. *)
Lemma ready_hosts hosts (A U : list nat) failed (ok : list (NodeInfo * nat)) :
  NoDup (host_at hosts <$> U) →
  (host_at hosts <$> ok.*2) ++ (bf_host <$> failed) ≡ₚ (host_at hosts <$> U) →
  let sent := filter (λ i, has_failed failed (default "" (hosts !! i)) = false) U in
  (host_at hosts <$> A ++ sent) ++ (bf_host <$> failed)
    ≡ₚ (host_at hosts <$> A) ++ (host_at hosts <$> U)
  ∧ ∀ i, i ∈ A ++ sent → i ∈ U → i ∉ A → host_at hosts i ∈ host_at hosts <$> ok.*2.
Proof.
  intros Hnd Hp sent.
  assert (∀ i, i ∈ sent ↔ i ∈ U ∧ host_at hosts i ∉ bf_host <$> failed) as Hsent.
  { intros i. subst sent. rewrite list_elem_of_filter, has_failed_spec, bool_decide_eq_false.
    unfold host_at. tauto. }
  pose proof Hnd as Hnd'. rewrite <-Hp in Hnd'. apply NoDup_app in Hnd' as (Hok & Hdisj & _).
  assert (∀ i, i ∈ sent → host_at hosts i ∈ host_at hosts <$> ok.*2) as Hin.
  { intros i [HU Hf]%Hsent. apply (list_elem_of_fmap_2 (host_at hosts)) in HU.
    rewrite <-Hp in HU. set_solver. }
  split; [|set_solver].
  rewrite fmap_app, <-app_assoc, <-Hp. f_equiv. f_equiv.
  apply NoDup_Permutation; [|done|].
  - eapply sublist_NoDup; [exact Hnd|]. apply (fmap_sublist (host_at hosts)), sublist_filter.
  - intros h. split; [intros (i & -> & Hi)%list_elem_of_fmap; auto|].
    intros Hh. assert (h ∈ host_at hosts <$> U) as HU by (rewrite <-Hp; set_solver).
    apply list_elem_of_fmap in HU as (i & -> & Hi). apply list_elem_of_fmap_2, Hsent. auto.
Qed.

Lemma assigned_length hosts w nodes :
  _get_assigned_node_for_host c hosts w = Ok nodes → length nodes = length hosts.
Proof.
  unfold _get_assigned_node_for_host. destruct (_ =? 0); [done|].
  destruct (negb _); [intros [= <-]; by rewrite length_replicate|].
  assert (∀ l acc r, assign_results l acc = Ok r → length r = length acc) as Hl.
  { induction l as [|[i v] l IH]; intros acc r; cbn [assign_results]; [by intros [= <-]|].
    destruct (str_truthy v); [|apply IH].
    destruct (NodeInfo_validate_json _); cbn [mbind res_bind]; [|done].
    unfold set_item. case_decide; cbn [mbind res_bind]; [|done].
    intros ->%IH. by rewrite length_insert. }
  intros ->%Hl. by rewrite length_replicate.
Qed.

Lemma conn_hosts_length conn_args hosts :
  conn_hosts conn_args = Ok hosts → length hosts = length conn_args.
Proof.
  revert hosts. induction conn_args as [|x l IH]; intros hosts; simpl; [by intros [= <-]|].
  destruct (dc_host x); [|done]. destruct (conn_hosts l); simpl; [|done].
  intros [= <-]. simpl. by rewrite IH.
Qed.

(** C2. Bulk dispatch to pinned workers accounts for every device, whatever
    fails on the way.  Once the bindings are readable it always returns, and
    every host of the request is either sent exactly its own job, on its own
    queue, or reported as failed exactly once.  Every sent host that was not
    bound has exactly one worker launch queued before, on a registered node
    with room, and the launches of one node never exceed its room. *)
Theorem bulk_dispatch_spec conn_args f kwargses a meta metas hosts nodes w :
  length conn_args = length kwargses → conn_hosts conn_args = Ok hosts → NoDup hosts →
  nodes_named c w → _get_assigned_node_for_host c hosts w = Ok nodes →
  ∃ jobs failed w' (ready : list nat) (ok : list (NodeInfo * nat)) launched sent,
    dispatch_bulk_rpc_jobs c conn_args PINNED f kwargses a meta metas w = (Ok (jobs, failed), w')
    ∧ (host_at hosts <$> ready) ++ (bf_host <$> failed) ≡ₚ hosts
    ∧ length jobs = length ready
    ∧ queued w' = queued w ++ launched ++ sent
    ∧ Forall2 (λ i qs, qs.1 = get_host_queue_name (host_at hosts i) ∧ js_func qs.2 = f
        ∧ kwargses !! i = Some (js_kwargs qs.2)) ready sent
    ∧ Forall2 (λ ni qs, spawn_job ni.1 (host_at hosts ni.2) qs) ok launched
    ∧ (∀ i, i ∈ ready → nodes !! i = Some None → host_at hosts i ∈ host_at hosts <$> ok.*2)
    ∧ respects_room w ok.
Proof.
  intros Hlen Hhosts Hnd Hnamed Hnodes. pose proof (assigned_length _ _ _ Hnodes) as Hln.
  unfold dispatch_bulk_rpc_jobs. rewrite Hlen, Nat.eqb_refl. cbn [negb].
  rewrite Hhosts. cbn [mbind res_bind]. rewrite Hnodes. cbn [mbind res_bind].
  rewrite Hln, Nat.eqb_refl. cbn [negb].
  set (A := idx_where is_some nodes). set (U := idx_where is_none nodes).
  pose proof (idx_partition nodes) as Hpart. fold A U in Hpart. rewrite Hln in Hpart.
  assert (hosts ≡ₚ (host_at hosts <$> A) ++ (host_at hosts <$> U)) as Hperm.
  { rewrite <-fmap_app, Hpart. by rewrite host_at_seq. }
  assert (NoDup (host_at hosts <$> U)) as HndU.
  { rewrite Hperm in Hnd. by apply NoDup_app in Hnd as (_ & _ & ?). }
  destruct (schedule_step_spec hosts U w HndU Hnamed)
    as (failed & ok & launched & w1 & -> & Hp & Hq1 & Hl & Hroom).
  set (ready := A ++ _).
  destruct (ready_hosts hosts A U failed ok HndU Hp) as [Hready Hok]. fold ready in Hready.
  rewrite <-Hperm in Hready.
  assert (∀ i, i ∈ ready → i < length kwargses) as Hlt.
  { intros i Hi. rewrite <-Hlen, <-(conn_hosts_length _ _ Hhosts).
    assert (i ∈ A ++ U) as Hin.
    { subst ready. apply elem_of_app in Hi as [?|[_ ?]%list_elem_of_filter]; set_solver. }
    rewrite Hpart in Hin. apply elem_of_seq in Hin. lia. }
  destruct ready as [|i0 r0] eqn:Er.
  { eexists [], failed, w1, [], ok, launched, [].
    split_and!; [done|done|done|by rewrite app_nil_r|constructor|done|set_solver|done]. }
  rewrite <-Er in *. clear Er i0 r0.
  destruct (send_ready_spec hosts ready f kwargses a meta metas w1 Hlt) as [Hs Hq2].
  unfold mbind, M_bind.
  assert (∀ e w2, queued w2 = queued w1 → is_exception e = true →
    ∃ jobs failed' w' (rd : list nat) (ok : list (NodeInfo * nat)) launched sent,
    (if is_exception e
     then (Ok (@nil JobInResponse, failed ++ ((λ i, mkBatchFailedItem (host_at hosts i)
                     ("Redis error: " +:+ exn_str e)) <$> ready)), w2)
     else (Err e, w2)) = (Ok (jobs, failed'), w')
    ∧ (host_at hosts <$> rd) ++ (bf_host <$> failed') ≡ₚ hosts
    ∧ length jobs = length rd
    ∧ queued w' = queued w ++ launched ++ sent
    ∧ Forall2 (λ i qs, qs.1 = get_host_queue_name (host_at hosts i) ∧ js_func qs.2 = f
        ∧ kwargses !! i = Some (js_kwargs qs.2)) rd sent
    ∧ Forall2 (λ ni qs, spawn_job ni.1 (host_at hosts ni.2) qs) ok launched
    ∧ (∀ i, i ∈ rd → nodes !! i = Some None → host_at hosts i ∈ host_at hosts <$> ok.*2)
    ∧ respects_room w ok) as Hredis.
  { intros e w2 Hq ->. eexists [], _, w2, [], ok, launched, [].
    split_and!; [done| |done|rewrite app_nil_r; congruence|constructor|done|set_solver|done].
    rewrite fmap_nil, app_nil_l, fmap_app, <-list_fmap_compose.
    etrans; [apply Permutation_app_comm|exact Hready]. }
  destruct (send_ready _ _ ready _ _ _ _ _ w1) as [[xs|e] w2]; cbn [snd] in Hq2;
    [|apply Hredis; done].
  pose proof (pipe_execute_ok xs w2) as Hpo. pose proof (pipe_execute_err xs w2) as Hpe.
  destruct (pipe_execute xs w2) as [[u|e] w3].
  - specialize (Hpo _ _ eq_refl). eexists _, failed, w3, ready, ok, launched, xs.*1.
    split_and!; [done|done| | | |done| |done].
    + rewrite !length_fmap. symmetry. by eapply Forall2_length.
    + rewrite Hpo, Hq2, Hq1. by rewrite app_assoc.
    + apply Forall2_fmap_r. exact Hs.
    + intros i Hi Hn. apply Hok; [done| |].
      2:{ subst A. rewrite idx_where_filter, list_elem_of_filter, Hn. by intros [? _]. }
      subst U. rewrite idx_where_filter. apply list_elem_of_filter.
      rewrite Hn. split; [done|]. apply elem_of_seq. apply lookup_lt_Some in Hn. lia.
  - destruct (Hpe _ _ eq_refl) as [Hq3 ?]. apply Hredis; [congruence|done].
Qed.
End dispatch.

(** ** Examples: two nodes of which one is alive, in the toy world *)
#[export, refine] Instance toy_random : Random Toy.world :=
  {| randrange n w := (0, w); uniform lo hi w := (hi, w);
     py_hash s := Z.of_nat (String.length s) |}.
Proof. simpl. lia. Defined.

#[export] Instance toy_scheduler : Scheduler Toy.world := least_load_scheduler.

#[export] Instance toy_quiet : Quiet Toy.world calm.
Proof.
  apply (bundled_quiet calm) with "least_load"; [done|done|].
  apply list_elem_of_further, list_elem_of_here.
Qed.

Section dispatch_examples.
Definition alive_worker (q : string) : WorkerRec := mkWorker q None (Some 0%Z) "idle" [q].
Definition toy_node_info (name : string) (count capacity : Z) : NodeInfo :=
  mkNodeInfo name count capacity (get_node_queue_name name).

(** [n1] has one place left and its daemon is alive; [h1] is bound to it and
    has a live worker. *)
Definition toy_cluster : Toy.world :=
  hset (cfg_host_to_node_map default_config) "h1" "n1"
    (hset (cfg_node_info_map default_config) "n1" (NodeInfo_dump_json (toy_node_info "n1" 1 2))
       (Toy.empty 0 [alive_worker "NodeQ_n1"; alive_worker "HostQ_h1"; alive_worker "FifoQ"])).

Definition toy_conn (host : string) : DriverConnectionArgs :=
  mkDriverConnectionArgs None (Some host) None None [].

Lemma toy_named : nodes_named default_config toy_cluster.
Proof.
  intros k j n. unfold toy_cluster. rewrite hget_hset, decide_False by (by intros [? _]).
  rewrite hget_hset. case_decide as E.
  - destruct E as [_ ->]. intros Hj.
    assert (j = NodeInfo_dump_json (toy_node_info "n1" 1 2)) as -> by congruence.
    rewrite node_json_roundtrip. by intros [= <-].
  - intros Hn. vm_compute in Hn. discriminate.
Qed.

Lemma assigned_nodes_spec_witness :
  _get_assigned_node_for_host default_config ["h2"; "h1"] toy_cluster
  = Ok [None; Some (toy_node_info "n1" 1 2)].
Proof.
  rewrite (assigned_nodes_spec default_config default_maps_differ ["h2"; "h1"] toy_cluster); [|done|].
  - vm_compute. reflexivity.
  - intros h Hh E. rewrite !elem_of_cons in Hh. destruct Hh as [->|[->|Hh]];
      [vm_compute in E; discriminate|vm_compute in E; discriminate|set_solver].
Defined.

Lemma select_progress_witness :
  ∃ n w', select_loop default_config (S MAX_RETRIES) "h2" None toy_cluster = (Ok (Some n), w')
    ∧ has_capacity n = true.
Proof.
  destruct (select_progress default_config "h2" toy_cluster [toy_node_info "n1" 1 2]
    (toy_node_info "n1" 1 2)) as (n & w' & Hs & _ & Hc & _).
  - vm_compute; reflexivity.
  - vm_compute; reflexivity.
  - apply list_elem_of_here.
  - reflexivity.
  - intros n ->%list_elem_of_singleton. vm_compute. reflexivity.
  - exists n, w'. split; [exact Hs|exact Hc].
Defined.

Lemma dispatch_spec_witness :
  ∃ s, queued (dispatch_rpc_job default_config (toy_conn "h2") FIFO f_execute kw_none no_args None
      toy_cluster).2 = [(get_fifo_queue_name, s)] ∧ js_func s = f_execute.
Proof.
  pose proof (dispatch_spec default_config (toy_conn "h2") FIFO f_execute kw_none no_args None
    toy_cluster) as Hs.
  destruct (dispatch_rpc_job _ _ _ _ _ _ _ toy_cluster) as [r w'] eqn:E.
  assert (_check_worker_alive default_config get_fifo_queue_name toy_cluster = true) as Ha
    by (vm_compute; reflexivity).
  rewrite Ha in Hs. destruct r as [j|e].
  - destruct Hs as (s & Hq & Hf & _). exists s. split; [exact Hq|exact Hf].
  - exfalso. vm_compute in E. discriminate E.
Defined.

Lemma bulk_dispatch_spec_witness :
  ∃ jobs failed w', dispatch_bulk_rpc_jobs default_config (toy_conn <$> ["h1"; "h2"; "h3"]) PINNED
      f_execute [kw_none; kw_none; kw_none] no_args None [] toy_cluster = (Ok (jobs, failed), w')
    ∧ length jobs + length failed = 3.
Proof.
  destruct (bulk_dispatch_spec default_config default_maps_differ (toy_conn <$> ["h1"; "h2"; "h3"]) f_execute
    [kw_none; kw_none; kw_none] no_args None [] ["h1"; "h2"; "h3"]
    [Some (toy_node_info "n1" 1 2); None; None] toy_cluster)
    as (jobs & failed & w' & ready & ok & la & se & Hd & Hp & Hl & _).
  - reflexivity.
  - reflexivity.
  - apply (bool_decide_unpack _). vm_compute. exact I.
  - exact toy_named.
  - vm_compute; reflexivity.
  - exists jobs, failed, w'. split; [exact Hd|].
    apply Permutation_length in Hp. rewrite length_app, !length_fmap in Hp. rewrite Hl. exact Hp.
Defined.
End dispatch_examples.
