(* ===== verification/Tasks.v ===== *)
(** * Theorems on detached tasks, as the manager runs them

    [execute_on_device] with [detach], and the manager's query, kill, discovery
    and clearing of detached tasks ([linux_net/services/manager.py]): what
    becomes of the registry, which jobs are queued, and that every wait ends. *)

From S2P Require Import Prelude PyLib Models Schedulers World Registry Manager Dispatch.

(** ** Clearing the registry *)
Section clearing.
Context {W : Type} `{Json} `{Redis W} `{!Rq W}.
Implicit Types (w : W).

Lemma unregister_all (tasks : list (string * metadata)) w t :
  hget KEY t (foldl (λ w kv, unregister kv.1 w) w tasks) =
    if decide (t ∈ tasks.*1) then None else hget KEY t w.
Proof.
  revert w. induction tasks as [|[k m] tasks IH]; intros w; [done|]. cbn [foldl].
  rewrite IH, fmap_cons. cbn [fst]. unfold unregister. rewrite hget_hdel.
  repeat case_decide; set_solver.
Qed.

Lemma unregister_all_other (tasks : list (string * metadata)) w k : k ≠ KEY →
  hashes (foldl (λ w kv, unregister kv.1 w) w tasks) k = hashes w k.
Proof.
  intros Hk. apply (foldl_preserves (λ w', hashes w' k = hashes w k)); [|done].
  intros kv w' <-. unfold unregister. by rewrite hdel_hashes, decide_False.
Qed.

(** Clearing the registry removes every task, reports how many there were,
    and touches no other hash. *)
Theorem clear_detached_spec w : registry_ok w →
  ∃ tasks w', list_all w = Ok tasks ∧ clear_detached_tasks w = (Ok (length tasks), w')
    ∧ list_all w' = Ok [] ∧ (∀ t, get t w' = Ok None)
    ∧ (∀ k, k ≠ KEY → hashes w' k = hashes w k).
Proof.
  intros Hok. destruct (list_all_get w Hok) as (tasks & Hl & Hnd & Hg).
  unfold clear_detached_tasks. rewrite Hl. eexists tasks, _. split; [done|]. split; [done|].
  set (w' := foldl _ w tasks).
  assert (∀ t, hget KEY t w' = None) as Hnone.
  { intros t. unfold w'. rewrite unregister_all. case_decide as Hin; [done|].
    specialize (Hg t). rewrite (proj2 (dict_get_None t tasks) Hin) in Hg.
    rewrite get_ok in Hg by done. destruct (hget KEY t w) as [s|] eqn:E; [|done].
    destruct (Hok _ _ E) as [m ->]. by rewrite loads_dumps in Hg. }
  split_and!.
  - unfold list_all. destruct (hscan_iter KEY w') as [|[k v] l] eqn:Es; [done|].
    assert ((k, v) ∈ hscan_iter KEY w') as Hin%hscan_elem by (rewrite Es; set_solver).
    specialize (Hnone k). unfold hget in Hnone. by rewrite Hin in Hnone.
  - intros t. unfold get. by rewrite Hnone.
  - intros k. apply unregister_all_other.
Qed.

End clearing.

Section tasks.
Context {W : Type} `{Json} `{Redis W} `{!Rq W} `{!Clock W} `{!Trace W} `{!Scheduler W}.
Context (c : Config).
Context `{!SchedulerLaws W} `{!Quiet W calm}.
Implicit Types (w : W) (n : NodeInfo) (m : metadata).

(** ** Dispatch, as the tasks need it *)

(** The retry loop deletes nodes and nothing else. *)
Lemma retry_loop_hashes tries host w k :
  k ≠ cfg_host_to_node_map c → k ≠ cfg_node_info_map c →
  hashes (select_loop c tries host None w).2 k = hashes w k.
Proof.
  intros Hh Hn. revert w. induction tries as [|tries IH]; intros w; [done|].
  rewrite select_loop_unfold. destruct (_get_assigned_node_for_host c [host] w) as [l|]; [|done].
  assert (∀ n w1, hashes w1 k = hashes w k →
    hashes (if negb (_check_worker_alive c (ni_queue n) w1)
            then select_loop c tries host None (_force_delete_node c n w1)
            else (Ok (Some n), w1)).2 k = hashes w k) as Hstep.
  { intros n w1 Hw1. destruct (_check_worker_alive c (ni_queue n) w1); cbn [negb]; [done|].
    by rewrite IH, force_delete_hashes. }
  destruct (pick_node_spec c host w) as [_ [[Hc _] _]].
  destruct (head l) as [[n|]|]; [by apply Hstep| |].
  all: destruct (pick_node c host w) as [[[n|]|e] w1]; cbn [snd] in Hc;
    [by apply Hstep|by rewrite IH|]; destruct (is_exception e); [by rewrite IH|done].
Qed.

(** The worker launches a dispatch queues before its job: at most one, a job that
    starts a worker for this host, on the queue of a node *)
Definition launch_of (conn_arg : DriverConnectionArgs) (launched : list (string * JobSpec)) : Prop :=
  launched = [] ∨ ∃ host n, dc_host conn_arg = Some host ∧ Forall2 (spawn_job n) [host] launched.

(** Where a job goes: the shared queue, with no launch, or its host's own *)
Definition routed (conn_arg : DriverConnectionArgs) (q_strategy : QueueStrategy)
    (launched : list (string * JobSpec)) (q : string) : Prop :=
  match q_strategy with
  | FIFO => launched = [] ∧ q = get_fifo_queue_name
  | PINNED => q = get_host_queue_name (default "" (dc_host conn_arg)) ∧ launch_of conn_arg launched
  end.

(** The queue a pinned job goes to. *)
Lemma pinned_queue_spec conn_arg host w : dc_host conn_arg = Some host →
  (∃ launched, queued (pinned_queue c host w).2 = queued w ++ launched ∧ launch_of conn_arg launched)
  ∧ match (pinned_queue c host w).1 with
    | Ok q => q = get_host_queue_name host
    | Err e => is_exception e = true
    end ∧ ∀ k, k ≠ cfg_host_to_node_map c → k ≠ cfg_node_info_map c →
    hashes (pinned_queue c host w).2 k = hashes w k.
Proof.
  intros Hhost. unfold pinned_queue, mbind, M_bind, reads.
  destruct (retry_loop_spec c (S MAX_RETRIES) host w) as [Hsel Hq].
  pose proof (λ k, retry_loop_hashes (S MAX_RETRIES) host w k) as Hh.
  assert (∀ w1 : W, queued w1 = queued w → ∃ launched, queued w1 = queued w ++ launched ∧ launch_of conn_arg launched)
    as Hnone by (intros w1 E; exists []; split; [by rewrite app_nil_r|by left]).
  destruct (select_loop _ _ _ _ w) as [[[n|]|e] w1]; cbn [fst snd] in *;
    [|split; [by apply Hnone|by split]..].
  destruct (_check_worker_alive c (get_host_queue_name host) w1); cbn [negb];
    [split; [by apply Hnone|by split]|].
  destruct (launch_ok c [host] n w1) as [Hl Hlh].
  destruct (_try_launch_pinned_worker c [host] n w1) as [[qs|e] w2]; cbn [fst snd] in *.
  - destruct Hl as (-> & l & Hl & Hall). split; [|split; [done|intros k ??; unfold mret, M_ret; simpl; by rewrite Hlh, Hh]].
    exists l. split; [unfold mret, M_ret; simpl; by rewrite Hl, Hq|]. right. eauto.
  - destruct Hl as [Hl He]. split; [apply Hnone; congruence|]. split; [done|].
    intros k ??. by rewrite Hlh, Hh.
Qed.

(** What a dispatch does, whatever the queue: the job accepted is the last one
    queued, on the queue of its strategy, and the one stored under the id in the
    answer; a refusal is an ordinary exception, after a worker launch at most;
    hashes other than the two maps are not touched. *)
Lemma dispatch_effect conn_arg q_strategy f kw a meta w :
  match dispatch_rpc_job c conn_arg q_strategy f kw a meta w with
  | (Ok r, w') => stored w' (ji_id r) = Some f
      ∧ ∃ launched q s, queued w' = queued w ++ launched ++ [(q, s)]
        ∧ js_func s = f ∧ js_kwargs s = kw ∧ meta_kept meta s
          ∧ js_on_success s = ((λ cb, mkCallback cb (js_timeout s)) <$> sa_on_success a)
          ∧ routed conn_arg q_strategy launched q
  | (Err e, w') => is_exception e = true
      ∧ ∃ launched, queued w' = queued w ++ launched ∧ launch_of conn_arg launched
  end ∧ ∀ k, k ≠ cfg_host_to_node_map c → k ≠ cfg_node_info_map c →
    hashes (dispatch_rpc_job c conn_arg q_strategy f kw a meta w).2 k = hashes w k.
Proof.
  assert (∀ qm : M W string,
    (∃ launched, queued (qm w).2 = queued w ++ launched ∧ launch_of conn_arg launched
     ∧ match (qm w).1 with
       | Ok q => routed conn_arg q_strategy launched q
       | Err e => is_exception e = true
       end) →
    (∀ k, k ≠ cfg_host_to_node_map c → k ≠ cfg_node_info_map c →
       hashes (qm w).2 k = hashes w k) →
    let r := (q ← qm; job ← _send_job c q f kw a meta; mret (JobInResponse.from_job job)) w in
    match r with
    | (Ok r, w') => stored w' (ji_id r) = Some f
        ∧ ∃ launched q s, queued w' = queued w ++ launched ++ [(q, s)]
          ∧ js_func s = f ∧ js_kwargs s = kw ∧ meta_kept meta s
          ∧ js_on_success s = ((λ cb, mkCallback cb (js_timeout s)) <$> sa_on_success a)
          ∧ routed conn_arg q_strategy launched q
    | (Err e, w') => is_exception e = true
        ∧ ∃ launched, queued w' = queued w ++ launched ∧ launch_of conn_arg launched
    end ∧ ∀ k, k ≠ cfg_host_to_node_map c → k ≠ cfg_node_info_map c →
      hashes r.2 k = hashes w k) as Hsend.
  { intros qm (launched & Hq & Hl & Hr) Hqh r. subst r. unfold mbind, M_bind, mret, M_ret.
    destruct (qm w) as [[q|e] w1]; cbn [fst snd] in *; [|by eauto].
    destruct (send_job_ok c q f kw a meta w1) as [Hs Hh].
    destruct (_send_job _ _ _ _ _ _ w1) as [[j|e] w2]; cbn [snd] in *.
    2:{ destruct Hs as [Hs He]. split; [|intros k ??; rewrite Hh; auto].
        split; [done|]. exists launched. split; [congruence|done]. }
    destruct Hs as (s & Hs & ? & ? & ? & ?). split; [|intros k ??; rewrite Hh; auto].
    split; [done|]. exists launched, q, s. rewrite Hs, Hq, <-app_assoc. naive_solver. }
  assert (launch_of conn_arg []) as Hnil by by left.
  unfold dispatch_rpc_job. destruct q_strategy.
  - apply Hsend; unfold fifo_queue, mbind, M_bind, reads;
      destruct (_check_worker_alive c get_fifo_queue_name w); cbn [negb]; try done;
      exists []; rewrite app_nil_r; by split_and!.
  - destruct (dc_host conn_arg) as [host|] eqn:Eh; [destruct (str_truthy (Some host)); cbn [negb]|];
      [|apply Hsend; try done; exists []; rewrite app_nil_r; by split_and!..].
    change (default "" (Some host)) with host.
    destruct (pinned_queue_spec conn_arg host w Eh) as ((launched & Hq & Hl) & Hr & Hh).
    apply Hsend; [|done]. exists launched. split_and!; [done..|].
    destruct (pinned_queue c host w).1; [|done]. split; [|done]. by rewrite Hr, Eh.
Qed.

Lemma dispatch_safe conn_arg q_strategy f kw a meta :
  safe (dispatch_rpc_job c conn_arg q_strategy f kw a meta).
Proof.
  intros w e He. destruct (dispatch_effect conn_arg q_strategy f kw a meta w) as [Hd _].
  destruct (dispatch_rpc_job _ _ _ _ _ _ _ w) as [r w']. simpl in He. subst r. apply Hd.
Qed.

Lemma meta_conn_args_ordinary m : ordinary (meta_conn_args m).
Proof.
  unfold meta_conn_args. repeat case_match; try (by apply ordinary_Err). apply conn_args_ordinary.
Qed.
#[local] Hint Resolve dispatch_safe meta_conn_args_ordinary : linux_net.

(** ** Waiting for a job *)

(** The states the wait goes through: the world after some pauses. *)
Definition waited : relation W := rtc (λ w w', w' = sleep 100000 w).

(** With fuel for the whole wait, polling ends by the time limit, by the
    disappearance of the job, or with what the step does at the first state in
    which the step is defined. *)
Lemma poll_spec {A} fuel start limit id (step : Job → option (M W A)) w :
  0 < fuel → (limit < now w - start + 100000 * (Z.of_nat fuel - 1))%Z →
  match poll fuel start limit id step w with
  | (Ok None, w') => waited w w' ∧ (limit ≤ now w' - start)%Z
  | (Ok (Some a), w') => ∃ w1 j act, waited w w1 ∧ job_fetch id w1 = Some j
      ∧ step j = Some act ∧ act w1 = (Ok a, w')
  | (Err e, w') => is_exception e = true
      ∨ ∃ w1 j act, waited w w1 ∧ job_fetch id w1 = Some j ∧ step j = Some act ∧ act w1 = (Err e, w')
  end.
Proof.
  revert w. induction fuel as [|fuel IH]; intros w Hpos Hf; [lia|]. cbn [poll].
  destruct (now w - start <? limit)%Z eqn:Et; to_prop; [|by split; [constructor|]].
  destruct (job_fetch id w) as [j|] eqn:Ej; [|by left].
  destruct (step j) as [act|] eqn:Es.
  - unfold mbind, M_bind, mret, M_ret.
    destruct (act w) as [[a|e] w'] eqn:Em; [|right]; exists w, j, act; split_and!; auto; constructor.
  - pose proof (now_sleep 100000 w) as Hs.
    specialize (IH (sleep 100000 w)). 
    assert (∀ w1, waited (sleep 100000 w) w1 → waited w w1) as Hw by (intros; by eapply rtc_l).
    destruct (poll fuel start limit id step (sleep 100000 w)) as [[[a|]|e] w'].
    + destruct IH as (w1 & j1 & act & ? & ? & ? & ?); [lia|lia|]. eauto 10.
    + destruct IH; [lia|lia|]. auto.
    + destruct IH as [?|(w1 & j1 & act & ? & ? & ? & ?)]; [lia|lia|by left|]. right. eauto 10.
Qed.

Lemma poll_fuel_enough limit : (0 ≤ limit)%Z →
  0 < poll_fuel limit ∧ (limit < 100000 * (Z.of_nat (poll_fuel limit) - 1))%Z.
Proof. unfold poll_fuel. intros. pose proof (Z.div_mod limit 100000 ltac:(done)).
  pose proof (Z.mod_pos_bound limit 100000 ltac:(done)). pose proof (Z.div_pos limit 100000). lia. Qed.

(** The wait of the handlers, which starts now. *)
Lemma poll_now {A} limit id (step : Job → option (M W A)) w : (0 ≤ limit)%Z →
  match poll (poll_fuel limit) (now w) limit id step w with
  | (Ok None, w') => waited w w' ∧ (limit ≤ now w' - now w)%Z
  | (Ok (Some a), w') => ∃ w1 j act, waited w w1 ∧ job_fetch id w1 = Some j
      ∧ step j = Some act ∧ act w1 = (Ok a, w')
  | (Err e, w') => is_exception e = true
      ∨ ∃ w1 j act, waited w w1 ∧ job_fetch id w1 = Some j ∧ step j = Some act ∧ act w1 = (Err e, w')
  end.
Proof. intros [? ?]%poll_fuel_enough. apply poll_spec; lia. Qed.

(** ** Discovery *)
Definition vanished (host : option string) (active : list pyval) (kv : string * metadata) : bool :=
  bool_decide (dict_get_or "host" PNone kv.2 = opt_str host) && status_is "running" kv.2
  && negb (task_found kv.1 active).

Definition ended (t : Z) m : metadata :=
  dict_set "last_sync" (PFloat t) (dict_set "status" (PStr "completed") m).

Lemma sync_off_spec host active jid tasks cnt w : NoDup tasks.*1 →
  ∃ w', sync_off c host active jid tasks cnt w
      = (Ok (cnt + length (filter (λ kv, vanished host active kv = true) tasks)), w')
  ∧ (registry_ok w → registry_ok w' ∧ ∀ t,
       (∃ m t0, (t, m) ∈ tasks ∧ vanished host active (t, m) = true
          ∧ get t w' = Ok (Some (ended t0 m)))
       ∨ ((∀ m, (t, m) ∈ tasks → vanished host active (t, m) = false) ∧ get t w' = get t w)).
Proof.
  revert cnt w. induction tasks as [|[tid m] tasks IH]; intros cnt w Hnd; cbn [sync_off].
  { exists w. rewrite Nat.add_0_r. split; [done|]. intros Hok. split; [done|].
    intros t. right. split; [set_solver|done]. }
  rewrite fmap_cons in Hnd. apply NoDup_cons in Hnd as [Hni Hnd].
  change (bool_decide _ && status_is "running" m && negb (task_found tid active))
    with (vanished host active (tid, m)).
  destruct (vanished host active (tid, m)) eqn:Ev.
  - unfold reads, mbind, M_bind.
    pose proof (λ t', register_get c tid (ended (now w) m) (Some jid) w t') as Hr.
    destruct (register_eq c tid (ended (now w) m) (Some jid) w) as (w1 & Hr1 & _).
    change (dict_set "last_sync" (PFloat (now w)) (dict_set "status" (PStr "completed") m))
      with (ended (now w) m).
    rewrite Hr1. rewrite Hr1 in Hr. cbn [snd] in Hr.
    destruct (IH (S cnt) w1 Hnd) as (w' & -> & Hw'). exists w'.
    rewrite filter_cons_True by done. split; [cbn [length]; do 2 f_equal; lia|].
    intros Hok. destruct (Hw' (proj1 (Hr tid Hok))) as [Hok' Hget]. split; [done|]. intros t.
    destruct (Hget t) as [(m' & t0 & Hin & ? & ?)|[Hnot Hg]]; [left; exists m', t0; set_solver|].
    destruct (Hr t Hok) as [_ Hg1]. rewrite Hg1 in Hg.
    destruct (decide (t = tid)) as [->|Hne]; [left; exists m, (now w); set_solver|].
    right. split; [|done]. intros m' [?|?]%elem_of_cons; [naive_solver|auto].
  - destruct (IH cnt w Hnd) as (w' & -> & Hw'). exists w'.
    rewrite filter_cons_False by (by rewrite Ev). split; [done|].
    intros Hok. destruct (Hw' Hok) as [Hok' Hget]. split; [done|]. intros t.
    destruct (Hget t) as [(m' & t0 & Hin & ? & ?)|[Hnot Hg]]; [left; exists m', t0; set_solver|].
    right. split; [|done]. intros m' [?|?]%elem_of_cons; [naive_solver|auto].
Qed.

(** What the finished scan reports as active. *)
Definition active_of (result : option (list DriverExecutionResult)) : option (list pyval) :=
  match result with
  | Some (val :: _) => Some (match dict_get "active_tasks" (r_metadata val) with
                             | Some (PList l) => l
                             | _ => []
                             end)
  | _ => None
  end.

(** Discovery always ends, with an answer or an ordinary exception.  The
    answer lists what the scan of the host found, counts the registered tasks of
    that host that were running and are not among the found ones, and exactly
    these entries become completed; every other entry stays as it was. *)
Theorem discover_spec conn_arg driver w :
  match discover_detached_tasks c conn_arg driver w with
  | (Err e, w') => is_exception e = true
  | (Ok (found, synced, active), w') =>
      ∃ r w1 w2 j tasks, waited w1 w2 ∧ stored w1 (ji_id r) = Some f_execute
        ∧ job_fetch (ji_id r) w2 = Some j ∧ job_status j = Some "finished"
        ∧ active_of (job_result j) = Some active ∧ found = length active
        ∧ list_all w2 = Ok tasks
        ∧ synced = length (filter (λ kv, vanished (dc_host conn_arg) active kv = true) tasks)
        ∧ (registry_ok w2 → registry_ok w' ∧ ∀ t,
             match get t w2 with
             | Ok (Some m) =>
                 if vanished (dc_host conn_arg) active (t, m)
                 then ∃ t0, get t w' = Ok (Some (ended t0 m))
                 else get t w' = Ok (Some m)
             | x => get t w' = x
             end)
  end.
Proof.
  unfold discover_detached_tasks, mbind, M_bind, of_res, reads.
  pose proof (model_validate_ordinary (discovery_request driver conn_arg)) as Hv.
  destruct (ExecutionRequest.model_validate _) as [req|e]; [|by apply Hv].
  pose proof (dispatch_safe conn_arg PINNED f_execute (kw_req req) management_args None w) as Hd.
  destruct (dispatch_effect conn_arg PINNED f_execute (kw_req req) management_args None w) as [He _].
  destruct (dispatch_rpc_job _ _ _ _ _ _ _ w) as [[r|e] w1]; [|by apply Hd].
  destruct He as [Hst _].
  match goal with |- context [poll _ _ _ _ ?f w1] =>
    pose proof (poll_now (seconds 10) (ji_id r) f w1 ltac:(done)) as Hp end.
  destruct (poll _ _ _ _ _ w1) as [[[[[n synced] active]|]|e] w'].
  - destruct Hp as (w2 & j & act & Hw & Hj & Hact & Hrun). exists r, w1, w2, j.
    unfold job_is in Hact. case_bool_decide as Ef; [|case_bool_decide; by simplify_eq/=].
    injection Hact as <-.
    destruct (job_result j) as [[|val res]|] eqn:Er; [done| |done].
    destruct (list_all w2) as [tasks|e] eqn:El; [|done].
    exists tasks. cbn [active_of].
    set (act := match dict_get "active_tasks" _ with Some (PList l) => l | _ => [] end) in *.
    pose proof (list_all_NoDup _ _ El) as Hnd.
    destruct (sync_off_spec (dc_host conn_arg) act (ji_id r) tasks 0 w2 Hnd) as (w3 & Hs & Hg).
    rewrite Hs in Hrun. unfold mret, M_ret in Hrun. injection Hrun as <- <- <- <-.
    split_and!; try done. intros Hok. destruct (Hg Hok) as [Hok' Hget]. split; [done|]. intros t.
    destruct (list_all_get w2 Hok) as (d & El' & _ & Hd'). rewrite El in El'. injection El' as <-.
    rewrite Hd'. destruct (Hget t) as [(m & t0 & Hin & Hvan & Hm)|[Hnot Hsame]].
    + rewrite (dict_elem_of_get t m tasks Hnd Hin), Hvan. eauto.
    + rewrite Hsame, Hd'. destruct (dict_get t tasks) as [m|] eqn:Et; [|done].
      by rewrite (Hnot m) by (by apply dict_get_elem_of).
  - done.
  - destruct Hp as [?|(w2 & j & act & Hw & Hj & Hact & Hrun)]; [done|].
    unfold job_is in Hact. case_bool_decide as Ef.
    2:{ case_bool_decide; [|done]. injection Hact as <-. by injection Hrun as <- <-. }
    injection Hact as <-. unfold raise in Hrun.
    destruct (job_result j) as [[|val res]|]; [by simplify_eq| |by simplify_eq].
    pose proof (list_all_ordinary w2) as Hl. destruct (list_all w2) as [tasks|e'] eqn:El.
    + destruct (sync_off_spec (dc_host conn_arg)
        (match dict_get "active_tasks" (r_metadata val) with Some (PList l) => l | _ => [] end)
        (ji_id r) tasks 0 w2 (list_all_NoDup _ _ El)) as (w3 & Hs & _).
      by rewrite Hs in Hrun.
    + injection Hrun as <- <-. by apply Hl.
Qed.

(** ** Killing a task *)

(** No metadata to work with: the task is unknown, or its entry is empty. *)
Definition unknown_task task_id w : Prop :=
  get task_id w = Ok None ∨ get task_id w = Ok (Some []).

(** The management job of [action], as the last one queued, and its answer. *)
Definition managed task_id action params m r w w1 : Prop :=
  get task_id w = Ok (Some m) ∧ m ≠ []
  ∧ ∃ conn launched q s, meta_conn_args m = Ok conn
    ∧ queued w1 = queued w ++ launched ++ [(q, s)]
    ∧ js_func s = f_manage_detached_task ∧ js_kwargs s = kw_manage task_id action params
    ∧ stored w1 (ji_id r) = Some f_manage_detached_task
    ∧ hashes w1 KEY = hashes w KEY.

Context (key_differs : KEY ≠ cfg_host_to_node_map c ∧ KEY ≠ cfg_node_info_map c).

Lemma management_dispatch task_id action params m conn a w r w1 :
  get task_id w = Ok (Some m) → m ≠ [] → meta_conn_args m = Ok conn →
  dispatch_rpc_job c conn PINNED f_manage_detached_task (kw_manage task_id action params) a None w
    = (Ok r, w1) →
  managed task_id action params m r w w1.
Proof.
  intros Hg Hm Hc Hd. split; [done|]. split; [done|].
  destruct (dispatch_effect conn PINNED f_manage_detached_task (kw_manage task_id action params)
    a None w) as [He Hh]. rewrite Hd in He, Hh. cbn [snd] in Hh.
  destruct He as (? & l & q & s & ? & ? & ? & _). destruct key_differs.
  exists conn, l, q, s. split_and!; auto.
Qed.

Definition killed (result : option (list DriverExecutionResult)) : bool :=
  match result with Some (v :: _) => (r_exit_status v =? 0)%Z | _ => true end.

(** Killing a task always ends, with an answer or an ordinary exception.
    An unknown task is answered with [False] and nothing happens.  Otherwise one
    kill job is queued last for the task's host, and the answer is that job's:
    when it finished, the task is gone from the registry, and [True] means that
    the job reported no failing exit status; when it failed, or did not finish
    in time, the answer is [False] and the registry is as the wait left it. *)
Theorem kill_detached_spec task_id w :
  match kill_detached_task c task_id w with
  | (Err e, w') => is_exception e = true
  | (Ok b, w') =>
      (unknown_task task_id w ∧ b = false ∧ w' = w)
      ∨ ∃ m r w1 w2, managed task_id "kill" None m r w w1 ∧ waited w1 w2
          ∧ ((∃ j, job_fetch (ji_id r) w2 = Some j ∧ job_status j = Some "finished"
                ∧ w' = unregister task_id w2 ∧ get task_id w' = Ok None
                ∧ b = killed (job_result j))
             ∨ b = false ∧ w' = w2)
  end.
Proof.
  unfold kill_detached_task, mbind, M_bind, of_res, reads.
  pose proof (get_ordinary task_id w) as Hg. unfold unknown_task.
  destruct (get task_id w) as [[[|kv m]|]|e] eqn:Eg; [by left; auto| |by left; auto|by apply Hg].
  pose proof (meta_conn_args_ordinary (kv :: m)) as Hc.
  destruct (meta_conn_args (kv :: m)) as [conn|e] eqn:Ec; [|by apply Hc].
  pose proof (dispatch_safe conn PINNED f_manage_detached_task (kw_manage task_id "kill" None)
    management_args None w) as Hd.
  destruct (dispatch_rpc_job _ _ _ _ _ _ _ w) as [[r|e] w1] eqn:Ed; [|by apply Hd].
  pose proof (management_dispatch task_id "kill" None (kv :: m) conn management_args w r w1
    Eg ltac:(done) Ec Ed) as Hm.
  pose proof (poll_now (seconds 10) (ji_id r) (λ rq_job,
    if job_is "finished" rq_job then
      Some (writes (unregister task_id) ≫= λ _, mret (killed (job_result rq_job)))
    else if job_is "failed" rq_job then Some (mret false) else None) w1 ltac:(done)) as Hp.
  unfold mbind, M_bind in Hp. unfold killed at 1 in Hp.
  destruct (poll _ _ _ _ _ w1) as [[[b|]|e] w'].
  - destruct Hp as (w2 & j & act & Hw & Hj & Hact & Hrun). right. exists (kv :: m), r, w1, w2.
    split; [done|]. split; [done|]. unfold job_is in Hact.
    case_bool_decide as Ef; [left|case_bool_decide; [right|done]]; simplify_eq/=.
    + unfold writes, mret, M_ret in Hrun. injection Hrun as <- <-.
      exists j. split_and!; try done. unfold get, unregister. by rewrite hget_hdel, decide_True.
    + by injection Hrun.
  - right. exists (kv :: m), r, w1, w'. split; [done|]. split; [apply Hp|]. by right.
  - destruct Hp as [?|(w2 & j & act & Hw & Hj & Hact & Hrun)]; [done|].
    unfold job_is in Hact. repeat case_bool_decide; simplify_eq/=. 
Qed.

(** ** Queries *)

(** The entry of a task after a successful query at time [t]. *)
Definition progressed (next_offset : pyval) (is_running : bool) (t : Z) m : metadata :=
  dict_set "status" (PStr (if is_running then "running" else "completed"))
    (dict_set "last_sync" (PFloat t)
       (if bool_decide (next_offset = PNone) then m else dict_set "last_offset" next_offset m)).

(** The first result that names its task: the task, where its log goes on, and
    whether it runs. *)
Fixpoint progress (result : list DriverExecutionResult) : option (string * pyval * bool) :=
  match result with
  | [] => None
  | val :: result =>
      match dict_get "task_id" (r_metadata val) with
      | Some (PStr t) => Some (t, dict_get_or "next_offset" PNone (r_metadata val),
                               truthy (dict_get_or "is_running" (PBool true) (r_metadata val)))
      | _ => progress result
      end
  end.

(** What an update leaves: the entry [t] replaced by [f t0] of it, if it has one. *)
Definition updated (t : string) (f : Z → metadata → metadata) w w' : Prop :=
  registry_ok w → registry_ok w' ∧ ∃ t0, ∀ t', get t' w' =
    match get t' w with
    | Ok (Some (kv :: m)) => if decide (t' = t) then Ok (Some (f t0 (kv :: m))) else Ok (Some (kv :: m))
    | x => x
    end.

Lemma updated_same t f w : (get t w = Ok None ∨ get t w = Ok (Some [])) → updated t f w w.
Proof.
  intros Hg Hok. split; [done|]. exists 0%Z. intros t'.
  destruct (decide (t' = t)) as [->|]; [by destruct Hg as [->| ->]|].
  by destruct (get t' w) as [[[]|]|].
Qed.

Lemma updated_register t f m jid w t0 :
  get t w = Ok (Some m) → m ≠ [] →
  (register c t (f t0 m) jid w).1 = Ok tt ∧ updated t f w (register c t (f t0 m) jid w).2.
Proof.
  intros Hg Hm. destruct (register_eq c t (f t0 m) jid w) as (w1 & Hr & _).
  split; [by rewrite Hr|]. intros Hok.
  split; [by apply (register_get c t (f t0 m) jid w t Hok)|]. exists t0. intros t'.
  destruct (register_get c t (f t0 m) jid w t' Hok) as [_ ->].
  destruct (decide (t' = t)) as [->|]; [|by destruct (get t' w) as [[[]|]|]].
  rewrite Hg. by destruct m.
Qed.

Lemma query_update_spec result jid task_id w :
  match query_update c result jid task_id w with
  | (Err e, _) => False
  | (Ok (t, r), w') =>
      match progress result with
      | None => t = task_id ∧ r = true ∧ w' = w
      | Some (t', off, r') => t = t' ∧ r = r' ∧ updated t (progressed off r') w w'
      end
  end.
Proof.
  revert task_id. induction result as [|val result IH]; intros task_id; [done|].
  cbn [query_update progress].
  destruct (dict_get "task_id" (r_metadata val)) as [[]|] eqn:Et; try (apply IH).
  unfold try_except, mbind, M_bind.
  pose proof (get_ordinary s w) as Hg.
  destruct (get s w) as [[[|kv m]|]|e] eqn:Eg; cbn [mret M_ret].
  - split_and!; [done..|]. by apply updated_same; auto.
  - unfold reads.
    set (off := dict_get_or "next_offset" PNone (r_metadata val)).
    set (run := truthy (dict_get_or "is_running" (PBool true) (r_metadata val))).
    destruct (updated_register s (progressed off run) (kv :: m) (Some jid) w (now w) Eg ltac:(done))
      as [Hr Hu].
    unfold progressed in Hr, Hu at 2.
    destruct (register c s _ (Some jid) w) as [x w'] eqn:Er. cbn [fst snd] in *. subst x.
    split_and!; done.
  - split_and!; [done..|]. apply updated_same; auto.
  - rewrite (Hg e) by done. split_and!; [done..|]. intros Hok. rewrite get_ok in Eg; done.
Qed.

(** Querying a task always ends, with an answer or an ordinary exception
    (an unknown task raises at once, a wait past its limit raises at its end).
    An answer comes from the one query job, queued last for the task's host,
    when it finished: its result is returned as it is, and the registry entry of
    the task its result names moves to the log position and the status the
    result reports, all other entries staying as they were. *)
Theorem query_detached_spec task_id offset w :
  match query_detached_task c task_id offset w with
  | (Err e, w') => is_exception e = true ∧ (unknown_task task_id w → w' = w)
  | (Ok (t, running, result), w') =>
      ∃ m r w1 w2 j, managed task_id "query" (Some offset) m r w w1 ∧ waited w1 w2
        ∧ job_fetch (ji_id r) w2 = Some j ∧ job_status j = Some "finished"
        ∧ result = job_result j
        ∧ match progress (default [] result) with
          | None => t = task_id ∧ running = true ∧ w' = w2
          | Some (t', off, r') => t = t' ∧ running = r' ∧ updated t (progressed off r') w2 w'
          end
  end.
Proof.
  unfold query_detached_task, mbind, M_bind, of_res, reads, unknown_task.
  pose proof (get_ordinary task_id w) as Hg.
  destruct (get task_id w) as [[[|kv m]|]|e] eqn:Eg;
    [done| |done|split; [by apply Hg|intros []; done]].
  assert (∀ w1 : W, (Ok (Some (kv :: m)) = Ok None ∨ Ok (Some (kv :: m)) = Ok (Some [])) → w1 = w)
    as Hno by (intros ? [|]; done).
  pose proof (meta_conn_args_ordinary (kv :: m)) as Hc.
  destruct (meta_conn_args (kv :: m)) as [conn|e] eqn:Ec; [|split; [by apply Hc|done]].
  pose proof (dispatch_safe conn PINNED f_manage_detached_task
    (kw_manage task_id "query" (Some offset)) management_args None w) as Hd.
  destruct (dispatch_rpc_job _ _ _ _ _ _ _ w) as [[r|e] w1] eqn:Ed;
    [|split; [by apply Hd|apply Hno]].
  pose proof (management_dispatch task_id "query" (Some offset) (kv :: m) conn management_args w r w1
    Eg ltac:(done) Ec Ed) as Hm.
  match goal with |- context [poll _ _ _ _ ?f w1] =>
    pose proof (poll_now (seconds 5) (ji_id r) f w1 ltac:(done)) as Hp end.
  destruct (poll _ _ _ _ _ w1) as [[[[[t run] res]|]|e] w'].
  - destruct Hp as (w2 & j & act & Hw & Hj & Hact & Hrun). exists (kv :: m), r, w1, w2, j.
    unfold job_is in Hact.
    case_bool_decide as Ef; [|case_bool_decide; simplify_eq/=].
    injection Hact as <-. pose proof (query_update_spec (default [] (job_result j)) (ji_id r) task_id w2) as Hu.
    destruct (query_update c (default [] (job_result j)) (ji_id r) task_id w2) as [[[t' run']|e] w3]; [|done].
    unfold mret, M_ret in Hrun. injection Hrun as <- <- <- <-. split_and!; done.
  - split; [done|apply Hno].
  - split; [|apply Hno]. destruct Hp as [?|(w2 & j & act & Hw & Hj & Hact & Hrun)]; [done|].
    unfold job_is in Hact. case_bool_decide as Ef; [|case_bool_decide; by simplify_eq/=].
    injection Hact as <-. pose proof (query_update_spec (default [] (job_result j)) (ji_id r) task_id w2) as Hu.
    destruct (query_update c (default [] (job_result j)) (ji_id r) task_id w2) as [[[t' run']|e'] w3]; [by simplify_eq/=|done].
Qed.

(** ** Launching *)

(** C22. Executing a request on a device always ends.  When it is refused, no
    [execute] job was queued, at most the launch of one worker for the host, and
    the registry is as it was.  Otherwise one [execute] job was queued, of exactly
    this request, on the shared queue or, pinned, on its host's own, and before
    it at most the launch of one worker for the host, on the queue of a node.  A
    detached request is registered, as launching, under the task id its job
    carries, a fresh identifier's first twelve characters; after the job at most
    the audit of that registration is queued, when auditing is on.  No other task
    is touched. *)
Theorem execute_on_device_spec req w :
  match execute_on_device c req w with
  | (Err e, w') => is_exception e = true ∧ hashes w' KEY = hashes w KEY
      ∧ ∃ launched, queued w' = queued w ++ launched ∧ launch_of (er_connection_args req) launched
  | (Ok r, w') =>
      ∃ q_strategy launched q s w1, er_queue_strategy req = Some q_strategy
        ∧ queued w1 = queued w ++ launched ++ [(q, s)]
        ∧ routed (er_connection_args req) q_strategy launched q
        ∧ js_func s = f_execute ∧ js_kwargs s = kw_req req
        ∧ hashes w1 KEY = hashes w KEY
        ∧ if er_detach req then
            ∃ task_id t, task_id = String.substring 0 12 (uuid4_str w).1
              ∧ dict_get "task_id" (js_meta s) = Some (PStr task_id)
              ∧ w' = (register c task_id (launching_meta task_id req t) (Some (ji_id r)) w1).2
              ∧ (queued w' = queued w1 ∨ cfg_mongodb_enabled c = true ∧ queued w' = queued w1
                   ++ [("AuditLogQ", audit_spec task_id (launching_meta task_id req t) (Some (ji_id r)))])
              ∧ (registry_ok w → ∀ t', get t' w' =
                   if decide (t' = task_id) then Ok (Some (launching_meta task_id req t))
                   else get t' w)
          else w' = w1
  end.
Proof.
  destruct key_differs as [Kh Kn]. unfold execute_on_device.
  destruct (er_queue_strategy req) as [q|].
  2:{ split; [done|]. split; [done|]. exists []. rewrite app_nil_r. split; [done|by left]. }
  unfold mbind at 1, M_bind at 1.
  assert (∃ task_id w0, (if er_detach req
      then u ← update uuid4_str; mret (Some (String.substring 0 12 u)) else mret None) w
      = (Ok task_id, w0) ∧ hashes w0 KEY = hashes w KEY ∧ queued w0 = queued w
      ∧ task_id = if er_detach req then Some (String.substring 0 12 (uuid4_str w).1) else None)
    as (task_id & w0 & -> & Hh0 & Hq0 & Hid).
  { destruct (er_detach req); [|by eexists _, _].
    pose proof (uuid4_str_hashes w KEY). pose proof (uuid4_str_queued w).
    unfold update, mbind, M_bind. destruct (uuid4_str w) as [u w0]. by eexists _, w0. }
  unfold mbind, M_bind.
  destruct (dispatch_effect (er_connection_args req) q f_execute (kw_req req) (exec_args c req)
    (Some (exec_meta task_id req)) w0) as [He Hh].
  specialize (Hh KEY Kh Kn).
  destruct (dispatch_rpc_job _ _ _ _ _ _ _ w0) as [[r|e] w1]; cbn [snd] in Hh.
  2:{ destruct He as (He & l & Hl & Hlo). split; [done|]. split; [congruence|]. exists l. split; [congruence|done]. }
  destruct He as (_ & l & q' & s & Hq & Hf & Hk & Hm & _ & Hto).
  assert (hashes w1 KEY = hashes w KEY) as Hw1 by congruence.
  rewrite Hq0 in Hq. subst task_id. destruct (er_detach req) eqn:Edet.
  - unfold reads, mret, M_ret. set (t := String.substring 0 12 (uuid4_str w).1) in *.
    destruct (register_eq c t (launching_meta t req (now w1)) (Some (ji_id r)) w1) as (w2 & Hr & _ & Hqa).
    rewrite Hr. exists q, l, q', s, w1. split_and!; try done.
    exists t, (now w1). split_and!; [done| | | |].
    + rewrite Hm; done.
    + by rewrite Hr.
    + naive_solver.
    + intros Hok t'. destruct (registry_same w w1 Hw1) as [Hok1 Hg1].
      pose proof (register_get c t (launching_meta t req (now w1)) (Some (ji_id r)) w1 t' (Hok1 Hok)) as [_ Hg].
      rewrite Hr in Hg. by rewrite <-Hg1.
  - by exists q, l, q', s, w1.
Qed.
End tasks.

(** ** Findings *)
Section findings.
Context {W : Type} `{Json} `{Redis W} `{!Rq W}.

(** With auditing on, the audit job of a registration is stored under the id
    that [register] was given: the id of the job that runs the task, which it
    replaces. *)
Lemma register_replaces_job (c : Config) t m i (w w1 : W) j :
  cfg_mongodb_enabled c = true → lifecycle m = true →
  enqueue "AuditLogQ" (audit_spec t m (Some i)) (hset KEY t (dumps (PDict m)) w) = (Ok j, w1) →
  stored (register c t m (Some i) w).2 i = Some f_process_detached_audit.
Proof.
  intros Hm Hl He. unfold register, try_except, writes, mbind, M_bind.
  rewrite Hm, Hl. cbn [andb]. rewrite He. unfold mret, M_ret. cbn [snd]. destruct (enqueue_ok _ _ _ _ _ He) as (_ & Hid & Hs).
  rewrite (Hid i) in Hs by done. exact Hs.
Qed.

(** A bulk request whose command is a dictionary to render never gets to the
    dispatch: the metadata of its jobs does not validate. *)
Lemma bulk_meta_dict req d : er_command req = Some (PayDict d) → d ≠ [] →
  bulk_meta req = Err (ValidationError "command").
Proof.
  intros Hc Hd. unfold bulk_meta, get_command_list. rewrite Hc. destruct d as [|[]]; [done|].
  unfold opt_str. by destruct (dc_host (er_connection_args req)).
Qed.

(** A launching entry has no command. *)
Lemma launching_no_command t req x : dict_get "command" (launching_meta t req x) = None.
Proof. done. Qed.
End findings.

(** ** Examples, in the toy world *)
Section tasks_examples.
Lemma default_key_differs :
  KEY ≠ cfg_host_to_node_map default_config ∧ KEY ≠ cfg_node_info_map default_config.
Proof. done. Qed.

Definition task_meta : metadata :=
  [("task_id", PStr "t1"); ("status", PStr "running"); ("host", PStr "h1");
   ("connection_args", PDict [("host", PStr "h1")])].

Definition task_result (next_offset : Z) (is_running : bool) : DriverExecutionResult :=
  mkResult "query" (PStr "out") "" 0 None
    [("task_id", PStr "t1"); ("next_offset", PInt next_offset); ("is_running", PBool is_running)] PNone.

(** The task [t1] runs on [h1]; the next job will be found finished with
    [result]. *)
Definition toy_task (result : list DriverExecutionResult) : Toy.world :=
  Toy.set_jobs [mkJob "job-0" (Some "finished") "HostQ_h1" None None None None None
                  (Some (mkRqResult 1 (Some result))) [] kw_none]
    (hset KEY "t1" (dumps (PDict task_meta)) toy_cluster).

Lemma toy_cluster_empty t : hget KEY t toy_cluster = None.
Proof. vm_compute. reflexivity. Qed.

Lemma toy_task_ok result : registry_ok (toy_task result).
Proof.
  intros t s. change (hget KEY t (toy_task result))
    with (hget KEY t (hset KEY "t1" (dumps (PDict task_meta)) toy_cluster)).
  rewrite hget_hset. case_decide; [intros Hs; exists task_meta; congruence|].
  by rewrite toy_cluster_empty.
Qed.

Lemma kill_detached_spec_witness :
  ∃ w', kill_detached_task default_config "t1" (toy_task []) = (Ok true, w')
    ∧ get "t1" w' = Ok None.
Proof.
  pose proof (kill_detached_spec default_config default_key_differs "t1" (toy_task [])) as Hs.
  destruct (kill_detached_task _ _ _) as [r w'] eqn:Ek.
  assert (r = Ok true) as -> by (change r with (r, w').1; rewrite <-Ek; vm_compute; reflexivity).
  destruct Hs as [(_ & Hb & _)|(m & r & w1 & w2 & _ & _ & [(j & _ & _ & _ & Hg & _)|[Hb _]])];
    [discriminate| |discriminate].
  exists w'. split; [reflexivity|exact Hg].
Defined.

Lemma query_detached_spec_witness :
  ∃ w', query_detached_task default_config "t1" None (toy_task [task_result 42 false])
      = (Ok ("t1", false, Some [task_result 42 false]), w').
Proof.
  pose proof (query_detached_spec default_config default_key_differs "t1" None
    (toy_task [task_result 42 false])) as Hs.
  destruct (query_detached_task _ _ _ _) as [r w'] eqn:Ek.
  assert (∃ t run, r = Ok (t, run, Some [task_result 42 false])) as (t & run & ->)
    by (change r with (r, w').1; rewrite <-Ek; eexists _, _; vm_compute; reflexivity).
  destruct Hs as (m & r & w1 & w2 & j & _ & _ & _ & _ & _ & Hp).
  simpl in Hp. destruct Hp as (-> & -> & _). exists w'. reflexivity.
Defined.

Definition scan_result : DriverExecutionResult :=
  mkResult "list_active_detached_tasks" (PStr "") "" 0 None [("active_tasks", PList [])] PNone.

(** The scan of [h1] finds nothing, so [t1] is over. *)
Lemma discover_spec_witness :
  ∃ w', discover_detached_tasks default_config (toy_conn "h1") PARAMIKO (toy_task [scan_result])
      = (Ok (0, 1, []), w').
Proof.
  pose proof (discover_spec default_config (toy_conn "h1") PARAMIKO (toy_task [scan_result])) as Hs.
  destruct (discover_detached_tasks _ _ _ _) as [r w'] eqn:Ek.
  assert (r = Ok (0, 1, [])) as ->
    by (change r with (r, w').1; rewrite <-Ek; vm_compute; reflexivity).
  destruct Hs as (r & w1 & w2 & j & tasks & _ & _ & _ & _ & _ & Hf & _). exists w'. reflexivity.
Defined.

Lemma clear_detached_spec_witness :
  ∃ w', clear_detached_tasks (toy_task []) = (Ok 1, w') ∧ get "t1" w' = Ok None.
Proof.
  destruct (clear_detached_spec (toy_task []) (toy_task_ok [])) as (tasks & w' & Hl & Hc & _ & Hg & _).
  assert (length tasks = 1) as <-; [|exists w'; split; [exact Hc|apply Hg]].
  apply (f_equal (λ r, match r with Ok l => length l | Err _ => 0 end)) in Hl. rewrite <-Hl.
  vm_compute. reflexivity.
Defined.

Definition detached_request : ExecutionRequest :=
  mkExecutionRequest PARAMIKO None (toy_conn "h1") None None (Some (PayStr "make")) None
    None None (Some PINNED) (Some 300%Z) None None audit_full None true None None None [].

Lemma execute_on_device_spec_witness :
  ∃ r w', execute_on_device default_config detached_request toy_cluster = (Ok r, w')
    ∧ ∃ m, get "00000000-111" w' = Ok (Some m).
Proof.
  pose proof (execute_on_device_spec default_config default_key_differs detached_request toy_cluster) as Hs.
  destruct (execute_on_device _ _ _) as [r w'] eqn:Ek.
  assert (is_ok r = true) as Hok by (change r with (r, w').1; rewrite <-Ek; vm_compute; reflexivity).
  destruct r as [r|e]; [|discriminate].
  destruct Hs as (qs & l & q & s & w1 & _ & _ & _ & _ & _ & _ & task_id & t & Hid & _ & _ & _ & Hg).
  exists r, w'. split; [reflexivity|].
  assert (registry_ok toy_cluster) as Hro by (intros u v; rewrite toy_cluster_empty; discriminate).
  specialize (Hg Hro "00000000-111"). rewrite decide_True in Hg by (rewrite Hid; reflexivity).
  eauto.
Defined.

(** Finding: with auditing on, the job id the client gets names the audit job
    once the launch has been registered. *)
Definition audited_config : Config :=
  mkConfig 1800 300 300 300 32 "linux_net:host_to_node_map" "linux_net:node_info_map"
    true "/app/storage/staging" 24 None "0.0.0.0" 9000.

Lemma detach_job_replaced :
  match execute_on_device audited_config detached_request toy_cluster with
  | (Ok r, w') => stored w' (ji_id r) = Some f_process_detached_audit
  | (Err _, _) => False
  end.
Proof. vm_compute. reflexivity. Qed.
End tasks_examples.
