(* ===== verification/Storage.v ===== *)
(** * Staged files: paths and the download route

    The parts of Python's [os.path] the program uses on POSIX paths, the path
    helpers of [BaseDriver] ([linux_net/plugins/drivers/__init__.py]), the
    download URL the webhook callback makes ([linux_net/services/rpc.py]) and
    the route that serves it ([linux_net/routes/storage.py]). *)

From Stdlib Require Import Ascii.
From S2P Require Import Prelude PyLib Models World.

(** ** [os.path] *)
Definition slash : ascii := "/"%char.
Definition sep : string := "/".

Definition isabs (p : string) : bool := startswith p sep.

Fixpoint ends_slash (s : string) : bool :=
  match s with
  | EmptyString => false
  | String a EmptyString => Ascii.eqb a slash
  | String _ s => ends_slash s
  end.

(** [os.path.join(a, b)] *)
Definition path_join (a b : string) : string :=
  if isabs b then b
  else if String.eqb a "" || ends_slash a then a +:+ b
  else a +:+ sep +:+ b.

(** [os.path.basename] *)
Definition basename (p : string) : string := default "" (last (split_char slash p)).

(** The components of an absolute path without [.], [..] and empty ones. *)
Fixpoint norm (l acc : list string) : list string :=
  match l with
  | [] => reverse acc
  | x :: l =>
      if String.eqb x "" || String.eqb x "." then norm l acc
      else if String.eqb x ".." then norm l (tail acc)
      else norm l (x :: acc)
  end.

(** Two leading slashes, and only two, are kept. *)
Definition initial_slashes (p : string) : string :=
  if startswith p "//" && negb (startswith p "///") then "//" else "/".

(** [os.path.normpath] of an absolute path *)
Definition normpath (p : string) : string :=
  initial_slashes p +:+ join sep (norm (split_char slash p) []).

Section cwd.
Context (cwd : string).

(** [os.path.abspath] *)
Definition abspath (p : string) : string :=
  normpath (if isabs p then p else path_join cwd p).

(** The non-empty components of an absolute path *)
Definition comps (p : string) : list string := filter (λ x, x ≠ "") (split_char slash (abspath p)).

Fixpoint common_prefix (l k : list string) : nat :=
  match l, k with
  | x :: l, y :: k => if String.eqb x y then S (common_prefix l k) else 0
  | _, _ => 0
  end.

Definition rel_list (start path : list string) : list string :=
  let i := common_prefix start path in
  replicate (length start - i) ".." ++ drop i path.

(** [os.path.relpath(path, start)] *)
Definition relpath (path start : string) : string :=
  match rel_list (comps start) (comps path) with
  | [] => "."
  | l => join sep l
  end.

(** ** [routes/storage.py] *)
Definition fetch_staged_file (c : Config) (exists_ : string → bool) (file_id : string) : res string :=
  let download_dir := path_join (cfg_staging c) "downloads" in
  let download_dir_abs := abspath download_dir in
  let file_path := abspath (path_join download_dir_abs file_id) in
  let rel := relpath file_path download_dir_abs in
  if startswith rel ".." then Err (HTTPException 403 "Forbidden")
  else if negb (exists_ file_path) then Err (HTTPException 404 "File not found")
  else Ok file_path.

(** ** The download URL of [rpc_webhook_callback] *)
Definition download_base (c : Config) : string := path_join (cfg_staging c) "downloads".

Definition base_url (c : Config) (gethostname : res string) : string :=
  if str_truthy (cfg_external_url c) then rstrip_char slash (default "" (cfg_external_url c))
  else
    let host := if String.eqb (cfg_server_host c) "0.0.0.0"
                then match gethostname with Ok h => h | Err _ => "localhost" end
                else cfg_server_host c in
    "http://" +:+ host +:+ ":" +:+ str_of_Z (cfg_server_port c).

(** The URL of one result with a staged [local_path] *)
Definition download_url (c : Config) (gethostname : res string) (metadata : list (string * pyval))
    : option string :=
  match dict_get "local_path" metadata with
  | Some (PStr local_path) =>
      if negb (String.eqb local_path "") && startswith local_path (download_base c)
      then Some (base_url c gethostname +:+ "/storage/fetch/" +:+ relpath local_path (download_base c))
      else None
  | _ => None
  end.
End cwd.

(** ** [BaseDriver]'s paths *)
Definition _get_effective_source_path (staged_file_id local_path : option string) : option string :=
  if str_truthy staged_file_id then staged_file_id else local_path.

Definition or_else (o : option string) (d : string) : string :=
  if str_truthy o then default "" o else d.

Definition _get_effective_dest_path (c : Config) (isdir : string → bool) (job_id : string)
    (local_path fallback_name : option string) : string :=
  let p := default "" local_path in
  if str_truthy local_path && isabs p then
    if ends_slash p || isdir p
    then path_join (rstrip_char slash p) (or_else fallback_name "download")
    else p
  else
    let download_dir := path_join (cfg_staging c) "downloads" in
    let job_dir := path_join download_dir ("dl_" +:+ job_id) in
    let filename := if str_truthy local_path then basename p else or_else fallback_name "download" in
    path_join job_dir filename.

Definition _get_effective_remote_path (remote_path : string) (local_path : option string) : string :=
  if ends_slash remote_path && str_truthy local_path
  then rstrip_char slash remote_path +:+ sep +:+ basename (default "" local_path)
  else remote_path.

Example relpath_up : relpath "/" "/a/b/../c" "/a/d/e" = "../../c".
Proof. reflexivity. Qed.
Example abspath_slashes : abspath "/" "//a/./b/.." = "//a".
Proof. reflexivity. Qed.

(** ** Lemmas on paths *)

Fixpoint no_slash (s : string) : Prop :=
  match s with
  | EmptyString => True
  | String a s => a ≠ slash ∧ no_slash s
  end.

Lemma split_no_slash s : no_slash s → split_char slash s = [s].
Proof.
  induction s as [|a s IH]; [done|]. simpl. intros [Ha Hs].
  rewrite (proj2 (Ascii.eqb_neq a slash)) by done. by rewrite IH.
Qed.

Lemma split_app s t : no_slash s →
  split_char slash (s +:+ sep +:+ t) = s :: split_char slash t.
Proof.
  induction s as [|a s IH]; [done|]. simpl. intros [Ha Hs].
  rewrite (proj2 (Ascii.eqb_neq a slash)) by done. change (String "/" t) with (sep +:+ t).
  by rewrite IH.
Qed.

Lemma split_join l : l ≠ [] → Forall no_slash l → split_char slash (join sep l) = l.
Proof.
  intros Hne Hl. induction Hl as [|x l Hx Hl IH]; [done|].
  destruct l as [|y l]; [by apply split_no_slash|].
  change (join sep (x :: y :: l)) with (x +:+ sep +:+ join sep (y :: l)).
  rewrite split_app by done. by rewrite IH.
Qed.

Lemma split_all_no_slash s : Forall no_slash (split_char slash s).
Proof.
  induction s as [|a s IH]; simpl; [by repeat constructor|].
  destruct (Ascii.eqb a slash) eqn:E; [by constructor|].
  apply Ascii.eqb_neq in E. destruct IH; repeat constructor; done.
Qed.

(** A component that normalising keeps. *)
Definition clean (x : string) : Prop := x ≠ "" ∧ x ≠ "." ∧ x ≠ ".." ∧ no_slash x.

Lemma clean_no_slash x : clean x → no_slash x.
Proof. by intros (_ & _ & _ & ?). Qed.
#[local] Hint Resolve clean_no_slash : linux_net.

Lemma norm_clean l acc : Forall no_slash l → Forall clean acc → Forall clean (norm l acc).
Proof.
  intros Hl. revert acc. induction Hl as [|x l Hx Hl IH]; intros acc Hacc; simpl.
  - by apply Forall_reverse.
  - destruct (String.eqb x "") eqn:E1; [by apply IH|].
    destruct (String.eqb x ".") eqn:E2; [by apply IH|].
    destruct (String.eqb x "..") eqn:E3; apply IH.
    + by destruct Hacc.
    + constructor; [|done]. apply String.eqb_neq in E1, E2, E3. done.
Qed.

Lemma norm_of_clean l acc : Forall clean l → norm l acc = reverse acc ++ l.
Proof.
  intros Hl. revert acc. induction Hl as [|x l (H1 & H2 & H3 & _) Hl IH]; intros acc; simpl.
  - by rewrite app_nil_r.
  - rewrite !(proj2 (String.eqb_neq _ _)) by done. simpl. rewrite IH, reverse_cons.
    by rewrite <-app_assoc.
Qed.

(** The absolute path with the components [l] *)
Definition path_of (l : list string) : string := sep +:+ join sep l.

Lemma path_of_isabs l : isabs (path_of l) = true.
Proof. apply startswith_spec. by exists (join sep l). Qed.

Lemma startswith_slash_clean x t : clean x → startswith (x +:+ t) sep = false.
Proof.
  intros (Hx & _ & _ & Hs). destruct x as [|a x]; [done|]. destruct Hs as [Ha _].
  apply not_true_is_false. intros [r Hr]%startswith_spec. by injection Hr.
Qed.

Lemma join_cons_clean x l : ∃ t, join sep (x :: l) = x +:+ t.
Proof.
  destruct l as [|y l]; [exists ""; by rewrite string_app_nil|].
  by exists (sep +:+ join sep (y :: l)).
Qed.

Lemma initial_slashes_path_of l : Forall clean l → initial_slashes (path_of l) = "/".
Proof.
  intros Hl. unfold initial_slashes, path_of.
  assert (startswith (sep +:+ join sep l) "//" = false) as ->; [|done].
  destruct Hl as [|x l Hx Hl]; [done|]. destruct (join_cons_clean x l) as [t ->].
  pose proof (startswith_slash_clean x t Hx) as Hs. unfold startswith in *. simpl in *.
  destruct (ascii_dec "/" "/"); [exact Hs|done].
Qed.

Lemma split_path_of l : l ≠ [] → Forall clean l → split_char slash (path_of l) = "" :: l.
Proof.
  intros Hne Hl. unfold path_of. change (sep +:+ join sep l) with ("" +:+ sep +:+ join sep l).
  rewrite split_app by done. f_equal. apply split_join; [done|].
  eapply Forall_impl; [exact Hl|auto with linux_net].
Qed.

Lemma filter_clean l : Forall clean l → filter (λ x, x ≠ "") l = l.
Proof.
  intros Hl. induction Hl as [|x l (Hx & _) Hl IH]; [done|]. by rewrite filter_cons_True, IH.
Qed.

Lemma abspath_path_of cwd l : l ≠ [] → Forall clean l → abspath cwd (path_of l) = path_of l.
Proof.
  intros Hne Hl. unfold abspath. rewrite path_of_isabs. unfold normpath.
  rewrite initial_slashes_path_of, split_path_of by done. simpl. by rewrite norm_of_clean.
Qed.

Lemma comps_path_of cwd l : l ≠ [] → Forall clean l → comps cwd (path_of l) = l.
Proof.
  intros Hne Hl. unfold comps. rewrite abspath_path_of, split_path_of by done.
  rewrite filter_cons_False by auto. by apply filter_clean.
Qed.

Lemma ends_slash_app s t : t ≠ "" → ends_slash (s +:+ t) = ends_slash t.
Proof.
  intros Ht. induction s as [|a s IH]; [done|]. simpl. rewrite IH.
  by destruct s; destruct t.
Qed.

Lemma ends_slash_clean x : clean x → ends_slash x = false.
Proof.
  intros (Hne & _ & _ & Hs). clear Hne. induction x as [|a x IH]; [done|]. simpl in *.
  destruct Hs as [Ha Hs]. destruct x; [by apply Ascii.eqb_neq|by apply IH].
Qed.

Lemma join_app l k : l ≠ [] → k ≠ [] → join sep (l ++ k) = join sep l +:+ sep +:+ join sep k.
Proof.
  intros Hl Hk. induction l as [|x l IH]; [done|]. destruct l as [|y l].
  - by destruct k.
  - change (join sep ((x :: y :: l) ++ k)) with (x +:+ sep +:+ join sep ((y :: l) ++ k)).
    rewrite IH by done. change (join sep (x :: y :: l)) with (x +:+ sep +:+ join sep (y :: l)).
    by rewrite !string_app_assoc.
Qed.

Lemma ends_slash_path_of l : l ≠ [] → Forall clean l → ends_slash (path_of l) = false.
Proof.
  intros Hne Hl. destruct l as [|x l _] using rev_ind; [done|].
  apply Forall_app in Hl as [Hl Hx]. inversion Hx as [|?? Hc _]; subst.
  assert (x ≠ "") by apply Hc. unfold path_of. destruct l as [|y l].
  - change (join sep ([] ++ [x])) with x. rewrite ends_slash_app by done. by apply ends_slash_clean.
  - rewrite join_app by done. rewrite <-!string_app_assoc, ends_slash_app by done.
    by apply ends_slash_clean.
Qed.

(** Joining below a path *)
Lemma path_join_of l k : l ≠ [] → Forall clean l → k ≠ [] → Forall clean k →
  path_join (path_of l) (join sep k) = path_of (l ++ k).
Proof.
  intros Hl Hcl Hk Hck. unfold path_join.
  assert (isabs (join sep k) = false) as ->.
  { destruct Hck as [|x k Hx Hck]; [done|]. destruct (join_cons_clean x k) as [t ->].
    by apply startswith_slash_clean. }
  rewrite ends_slash_path_of by done.
  rewrite (proj2 (String.eqb_neq _ _)) by (unfold path_of; done). simpl.
  unfold path_of. rewrite join_app by done. by rewrite !string_app_assoc.
Qed.

Corollary path_join_one l x : l ≠ [] → Forall clean l → clean x →
  path_join (path_of l) x = path_of (l ++ [x]).
Proof. intros. apply (path_join_of l [x]); auto. Qed.

Lemma common_prefix_app l k : common_prefix l (l ++ k) = length l.
Proof.
  induction l as [|x l IH]; [by destruct k|]. simpl. by rewrite String.eqb_refl, IH.
Qed.

Lemma common_prefix_full l k : common_prefix l k = length l → ∃ r, k = l ++ r.
Proof.
  revert k. induction l as [|x l IH]; intros k Hc; [by exists k|].
  destruct k as [|y k]; [done|]. simpl in Hc. destruct (String.eqb x y) eqn:E; [|done].
  apply String.eqb_eq in E as ->. destruct (IH k) as [r ->]; [lia|]. by exists r.
Qed.

Lemma common_prefix_le l k : common_prefix l k ≤ length l.
Proof.
  revert k. induction l as [|x l IH]; intros [|y k]; simpl; try lia.
  destruct (String.eqb x y); [|lia]. specialize (IH k). lia.
Qed.

Lemma relpath_below cwd path start r : r ≠ [] →
  comps cwd path = comps cwd start ++ r → relpath cwd path start = join sep r.
Proof.
  intros Hr Hc. unfold relpath, rel_list. rewrite Hc, common_prefix_app, Nat.sub_diag, drop_app_length.
  by destruct r.
Qed.

(** A relative path that does not start with [..] stays below. *)
Lemma relpath_contained cwd path start :
  startswith (relpath cwd path start) ".." = false → ∃ r, comps cwd path = comps cwd start ++ r.
Proof.
  intros Hs. apply common_prefix_full.
  pose proof (common_prefix_le (comps cwd start) (comps cwd path)) as Hle.
  destruct (decide (common_prefix (comps cwd start) (comps cwd path) = length (comps cwd start)))
    as [|Hne]; [done|]. exfalso. revert Hs. unfold relpath, rel_list.
  destruct (length (comps cwd start) - _) as [|n] eqn:E; [lia|]. cbn [replicate app].
  match goal with |- context [".." :: ?l] => destruct (join_cons_clean ".." l) as [t ->] end.
  rewrite (proj2 (startswith_spec _ _)); [done|by exists t].
Qed.

(** C24. The download route serves nothing outside the download directory: the
    path it serves lies below it component by component, whatever the id
    contains (dots, slashes, an absolute path), and it exists; an id that leads
    outside is refused before the disk is looked at. *)
Theorem fetch_contained cwd c exists_ file_id :
  let downloads := abspath cwd (path_join (cfg_staging c) "downloads") in
  match fetch_staged_file cwd c exists_ file_id with
  | Ok p => exists_ p = true ∧ ∃ r, comps cwd p = comps cwd downloads ++ r
  | Err e => e = HTTPException 403 "Forbidden" ∨ e = HTTPException 404 "File not found"
  end.
Proof.
  intros downloads. unfold fetch_staged_file. fold downloads.
  destruct (startswith _ "..") eqn:Es; [by left|].
  destruct (exists_ _) eqn:Ee; simpl; [|by right].
  split; [done|]. by apply relpath_contained.
Qed.

(** Finding: a file below the directory whose name starts with two dots is
    refused too. *)
Lemma fetch_refuses_dotted :
  fetch_staged_file "/" default_config (λ _, true) "..notes" = Err (HTTPException 403 "Forbidden").
Proof. reflexivity. Qed.

(** ** Fetching a download URL

    The id is put into the URL as it is.  Who fetches the URL asks for its path
    only, up to a query or a fragment, and the route gets that path with its
    percent escapes decoded (RFC 3986; [urllib.parse.unquote], which leaves an
    incomplete escape alone). *)
Definition hex_digit (a : ascii) : option nat :=
  let n := nat_of_ascii a in
  if (48 <=? n) && (n <=? 57) then Some (n - 48)
  else if (65 <=? n) && (n <=? 70) then Some (n - 55)
  else if (97 <=? n) && (n <=? 102) then Some (n - 87)
  else None.

Fixpoint unquote (s : string) : string :=
  match s with
  | EmptyString => EmptyString
  | String c rest =>
      if Ascii.eqb c "%" then
        match rest with
        | String a (String b rest') =>
            match hex_digit a, hex_digit b with
            | Some x, Some y => String (ascii_of_nat (16 * x + y)) (unquote rest')
            | _, _ => String c (unquote rest)
            end
        | _ => String c (unquote rest)
        end
      else String c (unquote rest)
  end.

Fixpoint url_path (s : string) : string :=
  match s with
  | EmptyString => EmptyString
  | String c s => if Ascii.eqb c "?" || Ascii.eqb c "#" then EmptyString else String c (url_path s)
  end.

(** The id the route gets when the URL made of [file_id] is fetched *)
Definition requested_id (file_id : string) : string := unquote (url_path file_id).

(** A name that a URL holds as it is *)
Definition url_plain (s : string) : bool := negb (has_char "%" s || has_char "?" s || has_char "#" s).

Lemma url_plain_app s t : url_plain s = true → url_plain t = true → url_plain (s +:+ t) = true.
Proof.
  unfold url_plain. intros Hs Ht. rewrite !has_char_app. by destruct (has_char "%" s), (has_char "?" s), (has_char "#" s).
Qed.

Lemma url_plain_join r : Forall (λ x, url_plain x = true) r → url_plain (join sep r) = true.
Proof.
  intros Hr. induction Hr as [|x r Hx Hr IH]; [done|]. destruct r as [|y r]; [done|].
  change (join sep (x :: y :: r)) with (x +:+ sep +:+ join sep (y :: r)).
  apply url_plain_app; [done|]. by apply (url_plain_app sep).
Qed.

Lemma requested_plain s : url_plain s = true → requested_id s = s.
Proof.
  unfold requested_id, url_plain. intros Hs%negb_true_iff. induction s as [|a s IH]; [done|].
  cbn [has_char] in Hs. apply orb_false_elim in Hs as [[[E1 Hs1]%orb_false_elim [E2 Hs2]%orb_false_elim]%orb_false_elim
    [E3 Hs3]%orb_false_elim].
  cbn [url_path]. rewrite E2, E3. cbn [orb unquote]. rewrite E1, IH; [done|]. by rewrite Hs1, Hs2, Hs3.
Qed.

(** The URL of a file below the download directory, and where it leads *)
Lemma url_below cwd c hostname staging r :
  cfg_staging c = path_of staging → staging ≠ [] → Forall clean staging → r ≠ [] → Forall clean r →
  let p := path_of (staging ++ "downloads" :: r) in
  download_url cwd c hostname [("local_path", PStr p)]
    = Some (base_url c hostname +:+ "/storage/fetch/" +:+ join sep r)
  ∧ ∀ exists_ : string → bool, startswith (join sep r) ".." = false → exists_ p = true →
      fetch_staged_file cwd c exists_ (join sep r) = Ok p.
Proof.
  intros Hst Hne Hcl Hrne Hr p. set (b := staging ++ ["downloads"]).
  assert (clean "downloads") as Hd by (repeat split; done).
  assert (Forall clean b ∧ b ≠ []) as [Hb Hbne].
  { split; [apply Forall_app; auto|]. by destruct staging. }
  assert (path_join (cfg_staging c) "downloads" = path_of b) as Hbase.
  { by rewrite Hst, path_join_one. }
  assert (p = path_of (b ++ r)) as Hp by (unfold p, b; by rewrite <-app_assoc).
  assert (Forall clean (b ++ r) ∧ b ++ r ≠ []) as [Hbr Hbrne].
  { split; [by apply Forall_app|]. by destruct b. }
  assert (relpath cwd p (path_of b) = join sep r) as Hrel.
  { apply relpath_below; [done|]. by rewrite Hp, !comps_path_of. }
  split.
  - unfold download_url. cbn [dict_get]. rewrite decide_True by done.
    unfold download_base. rewrite Hbase, Hrel.
    rewrite (proj2 (String.eqb_neq _ _)) by (by rewrite Hp).
    assert (startswith p (path_of b) = true) as ->; [|done].
    apply startswith_spec. exists (sep +:+ join sep r). rewrite Hp. unfold path_of.
    by rewrite join_app, !string_app_assoc by done.
  - intros exists_ Hdot Hex. unfold fetch_staged_file. rewrite Hbase, abspath_path_of by done.
    rewrite (path_join_of b r), abspath_path_of by done. rewrite <-Hp, Hrel, Hdot, Hex. done.
Qed.

(** The name a driver stores a download under, when the path asked for is not
    absolute *)
Definition stored_name (local_path fallback : option string) : string :=
  if str_truthy local_path then basename (default "" local_path) else or_else fallback "download".



(** Finding: the id is not quoted in the URL, so a name with a percent escape, a
    question mark or a number sign leads to another file, or none. *)
Lemma unquoted_names :
  requested_id "dl_j1/50%25.log" = "dl_j1/50%.log" ∧ requested_id "dl_j1/what?.log" = "dl_j1/what"
  ∧ requested_id "dl_j1/build#7.log" = "dl_j1/build"
  ∧ fetch_staged_file "/" default_config (String.eqb "/app/storage/staging/downloads/dl_j1/build#7.log")
      (requested_id "dl_j1/build#7.log") = Err (HTTPException 404 "File not found").
Proof. split_and!; reflexivity. Qed.

(** Finding: a directory whose name only begins like the download directory's counts as
    one below it; the URL its files get is refused. *)
Lemma sibling_directory : ∃ file_id,
  download_url "/" default_config (Ok "box") [("local_path", PStr "/app/storage/staging/downloads2/a.log")]
    = Some ("http://box:9000/storage/fetch/" +:+ file_id)
  ∧ fetch_staged_file "/" default_config (λ _, true) (requested_id file_id) = Err (HTTPException 403 "Forbidden").
Proof. exists "../downloads2/a.log". split; reflexivity. Qed.
