(* ===== verification/AuditLog.v ===== *)
(** * Audit records

    [rpc_audit_callback] of [linux_net/services/audit.py], which queues an audit
    record when a job ends, and the archiver ([linux_net/worker/archiver.py]),
    which writes the records to MongoDB and prunes the collection. *)

From stdpp Require Import sorting.
From S2P Require Import Prelude PyLib Models World Registry.

(** How a job ended: [(job, conn, return_value)] or
    [(job, conn, exc_type, exc_value, tb)]. *)
Inductive outcome :=
  | Succeeded (ret : option (list DriverExecutionResult))
  | Failed (e : exn).

(** [model_dump(mode="json")] of a result, with its computed field *)
Definition DriverExecutionResult_dump (r : DriverExecutionResult) : list (string * pyval) :=
  [("command", PStr (r_command r)); ("stdout", r_stdout r); ("stderr", PStr (r_stderr r));
   ("exit_status", PInt (r_exit_status r)); ("download_url", opt_str (r_download_url r));
   ("metadata", PDict (r_metadata r)); ("parsed", r_parsed r); ("output", r_stdout r)].

(** ** [ExecutionRequest] and its JSON dictionary

    What pydantic's [model_dump(mode="json")] and the constructor promise: the
    dump of a validated request validates to the same request. *)
Class RequestJson := {
  req_dump : ExecutionRequest → list (string * pyval);
  req_load : list (string * pyval) → res ExecutionRequest;
  req_load_dump : ∀ r r', ExecutionRequest.model_validate r = Ok r' → req_load (req_dump r') = Ok r';
  req_load_ordinary : ∀ d, ordinary (req_load d);
}.
#[export] Hint Resolve req_load_ordinary : linux_net.

(** ** MongoDB *)
Record MongoConfig := mkMongoConfig {
  mg_collection : string;
  mg_detached_collection : string;
  mg_max_documents : Z;
}.

Definition default_mongo : MongoConfig := mkMongoConfig "audit_jobs" "audit_detached_tasks" 1000000.

Class Mongo (W : Type) := {
  (** The documents of a collection: [_id] and [created_at]. *)
  docs : string → W → list (string * Z);
  (** What was inserted, in order. *)
  inserted : W → list (string * list (string * pyval));
  is_pymongo_error : exn → bool;
  insert_one : string → list (string * pyval) → M W unit;
  estimated_document_count : string → W → res Z;
  (** [find({}, {"_id": 1}).sort("created_at", 1).limit(n)] *)
  find_oldest : string → nat → W → res (list string);
  (** [delete_many({"_id": {"$in": ids}})] *)
  delete_many : string → list string → M W Z;
  insert_ok : ∀ coll d w u w', insert_one coll d w = (Ok u, w') → inserted w' = inserted w ++ [(coll, d)];
  insert_err : ∀ coll d w e w', insert_one coll d w = (Err e, w') →
    inserted w' = inserted w ∧ is_exception e = true;
  find_oldest_ok : ∀ coll n w ids, find_oldest coll n w = Ok ids →
    ∃ l, l ≡ₚ docs coll w ∧ StronglySorted (λ x y, (x.2 ≤ y.2)%Z) l ∧ ids = (take n l).*1;
  ids_unique : ∀ coll w, NoDup (docs coll w).*1;
  delete_ok : ∀ coll ids w k w', delete_many coll ids w = (Ok k, w') →
    docs coll w' ≡ₚ filter (λ d, d.1 ∉ ids) (docs coll w) ∧ inserted w' = inserted w;
  delete_err : ∀ coll ids w e w', delete_many coll ids w = (Err e, w') →
    docs coll w' = docs coll w ∧ inserted w' = inserted w ∧ is_pymongo_error e = true;
  count_err : ∀ coll w e, estimated_document_count coll w = Err e → is_pymongo_error e = true;
  find_err : ∀ coll n w e, find_oldest coll n w = Err e → is_pymongo_error e = true;
}.

(** ** The callback *)
Section audit.
Context {W : Type} `{Json} `{Redis W} `{!Rq W}.
Context (c : Config).

(** The value of [audit_mode] in a dumped request, one of the three *)
Definition audit_of (v : pyval) : AuditMode :=
  match v with
  | PStr s => if String.eqb s "none" then audit_none
              else if String.eqb s "metadata" then audit_metadata else audit_full
  | _ => audit_full
  end.

Definition _get_job_audit_mode (job : Job) : AuditMode :=
  match job_kwargs job with
  | kw_req req => er_audit_mode req
  | _ => match dict_get "req_payload" (job_meta job) with
         | Some (PDict d) => audit_of (dict_get_or "audit_mode" (PStr "full") d)
         | _ => audit_full
         end
  end.

Definition serialized_result (o : outcome) : pyval :=
  match o with
  | Succeeded (Some l) => PList ((λ r, PDict (DriverExecutionResult_dump r)) <$> l)
  | Succeeded None => PNone
  | Failed e => PStr (exn_name e +:+ ": " +:+ exn_str e)
  end.

Definition job_audit_spec (job : Job) (o : outcome) : JobSpec :=
  plain_spec f_process_audit_log
    (kw_audit (job_id job) (serialized_result o) (_get_job_audit_mode job)) None None.

Definition rpc_audit_callback (job : Job) (o : outcome) : M W unit :=
  if negb (cfg_mongodb_enabled c) then mret tt
  else try_except
    (match _get_job_audit_mode job with
     | audit_none => mret tt
     | _ => enqueue "AuditLogQ" (job_audit_spec job o) ≫= λ _, mret tt
     end) (λ _, mret tt).

(** Whether a job is to be audited at all *)
Definition audited (job : Job) : bool :=
  cfg_mongodb_enabled c && negb (bool_decide (_get_job_audit_mode job = audit_none)).

Lemma rpc_audit_eq job o w : ∃ w',
  rpc_audit_callback job o w = (Ok tt, w') ∧ (∀ k, hashes w' k = hashes w k)
  ∧ (queued w' = queued w
     ∨ audited job = true ∧ queued w' = queued w ++ [("AuditLogQ", job_audit_spec job o)]).
Proof.
  unfold rpc_audit_callback, audited. destruct (cfg_mongodb_enabled c); cbn [negb andb]; [|by exists w; auto].
  unfold try_except, mbind, M_bind.
  pose proof (enqueue_hashes "AuditLogQ" (job_audit_spec job o) w) as Hh.
  pose proof (enqueue_ok "AuditLogQ" (job_audit_spec job o) w) as Hok.
  pose proof (enqueue_err "AuditLogQ" (job_audit_spec job o) w) as Herr.
  destruct (_get_job_audit_mode job) eqn:Em; [| |by exists w; auto].
  all: destruct (enqueue _ _ w) as [[j|e] w']; cbn [snd] in Hh; exists w'.
  all: try (destruct (Hok _ _ eq_refl) as (Hq & _); split_and!; auto).
  all: destruct (Herr _ _ eq_refl) as [Hq ->]; split_and!; auto.
Qed.
End audit.

(** ** The archiver *)
Section archiver.
Context {W : Type} `{Json} `{Redis W} `{!Rq W} `{!Clock W} `{!Mongo W} `{!RequestJson}.
Context (mg : MongoConfig).
(** [str(job.get_status())] *)
Context (status_str : option string → string).

Definition PRUNE_BATCH_SIZE : Z := 1000.

(** [except PyMongoError: log] *)
Definition try_mongo (m : M W unit) : M W unit := λ w,
  match m w with
  | (Err e, w) => if is_pymongo_error e then (Ok tt, w) else (Err e, w)
  | r => r
  end.

Definition _prune_collection_by_count (coll : string) (max_documents batch_size : Z) : M W unit :=
  if (max_documents <=? 0)%Z || (batch_size <=? 0)%Z then mret tt
  else λ w,
    match estimated_document_count coll w with
    | Err e => if is_pymongo_error e then (Ok tt, w) else (Err e, w)
    | Ok count =>
        let overage := (count - max_documents)%Z in
        if (overage <=? 0)%Z then (Ok tt, w)
        else
          let limit := Z.min overage batch_size in
          try_mongo
            (ids ← (λ w, (find_oldest coll (Z.to_nat limit) w, w));
             match ids with
             | [] => mret tt
             | _ => delete_many coll ids ≫= λ _, mret tt
             end) w
    end.

Definition _write_to_mongo (doc : list (string * pyval)) (collection_name : option string)
    : M W unit :=
  let c_name := if str_truthy collection_name then default "" collection_name
                else mg_collection mg in
  insert_one c_name doc ≫= λ _,
  if String.eqb c_name (mg_collection mg)
  then _prune_collection_by_count c_name (mg_max_documents mg) PRUNE_BATCH_SIZE
  else mret tt.

(** The document of a job, at time [t] *)
Definition audit_doc (job : Job) (result : pyval) (mode : AuditMode) (t : Z) : list (string * pyval) :=
  let times := [("enqueued_at", opt_int (job_enqueued_at job));
                ("started_at", opt_int (job_started_at job)); ("ended_at", opt_int (job_ended_at job))] in
  let times := match job_started_at job, job_ended_at job with
               | Some s, Some e => times ++ [("duration_seconds", PFloat (e - s))]
               | _, _ => times
               end in
  [("job_id", PStr (job_id job)); ("status", PStr (status_str (job_status job)));
   ("created_at", PInt t); ("audit_mode", PStr (audit_value mode)); ("metrics", PDict times)]
  ++ (match mode with audit_full => [("result", mask_sensitive_data result)] | _ => [] end)
  ++ (match job_meta job with
      | [] => []
      | m => [("device_name", dict_get_or "device_name" PNone m);
              ("command", dict_get_or "command" PNone m)]
      end)
  ++ (match job_kwargs job with
      | kw_req req => [("request", mask_sensitive_data (PDict (req_dump req)))]
      | _ => []
      end).

Definition process_audit_log (id : string) (result : pyval) (audit_mode : option AuditMode) : M W unit :=
  job ← (λ w, (match job_fetch id w with
               | Some j => Ok j
               | None => Err (NoSuchJobError ("No such job: " +:+ id))
               end, w));
  let mode := match audit_mode with Some m => m | None => _get_job_audit_mode job end in
  match mode with
  | audit_none => mret tt
  | _ => t ← reads now; _write_to_mongo (audit_doc job result mode t) None
  end.

Definition detached_doc (task_id : string) (m : metadata) (job_id : option string) (t : Z)
    : list (string * pyval) :=
  [("task_id", PStr task_id); ("type", PStr "detached_lifecycle");
   ("metadata", mask_sensitive_data (PDict m)); ("recorded_at", PInt t)]
  ++ (match job_id with Some i => [("job_id", PStr i)] | None => [] end).

Definition process_detached_audit (task_id : string) (m : metadata) (job_id : option string) : M W unit :=
  try_except
    (t ← reads now;
     _write_to_mongo (detached_doc task_id m job_id t) (Some (mg_detached_collection mg)))
    (λ _, mret tt).
End archiver.

(** ** Theorems *)
Section audit_theorems.
Context {W : Type} `{Json} `{Redis W} `{!Rq W}.
Context (c : Config).

(** The end of a job is audited once: the callback never raises and touches
    no hash; it queues nothing when auditing is off or the request asked for
    none, and otherwise exactly one record, with the outcome of this job and
    the detail the request asked for, unless Redis refuses it. *)
Theorem rpc_audit_spec job o w :
  ∃ w', rpc_audit_callback c job o w = (Ok tt, w') ∧ (∀ k, hashes w' k = hashes w k)
  ∧ if audited c job then
      match enqueue "AuditLogQ" (job_audit_spec job o) w with
      | (Ok _, _) => queued w' = queued w ++ [("AuditLogQ", job_audit_spec job o)]
      | (Err _, _) => queued w' = queued w
      end
    else w' = w.
Proof.
  unfold rpc_audit_callback, audited. destruct (cfg_mongodb_enabled c); cbn [negb andb]; [|by exists w].
  unfold try_except, mbind, M_bind.
  pose proof (enqueue_hashes "AuditLogQ" (job_audit_spec job o) w) as Hh.
  pose proof (enqueue_ok "AuditLogQ" (job_audit_spec job o) w) as Hok.
  pose proof (enqueue_err "AuditLogQ" (job_audit_spec job o) w) as Herr.
  destruct (_get_job_audit_mode job) eqn:Em; [| |by exists w].
  all: rewrite bool_decide_eq_false_2 by done; cbn [negb].
  all: destruct (enqueue _ _ w) as [[j|e] w']; cbn [snd] in Hh; exists w'.
  all: try (destruct (Hok _ _ eq_refl) as (Hq & _); by split_and!).
  all: destruct (Herr _ _ eq_refl) as [Hq ->]; by split_and!.
Qed.
End audit_theorems.

Section archiver_theorems.
Context {W : Type} `{Json} `{Redis W} `{!Rq W} `{!Clock W} `{!Mongo W} `{!RequestJson}.
Context (mg : MongoConfig) (status_str : option string → string).

(** Dropping the oldest of a sorted list keeps what is at least as recent. *)
Lemma filter_oldest (l : list (string * Z)) n : NoDup l.*1 →
  filter (λ d, d.1 ∉ (take n l).*1) l = drop n l.
Proof.
  intros Hnd.
  transitivity (filter (λ d, d.1 ∉ (take n l).*1) (take n l ++ drop n l)); [by rewrite take_drop|].
  rewrite filter_app.
  rewrite <-(take_drop n l), fmap_app in Hnd. apply NoDup_app in Hnd as (_ & Hdis & _).
  rewrite filter_none, filter_all; [done|..].
  - intros x Hx Hin. apply (Hdis x.1 Hin). by apply list_elem_of_fmap_2.
  - intros x Hx Hn. apply Hn. by apply list_elem_of_fmap_2.
Qed.

(** What pruning would remove: the excess, a batch at most. *)
Definition excess coll max_documents batch_size w : Z :=
  if (max_documents <=? 0)%Z || (batch_size <=? 0)%Z then 0
  else Z.max 0 (Z.min (Z.of_nat (length (docs coll w)) - max_documents) batch_size).

(** The count, the search and the deletion of [n] records succeed. *)
Definition responsive coll (n : nat) w : Prop :=
  is_ok (estimated_document_count coll w) = true
  ∧ ∃ ids, find_oldest coll n w = Ok ids ∧ is_ok (delete_many coll ids w).1 = true.

(** Pruning keeps the newest records.  Whatever fails, it raises nothing
    and removes nothing or exactly the excess over the cap, a batch at most, and
    nothing it removes is more recent than anything it keeps; when MongoDB
    responds, the excess is removed.  A cap of zero disables it.  The count
    MongoDB keeps is taken to be exact. *)
Theorem prune_spec coll max_documents batch_size w :
  (∀ n, estimated_document_count coll w = Ok n → n = Z.of_nat (length (docs coll w))) →
  let n := excess coll max_documents batch_size w in
  ∃ w' gone, _prune_collection_by_count coll max_documents batch_size w = (Ok tt, w')
    ∧ inserted w' = inserted w
    ∧ docs coll w ≡ₚ gone ++ docs coll w'
    ∧ (∀ x y, x ∈ gone → y ∈ docs coll w' → (x.2 ≤ y.2)%Z)
    ∧ (gone = [] ∨ Z.of_nat (length gone) = n)
    ∧ (responsive coll (Z.to_nat n) w → Z.of_nat (length gone) = n).
Proof.
  intros Hcount n. unfold _prune_collection_by_count. unfold excess in n.
  assert (∀ w', inserted w' = inserted w → docs coll w' = docs coll w →
    (responsive coll (Z.to_nat n) w → n = 0%Z) →
    ∃ w1 gone, ((Ok tt : res unit), w') = (Ok tt, w1) ∧ inserted w1 = inserted w
    ∧ docs coll w ≡ₚ gone ++ docs coll w1
    ∧ (∀ x y, x ∈ gone → y ∈ docs coll w1 → (x.2 ≤ y.2)%Z)
    ∧ (gone = [] ∨ Z.of_nat (length gone) = n)
    ∧ (responsive coll (Z.to_nat n) w → Z.of_nat (length gone) = n)) as Hnone.
  { intros w' Hi Hd Hr. exists w', []. rewrite Hd. split_and!; auto; [set_solver|].
    intros Hrn. by rewrite (Hr Hrn). }
  destruct ((max_documents <=? 0)%Z || (batch_size <=? 0)%Z) eqn:Eb; [by apply Hnone|].
  apply orb_false_iff in Eb as [Em%Z.leb_gt Eb%Z.leb_gt].
  pose proof (count_err coll w) as Hce.
  destruct (estimated_document_count coll w) as [m|e] eqn:Ec.
  2:{ rewrite (Hce e) by done. apply Hnone; [done..|]. unfold responsive. by rewrite Ec; intros []. }
  rewrite (Hcount m) by done. set (len := length (docs coll w)) in *.
  destruct (Z.of_nat len - max_documents <=? 0)%Z eqn:Eo.
  { apply Z.leb_le in Eo. apply Hnone; [done..|]. intros _. unfold n. lia. }
  apply Z.leb_gt in Eo. replace n with (Z.min (Z.of_nat len - max_documents) batch_size) in * by lia.
  clear n. set (k := Z.min (Z.of_nat len - max_documents) batch_size) in *.
  unfold try_mongo, mbind, M_bind.
  pose proof (find_oldest_ok coll (Z.to_nat k) w) as Hfo.
  pose proof (find_err coll (Z.to_nat k) w) as Hfe.
  destruct (find_oldest coll (Z.to_nat k) w) as [ids|e] eqn:Ef.
  2:{ rewrite (Hfe e) by done. apply Hnone; [done..|]. intros (_ & ids & Hids & _). congruence. }
  destruct (Hfo ids eq_refl) as (l & Hl & Hs & Hids).
  assert (length l = len) as Hlen by (by rewrite Hl).
  assert (length ids = Z.to_nat k) as Hik by (rewrite Hids, length_fmap, length_take; lia).
  destruct ids as [|i ids]; [simpl in Hik; lia|].
  pose proof (delete_ok coll (i :: ids) w) as Hdo. pose proof (delete_err coll (i :: ids) w) as Hde.
  destruct (delete_many coll (i :: ids) w) as [[d|e] w'] eqn:Ed.
  2:{ destruct (Hde _ _ eq_refl) as (? & ? & ->). apply Hnone; [done..|].
      intros (_ & ids' & Hids' & Hok). rewrite Ef in Hids'. injection Hids' as <-. by rewrite Ed in Hok. }
  destruct (Hdo _ _ eq_refl) as [Hd Hi]. exists w', (take (Z.to_nat k) l).
  assert (NoDup l.*1) as Hnd by (rewrite Hl; apply ids_unique).
  assert (docs coll w' ≡ₚ drop (Z.to_nat k) l) as Hkeep by (by rewrite Hd, Hids, <-Hl, filter_oldest).
  assert (Z.of_nat (length (take (Z.to_nat k) l)) = k) as Hlk by (rewrite length_take; lia).
  split_and!; [done|done| | |by right|done].
  - by rewrite Hkeep, take_drop.
  - intros x y Hx Hy. rewrite Hkeep in Hy. rewrite <-(take_drop (Z.to_nat k) l) in Hs.
    by eapply (StronglySorted_app_1_elem_of (λ x y, (x.2 ≤ y.2)%Z)) in Hs.
Qed.

(** Pruning inserts nothing. *)
Lemma prune_inserted coll max_documents batch_size w :
  inserted (_prune_collection_by_count coll max_documents batch_size w).2 = inserted w.
Proof.
  unfold _prune_collection_by_count. case_match; [done|]. case_match; [|by case_match].
  case_match; [done|]. unfold try_mongo, mbind, M_bind.
  destruct (find_oldest _ _ w) as [[|i ids]|e]; [done| |by case_match].
  pose proof (delete_ok coll (i :: ids) w) as Hdo. pose proof (delete_err coll (i :: ids) w) as Hde.
  destruct (delete_many coll (i :: ids) w) as [[d|e] w'].
  - by apply (Hdo _ _ eq_refl).
  - destruct (Hde _ _ eq_refl) as (_ & ? & ->). done.
Qed.

Lemma write_inserted doc coll w :
  inserted (_write_to_mongo mg doc coll w).2 = inserted w
  ∨ inserted (_write_to_mongo mg doc coll w).2
    = inserted w ++ [(if str_truthy coll then default "" coll else mg_collection mg, doc)].
Proof.
  unfold _write_to_mongo, mbind, M_bind. set (name := if str_truthy coll then _ else _).
  pose proof (insert_ok name doc w) as Hok. pose proof (insert_err name doc w) as Herr.
  destruct (insert_one name doc w) as [[u|e] w1].
  - right. case_match; [rewrite prune_inserted|]; by apply (Hok u).
  - left. by apply (Herr e).
Qed.

(** A document holds no value under a sensitive key in what it copies from the
    job: its result and its request. *)
Definition doc_masked (doc : list (string * pyval)) : Prop :=
  ∀ k v, k ∈ ["result"; "request"; "metadata"] → dict_get k doc = Some v → secure v = true.

(** What the archiver writes about a job is at most one document, of the
    job asked for, in the audit collection, with nothing unmasked under a
    sensitive key in its result and its request; it holds the result only in
    full mode, and a request that asked for no audit leaves no trace. *)
Theorem process_audit_masked id result mode w :
  let w' := (process_audit_log mg status_str id result mode w).2 in
  inserted w' = inserted w
  ∨ ∃ job t m, job_fetch id w = Some job
      ∧ m = match mode with Some m => m | None => _get_job_audit_mode job end
      ∧ m ≠ audit_none
      ∧ inserted w' = inserted w ++ [(mg_collection mg, audit_doc status_str job result m t)]
      ∧ doc_masked (audit_doc status_str job result m t)
      ∧ (m = audit_metadata → dict_get "result" (audit_doc status_str job result m t) = None).
Proof.
  intros w'. subst w'. unfold process_audit_log, mbind, M_bind, reads.
  destruct (job_fetch id w) as [job|]; [|by left].
  set (m := match mode with Some m => m | None => _ end). unfold mret, M_ret.
  assert (∀ m t, doc_masked (audit_doc status_str job result m t)) as Hmask.
  { intros m' t k v Hk. unfold audit_doc. rewrite !dict_get_app.
    apply elem_of_cons in Hk as [->|[->|[->|[]%elem_of_nil]%elem_of_cons]%elem_of_cons];
      destruct m', (job_meta job), (job_kwargs job); try done;
      intros [= <-]; first [apply mask_secure|apply (mask_secure (PDict _))]. }
  destruct (decide (m = audit_none)) as [->|Hne]; [by left|].
  destruct (write_inserted (audit_doc status_str job result m (now w)) None w) as [Hi|Hi].
  - left. destruct m; done.
  - right. exists job, (now w), m. split_and!; try done.
    + destruct m; done.
    + intros ->. unfold audit_doc. rewrite !dict_get_app.
      by destruct (job_meta job), (job_kwargs job).
Qed.
End archiver_theorems.

(** ** A concrete MongoDB for the examples: the documents of one collection *)
Module ToyMongo.
Definition world : Type := gmap string Z * list (string * list (string * pyval)).

Definition older (x y : string * Z) : bool := (x.2 <=? y.2)%Z.

#[global, refine] Instance toy_mongo : Mongo world :=
  {| docs coll w := map_to_list w.1; inserted w := w.2; is_pymongo_error e := true;
     insert_one coll d w := (Ok tt, (w.1, w.2 ++ [(coll, d)]));
     estimated_document_count coll w := Ok (Z.of_nat (length (map_to_list w.1)));
     find_oldest coll n w := Ok (take n (sort_by older (map_to_list w.1))).*1;
     delete_many coll ids w :=
       (Ok (Z.of_nat (length ids)), (filter (λ d, d.1 ∉ ids) w.1, w.2)) |}.
Proof.
  all: try done.
  - by intros coll d w u w' [= _ <-].
  - intros coll n w ids [= <-]. exists (sort_by older (map_to_list w.1)).
    split_and!; [apply sort_by_perm| |done].
    assert (∀ l, StronglySorted (λ x y, older x y = true) l →
      StronglySorted (λ x y : string * Z, (x.2 ≤ y.2)%Z) l) as Himpl.
    { induction 1 as [|x l _ IH Hx]; constructor; [done|].
      eapply Forall_impl; [exact Hx|]. intros y Hy. by apply Z.leb_le. }
    apply Himpl, sort_by_sorted; unfold older.
    + intros x y. rewrite !Z.leb_le. lia.
    + intros x y z. rewrite !Z.leb_le. lia.
  - intros coll w. apply NoDup_fst_map_to_list.
  - intros coll ids w k w' [= _ <-]. split; [|done]. simpl.
    apply NoDup_Permutation; [apply NoDup_map_to_list|apply NoDup_filter, NoDup_map_to_list|].
    intros [i t]. rewrite list_elem_of_filter, !elem_of_map_to_list, map_lookup_filter_Some.
    naive_solver.
Defined.

Definition three : world := ({["a" := 3%Z]} ∪ {["b" := 1%Z]} ∪ {["c" := 2%Z]}, []).
End ToyMongo.

Lemma prune_spec_witness :
  ∃ w', _prune_collection_by_count "audit_jobs" 2 1000 ToyMongo.three = (Ok tt, w')
    ∧ length (docs "audit_jobs" w') = 2.
Proof.
  destruct (prune_spec "audit_jobs" 2 1000 ToyMongo.three) as (w' & gone & Hr & _ & Hp & _ & _ & Hg).
  - intros n Hn. injection Hn as <-. reflexivity.
  - exists w'. split; [exact Hr|]. apply Permutation_length in Hp. rewrite length_app in Hp.
    assert (length (docs "audit_jobs" ToyMongo.three) = 3) as H3 by (vm_compute; reflexivity).
    assert (Z.of_nat (length gone) = 1%Z) as H1.
    { rewrite Hg; [vm_compute; reflexivity|]. split; [reflexivity|]. eexists. split; reflexivity. }
    rewrite H3 in Hp. lia.
Defined.
