(* ===== verification/Webhook.v ===== *)
(** * Webhooks

    The interface of a webhook plugin ([BaseWebHookCaller]) and the bundled
    plugin, [linux_net/plugins/webhooks/basic/__init__.py].  The text form of
    dates is not modelled: a payload holds instants. *)

From S2P Require Import Prelude PyLib Models World AuditLog.

(** ** The interface *)

(** What a delivery is about: the request, the job as the API shows it, the raw
    result, and the event. *)
Inductive raw_result :=
  | RawReturn (ret : option (list DriverExecutionResult))
  | RawError (err : string * string)
  | RawUnknown.

Record Delivery := mkDelivery {
  dl_req : ExecutionRequest;
  dl_job : JobInResponse;
  dl_result : raw_result;
  dl_is_success : bool;
  dl_event_type : option string;
}.

Definition body : Type := list (string * pyval).

Record WebHookCaller (W : Type) := mkCaller {
  wc_call : Delivery → M W unit;
  wc_build_payload : Delivery → M W body;
}.
Arguments mkCaller {W} _ _.
Arguments wc_call {W} _ _.
Arguments wc_build_payload {W} _ _.

(** [webhooks[name]], the plugins by name *)
Class Webhooks (W : Type) := webhooks : string → option (WebHook → WebHookCaller W).

(** A step that touches no hash and queues and schedules nothing. *)
Definition aside {W} `{Redis W} `{!Rq W} (w w' : W) : Prop :=
  (∀ k, hashes w' k = hashes w k) ∧ queued w' = queued w ∧ scheduled w' = scheduled w.

#[export] Instance aside_preorder {W} `{Redis W} `{!Rq W} : PreOrder (@aside W _ _).
Proof.
  split; [done|]. intros w1 w2 w3 (Hh1 & ? & ?) (Hh2 & ? & ?).
  split_and!; [intros k; by rewrite Hh2|congruence..].
Qed.

(** What the callback relies on: a plugin raises ordinary exceptions only, and
    works through the network only. *)
Class WebhookLaws (W : Type) `{Redis W} `{!Rq W} `{!Webhooks W} : Prop := {
  call_safe : ∀ name mk hook d, webhooks name = Some mk → safe (wc_call (mk hook) d);
  build_safe : ∀ name mk hook d, webhooks name = Some mk → safe (wc_build_payload (mk hook) d);
  call_aside : ∀ name mk hook d w, webhooks name = Some mk → aside w (wc_call (mk hook) d w).2;
  build_aside : ∀ name mk hook d w, webhooks name = Some mk →
    aside w (wc_build_payload (mk hook) d w).2;
}.

(** [requests.request(...)] with the settings of the webhook, and
    [raise_for_status()] *)
Class Http (W : Type) `{Redis W} `{!Rq W} := {
  http_request : WebHook → body → M W unit;
  http_safe : ∀ hook b, safe (http_request hook b);
  http_aside : ∀ hook b w, aside w (http_request hook b w).2;
}.
#[export] Hint Resolve http_safe : linux_net.

(** ** The bundled plugin *)
Definition RESULT_TYPE_NAMES : list (Z * string) :=
  [(1%Z, "successful"); (2%Z, "failed"); (3%Z, "stopped"); (4%Z, "retried")].

Definition results_val (l : list DriverExecutionResult) : pyval :=
  PList ((λ r, PDict (DriverExecutionResult_dump r)) <$> l).

Definition error_val (e : string * string) : pyval :=
  PDict [("type", PStr e.1); ("message", PStr e.2)].

(** [_build_result] *)
Definition _build_result (job : JobInResponse) (result : raw_result) (is_success : bool) : body :=
  match ji_result job with
  | Some r =>
      [("type", PStr (default (str_of_Z (jr_type r)) (dict_get (jr_type r) RESULT_TYPE_NAMES)));
       ("retval", from_option results_val PNone (jr_retval r));
       ("error", from_option error_val PNone (jr_error r))]
  | None =>
      match result with
      | RawError e => [("type", PStr "failed"); ("retval", PNone); ("error", error_val e)]
      | _ => [("type", PStr (if is_success then "successful" else "failed"));
              ("retval", match result with
                         | RawReturn (Some l) => results_val l
                         | RawReturn None => PNone
                         | _ => PStr "Unknown Error"
                         end);
              ("error", PNone)]
      end
  end.

(** [_build_device_info]: no credentials *)
Definition _build_device_info (req : ExecutionRequest) : pyval :=
  let a := er_connection_args req in
  let info := (if str_truthy (dc_host a) then [("host", opt_str (dc_host a))] else [])
    ++ (if str_truthy (dc_device_type a) then [("device_type", opt_str (dc_device_type a))] else []) in
  match info with [] => PNone | _ => PDict info end.

Definition event_of (d : Delivery) : string :=
  if str_truthy (dl_event_type d) then default "" (dl_event_type d)
  else if dl_is_success d then "job.completed" else "job.failed".

Definition payload_at (d : Delivery) (t : Z) : body :=
  let job := dl_job d in
  [("id", PStr (ji_id job)); ("status", PStr (ji_status job)); ("event_type", PStr (event_of d));
   ("final", PBool (negb (String.eqb (event_of d) "detached.log_push")));
   ("timestamp", PInt t); ("started_at", opt_int (ji_started_at job));
   ("ended_at", opt_int (ji_ended_at job));
   ("duration", from_option PFloat PNone (JobInResponse.duration job));
   ("result", PDict (_build_result job (dl_result d) (dl_is_success d)));
   ("device", _build_device_info (dl_req d)); ("task_id", opt_str (ji_task_id job));
   ("device_name", opt_str (ji_device_name job)); ("command", opt_strs (ji_command job))].

Lemma build_result_type job result is_success : ∃ t,
  dict_get "type" (_build_result job result is_success) = Some (PStr t)
  ∧ (ji_result job = None →
     t = if is_success then match result with RawError _ => "failed" | _ => "successful" end
         else "failed").
Proof.
  unfold _build_result. destruct (ji_result job); [by eexists|].
  destruct result, is_success; eexists; (split; [reflexivity|done]).
Qed.

Section basic.
Context {W : Type} `{Redis W} `{!Rq W} `{!Clock W} `{!Http W}.

Definition build_payload (d : Delivery) : M W body := t ← reads now; mret (payload_at d t).

Definition call (hook : WebHook) (d : Delivery) : M W unit :=
  data ← build_payload d; http_request hook data.

Definition BasicWebHookCaller (hook : WebHook) : WebHookCaller W :=
  mkCaller (call hook) build_payload.

(** The plugins the repository bundles *)
Definition bundled_webhooks : Webhooks W :=
  λ name, if String.eqb name "basic" then Some BasicWebHookCaller else None.

Lemma bundled_webhook_laws : @WebhookLaws W _ _ bundled_webhooks.
Proof.
  assert (∀ name mk, bundled_webhooks name = Some mk → mk = BasicWebHookCaller) as Hmk.
  { intros name mk. unfold bundled_webhooks. case_match; congruence. }
  split; intros name mk hook d; [| |intros w..]; intros ->%Hmk; simpl.
  - unfold call, build_payload. auto with linux_net.
  - unfold build_payload. auto with linux_net.
  - apply http_aside.
  - done.
Qed.

(** The bundled webhook makes exactly one request, whose body names the job,
    its status and the event, is final unless the event is an incremental log
    push, gives the type of the result in words, and says of the device nothing
    but its host and type: no credential of the request goes out with it. *)
Theorem basic_webhook_spec hook d w :
  ∃ b, wc_call (BasicWebHookCaller hook) d w = http_request hook b w
    ∧ wc_build_payload (BasicWebHookCaller hook) d w = (Ok b, w)
    ∧ dict_get "id" b = Some (PStr (ji_id (dl_job d)))
    ∧ dict_get "event_type" b = Some (PStr (event_of d))
    ∧ dict_get "final" b = Some (PBool (bool_decide (event_of d ≠ "detached.log_push")))
    ∧ (∃ r t, dict_get "result" b = Some (PDict r) ∧ dict_get "type" r = Some (PStr t)
         ∧ (ji_result (dl_job d) = None →
            t = if dl_is_success d
                then match dl_result d with RawError _ => "failed" | _ => "successful" end
                else "failed"))
    ∧ (dict_get "device" b = Some PNone
       ∨ ∃ i, dict_get "device" b = Some (PDict i) ∧ i.*1 ⊆ ["host"; "device_type"]).
Proof.
  exists (payload_at d (now w)). split_and!; try done.
  - cbn [dict_get payload_at]. rewrite decide_False, decide_False, decide_False, decide_True by done.
    do 3 f_equal. destruct (String.eqb_spec (event_of d) "detached.log_push") as [->|?]; [done|].
    by rewrite bool_decide_eq_true_2.
  - destruct (build_result_type (dl_job d) (dl_result d) (dl_is_success d)) as (t & ? & ?).
    by eexists _, t.
  - change (dict_get "device" (payload_at d (now w))) with (Some (_build_device_info (dl_req d))).
    unfold _build_device_info.
    destruct (str_truthy (dc_host _)), (str_truthy (dc_device_type _)); cbn [app];
      try (by left); right; (eexists; split; [reflexivity|]); set_solver.
Qed.
End basic.
