(* ===== verification/Rpc.v ===== *)
(** * The functions workers run

    [linux_net/services/rpc.py]: executing a request on a device through a
    driver plugin, managing a detached task, and the callbacks that run when a
    job ends.  The interface of a driver is [BaseDriver]
    ([linux_net/plugins/drivers/__init__.py]). *)

From S2P Require Import Prelude PyLib Models World Registry Manager Storage AuditLog Webhook.

(** ** The interfaces *)

(** [drivers[name]]: [from_execution_request] and the methods of [BaseDriver] *)
Class Drivers (W : Type) := {
  DriverObject : Type;
  Session : Type;
  drivers_has : DriverName → bool;
  from_execution_request : ExecutionRequest → M W DriverObject;
  connect : DriverObject → M W Session;
  send : DriverObject → Session → list string → M W (list DriverExecutionResult);
  send_config : DriverObject → Session → list string → M W (list DriverExecutionResult);
  launch_detached : DriverObject → Session → string → string → M W (list DriverExecutionResult);
  _read_logs : DriverObject → Session → string → pyval → M W (list DriverExecutionResult);
  kill_task : DriverObject → Session → string → M W (list DriverExecutionResult);
  disconnect : DriverObject → Session → M W unit;
}.

(** What may become of the state while a device answers: [others w w'] is what
    the device, the disks and the other processes do meanwhile.  It is any
    preorder the calls of the libraries stay within. *)
Class Others (W : Type) := {
  others : relation W;
  others_order :: PreOrder others;
}.

(** For one, nothing becomes of Redis. *)
Lemma same_hashes_order {W} `{Redis W} : PreOrder (λ w w' : W, ∀ k, hashes w' k = hashes w k).
Proof. split; [done|]. intros w1 w2 w3 H1 H2 k. by rewrite H2. Qed.

(** A call of a driver: it ends, raises ordinary exceptions only, and does
    nothing to the state beyond what [others] may do. *)
Definition driver_call {W A} `{Others W} (m : M W A) : Prop :=
  safe m ∧ ∀ w, others w (m w).2.

(** The other processes change the registry of detached tasks through
    [register] and [unregister] only. *)
Class OthersLaws (W : Type) `{Json} `{Redis W} `{Others W} : Prop :=
  others_registry : ∀ w w', others w w' → registry_ok w → registry_ok w'.

(** What the callers rely on. *)
Class DriverLaws (W : Type) `{Json} `{Redis W} `{Others W} `{D : Drivers W} : Prop := {
  others_laws :: OthersLaws W;
  from_request_call : ∀ r, driver_call (from_execution_request r);
  connect_call : ∀ d, driver_call (connect d);
  send_call : ∀ d s p, driver_call (send d s p);
  send_config_call : ∀ d s p, driver_call (send_config d s p);
  launch_call : ∀ d s cmd t, driver_call (launch_detached d s cmd t);
  read_logs_call : ∀ d s t o, driver_call (_read_logs d s t o);
  kill_call : ∀ d s t, driver_call (kill_task d s t);
  disconnect_call : ∀ d s, driver_call (disconnect d s);
}.
#[export] Hint Extern 1 (driver_call _) =>
  first [ apply from_request_call | apply connect_call | apply send_call | apply send_config_call
        | apply launch_call | apply read_logs_call | apply kill_call | apply disconnect_call ] : linux_net.

Lemma call_registry {W A} `{OthersLaws W} (m : M W A) w : driver_call m → registry_ok w → registry_ok (m w).2.
Proof. intros [_ Hm]. by apply others_registry. Qed.

(** [renderers[req.name]] of a request with a template source, on a context;
    and [parsers[req.name]] of a parsing request: an object, which a text it
    parses may change *)
Class Templates := {
  Parser : Type;
  render : TemplateRenderRequest → string → list (string * pyval) → res string;
  parser : TemplateParseRequest → res Parser;
  parse : Parser → pyval → res (pyval * Parser);
  render_ordinary : ∀ r source context, ordinary (render r source context);
  parser_ordinary : ∀ r, ordinary (parser r);
  parse_ordinary : ∀ p v, ordinary (parse p v);
}.
#[export] Hint Resolve render_ordinary parser_ordinary parse_ordinary : linux_net.

(** [get_current_job()], which is the same while a job runs *)
Class CurrentJob := get_current_job : option Job.

(** ** Preparing a request *)

(** The assignments to the request's attributes. *)
Definition assign_req (cfg cmd : option payload) (args : option (list (string * pyval)))
    (ft : option FileTransferModel) (rd : option TemplateRenderRequest) (id : option string)
    (r : ExecutionRequest) : ExecutionRequest :=
  mkExecutionRequest (er_driver r) args (er_connection_args r) (er_credential r) cfg cmd ft rd
    (er_parsing r) (er_queue_strategy r) (er_ttl r) (er_execution_timeout r) (er_result_ttl r)
    (er_audit_mode r) (er_webhook r) (er_detach r) (er_push_interval r) (er_staged_file_id r) id (er_extra r).

Definition has_command (r : ExecutionRequest) : bool :=
  is_some (er_command r) || is_some (er_file_transfer r).

(** [req.command = p] when there is a command, else [req.config = p] *)
Definition set_payload (has_cmd : bool) (p : payload) (r : ExecutionRequest) : ExecutionRequest :=
  if has_cmd
  then assign_req (er_config r) (Some p) (er_driver_args r) (er_file_transfer r) (er_rendering r) (er_id r) r
  else assign_req (Some p) (er_command r) (er_driver_args r) (er_file_transfer r) (er_rendering r) (er_id r) r.

Definition set_id (i : string) (r : ExecutionRequest) : ExecutionRequest :=
  assign_req (er_config r) (er_command r) (er_driver_args r) (er_file_transfer r) (er_rendering r) (Some i) r.

Definition ft_set_paths (remote : string) (local : option string) (f : FileTransferModel)
    : FileTransferModel :=
  mkFileTransfer (ft_operation f) remote local (ft_overwrite f) (ft_resume f) (ft_recursive f)
    (ft_sync_mode f) (ft_chunk_size f) (ft_chmod f) (ft_execute_after_upload f)
    (ft_execute_command f) (ft_cleanup_after_exec f).

(** [getattr(req.driver_args, "script_content", None)] *)
Definition script_content (r : ExecutionRequest) : pyval :=
  from_option (dict_get_or "script_content" PNone) PNone (er_driver_args r).

Section prepare.
Context `{Templates}.

Definition render_payload (source : option string) (has_cmd : bool) (rd : TemplateRenderRequest)
    (context : list (string * pyval)) (p : option payload) (req : ExecutionRequest)
    : res (option payload * ExecutionRequest) :=
  match source with
  | None => Ok (p, req)
  | Some t => s ← render rd t context; Ok (Some (PayStr s), set_payload has_cmd (PayStr s) req)
  end.

Definition render_script (rd : TemplateRenderRequest) (context : list (string * pyval))
    (req : ExecutionRequest) : res (option (list (string * pyval))) :=
  match er_driver_args req, script_content req with
  | Some args, PStr s =>
      if String.eqb s "" then Ok (Some args)
      else s' ← render rd s context; Ok (Some (dict_set "script_content" (PStr s') args))
  | args, _ => Ok args
  end.

Definition render_paths (rd : TemplateRenderRequest) (context : list (string * pyval))
    (ft : option FileTransferModel) : res (option FileTransferModel) :=
  match ft with
  | None => Ok None
  | Some f =>
      remote ← render rd (ft_remote_path f) context;
      local ← match ft_local_path f with
              | None => Ok None
              | Some l => l' ← render rd l context; Ok (Some l')
              end;
      Ok (Some (ft_set_paths remote local f))
  end.

(** The source of the template: the request's, else a textual payload. *)
Definition template_source (rd : TemplateRenderRequest) (p : option payload) : option string :=
  match p with
  | Some (PayDict _) => tr_template rd
  | _ =>
      match tr_template rd with
      | Some t => Some t
      | None => match p with
                | Some (PayList l) => Some (join nl l)
                | Some (PayStr s) => Some s
                | _ => None
                end
      end
  end.

(** "Render before execution if specified" *)
Definition render_request (p : option payload) (req : ExecutionRequest)
    : res (option payload * ExecutionRequest) :=
  match er_rendering req with
  | None => Ok (p, req)
  | Some rd =>
      let context := default [] (tr_context rd) in
      let context := match p with Some (PayDict d) => dict_update context d | _ => context end in
      let source := template_source rd p in
      if negb (is_some source) && negb (is_some (er_file_transfer req))
         && negb (truthy (script_content req))
      then Err (ValueError "Template source is required for rendering.")
      else
        '(p, req) ← render_payload source (has_command req) rd context p req;
        args ← render_script rd context req;
        ft ← render_paths rd context (er_file_transfer req);
        Ok (p, assign_req (er_config req) (er_command req) args ft None (er_id req) req)
  end.

Definition normalise (p : option payload) : res (list string) :=
  match p with
  | None => Ok []
  | Some (PayStr s) => Ok [s]
  | Some (PayList l) => Ok l
  | Some (PayDict _) => Err (AssertionError "Config/command must be str/list[str] after rendering.")
  end.

(** The request as the driver sees it, but for its id, and its payload *)
Definition prepare (req : ExecutionRequest) : res (list string * ExecutionRequest) :=
  let p := match er_config req with Some c => Some c | None => er_command req end in
  '(p, req') ← render_request p req;
  l ← normalise p;
  Ok (l, set_payload (has_command req) (PayList l) req').
End prepare.

(** ** Execution *)
Section execute.
Context {W : Type} `{Json} `{Redis W} `{!Rq W} `{!Clock W} `{!Trace W} `{!Drivers W} `{!CurrentJob}.
Context `{Templates}.
Context (c : Config).

(** [session = dobj.connect() ... finally: disconnect], whose exceptions are
    dropped *)
Definition with_session {A} (dobj : DriverObject) (f : Session → M W A) : M W A :=
  session ← connect dobj;
  try_finally (f session) (try_except (disconnect dobj session) (λ _, mret tt)).

(** The task id of the job's metadata, else a new one *)
Definition task_id_for (job : option Job) : M W string :=
  match (job ≫= λ j, dict_get "task_id" (job_meta j)) with
  | Some (PStr t) => if String.eqb t "" then u ← update uuid4_str; mret (String.substring 0 12 u)
                     else mret t
  | _ => u ← update uuid4_str; mret (String.substring 0 12 u)
  end.

Definition launched_running (result : list DriverExecutionResult) : bool :=
  match filter (λ r, r_command r = "launch") result with
  | r :: _ => truthy (dict_get_or "is_running" (PBool true) (r_metadata r))
  | [] => true
  end.

Definition running_meta (task_id : string) (req : ExecutionRequest) (is_running : bool) (t1 t2 : Z)
    : metadata :=
  [("task_id", PStr task_id); ("command", from_option payload_val PNone (er_command req));
   ("host", opt_str (dc_host (er_connection_args req)));
   ("driver", PStr (driver_value (er_driver req))); ("worker_id", PNone);
   ("push_interval", opt_int (er_push_interval req)); ("webhook", webhook_val (er_webhook req));
   ("connection_args", PDict (DriverConnectionArgs_dump (er_connection_args req)));
   ("last_sync", PFloat t1); ("created_at", PFloat t2);
   ("status", PStr (if is_running then "running" else "completed"))].

(** "Detached lifecycle" *)
Definition launch (dobj : DriverObject) (session : Session) (req : ExecutionRequest)
    (p : list string) : M W (list DriverExecutionResult) :=
  let job := get_current_job in
  task_id ← task_id_for job;
  result ← launch_detached dobj session (default "" (head p)) task_id;
  t1 ← reads now;
  t2 ← reads now;
  register c task_id (running_meta task_id req (launched_running result) t1 t2) (job_id <$> job) ≫= λ _,
  mret result.

(** [not req.config] *)
Definition no_config (r : ExecutionRequest) : bool :=
  match er_config r with
  | None => true
  | Some (PayList []) | Some (PayDict []) => true
  | Some (PayStr s) => String.eqb s ""
  | Some _ => false
  end.

(** What [execute] does on a session: the result, and whether it is returned as
    it is. *)
Definition on_session (has_cmd : bool) (dobj : DriverObject) (req : ExecutionRequest)
    (p : list string) (session : Session) : M W (bool * list DriverExecutionResult) :=
  if er_detach req && no_config req then
    r ← launch dobj session req p; mret (true, r)
  else if has_cmd then r ← send dobj session p; mret (false, r)
  else r ← send_config dobj session p; mret (false, r).

Definition failure_result (p : list string) (e : exn) : DriverExecutionResult :=
  mkResult (join nl p) (PStr "") (exn_str e) 1 None [("duration_seconds", PFloat 0)] PNone.

Definition set_parsed (v : pyval) (r : DriverExecutionResult) : DriverExecutionResult :=
  mkResult (r_command r) (r_stdout r) (r_stderr r) (r_exit_status r) (r_download_url r)
    (r_metadata r) v.

Fixpoint parse_all (p : Parser) (result : list DriverExecutionResult) : res (list DriverExecutionResult) :=
  match result with
  | [] => Ok []
  | r :: result =>
      '(v, p) ← parse p (r_stdout r);
      rest ← parse_all p result;
      Ok (set_parsed v r :: rest)
  end.

Definition parse_results (req : ExecutionRequest) (result : list DriverExecutionResult)
    : res (list DriverExecutionResult) :=
  match er_parsing req with
  | None => Ok result
  | Some pr =>
      p ← parser pr;
      parse_all p result
  end.

(** "Pass Job ID to request for driver use" *)
Definition execution_id : M W string :=
  match get_current_job with Some j => mret (job_id j) | None => update uuid4_str end.

Definition execute (req : ExecutionRequest) : M W (list DriverExecutionResult) :=
  if negb (drivers_has (er_driver req)) then
    raise (NotImplementedError ("Unknown 'driver' " +:+ driver_value (er_driver req)))
  else
    let has_cmd := has_command req in
    '(p, req) ← of_res (prepare req);
    i ← execution_id;
    let req := set_id i req in
    dobj ← from_execution_request req;
    r ← try_except (with_session dobj (on_session has_cmd dobj req p))
          (λ e, mret (true, [failure_result p e]));
    if r.1 : bool then mret r.2 else of_res (parse_results req r.2).

(** ** Management of detached tasks *)
Definition driver_of (s : string) : option DriverName :=
  if String.eqb s "napalm" then Some NAPALM else if String.eqb s "netmiko" then Some NETMIKO
  else if String.eqb s "paramiko" then Some PARAMIKO else if String.eqb s "pyeapi" then Some PYEAPI
  else None.

(** The request that stands for a task: its driver and connection *)
Definition meta_request (m : metadata) : res ExecutionRequest :=
  match dict_get "driver" m with
  | None => Err (KeyError "driver")
  | Some d =>
      match dict_get "connection_args" m with
      | None => Err (KeyError "connection_args")
      | Some a =>
          driver ← match d with
                   | PStr s => match driver_of s with Some d => Ok d | None => Err (ValidationError "driver") end
                   | _ => Err (ValidationError "driver")
                   end;
          args ← match a with
                 | PDict a => DriverConnectionArgs_validate a
                 | _ => Err (ValidationError "connection_args")
                 end;
          ExecutionRequest.model_validate
            (mkExecutionRequest driver None args None None (Some (PayStr "")) None None None
               (Some FIFO) (Some 300%Z) None None audit_full None false None None None [])
      end
  end.

(** The offset to read from: the caller's, else where the last read ended *)
Definition query_offset (m : metadata) (params : option (option Z)) : pyval :=
  match params with
  | Some (Some o) => PInt o
  | _ => dict_get_or "last_offset" (PInt 0) m
  end.

(** The entry after a read *)
Definition read_meta (m : metadata) (offset : pyval) (results : list DriverExecutionResult) : metadata :=
  match results with
  | r :: _ =>
      dict_set "status"
        (PStr (if truthy (dict_get_or "is_running" PNone (r_metadata r)) then "running" else "completed"))
        (dict_set "last_offset" (dict_get_or "next_offset" offset (r_metadata r)) m)
  | [] => dict_set "status" (PStr "completed") m
  end.

Definition query_task (task_id : string) (m : metadata) (params : option (option Z))
    (dobj : DriverObject) (session : Session) : M W (list DriverExecutionResult) :=
  let offset := query_offset m params in
  results ← _read_logs dobj session task_id offset;
  let m := read_meta m offset results in
  still ← (λ w, (get task_id w, w));
  (match still with
   | None => mret tt
   | Some _ => t ← reads now; register c task_id (dict_set "last_sync" (PFloat t) m) None
   end) ≫= λ _,
  mret results.

Definition manage_detached_task (task_id action : string) (params : option (option Z))
    : M W (list DriverExecutionResult) :=
  m ← (λ w, (get task_id w, w));
  match m with
  | None | Some [] => raise (ValueError ("Task " +:+ task_id +:+ " not found in registry"))
  | Some m =>
      if String.eqb action "query" && status_is "completed" m then mret []
      else
        req ← of_res (meta_request m);
        if negb (drivers_has (er_driver req)) then raise (KeyError (driver_value (er_driver req)))
        else
          dobj ← from_execution_request req;
          with_session dobj (λ session,
            if String.eqb action "query" then query_task task_id m params dobj session
            else if String.eqb action "kill" then kill_task dobj session task_id
            else raise (ValueError ("Unknown management action: " +:+ action)))
  end.
End execute.

(** ** Callbacks *)
Section callbacks.
Context {W : Type} `{Json} `{Redis W} `{!Rq W} `{!Clock W} `{!Files W} `{!Http W} `{!Webhooks W}
  `{!CurrentJob} `{!RequestJson}.
Context (c : Config) (cwd : string) (gethostname : res string).

Definition job_request (job : Job) : option ExecutionRequest :=
  match job_kwargs job with kw_req req => Some req | _ => None end.

Definition rpc_cleanup_handler (job : Job) : M W unit := λ w,
  match job_request job ≫= er_staged_file_id with
  | Some f => if negb (String.eqb f "") && path_exists f w
              then try_except (os_remove f) (λ _, mret tt) w
              else (Ok tt, w)
  | None => (Ok tt, w)
  end.

Definition set_error (e : exn) (m : JobAdditionalData) : JobAdditionalData :=
  mkJobAdditionalData (Some (exn_name e, exn_str e)) (jd_task_id m) (jd_request_id m)
    (jd_job_trace_id m) (jd_device_name m) (jd_command m).

Definition job_set_meta (m : list (string * pyval)) (j : Job) : Job :=
  mkJob (job_id j) (job_status j) (job_origin j) (job_created_at j) (job_enqueued_at j)
    (job_started_at j) (job_ended_at j) (job_worker_name j) (job_latest_result j) m (job_kwargs j).

(** The metadata with the error, and the job whose metadata it now is *)
Definition rpc_exception_callback (job : Job) (e : exn) : M W (option JobAdditionalData * Job) :=
  match JobAdditionalData_validate (job_meta job) with
  | Err _ => mret (None, job)
  | Ok m =>
      let m := set_error e m in
      let job := job_set_meta (JobAdditionalData_dump m) job in
      writes (job_save_meta (job_id job) (job_meta job)) ≫= λ _,
      rpc_audit_callback c job (Failed e) ≫= λ _,
      mret (Some m, job)
  end.

(** ** Webhook delivery with retries *)
Definition webhook_spec (hook : WebHook) (b : body) (attempt : Z) : JobSpec :=
  plain_spec f_dispatch_webhook (kw_webhook hook b attempt) None None.

(** [intervals[attempt] if attempt < len(intervals) else intervals[-1]] *)
Definition retry_delay (hook : WebHook) (attempt : Z) : res Z :=
  match wh_retry_intervals hook !! Z.to_nat attempt with
  | Some d => Ok d
  | None => match last (wh_retry_intervals hook) with
            | Some d => Ok d
            | None => Err (IndexError "list index out of range")
            end
  end.

Definition dispatch_webhook (hook : WebHook) (b : body) (attempt : Z) : M W unit := λ w,
  match http_request hook b w with
  | (Ok _, w) => (Ok tt, w)
  | (Err e, w) =>
      if is_exception e then
        let next_attempt := (attempt + 1)%Z in
        if (next_attempt <=? wh_max_retries hook)%Z then
          match retry_delay hook attempt with
          | Err e => (Err e, w)
          | Ok delay =>
              match get_current_job with
              | Some _ => (Ok tt, enqueue_in get_fifo_queue_name delay
                                    (webhook_spec hook b next_attempt) w)
              | None => (Ok tt, w)
              end
          end
        else (Ok tt, w)
      else (Err e, w)
  end.

Definition _dispatch_webhook_with_retry (wobj : WebHookCaller W) (hook : WebHook) (d : Delivery)
    : M W unit :=
  try_except (wc_call wobj d) (λ _ w,
    if (wh_max_retries hook =? 0)%Z then (Ok tt, w)
    else
      match wc_build_payload wobj d w with
      | (Err e, w) => if is_exception e then (Ok tt, w) else (Err e, w)
      | (Ok b, w) =>
          (Ok tt, enqueue_in get_fifo_queue_name (default 10%Z (head (wh_retry_intervals hook)))
                    (webhook_spec hook b 1) w)
      end).

(** ** The callback of a finished job *)
Definition raw_of (ret : option (list DriverExecutionResult)) : list DriverExecutionResult := default [] ret.

(** A log push of a task that has ended is its completion. *)
Definition webhook_event (meta : list (string * pyval)) (o : outcome) : pyval :=
  let event_type := dict_get_or "webhook_event_type" (PStr "detached.log_push") meta in
  match o with
  | Succeeded (Some l) =>
      if bool_decide (event_type = PStr "detached.log_push")
         && any (λ r, negb (truthy (dict_get_or "is_running" (PBool true) (r_metadata r)))) l
      then PStr "detached.completed" else event_type
  | _ => event_type
  end.

Definition str_of_val (v : pyval) : option string := match v with PStr s => Some s | _ => None end.

(** [job_resp], with the status the callback knows *)
Definition job_resp (job : Job) (is_success : bool) (id : string) : JobInResponse :=
  let j := JobInResponse.from_job job in
  mkJobInResponse id (if is_success then "finished" else "failed") (ji_queue j) (ji_created_at j)
    (ji_enqueued_at j) (ji_started_at j) (ji_ended_at j) (ji_worker j) (ji_result j) (ji_task_id j)
    (ji_request_id j) (ji_job_trace_id j) (ji_device_name j) (ji_command j).

Definition is_success (o : outcome) : bool :=
  match o with Succeeded _ => true | Failed _ => false end.

(** [not result] of a successful job *)
Definition nothing_returned (o : outcome) : bool :=
  match o with Succeeded None | Succeeded (Some []) => true | _ => false end.

(** The block that calls the webhook; [true] is the callback's early return. *)
Definition webhook_block (job : Job) (req : ExecutionRequest) (hook : WebHook) (raw : raw_result)
    (o : outcome) : M W bool :=
  try_except
    (let meta := job_meta job in
     if er_detach req && negb (dict_has "webhook_event_type" meta) then mret false
     else match webhooks (wh_name hook) with
          | None => raise (KeyError (wh_name hook))
          | Some mk =>
              let wobj := mk hook in
              if er_detach req then
                let task_id := default "" (dict_get "task_id" meta ≫= str_of_val) in
                let resp := job_resp job (is_success o)
                              (if String.eqb task_id "" then job_id job else task_id) in
                task_meta ← (λ w, (if String.eqb task_id "" then Ok None else get task_id w, w));
                match task_meta with
                | None => mret true
                | Some m =>
                    if status_is "completed" m && nothing_returned o then mret true
                    else
                      _dispatch_webhook_with_retry wobj hook
                        (mkDelivery req resp raw (is_success o) (str_of_val (webhook_event meta o)))
                      ≫= λ _, mret false
                end
              else
                _dispatch_webhook_with_retry wobj hook
                  (mkDelivery req (job_resp job (is_success o) (job_id job)) raw (is_success o)
                     (Some (if is_success o then "job.completed" else "job.failed")))
                ≫= λ _, mret false
          end)
    (λ _, mret false).

Definition set_download_url (r : DriverExecutionResult) : DriverExecutionResult :=
  match download_url cwd c gethostname (r_metadata r) with
  | Some u => mkResult (r_command r) (r_stdout r) (r_stderr r) (r_exit_status r) (Some u)
                (r_metadata r) (r_parsed r)
  | None => r
  end.

(** The entry after the registry sync *)
Definition synced (next_offset : pyval) (completed : bool) (t : Z) (m : metadata) : metadata :=
  dict_set "status" (PStr (if completed then "completed" else "running"))
    (dict_set "last_sync" (PFloat t)
       (if bool_decide (next_offset = PNone) then m else dict_set "last_offset" next_offset m)).

(** A field of a hash: redis-py encodes strings and numbers and refuses the
    rest (no task id is a float, whose text is not modelled). *)
Definition redis_field (v : pyval) : res string :=
  match v with
  | PStr s => Ok s
  | PInt z => Ok (str_of_Z z)
  | _ => Err (OtherError "DataError" "Invalid input of type")
  end.

Fixpoint registry_sync (result : list DriverExecutionResult) (jid : string) : M W unit :=
  match result with
  | [] => mret tt
  | val :: result =>
      match dict_get "task_id" (r_metadata val) with
      | Some v =>
          task_id ← of_res (redis_field v);
          let next_offset := dict_get_or "next_offset" PNone (r_metadata val) in
          let completed := truthy (dict_get_or "completed" (PBool false) (r_metadata val)) in
          m ← (λ w, (get task_id w, w));
          match m with
          | Some (kv :: m) =>
              t ← reads now;
              register c task_id (synced next_offset completed t (kv :: m)) (Some jid)
          | _ => mret tt
          end
      | None => registry_sync result jid
      end
  end.

(** The end of the callback: the download URLs and the registry sync *)
Definition callback_finish (job : Job) (req : ExecutionRequest)
    (ret : option (list DriverExecutionResult)) : M W (option (list DriverExecutionResult)) :=
  let ret := fmap (M := option) (fmap set_download_url) ret in
  (if er_detach req
   then try_except (registry_sync (raw_of ret) (job_id job)) (λ _, mret tt)
   else mret tt) ≫= λ _,
  mret ret.

(** [result] as the webhook sees it; a failure runs the exception callback *)
Definition raw_outcome (job : Job) (o : outcome) : M W (raw_result * Job) :=
  match o with
  | Succeeded ret => mret (RawReturn ret, job)
  | Failed e =>
      '(m, job) ← rpc_exception_callback job e;
      mret (match m ≫= jd_error with Some e => RawError e | None => RawUnknown end, job)
  end.

(** The result as the callback leaves it *)
Definition rpc_webhook_callback (job : Job) (o : outcome)
    : M W (option (list DriverExecutionResult)) :=
  rpc_cleanup_handler job ≫= λ _,
  '(raw, job) ← raw_outcome job o;
  rpc_audit_callback c job o ≫= λ _,
  let ret := match o with Succeeded ret => ret | Failed _ => None end in
  req ← match job_request job with
        | Some req => mret (Some req)
        | None => match dict_get "req_payload" (job_meta job) with
                  | None => mret None
                  | Some (PDict d) => of_res (req ← req_load d; Ok (Some req))
                  | Some _ => raise (TypeError "argument after ** must be a mapping")
                  end
        end;
  match req with
  | None => mret ret
  | Some req =>
      stop ← match er_webhook req with
             | Some hook => webhook_block job req hook raw o
             | None => mret false
             end;
      if stop : bool then mret ret else callback_finish job req ret
  end.
End callbacks.
