(* ===== verification/RpcSpec.v ===== *)
(** * Theorems on the functions workers run *)

From S2P Require Import Prelude PyLib Models World Registry Manager Storage AuditLog Webhook Rpc.

(** ** Preparing a request *)
Section prepare_theorems.
Context `{Templates}.

Lemma render_payload_ordinary source b rd ctx p req :
  ordinary (render_payload source b rd ctx p req).
Proof. unfold render_payload. case_match; auto with linux_net. Qed.

Lemma render_script_ordinary rd ctx req : ordinary (render_script rd ctx req).
Proof. unfold render_script. repeat case_match; auto with linux_net. Qed.

Lemma render_paths_ordinary rd ctx ft : ordinary (render_paths rd ctx ft).
Proof.
  unfold render_paths. case_match; [|auto with linux_net].
  apply ordinary_bind; [auto with linux_net|]. intros ?. case_match; eauto 6 with linux_net.
Qed.

Lemma render_request_ordinary p req : ordinary (render_request p req).
Proof.
  unfold render_request. destruct (er_rendering req) as [rd|]; [|auto with linux_net].
  cbv zeta. destruct (negb (is_some (template_source rd p)) && _ && _); [by apply ordinary_Err|].
  apply ordinary_bind; [apply render_payload_ordinary|]. intros [p' req'].
  apply ordinary_bind; [apply render_script_ordinary|]. intros args.
  apply ordinary_bind; [apply render_paths_ordinary|]. auto with linux_net.
Qed.

Lemma prepare_ordinary req : ordinary (prepare req).
Proof.
  unfold prepare. cbv zeta. apply ordinary_bind; [apply render_request_ordinary|]. intros [p' req'].
  apply ordinary_bind; [|auto with linux_net]. unfold normalise. ordinary_cases.
Qed.

Lemma parse_results_ordinary req l : ordinary (parse_results req l).
Proof.
  unfold parse_results. destruct (er_parsing req) as [pr|]; [|auto with linux_net].
  apply ordinary_bind; [auto with linux_net|]. intros p. revert p.
  induction l as [|r l IH]; intros p; [done|]. cbn [parse_all].
  apply ordinary_bind; [auto with linux_net|]. intros [v p']. by apply ordinary_bind.
Qed.
End prepare_theorems.
#[export] Hint Resolve prepare_ordinary parse_results_ordinary : linux_net.

(** ** Execution *)
Section execute_theorems.
Context {W : Type} `{Json} `{Redis W} `{!Rq W} `{!Clock W} `{!Trace W} `{!Others W} `{!Drivers W}
  `{!DriverLaws W} `{!CurrentJob}.
Context `{Templates}.
Context (c : Config).
Implicit Types (w : W) (req : ExecutionRequest).

Lemma driver_call_safe {A} (m : M W A) : driver_call m → safe m.
Proof. by intros []. Qed.
#[local] Hint Resolve driver_call_safe : linux_net.

Lemma execution_id_ok w : ∃ i w', execution_id w = (Ok i, w').
Proof.
  unfold execution_id, update. case_match; [by eexists _, _|].
  destruct (uuid4_str w) as [i w']. by eexists _, _.
Qed.

(** A session that was opened is closed whatever happens in it. *)
Lemma with_session_eq {A} dobj (f : Session → M W A) w :
  with_session dobj f w =
  match connect dobj w with
  | (Err e, w1) => (Err e, w1)
  | (Ok s, w1) => ((f s w1).1, (disconnect dobj s (f s w1).2).2)
  end.
Proof.
  unfold with_session, mbind, M_bind. destruct (connect dobj w) as [[s|e] w1]; [|done].
  unfold try_finally, try_except. destruct (f s w1) as [r w2]. simpl.
  pose proof (proj1 (disconnect_call dobj s) w2) as Hs.
  destruct (disconnect dobj s w2) as [[u|e] w3]; [done|].
  by rewrite (Hs e).
Qed.

Lemma with_session_safe {A} dobj (f : Session → M W A) :
  (∀ s, safe (f s)) → safe (with_session dobj f).
Proof.
  intros Hf w. rewrite with_session_eq. pose proof (proj1 (connect_call dobj) w) as Hc.
  destruct (connect dobj w) as [[s|e] w1]; simpl; [apply Hf|]. apply ordinary_Err. by apply Hc.
Qed.

Lemma task_id_for_safe job : safe (task_id_for job).
Proof. unfold task_id_for. repeat case_match; auto with linux_net. Qed.

Lemma launch_safe dobj s req p : safe (launch c dobj s req p).
Proof.
  unfold launch. apply safe_bind; [apply task_id_for_safe|]. intros t.
  apply safe_bind; [auto with linux_net|]. intros l. auto 8 with linux_net.
Qed.

Lemma on_session_safe b dobj req p s : safe (on_session c b dobj req p s).
Proof.
  unfold on_session. case_match; [|case_match].
  - apply safe_bind; [apply launch_safe|auto with linux_net].
  - apply safe_bind; auto with linux_net.
  - apply safe_bind; auto with linux_net.
Qed.

Lemma execute_eq req p req' i dobj w w1 w2 :
  drivers_has (er_driver req) = true → prepare req = Ok (p, req') →
  execution_id w = (Ok i, w1) →
  from_execution_request (set_id i req') w1 = (Ok dobj, w2) →
  let req' := set_id i req' in
  execute c req w =
  match connect dobj w2 with
  | (Err e, w3) => (Ok [failure_result p e], w3)
  | (Ok s, w3) =>
      let '(r, w4) := on_session c (has_command req) dobj req' p s w3 in
      (match r with
       | Ok (true, l) => Ok l
       | Ok (false, l) => parse_results req' l
       | Err e => Ok [failure_result p e]
       end, (disconnect dobj s w4).2)
  end.
Proof.
  intros Hd Hp Hi Hf. unfold execute. rewrite Hd. cbn [negb]. unfold mbind, M_bind, of_res at 1.
  rewrite Hp. rewrite Hi. cbn zeta. rewrite Hf. unfold try_except. rewrite with_session_eq.
  pose proof (proj1 (connect_call dobj) w2) as Hc. destruct (connect dobj w2) as [[s|e] w3].
  - pose proof (on_session_safe (has_command req) dobj (set_id i req') p s w3) as Hs.
    destruct (on_session _ _ _ _ _ _ _) as [[[[] l]|e] w4]; cbn; [done|done|].
    by rewrite (Hs e).
  - by rewrite (Hc e).
Qed.

Lemma task_id_for_job j t w :
  dict_get "task_id" (job_meta j) = Some (PStr t) → t ≠ "" →
  task_id_for (Some j) w = (Ok t, w).
Proof.
  intros Ht Hne. unfold task_id_for. cbn. rewrite Ht.
  by rewrite (proj2 (String.eqb_neq t "") Hne).
Qed.

(** Once the driver has launched the process, the task is registered. *)
Lemma launch_eq dobj s req p j t w :
  get_current_job = Some j → dict_get "task_id" (job_meta j) = Some (PStr t) → t ≠ "" →
  launch c dobj s req p w =
  match launch_detached dobj s (default "" (head p)) t w with
  | (Err e, w1) => (Err e, w1)
  | (Ok l, w1) =>
      (Ok l, (register c t (running_meta t req (launched_running l) (now w1) (now w1))
                (Some (job_id j)) w1).2)
  end.
Proof.
  intros Hj Ht Hne. unfold launch. rewrite Hj. unfold mbind, M_bind.
  rewrite (task_id_for_job j t w Ht Hne).
  destruct (launch_detached _ _ _ _ w) as [[l|e] w1]; [|done]. cbn.
  destruct (register_eq c t (running_meta t req (launched_running l) (now w1) (now w1))
              (Some (job_id j)) w1) as (w2 & -> & _). done.
Qed.

(** C8. Executing a request raises ordinary exceptions only, and a driver
    that is not installed is refused at once.  Once the request is prepared and
    its driver made, no failure of the device escapes: a connection that fails,
    or an operation that fails on the session, is returned as one result with
    exit status 1 and the text of the error.  A session that was opened is
    closed, whatever happened in it. *)
Theorem execute_spec req w :
  ordinary (execute c req w).1
  ∧ (drivers_has (er_driver req) = false →
     execute c req w =
     (Err (NotImplementedError ("Unknown 'driver' " +:+ driver_value (er_driver req))), w))
  ∧ ∀ p req' i dobj w1 w2,
      drivers_has (er_driver req) = true → prepare req = Ok (p, req') →
      execution_id w = (Ok i, w1) → from_execution_request (set_id i req') w1 = (Ok dobj, w2) →
      match connect dobj w2 with
      | (Err e, w3) => execute c req w = (Ok [failure_result p e], w3)
      | (Ok s, w3) =>
          let out := on_session c (has_command req) dobj (set_id i req') p s w3 in
          (execute c req w).2 = (disconnect dobj s out.2).2
          ∧ match out.1 with
            | Err e => (execute c req w).1 = Ok [failure_result p e]
            | Ok (true, l) => (execute c req w).1 = Ok l
            | Ok (false, l) => (execute c req w).1 = parse_results (set_id i req') l
            end
      end.
Proof.
  split_and!.
  - revert w. change (safe (execute c req)). unfold execute. case_match; [by apply safe_raise|].
    cbv zeta. apply safe_bind; [auto with linux_net|]. intros [p req'].
    apply safe_bind; [intros w; destruct (execution_id_ok w) as (i & w' & ->); done|]. intros i.
    apply safe_bind; [auto with linux_net|]. intros dobj.
    apply safe_bind; [|intros r; case_match; auto with linux_net].
    apply safe_try; [|auto with linux_net]. apply with_session_safe. intros s. apply on_session_safe.
  - intros Hd. unfold execute. by rewrite Hd.
  - intros p req' i dobj w1 w2 Hd Hp Hi Hf.
    rewrite (execute_eq req p req' i dobj w w1 w2 Hd Hp Hi Hf).
    destruct (connect dobj w2) as [[s|e] w3]; [|done]. cbv zeta.
    destruct (on_session _ _ _ _ _ _ _) as [[[[] l]|e] w4]; done.
Qed.

(** C21. A detached launch: the driver starts the process under the id the
    manager allocated for the job, and only when that succeeded is the task
    entered in the registry, as running or, when the driver saw it end at once,
    as completed; no other task is affected.  When the launch fails nothing is
    registered and the failure is returned. *)
Theorem detached_execute_spec req p req' dobj s j t w w1 w2 :
  get_current_job = Some j → dict_get "task_id" (job_meta j) = Some (PStr t) → t ≠ "" →
  drivers_has (er_driver req) = true → prepare req = Ok (p, req') →
  er_detach req' && no_config req' = true →
  from_execution_request (set_id (job_id j) req') w = (Ok dobj, w1) →
  connect dobj w1 = (Ok s, w2) → registry_ok w →
  match launch_detached dobj s (default "" (head p)) t w2 with
  | (Err e, w3) => execute c req w = (Ok [failure_result p e], (disconnect dobj s w3).2)
  | (Ok l, w3) =>
      let m := running_meta t (set_id (job_id j) req') (launched_running l) (now w3) (now w3) in
      ∃ w4, execute c req w = (Ok l, (disconnect dobj s w4).2)
        ∧ registry_ok w4
        ∧ ∀ t', get t' w4 = if decide (t' = t) then Ok (Some m) else get t' w3
  end.
Proof.
  intros Hj Ht Hne Hd Hp Hdet Hf Hc Hok.
  assert (execution_id w = (Ok (job_id j), w)) as Hi by (unfold execution_id; by rewrite Hj).
  rewrite (execute_eq req p req' (job_id j) dobj w w w1 Hd Hp Hi Hf), Hc.
  unfold on_session. change (er_detach (set_id _ _)) with (er_detach req').
  change (no_config (set_id _ _)) with (no_config req'). rewrite Hdet.
  unfold mbind, M_bind. rewrite (launch_eq dobj s (set_id (job_id j) req') p j t w2 Hj Ht Hne).
  assert (registry_ok (launch_detached dobj s (default "" (head p)) t w2).2) as Hok3.
  { apply call_registry; [apply launch_call|].
    pose proof (call_registry _ w1 (connect_call dobj)) as Hco. rewrite Hc in Hco. apply Hco.
    pose proof (call_registry _ w (from_request_call (set_id (job_id j) req'))) as Hfo. rewrite Hf in Hfo.
    by apply Hfo. }
  destruct (launch_detached _ _ _ _ w2) as [[l|e] w3]; [|done]. cbv zeta.
  eexists. split; [done|]. split; [|intros t']; by apply register_get.
Qed.

(** ** Management *)
Lemma query_eq t m params dobj s w :
  query_task c t m params dobj s w =
  match _read_logs dobj s t (query_offset m params) w with
  | (Err e, w1) => (Err e, w1)
  | (Ok l, w1) =>
      match get t w1 with
      | Err e => (Err e, w1)
      | Ok None => (Ok l, w1)
      | Ok (Some _) =>
          (Ok l, (register c t (dict_set "last_sync" (PFloat (now w1))
                                  (read_meta m (query_offset m params) l)) None w1).2)
      end
  end.
Proof.
  unfold query_task, mbind, M_bind. destruct (_read_logs _ _ _ _ w) as [[l|e] w1]; [|done].
  destruct (get t w1) as [[m'|]|e]; [|done|done]. cbn.
  destruct (register_eq c t (dict_set "last_sync" (PFloat (now w1))
              (read_meta m (query_offset m params) l)) None w1) as (w2 & -> & _). done.
Qed.

(** The status and the offset of an entry after a read *)
Lemma read_meta_status m o l : ∀ t : pyval,
  let m' := dict_set "last_sync" t (read_meta m o l) in
  dict_get "status" m' = Some (PStr (match l with
                                     | r :: _ => if truthy (dict_get_or "is_running" PNone (r_metadata r))
                                                 then "running" else "completed"
                                     | [] => "completed"
                                     end))
  ∧ dict_get "last_offset" m' = match l with
                                | r :: _ => Some (dict_get_or "next_offset" o (r_metadata r))
                                | [] => dict_get "last_offset" m
                                end.
Proof.
  intros t m'. subst m'. unfold read_meta.
  destruct l as [|r l]; repeat first [rewrite dict_get_set_eq|rewrite dict_get_set_ne by done]; done.
Qed.

(** The registry is well-formed when a session has been opened. *)
Lemma opened_ok req dobj s w w1 w2 : registry_ok w →
  from_execution_request req w = (Ok dobj, w1) → connect dobj w1 = (Ok s, w2) → registry_ok w2.
Proof.
  intros Hok Hf Hc. pose proof (call_registry _ w1 (connect_call dobj)) as Hco. rewrite Hc in Hco. apply Hco.
  pose proof (call_registry _ w (from_request_call req)) as Hfo. rewrite Hf in Hfo. by apply Hfo.
Qed.

Lemma manage_eq t action params kv m0 w : let m := kv :: m0 in get t w = Ok (Some m) →
  manage_detached_task c t action params w =
  if String.eqb action "query" && status_is "completed" m then (Ok [], w)
  else (req ← of_res (meta_request m);
        if negb (drivers_has (er_driver req)) then raise (KeyError (driver_value (er_driver req)))
        else
          dobj ← from_execution_request req;
          with_session dobj (λ session,
            if String.eqb action "query" then query_task c t m params dobj session
            else if String.eqb action "kill" then kill_task dobj session t
            else raise (ValueError ("Unknown management action: " +:+ action)))) w.
Proof.
  intros m Hg. unfold manage_detached_task at 1. unfold mbind at 1, M_bind at 1. rewrite Hg.
  cbv iota beta. fold m.
  destruct (String.eqb action "query" && status_is "completed" m); reflexivity.
Qed.

Lemma manage_connected t action params kv m0 req dobj s w w1 w2 : let m := kv :: m0 in
  get t w = Ok (Some m) → status_is "completed" m = false →
  meta_request m = Ok req → drivers_has (er_driver req) = true →
  from_execution_request req w = (Ok dobj, w1) → connect dobj w1 = (Ok s, w2) →
  let out := (if String.eqb action "query" then query_task c t m params dobj s
              else if String.eqb action "kill" then kill_task dobj s t
              else raise (ValueError ("Unknown management action: " +:+ action))) w2 in
  manage_detached_task c t action params w = (out.1, (disconnect dobj s out.2).2).
Proof.
  intros m Hg Hs Hr Hd Hf Hc. rewrite (manage_eq t action params kv m0 w Hg). fold m.
  rewrite Hs, andb_false_r. unfold mbind, M_bind, of_res. rewrite Hr, Hd.
  cbn [negb]. by rewrite Hf, with_session_eq, Hc.
Qed.

(** The registry after the logs were read *)
Lemma query_effect t m params dobj s l w w1 : registry_ok w →
  _read_logs dobj s t (query_offset m params) w = (Ok l, w1) →
  ∃ w2, query_task c t m params dobj s w = (Ok l, w2) ∧ registry_ok w2
    ∧ (∀ t', t' ≠ t → get t' w2 = get t' w1)
    ∧ (get t w1 = Ok None → get t w2 = Ok None)
    ∧ ∀ m1, get t w1 = Ok (Some m1) →
      get t w2 = Ok (Some (dict_set "last_sync" (PFloat (now w1))
                             (read_meta m (query_offset m params) l))).
Proof.
  intros Hok Hr. pose proof (call_registry _ w (read_logs_call dobj s t (query_offset m params)) Hok) as Hok1.
  rewrite query_eq, Hr in *. simpl in Hok1.
  destruct (get t w1) as [[m1|]|e] eqn:E.
  - pose proof (register_get c t (dict_set "last_sync" (PFloat (now w1))
      (read_meta m (query_offset m params) l)) None w1) as Hg.
    eexists. split; [done|]. split; [by apply Hg|]. split_and!; [|done|].
    + intros t' Hne. destruct (Hg t' Hok1) as [_ ->]. by rewrite decide_False.
    + intros m1' _. destruct (Hg t Hok1) as [_ ->]. by rewrite decide_True.
  - exists w1. split_and!; try done; congruence.
  - rewrite get_ok in E by done. done.
Qed.

(** C15. Managing a detached task.  An unknown task is an error, and asking for
    the logs of a completed one gives nothing, without contacting the device.
    Otherwise the logs are read from the caller's offset or, without one, from
    where the last read ended, and the entry then holds the status and the
    offset of this read: a task whose process is gone is completed.  A task
    that was removed while the device answered stays removed, and no other task
    is affected.  The session is closed also when the read fails. *)
Theorem manage_detached_task_spec t params w : registry_ok w →
  (get t w = Ok None → ∀ action, manage_detached_task c t action params w
     = (Err (ValueError ("Task " +:+ t +:+ " not found in registry")), w))
  ∧ ∀ kv m0, let m := kv :: m0 in get t w = Ok (Some m) →
    (status_is "completed" m = true → manage_detached_task c t "query" params w = (Ok [], w))
    ∧ ∀ req dobj s w1 w2, status_is "completed" m = false →
      meta_request m = Ok req → drivers_has (er_driver req) = true →
      from_execution_request req w = (Ok dobj, w1) → connect dobj w1 = (Ok s, w2) →
      (∀ action, action ≠ "query" → action ≠ "kill" →
         (manage_detached_task c t action params w).1
         = Err (ValueError ("Unknown management action: " +:+ action)))
      ∧ (manage_detached_task c t "kill" params w).1 = (kill_task dobj s t w2).1
      ∧ match _read_logs dobj s t (query_offset m params) w2 with
        | (Err e, w3) =>
            manage_detached_task c t "query" params w = (Err e, (disconnect dobj s w3).2)
        | (Ok l, w3) => ∃ w4,
            manage_detached_task c t "query" params w = (Ok l, (disconnect dobj s w4).2)
            ∧ registry_ok w4
            ∧ (∀ t', t' ≠ t → get t' w4 = get t' w3)
            ∧ (get t w3 = Ok None → get t w4 = Ok None)
            ∧ ∀ m1, get t w3 = Ok (Some m1) → ∃ m',
                get t w4 = Ok (Some m')
                ∧ dict_get "status" m' =
                  Some (PStr (match l with
                              | r :: _ => if truthy (dict_get_or "is_running" PNone (r_metadata r))
                                          then "running" else "completed"
                              | [] => "completed"
                              end))
                ∧ dict_get "last_offset" m' =
                  match l with
                  | r :: _ => Some (dict_get_or "next_offset" (query_offset m params) (r_metadata r))
                  | [] => dict_get "last_offset" m
                  end
        end.
Proof.
  intros Hok. split; [intros Hg action; unfold manage_detached_task, mbind, M_bind; by rewrite Hg|].
  intros kv m0 m Hg.
  split; [intros Hs; rewrite (manage_eq t _ params kv m0 w Hg); fold m; by rewrite Hs|].
  intros req dobj s w1 w2 Hs Hr Hd Hf Hc.
  pose proof (λ a, manage_connected t a params kv m0 req dobj s w w1 w2 Hg Hs Hr Hd Hf Hc) as Hm.
  split_and!.
  - intros action Hq Hk. rewrite Hm.
    by rewrite (proj2 (String.eqb_neq _ _) Hq), (proj2 (String.eqb_neq _ _) Hk).
  - by rewrite Hm.
  - rewrite Hm. rewrite String.eqb_refl. fold m.
    pose proof (query_eq t m params dobj s w2) as Hq.
    destruct (_read_logs _ _ _ _ w2) as [[l|e] w3] eqn:El; [|by rewrite Hq].
    destruct (query_effect t m params dobj s l w2 w3) as (w4 & -> & ? & ? & ? & Hget);
      [by eapply opened_ok|done|].
    eexists. split_and!; [done..|]. intros m1 Hm1. eexists. split; [by eapply Hget|].
    apply read_meta_status.
Qed.
End execute_theorems.

(** ** A concrete driver for the examples

    The device "down" refuses connections; every other one echoes commands, and
    its detached processes have ended when their logs are read. *)
Module ToyRpc.
Definition result (command stdout : string) (m : metadata) : DriverExecutionResult :=
  mkResult command (PStr stdout) "" 0 None m PNone.

#[export] Instance toy_drivers : Drivers Toy.world := {|
  DriverObject := ExecutionRequest;
  Session := unit;
  drivers_has d := negb (bool_decide (d = NAPALM));
  from_execution_request r := mret r;
  connect r := if bool_decide (dc_host (er_connection_args r) = Some "down")
               then raise (OtherError "TimeoutError" "no route to host") else mret tt;
  send r _ p := mret ((λ x, result x x []) <$> p);
  send_config r _ p := mret ((λ x, result x x []) <$> p);
  launch_detached r _ cmd t :=
    mret [result "launch" "" [("task_id", PStr t); ("is_running", PBool true)]];
  _read_logs r _ t o := mret [result "query" "log" [("next_offset", PInt 3); ("is_running", PBool false)]];
  kill_task r _ t := mret [];
  disconnect r _ := mret tt;
|}.

(** While a device answers, nobody touches Redis. *)
#[export] Instance toy_others : Others Toy.world :=
  {| others w w' := ∀ k, hashes w' k = hashes w k; others_order := same_hashes_order |}.

#[export] Instance toy_driver_laws : DriverLaws Toy.world.
Proof.
  split; [intros w w' Ho; apply (registry_same w w' (Ho KEY))|..];
    intros; (split; [intros w; simpl; repeat case_match; by apply ordinary_Err || done|]);
    intros w; simpl; by repeat case_match.
Qed.

#[export, refine] Instance toy_templates : Templates :=
  {| Parser := unit; render r source context := Ok source; parser r := Ok tt; parse p v := Ok (v, p) |}.
Proof. all: by intros; simplify_eq; auto with linux_net. Defined.

Definition job : Job :=
  mkJob "job-1" (Some "started") "fifo" None None None None None None [("task_id", PStr "t1")] kw_none.

#[export] Instance toy_job : CurrentJob := Some job.

Definition args (host : string) : DriverConnectionArgs :=
  mkDriverConnectionArgs None (Some host) None None [].

Definition request (host : string) (detach : bool) : ExecutionRequest :=
  mkExecutionRequest PARAMIKO None (args host) None None (Some (PayStr "uptime")) None None None
    (Some FIFO) (Some 300%Z) None None audit_full None detach None None None [].

Definition w0 : Toy.world := Toy.empty 0 [].

Lemma w0_ok : registry_ok w0.
Proof. intros t s Hs. vm_compute in Hs. discriminate. Qed.

(** The device is down: the request is answered with the error. *)
Lemma execute_spec_witness :
  (execute default_config (request "down" false) w0).1
  = Ok [failure_result ["uptime"] (OtherError "TimeoutError" "no route to host")].
Proof.
  destruct (execute_spec default_config (request "down" false) w0) as (_ & _ & Hs).
  specialize (Hs ["uptime"] (set_payload true (PayList ["uptime"]) (request "down" false)) "job-1"
    (set_id "job-1" (set_payload true (PayList ["uptime"]) (request "down" false))) w0 w0
    eq_refl eq_refl eq_refl eq_refl).
  simpl in Hs. by rewrite Hs.
Defined.

Definition launched : Toy.world := (execute default_config (request "h1" true) w0).2.

Lemma detached_execute_spec_witness :
  ∃ w4, execute default_config (request "h1" true) w0
      = (Ok [result "launch" "" [("task_id", PStr "t1"); ("is_running", PBool true)]], w4)
    ∧ ∃ m, get "t1" w4 = Ok (Some m) ∧ dict_get "status" m = Some (PStr "running").
Proof.
  destruct (detached_execute_spec default_config (request "h1" true) ["uptime"]
    (set_payload true (PayList ["uptime"]) (request "h1" true))
    (set_id "job-1" (set_payload true (PayList ["uptime"]) (request "h1" true)) : @DriverObject _ toy_drivers)
    (tt : @Session _ toy_drivers) job "t1" w0 w0 w0
    eq_refl eq_refl ltac:(discriminate) eq_refl eq_refl eq_refl eq_refl eq_refl w0_ok)
    as (w4 & He & _ & Hg).
  exists w4. split; [exact He|]. eexists. split; [by rewrite Hg, decide_True|]. reflexivity.
Defined.

Definition task_meta : metadata :=
  [("driver", PStr "paramiko"); ("status", PStr "running");
   ("connection_args", PDict (DriverConnectionArgs_dump (args "h1")))].

Definition with_task : Toy.world := (register default_config "t1" task_meta None w0).2.

(** The process has ended: its last logs are read, and the task is completed. *)
Lemma manage_detached_task_spec_witness :
  ∃ w4 m, (manage_detached_task default_config "t1" "query" None with_task) =
      (Ok [result "query" "log" [("next_offset", PInt 3); ("is_running", PBool false)]], w4)
    ∧ get "t1" w4 = Ok (Some m) ∧ dict_get "status" m = Some (PStr "completed")
    ∧ dict_get "last_offset" m = Some (PInt 3).
Proof.
  destruct (register_get default_config "t1" task_meta None w0 "t1" w0_ok) as [Hok Hg].
  rewrite decide_True in Hg by reflexivity.
  destruct (manage_detached_task_spec default_config "t1" None with_task Hok) as [_ Hs].
  destruct (Hs _ _ Hg) as [_ Hm].
  destruct (meta_request task_meta) as [req|] eqn:Er; [|discriminate].
  destruct (Hm req (req : @DriverObject _ toy_drivers) (tt : @Session _ toy_drivers) with_task with_task eq_refl Er) as (_ & _ & Hq).
  - vm_compute in Er. injection Er as <-. reflexivity.
  - reflexivity.
  - vm_compute in Er. injection Er as <-. reflexivity.
  - simpl in Hq. destruct Hq as (w4 & He & _ & _ & _ & Hm1).
    destruct (Hm1 _ Hg) as (m' & ? & ? & ?). exists w4, m'. auto.
Defined.
End ToyRpc.
