(* ===== verification/RpcCallbacks.v ===== *)
(** * Theorems on the callbacks of a job

    Delivery of webhooks with retries, and the callback that runs when a job
    ends. *)

From S2P Require Import Prelude PyLib Models World Registry Manager Storage AuditLog Webhook Rpc.

(** ** Deliveries and retries *)
Section retries.
Context {W : Type} `{Json} `{Redis W} `{!Rq W} `{!Clock W} `{!Http W} `{!Webhooks W} `{!CurrentJob}.
Implicit Types (w : W) (hook : WebHook) (b : body).

(** What one delivery leaves scheduled: nothing, or one retry. *)
Definition retried w w' (d : Z) (s : JobSpec) : Prop :=
  (∀ k, hashes w' k = hashes w k) ∧ queued w' = queued w
  ∧ scheduled w' = scheduled w ++ [(get_fifo_queue_name, d, s)].

Lemma enqueue_in_retried w w' d s : aside w w' →
  retried w (enqueue_in get_fifo_queue_name d s w') d s.
Proof.
  intros (Hh & Hq & Hs). split_and!.
  - intros k. by rewrite enqueue_in_hashes.
  - by rewrite enqueue_in_queued.
  - by rewrite enqueue_in_scheduled, Hs.
Qed.

(** The delay of the retry after attempt [a] *)
Definition delay_after hook (a : Z) : Z :=
  default (default 0%Z (last (wh_retry_intervals hook))) (wh_retry_intervals hook !! Z.to_nat a).

Lemma retry_delay_eq hook a : wh_retry_intervals hook ≠ [] →
  retry_delay hook a = Ok (delay_after hook a).
Proof.
  intros Hne. unfold retry_delay, delay_after. destruct (_ !! _); [done|].
  destruct (last (wh_retry_intervals hook)) eqn:E; [done|]. by apply last_None in E.
Qed.

Lemma dispatch_webhook_cases hook b a w :
  wh_retry_intervals hook ≠ [] →
  ∃ w', dispatch_webhook hook b a w = (Ok tt, w')
    ∧ match (http_request hook b w).1 with
      | Ok _ => aside w w'
      | Err _ =>
          if (a + 1 <=? wh_max_retries hook)%Z && is_some get_current_job
          then retried w w' (delay_after hook a) (webhook_spec hook b (a + 1))
          else aside w w'
      end.
Proof.
  intros Hne. unfold dispatch_webhook.
  pose proof (http_safe hook b w) as Hs. pose proof (http_aside hook b w) as Ha.
  destruct (http_request hook b w) as [[u|e] w1]; simpl in *; [by eexists|].
  rewrite (Hs e) by done. rewrite retry_delay_eq by done.
  destruct (_ <=? _)%Z; [|by eexists]. cbn [andb].
  destruct get_current_job; simpl; [|by eexists].
  eexists. split; [done|]. by apply enqueue_in_retried.
Qed.

Lemma aside_not_scheduled w w' x : aside w w' → scheduled w' ≠ scheduled w ++ [x].
Proof.
  intros (_ & _ & ->) E. apply (f_equal length) in E. rewrite length_app in E. simpl in E. lia.
Qed.

(** The delays of the retries from attempt [a] on, when each delivery runs in
    whatever world it finds and the last one schedules nothing *)
Inductive chain hook b : Z → list Z → Prop :=
  | chain_end a w : scheduled (dispatch_webhook hook b a w).2 = scheduled w → chain hook b a []
  | chain_retry a w q d ds :
      scheduled (dispatch_webhook hook b a w).2
        = scheduled w ++ [(q, d, webhook_spec hook b (a + 1))] →
      chain hook b (a + 1) ds → chain hook b a (d :: ds).

Lemma chain_spec hook b a ds : wh_retry_intervals hook ≠ [] →
  chain hook b a ds → (0 ≤ a)%Z →
  (∀ i d, ds !! i = Some d → d = delay_after hook (a + Z.of_nat i))
  ∧ (a + Z.of_nat (length ds) ≤ Z.max a (wh_max_retries hook))%Z.
Proof.
  intros Hne Hc. induction Hc as [a w Hs|a w q d ds Hs Hc IH]; intros Ha; [simpl; split; [done|lia]|].
  destruct (dispatch_webhook_cases hook b a w Hne) as (w' & Hd & Hcase).
  rewrite Hd in Hs. simpl in Hs. destruct (http_request hook b w).1; simpl in Hcase.
  { by apply (aside_not_scheduled w w') in Hs. }
  destruct (_ && _) eqn:E; [|by apply (aside_not_scheduled w w') in Hs].
  destruct Hcase as (_ & _ & Hq). rewrite Hq in Hs. apply app_inj_1 in Hs as [_ [= <- <-]]; [|done].
  to_prop. destruct IH as [IH1 IH2]; [lia|]. split.
  - intros [|i] x; simpl; [intros [= <-]; f_equal; lia|]. intros Hx%IH1. rewrite Hx. f_equal. lia.
  - simpl. lia.
Qed.

(** C23. A webhook that is retried never fails its job: a delivery that fails
    schedules exactly one retry, of the same webhook and payload with the next
    attempt number, after the configured delay of this attempt (the last one
    when there are more attempts than delays), and only while attempts are
    left.  However the server answers, the retries from any attempt on end
    after at most [max_retries] attempts in all. *)
Theorem webhook_retries_spec hook b a :
  wh_retry_intervals hook ≠ [] → (0 ≤ a)%Z →
  (∀ w, ∃ w', dispatch_webhook hook b a w = (Ok tt, w')
    ∧ match (http_request hook b w).1 with
      | Ok _ => aside w w'
      | Err _ =>
          if (a + 1 <=? wh_max_retries hook)%Z && is_some get_current_job
          then retried w w' (delay_after hook a) (webhook_spec hook b (a + 1))
          else aside w w'
      end)
  ∧ ∀ ds, chain hook b a ds →
      (∀ i d, ds !! i = Some d → d = delay_after hook (a + Z.of_nat i))
      ∧ (a + Z.of_nat (length ds) ≤ Z.max a (wh_max_retries hook))%Z.
Proof.
  intros Hne Ha. split; [intros w; by apply dispatch_webhook_cases|].
  intros ds Hc. by eapply chain_spec.
Qed.
End retries.

(** ** The webhook of a finished job *)
Section block.
Context {W : Type} `{Json} `{Redis W} `{!Rq W} `{!Clock W} `{!Http W} `{!Webhooks W} `{!WebhookLaws W}.
Implicit Types (w : W) (hook : WebHook) (job : Job) (o : outcome).

(** What a first delivery leaves: nothing, or one retry with attempt 1. *)
Lemma first_delivery_cases name mk hook d w : webhooks name = Some mk →
  ∃ w', _dispatch_webhook_with_retry (mk hook) hook d w = (Ok tt, w')
    ∧ (aside w w'
       ∨ (∃ e, (wc_call (mk hook) d w).1 = Err e) ∧ (wh_max_retries hook ≠ 0)%Z
         ∧ ∃ b, retried w w' (default 10%Z (head (wh_retry_intervals hook))) (webhook_spec hook b 1)).
Proof.
  intros Hmk. unfold _dispatch_webhook_with_retry, try_except.
  pose proof (call_safe name mk hook d Hmk w) as Hs. pose proof (call_aside name mk hook d w Hmk) as Ha.
  destruct (wc_call (mk hook) d w) as [[u|e] w1]; simpl in *; [destruct u; eauto|].
  rewrite (Hs e) by done. destruct (Z.eqb_spec (wh_max_retries hook) 0); [by eauto|].
  pose proof (build_safe name mk hook d Hmk w1) as Hs1.
  pose proof (build_aside name mk hook d w1 Hmk) as Ha1.
  destruct (wc_build_payload (mk hook) d w1) as [[b|e1] w2]; simpl in *.
  - eexists. split; [done|]. right. split_and!; [eauto|done|]. exists b.
    apply enqueue_in_retried. by transitivity w1.
  - rewrite (Hs1 e1) by done. exists w2. split; [done|]. left. by transitivity w1.
Qed.

(** The task a job belongs to, "" for none *)
Definition task_of job : string := default "" (dict_get "task_id" (job_meta job) ≫= str_of_val).

(** Whether a detached job has nothing to tell: it is a launch, its task is
    gone, or it is a query too many of a task that is over. *)
Definition silent job o w : Prop :=
  dict_has "webhook_event_type" (job_meta job) = false ∨ task_of job = ""
  ∨ get (task_of job) w = Ok None
  ∨ ∃ m, get (task_of job) w = Ok (Some m) ∧ status_is "completed" m = true
      ∧ nothing_returned o = true.

Definition plain_delivery job req raw o : Delivery :=
  mkDelivery req (job_resp job (is_success o) (job_id job)) raw (is_success o)
    (Some (if is_success o then "job.completed" else "job.failed")).

Definition detached_delivery job req raw o : Delivery :=
  mkDelivery req (job_resp job (is_success o) (task_of job)) raw (is_success o)
    (str_of_val (webhook_event (job_meta job) o)).

Ltac skips := eexists; split; [reflexivity|by left].

(** What the block does, in one of three ways *)
Lemma webhook_block_cases job req hook raw o w :
  ∃ stop, let w' := (webhook_block job req hook raw o w).2 in
    (webhook_block job req hook raw o w).1 = Ok stop
    ∧ (w' = w ∨
       ∃ mk, webhooks (wh_name hook) = Some mk ∧ stop = false ∧
         if er_detach req
         then ¬ silent job o w
              ∧ w' = (_dispatch_webhook_with_retry (mk hook) hook (detached_delivery job req raw o) w).2
         else w' = (_dispatch_webhook_with_retry (mk hook) hook (plain_delivery job req raw o) w).2).
Proof.
  unfold webhook_block, try_except. destruct (er_detach req) eqn:Ed; cbn [andb negb].
  - destruct (dict_has "webhook_event_type" (job_meta job)) eqn:Eh; cbn [andb negb]; [|skips].
    destruct (webhooks (wh_name hook)) as [mk|] eqn:Emk; [|skips].
    cbv zeta. fold (task_of job). unfold mbind, M_bind.
    destruct (String.eqb_spec (task_of job) "") as [Et|Et]; [skips|].
    pose proof (get_ordinary (task_of job) w) as Hg.
    destruct (get (task_of job) w) as [[m|]|e] eqn:Eg; [|skips|rewrite (Hg e) by done; skips].
    destruct (status_is "completed" m && nothing_returned o) eqn:Es; [skips|].
    fold (detached_delivery job req raw o).
    destruct (first_delivery_cases _ mk hook (detached_delivery job req raw o) w Emk) as (w' & Hd & _).
    unfold detached_delivery in *. rewrite Hd. exists false. split; [done|]. right. exists mk.
    cbn. split_and!; [done|done| |by rewrite Hd]. intros [?|[?|[?|(m' & Hg' & Hs & Hn)]]]; try congruence.
    rewrite Eg in Hg'. injection Hg' as <-. by rewrite Hs, Hn in Es.
  - destruct (webhooks (wh_name hook)) as [mk|] eqn:Emk; [|skips].
    destruct (first_delivery_cases _ mk hook (plain_delivery job req raw o) w Emk) as (w' & Hd & _).
    unfold mbind, M_bind. unfold plain_delivery in *. rewrite Hd. exists false. split; [done|].
    right. exists mk. cbn. by rewrite Hd.
Qed.

Lemma block_hashes job req hook raw o w : ∃ stop w',
  webhook_block job req hook raw o w = (Ok stop, w') ∧ (∀ k, hashes w' k = hashes w k)
  ∧ (Some hook = None → stop = false).
Proof.
  destruct (webhook_block_cases job req hook raw o w) as (stop & Hr & Hw).
  destruct (webhook_block job req hook raw o w) as [r w']. simpl in *. subst r. exists stop, w'.
  split_and!; [done| |done]. destruct Hw as [->|(mk & Hmk & _ & Hw)]; [done|].
  destruct (first_delivery_cases _ mk hook (if er_detach req then detached_delivery job req raw o
                 else plain_delivery job req raw o) w Hmk) as (w2 & Hd & Hc).
  assert (w' = w2) as ->.
  { destruct (er_detach req); [destruct Hw as [_ ->]|rewrite Hw]; by rewrite Hd. }
  destruct Hc as [[? _]|(_ & _ & b & ? & _)]; done.
Qed.

(** The event of a detached job *)
Lemma webhook_event_spec meta l :
  dict_get "webhook_event_type" meta = Some (PStr "detached.log_push") →
  webhook_event meta (Succeeded (Some l)) =
  PStr (if any (λ r, negb (truthy (dict_get_or "is_running" (PBool true) (r_metadata r)))) l
        then "detached.completed" else "detached.log_push").
Proof.
  intros Hm. unfold webhook_event, dict_get_or. rewrite Hm. simpl. by case_match.
Qed.

(** The webhook of a finished job.  Nothing that goes wrong in it reaches
    the job: neither an unknown plugin nor a failing delivery.  It changes no
    stored state, and leaves at most one retry scheduled, the first, only when
    retries are configured and the delivery failed.  A detached job delivers
    nothing when it is the launch itself, when its task was removed, or when
    its task is over and it read nothing more; and the last read of a task is
    told from a log push by what the task says of itself. *)
Theorem webhook_block_spec job req hook raw o w :
  let out := webhook_block job req hook raw o w in
  (∃ stop, out.1 = Ok stop)
  ∧ (aside w out.2
     ∨ (wh_max_retries hook ≠ 0)%Z
       ∧ ∃ b, retried w out.2 (default 10%Z (head (wh_retry_intervals hook))) (webhook_spec hook b 1))
  ∧ (er_detach req = true → silent job o w → out.2 = w)
  ∧ (out.2 ≠ w → ∃ mk, webhooks (wh_name hook) = Some mk
     ∧ out.2 = (_dispatch_webhook_with_retry (mk hook) hook
                  (if er_detach req then detached_delivery job req raw o
                   else plain_delivery job req raw o) w).2)
  ∧ ∀ l, o = Succeeded (Some l) →
      dict_get "webhook_event_type" (job_meta job) = Some (PStr "detached.log_push") →
      dl_event_type (detached_delivery job req raw o) =
      Some (if any (λ r, negb (truthy (dict_get_or "is_running" (PBool true) (r_metadata r)))) l
            then "detached.completed" else "detached.log_push").
Proof.
  intros out. destruct (webhook_block_cases job req hook raw o w) as (stop & Hr & Hw). fold out in Hr, Hw.
  split_and!; [by eauto| | | |].
  - destruct Hw as [->|(mk & Hmk & _ & Hw)]; [by left|].
    destruct (first_delivery_cases _ mk hook (if er_detach req then detached_delivery job req raw o
                   else plain_delivery job req raw o) w Hmk) as (w' & Hd & Hc).
    assert (out.2 = w') as ->.
    { destruct (er_detach req); [destruct Hw as [_ ->]|rewrite Hw]; by rewrite Hd. }
    destruct Hc as [?|(_ & ? & ?)]; auto.
  - intros Hd Hs. destruct Hw as [?|(mk & _ & _ & Hw)]; [done|]. rewrite Hd in Hw. by destruct Hw.
  - intros Hne. destruct Hw as [?|(mk & Hmk & _ & Hw)]; [done|]. exists mk. split; [done|].
    destruct (er_detach req); [by destruct Hw|done].
  - intros l -> Hm. unfold detached_delivery. cbn [dl_event_type]. by rewrite webhook_event_spec.
Qed.
End block.

(** ** The callback *)
Section callback.
Context {W : Type} `{Json} `{Redis W} `{!Rq W} `{!Clock W} `{!Files W} `{!Http W} `{!Webhooks W}
  `{!WebhookLaws W} `{!RequestJson}.
Context (c : Config) (cwd : string) (gethostname : res string).
Implicit Types (w : W) (job : Job) (o : outcome) (l : list DriverExecutionResult).

(** The first result that names a task *)
Fixpoint task_result l : option (pyval * DriverExecutionResult) :=
  match l with
  | [] => None
  | r :: l => match dict_get "task_id" (r_metadata r) with
              | Some v => Some (v, r)
              | None => task_result l
              end
  end.

(** What the sync with the first result that names a task does: the entry of that
    task, if there is one, gets the result's offset and status.  A name Redis
    does not take as a field changes nothing. *)
Definition task_synced (v : pyval) (r : DriverExecutionResult) w w' : Prop :=
  match redis_field v with
  | Ok t => ∀ t', get t' w' =
      if decide (t' = t)
      then match get t w with
           | Ok (Some (kv :: m)) =>
               Ok (Some (synced (dict_get_or "next_offset" PNone (r_metadata r))
                    (truthy (dict_get_or "completed" (PBool false) (r_metadata r))) (now w) (kv :: m)))
           | g => g
           end
      else get t' w
  | Err _ => w' = w
  end.

Lemma registry_sync_spec l jid w : registry_ok w →
  let out := registry_sync c l jid w in
  ordinary out.1 ∧ registry_ok out.2
  ∧ match task_result l with
    | Some (v, r) => task_synced v r w out.2
    | None => out = (Ok tt, w)
    end.
Proof.
  intros Hok. induction l as [|r l IH]; [done|]. simpl.
  destruct (dict_get "task_id" (r_metadata r)) as [v|] eqn:Ev; [|exact IH].
  unfold task_synced, mbind, M_bind, of_res.
  destruct (redis_field v) as [t|e] eqn:Ef.
  - pose proof (get_ok t w Hok) as Hg. destruct (get t w) as [[[|kv m]|]|e] eqn:Eg; [| | |done]; cbn.
    + split_and!; [done..|]. intros t'. destruct (decide (t' = t)) as [->|]; done.
    + set (m' := synced _ _ _ _). pose proof (register_get c t m' (Some jid) w) as Hr.
      destruct (register_eq c t m' (Some jid) w) as (w1 & E1 & _). rewrite E1 in *. cbn in *.
      split_and!; [done|by apply Hr|]. intros t'. by apply Hr.
    + split_and!; [done..|]. intros t'. destruct (decide (t' = t)) as [->|]; done.
  - cbn. split_and!; [|done|done].
    apply ordinary_Err. by destruct v; simplify_eq/=.
Qed.

Lemma set_url_meta r : r_metadata (set_download_url c cwd gethostname r) = r_metadata r.
Proof. unfold set_download_url. by case_match. Qed.

Lemma task_result_urls l :
  task_result (set_download_url c cwd gethostname <$> l)
  = prod_map id (set_download_url c cwd gethostname) <$> task_result l.
Proof.
  induction l as [|r l IH]; [done|]. rewrite fmap_cons. cbn [task_result]. rewrite set_url_meta.
  by case_match.
Qed.

Lemma cleanup_spec job w : ∃ w', rpc_cleanup_handler job w = (Ok tt, w')
  ∧ (∀ k, hashes w' k = hashes w k)
  ∧ ∀ f, (job_request job ≫= er_staged_file_id) = Some f → f ≠ "" → path_exists f w = true →
      is_ok (os_remove f w).1 = true → path_exists f w' = false.
Proof.
  unfold rpc_cleanup_handler. destruct (job_request job ≫= er_staged_file_id) as [f|]; [|by exists w].
  destruct (String.eqb_spec f "") as [->|Hf]; cbn [negb andb]; [by exists w; naive_solver|].
  destruct (path_exists f w) eqn:Ep; [|by exists w; split_and!; try done; naive_solver].
  unfold try_except. pose proof (os_remove_safe f w) as Hs. pose proof (os_remove_hashes f w) as Hh.
  pose proof (os_remove_gone f w) as Hg.
  destruct (os_remove f w) as [[[]|e] w1] eqn:Er; simpl in *.
  - exists w1. split_and!; [done|done|]. intros f' [= <-] _ _ _. by eapply Hg.
  - rewrite (Hs e) by done. exists w1. split_and!; [done|done|]. intros f' [= <-] _ _. by rewrite Er.
Qed.

Lemma exception_callback_spec job e w : ∃ m job' w',
  rpc_exception_callback c job e w = (Ok (m, job'), w')
  ∧ (∀ k, hashes w' k = hashes w k) ∧ job_kwargs job' = job_kwargs job
  ∧ (is_ok (JobAdditionalData_validate (job_meta job)) = true →
     (m ≫= jd_error) = Some (exn_name e, exn_str e)).
Proof.
  unfold rpc_exception_callback.
  destruct (JobAdditionalData_validate (job_meta job)) as [m|e'] eqn:E; [|by exists None, job, w].
  unfold mbind, M_bind, writes. cbv zeta.
  set (job' := job_set_meta _ job).
  destruct (rpc_audit_eq c job' (Failed e) (job_save_meta (job_id job') (job_meta job') w))
    as (w' & -> & Hh & _).
  eexists _, _, _. split_and!; [done| |done|done]. intros k. by rewrite Hh, save_meta_hashes.
Qed.
Definition with_urls (ret : option (list DriverExecutionResult)) : option (list DriverExecutionResult) :=
  fmap (M := option) (fmap (set_download_url c cwd gethostname)) ret.

(** What the registry sync of a result does *)
Definition sync_effect (ret : option (list DriverExecutionResult)) w w' : Prop :=
  match task_result (raw_of ret) with
  | Some (v, r) => task_synced v r w w'
  | None => w' = w
  end.

Lemma finish_spec job req ret w : registry_ok w →
  ∃ w', callback_finish c cwd gethostname job req ret w = (Ok (with_urls ret), w')
    ∧ registry_ok w' ∧ if er_detach req then sync_effect ret w w' else w' = w.
Proof.
  intros Hok. unfold callback_finish. cbv zeta. fold (with_urls ret).
  destruct (er_detach req); [|by exists w].
  pose proof (registry_sync_spec (raw_of (with_urls ret)) (job_id job) w Hok) as (Hs & Hok' & Hc).
  assert (task_result (raw_of (with_urls ret))
    = prod_map id (set_download_url c cwd gethostname) <$> task_result (raw_of ret)) as Ht
    by (destruct ret; [apply task_result_urls|done]).
  unfold mbind, M_bind, try_except.
  destruct (registry_sync _ _ _ w) as [r w'] eqn:Er. simpl in *.
  assert (sync_effect ret w w') as He.
  { unfold sync_effect. rewrite Ht in Hc. destruct (task_result (raw_of ret)) as [[v r0]|]; simpl in Hc.
    - unfold task_synced in *. by rewrite set_url_meta in Hc.
    - by injection Hc. }
  exists w'. destruct r as [[]|e]; [done|]. rewrite (Hs e) by done. done.
Qed.

Definition returned o : option (list DriverExecutionResult) :=
  match o with Succeeded r => r | Failed _ => None end.

(** The request of a job: its argument, or, for a push of the supervisor, what its
    metadata holds, which may be no request *)
Definition request_of job : res (option ExecutionRequest) :=
  match job_request job with
  | Some req => Ok (Some req)
  | None =>
      match dict_get "req_payload" (job_meta job) with
      | None => Ok None
      | Some (PDict d) => req ← req_load d; Ok (Some req)
      | Some _ => Err (TypeError "argument after ** must be a mapping")
      end
  end.

Lemma request_of_ordinary job : ordinary (request_of job).
Proof.
  unfold request_of. destruct (job_request job); [done|].
  destruct (dict_get _ _) as [[| | | | | |d]|]; try done; try by apply ordinary_Err.
  pose proof (req_load_ordinary d) as Ho. simpl.
  destruct (req_load d) as [req|e]; [done|]. simpl. apply ordinary_Err. by apply Ho.
Qed.

(** What comes before the webhook leaves the hashes alone. *)
Lemma callback_eq job o w :
  ∃ raw job' w1 w2 w3, rpc_cleanup_handler job w = (Ok tt, w1)
    ∧ raw_outcome c job o w1 = (Ok (raw, job'), w2) ∧ job_kwargs job' = job_kwargs job
    ∧ (∀ k, hashes w3 k = hashes w k)
    ∧ rpc_webhook_callback c cwd gethostname job o w =
      match request_of job' with
      | Err e => (Err e, w3)
      | Ok None => (Ok (returned o), w3)
      | Ok (Some req) =>
        (stop ← match er_webhook req with
                | Some hook => webhook_block job' req hook raw o
                | None => mret false
                end;
         if stop : bool then mret (returned o)
         else callback_finish c cwd gethostname job' req (returned o)) w3
      end.
Proof.
  destruct (cleanup_spec job w) as (w1 & Hc & Hh1 & _).
  assert (∃ raw job' w2, raw_outcome c job o w1 = (Ok (raw, job'), w2)
    ∧ (∀ k, hashes w2 k = hashes w1 k) ∧ job_kwargs job' = job_kwargs job)
    as (raw & job' & w2 & Hr & Hh2 & Hk).
  { destruct o as [ret|e]; [by exists (RawReturn ret), job, w1|].
    destruct (exception_callback_spec job e w1) as (m & job' & w2 & He & ? & ? & _).
    eexists _, job', w2. unfold raw_outcome, mbind, M_bind. by rewrite He. }
  destruct (rpc_audit_eq c job' o w2) as (w3 & Ha & Hh3 & _).
  exists raw, job', w1, w2, w3. do 3 (split; [done|]). split; [intros k; by rewrite Hh3, Hh2, Hh1|].
  unfold rpc_webhook_callback, request_of, mbind, M_bind. rewrite Hc, Hr, Ha. cbv beta iota zeta.
  destruct (job_request job') as [req|]; [done|].
  destruct (dict_get "req_payload" (job_meta job')) as [[| | | | | |d]|]; try done.
  unfold of_res, mbind, res_bind. by destruct (req_load d).
Qed.

(** How the callback ends: with the error of the request, with no request, or with
    the result *)
Definition callback_result job o w (out : res (option (list DriverExecutionResult)) * W) : Prop :=
  let r := match o with Succeeded r => r | Failed _ => None end in
  match request_of job with
  | Err e => out.1 = Err e ∧ ordinary out.1 ∧ ∀ t, get t out.2 = get t w
  | Ok None => out.1 = Ok r ∧ ∀ t, get t out.2 = get t w
  | Ok (Some req) =>
      (∃ ret, out.1 = Ok ret ∧ (ret = r ∨ ret = with_urls r) ∧ (er_webhook req = None → ret = with_urls r))
      ∧ (er_detach req = false → ∀ t, get t out.2 = get t w)
      ∧ ∃ w3, (∀ t, get t w3 = get t w)
          ∧ (out.2 = w3 ∨ sync_effect r w3 out.2)
          ∧ (er_webhook req = None → er_detach req = true → sync_effect r w3 out.2)
  end.

(** From the webhook on *)
Lemma callback_request_spec job req raw o w w3 : (∀ t, get t w3 = get t w) → registry_ok w3 →
  let r := match o with Succeeded r => r | Failed _ => None end in
  let out := (stop ← match er_webhook req with
                     | Some hook => webhook_block job req hook raw o
                     | None => mret false
                     end;
              if stop : bool then mret (returned o)
              else callback_finish c cwd gethostname job req (returned o)) w3 in
  registry_ok out.2
  ∧ (∃ ret, out.1 = Ok ret ∧ (ret = r ∨ ret = with_urls r) ∧ (er_webhook req = None → ret = with_urls r))
  ∧ (er_detach req = false → ∀ t, get t out.2 = get t w)
  ∧ ∃ w3, (∀ t, get t w3 = get t w)
      ∧ (out.2 = w3 ∨ sync_effect r w3 out.2)
      ∧ (er_webhook req = None → er_detach req = true → sync_effect r w3 out.2).
Proof.
  intros Hg3 Hok3. cbv zeta. fold (returned o).
  assert (∃ stop w4, (match er_webhook req with
       | Some hook => webhook_block job req hook raw o
       | None => mret false
       end : M W bool) w3 = (Ok stop, w4)
       ∧ (∀ k, hashes w4 k = hashes w3 k) ∧ (er_webhook req = None → stop = false))
    as (stop & w4 & Hb & Hh4 & Hn).
  { destruct (er_webhook req) as [hook|]; [|by exists false, w3]. apply block_hashes. }
  unfold mbind, M_bind. rewrite Hb.
  destruct (registry_same w3 w4 (Hh4 KEY)) as [Hok4 Hg4]. specialize (Hok4 Hok3).
  destruct stop.
  - split; [done|]. split_and!.
    + exists (returned o). split_and!; [done|by left|naive_solver].
    + intros _ t. simpl. by rewrite Hg4, Hg3.
    + exists w4. split_and!; [intros t; by rewrite Hg4, Hg3|by left|naive_solver].
  - destruct (finish_spec job req (returned o) w4 Hok4) as (w5 & -> & Hok5 & He).
    split; [done|]. split_and!.
    + exists (with_urls (returned o)). split_and!; [done|by right|done].
    + intros Hd t. rewrite Hd in He. subst w5. simpl. by rewrite Hg4, Hg3.
    + exists w4. split_and!; [intros t; by rewrite Hg4, Hg3| |intros _ Hd; by rewrite Hd in He].
      simpl. destruct (er_detach req); auto.
Qed.

End callback.

(** ** Concrete interfaces for the examples

    Requests as JSON through one countable encoding, and a webhook server that
    never answers. *)
Module ToyCallbacks.
#[export, refine] Instance driver_countable : Countable DriverName :=
  inj_countable' driver_value (λ s, default PYEAPI (driver_of s)) _.
Proof. by intros []. Defined.

#[export, refine] Instance strategy_countable : Countable QueueStrategy :=
  inj_countable' (λ q, match q with FIFO => true | PINNED => false end)
    (λ b : bool, if b then FIFO else PINNED) _.
Proof. by intros []. Defined.

#[export, refine] Instance audit_countable : Countable AuditMode :=
  inj_countable' audit_value (λ s, audit_of (PStr s)) _.
Proof. by intros []. Defined.

#[export, refine] Instance operation_countable : Countable FileOperation :=
  inj_countable' (λ q, match q with upload => true | download => false end)
    (λ b : bool, if b then upload else download) _.
Proof. by intros []. Defined.

#[export, refine] Instance sync_countable : Countable SyncMode :=
  inj_countable' (λ q, match q with sync_full => true | sync_hash => false end)
    (λ b : bool, if b then sync_full else sync_hash) _.
Proof. by intros []. Defined.

#[export, refine] Instance method_countable : Countable WebHookMethod :=
  inj_countable' (λ m, match m with GET => 0 | POST => 1 | PUT => 2 | DELETE => 3 | PATCH => 4 end)
    (λ n, match n with 0 => GET | 1 => POST | 2 => PUT | 3 => DELETE | _ => PATCH end) _.
Proof. by intros []. Defined.

#[export, refine] Instance args_countable : Countable DriverConnectionArgs :=
  inj_countable' (λ a, (dc_device_type a, dc_host a, dc_username a, dc_password a, dc_extra a))
    (λ '(a, b, c, d, e), mkDriverConnectionArgs a b c d e) _.
Proof. by intros []. Defined.

#[export, refine] Instance credential_countable : Countable CredentialRef :=
  inj_countable' (λ r, (cr_name r, cr_ref r, cr_mount r, cr_version r, cr_field_mapping r, cr_namespace r))
    (λ '(a, b, c, d, e, f), mkCredentialRef a b c d e f) _.
Proof. by intros []. Defined.

#[export, refine] Instance payload_countable : Countable payload :=
  inj_countable' (λ p, match p with PayDict d => inl d | PayList l => inr (inl l) | PayStr s => inr (inr s) end)
    (λ x, match x with inl d => PayDict d | inr (inl l) => PayList l | inr (inr s) => PayStr s end) _.
Proof. by intros []. Defined.

#[export, refine] Instance transfer_countable : Countable FileTransferModel :=
  inj_countable' (λ f, (ft_operation f, ft_remote_path f, ft_local_path f, ft_overwrite f, ft_resume f,
      ft_recursive f, ft_sync_mode f, ft_chunk_size f, ft_chmod f, ft_execute_after_upload f,
      ft_execute_command f, ft_cleanup_after_exec f))
    (λ '(a, b, c, d, e, f, g, h, i, j, k, l), mkFileTransfer a b c d e f g h i j k l) _.
Proof. by intros []. Defined.

#[export, refine] Instance render_countable : Countable TemplateRenderRequest :=
  inj_countable' (λ r, (tr_name r, tr_template r, tr_context r, tr_extra r)) (λ '(a, b, c, d), mkRender a b c d) _.
Proof. by intros []. Defined.

#[export, refine] Instance parse_countable : Countable TemplateParseRequest :=
  inj_countable' (λ r, (tp_name r, tp_template r, tp_context r, tp_extra r)) (λ '(a, b, c, d), mkParse a b c d) _.
Proof. by intros []. Defined.

#[export, refine] Instance webhook_countable : Countable WebHook :=
  inj_countable' (λ h, (wh_name h, wh_url h, wh_method h, wh_headers h, wh_cookies h, wh_auth h,
      wh_timeout h, wh_max_retries h, wh_retry_intervals h))
    (λ '(a, b, c, d, e, f, g, h, i), mkWebHook a b c d e f g h i) _.
Proof. by intros []. Defined.

#[export, refine] Instance request_countable : Countable ExecutionRequest :=
  inj_countable' (λ r, (er_driver r, er_driver_args r, er_connection_args r, er_credential r, er_config r,
      er_command r, er_file_transfer r, er_rendering r, er_parsing r, er_queue_strategy r, er_ttl r,
      er_execution_timeout r, er_result_ttl r, er_audit_mode r, er_webhook r, er_detach r,
      er_push_interval r, er_staged_file_id r, er_id r, er_extra r))
    (λ '(a, b, c, d, e, f, g, h, i, j, k, l, m, n, o, p, q, r, s, t),
       mkExecutionRequest a b c d e f g h i j k l m n o p q r s t) _.
Proof. by intros []. Defined.

Lemma decode_text `{Countable A} (x : A) : (string_to_pos (pos_to_string (encode x)) ≫= decode) = Some x.
Proof. rewrite string_pos. apply decode_encode. Qed.

#[export, refine] Instance toy_request_json : RequestJson :=
  {| req_dump r := [("request", PStr (pos_to_string (encode r)))];
     req_load d := match dict_get "request" d with
                   | Some (PStr s) => match string_to_pos s ≫= decode with
                                      | Some r => Ok r
                                      | None => Err (ValidationError "request")
                                      end
                   | _ => Err (ValidationError "request")
                   end |}.
Proof.
  - intros _ r _. cbn [dict_get]. rewrite decide_True by reflexivity. by rewrite decode_text.
  - intros d. destruct (dict_get "request" d) as [[]|]; try by apply ordinary_Err.
    destruct (_ ≫= _); [done|by apply ordinary_Err].
Defined.

#[export, refine] Instance toy_http : Http Toy.world :=
  {| http_request hook b := raise (OtherError "ConnectionError" "no answer") |}.
Proof. all: intros; by auto with linux_net. Defined.

#[export] Instance toy_webhooks : Webhooks Toy.world := bundled_webhooks.
#[export] Instance toy_webhook_laws : WebhookLaws Toy.world := bundled_webhook_laws.

Definition hook : WebHook :=
  mkWebHook "basic" "http://example.org/" POST None None None 5000000 3 [5%Z; 30%Z].

Definition request (h : option WebHook) (staged : option string) (detach : bool) : ExecutionRequest :=
  mkExecutionRequest PARAMIKO None (mkDriverConnectionArgs None (Some "h1") None None []) None None
    (Some (PayStr "uptime")) None None None (Some FIFO) (Some 300%Z) None None audit_full h detach None
    staged None [].

Definition job (req : ExecutionRequest) : Job :=
  mkJob "job-1" (Some "started") "fifo" None None None None None None
    [("task_id", PStr "t1"); ("webhook_event_type", PStr "detached.log_push")] (kw_req req).

#[export] Instance toy_job : CurrentJob := Some (job (request (Some hook) None false)).

Definition w0 : Toy.world := Toy.empty 0 [].

(** The server never answers: four attempts, the last delay repeated. *)
Lemma retries_run : chain hook [] 1 [30%Z; 30%Z].
Proof.
  eapply (chain_retry _ _ _ w0); [vm_compute; reflexivity|].
  eapply (chain_retry _ _ _ w0); [vm_compute; reflexivity|].
  eapply (chain_end _ _ _ w0). vm_compute. reflexivity.
Defined.

Lemma webhook_retries_spec_witness :
  wh_retry_intervals hook ≠ [] ∧ chain hook [] 1 [30%Z; 30%Z]
  ∧ (1 + Z.of_nat (length [30%Z; 30%Z]) ≤ Z.max 1 (wh_max_retries hook))%Z.
Proof.
  split; [discriminate|]. split; [exact retries_run|].
  apply (webhook_retries_spec hook [] 1); [discriminate|lia|exact retries_run].
Defined.

(** A log push of a task nobody knows any more delivers nothing. *)
Lemma webhook_block_spec_witness :
  let req := request (Some hook) None true in
  (webhook_block (job req) req hook (RawReturn None) (Succeeded None) w0).2 = w0.
Proof.
  intros req.
  destruct (webhook_block_spec (job req) req hook (RawReturn None) (Succeeded None) w0)
    as (_ & _ & Hs & _).
  apply Hs; [reflexivity|]. right; right; left. vm_compute. reflexivity.
Defined.


(** Finding: without delays, the retry of a failed delivery raises. *)
Lemma no_delays_raise :
  (dispatch_webhook (mkWebHook "basic" "http://example.org/" POST None None None 5000000 3 []) [] 1 w0).1
  = Err (IndexError "list index out of range").
Proof. vm_compute. reflexivity. Qed.

Definition audited_config : Config :=
  mkConfig 1800 300 300 300 32 "linux_net:host_to_node_map" "linux_net:node_info_map"
    true "/app/storage/staging" 24 None "0.0.0.0" 9000.

(** Finding: a failed job is audited twice under one id. *)
Lemma failure_audited_twice :
  (queued (rpc_webhook_callback audited_config "/app" (Ok "host") (job (request None None false))
     (Failed (ValueError "no")) w0).2).*1 = ["AuditLogQ"; "AuditLogQ"].
Proof. vm_compute. reflexivity. Qed.

(** Finding: the metadata of a failed job loses every key its model does not
    know, here the event the supervisor asked for. *)
Lemma exception_drops_metadata :
  match (rpc_exception_callback default_config (job (request None None true)) (ValueError "no") w0).1 with
  | Ok (_, j) => dict_get "webhook_event_type" (job_meta j)
  | Err _ => None
  end = None.
Proof. vm_compute. reflexivity. Qed.
End ToyCallbacks.
