(* ===== verification/Supervisor.v ===== *)
(** * The supervisor of detached tasks

    [linux_net/services/supervisor.py]: one pass of its loop, which purges the
    registry, asks the workers for the logs of the tasks that are due, and
    cleans the staging directory.  The state is the world and what the
    supervisor object remembers. *)

From S2P Require Import Prelude PyLib Models Schedulers World Registry Manager Dispatch Tasks Storage AuditLog Rpc RpcCallbacks.

Record Supervisor := mkSupervisor {
  last_staging_cleanup : Z;
  _last_dispatch : list (string * Z);
}.

Definition _SUPERVISOR_LOCK_KEY : string := "linux_net:supervisor:lock".
Definition _SUPERVISOR_LOCK_TTL : Z := 5.

(** The staging directory, as the cleanup sees it: the entries of a directory
    with their modification times, and what removes them.  A removal touches no
    other entry of the directory. *)
Class Staging (W : Type) `{Files W} := {
  listdir : string → M W (list string);
  getmtime : string → string → M W Z;
  is_file_or_link : string → string → W → bool;
  is_dir : string → string → W → bool;
  remove_file : string → string → M W unit;
  rmtree : string → string → M W unit;
  mtime_of : string → string → W → option Z;
  listdir_ok : ∀ d w l w', listdir d w = (Ok l, w') →
    w' = w ∧ NoDup l ∧ ∀ f, f ∈ l ↔ is_some (mtime_of d f w);
  listdir_err : ∀ d w e w', listdir d w = (Err e, w') → w' = w ∧ is_exception e = true;
  getmtime_eq : ∀ d f w, getmtime d f w =
    (match mtime_of d f w with Some t => Ok t | None => Err (FileNotFoundError f) end, w);
  remove_file_safe : ∀ d f, safe (remove_file d f);
  rmtree_safe : ∀ d f, safe (rmtree d f);
  remove_file_other : ∀ d f f' w, f' ≠ f → mtime_of d f' (remove_file d f w).2 = mtime_of d f' w;
  rmtree_other : ∀ d f f' w, f' ≠ f → mtime_of d f' (rmtree d f w).2 = mtime_of d f' w;
  remove_file_gone : ∀ d f w u w', remove_file d f w = (Ok u, w') → mtime_of d f w' = None;
  rmtree_gone : ∀ d f w u w', rmtree d f w = (Ok u, w') → mtime_of d f w' = None;
  remove_file_hashes : ∀ d f w k, hashes (remove_file d f w).2 k = hashes w k;
  rmtree_hashes : ∀ d f w k, hashes (rmtree d f w).2 k = hashes w k;
}.
#[export] Hint Resolve remove_file_safe rmtree_safe : linux_net.

Section supervisor.
Context {W : Type} `{Json} `{Redis W} `{!Rq W} `{!Clock W} `{!Trace W} `{!Scheduler W} `{!Files W}
  `{!Staging W} `{!RequestJson}.
Context (c : Config) (interval : Z).

(** A computation on the world alone *)
Definition on_world {A} (m : M W A) : M (W * Supervisor) A :=
  λ s, let '(r, w) := m s.1 in (r, (w, s.2)).

Definition set_dispatch (task_id : string) (t : Z) (s : Supervisor) : Supervisor :=
  mkSupervisor (last_staging_cleanup s) (dict_set task_id t (_last_dispatch s)).
Definition pop_dispatch (task_id : string) (s : Supervisor) : Supervisor :=
  mkSupervisor (last_staging_cleanup s) (dict_pop task_id (_last_dispatch s)).
Definition set_cleanup (t : Z) (s : Supervisor) : Supervisor := mkSupervisor t (_last_dispatch s).

(** A number of seconds in arithmetic; a float is in millionths. *)
Definition micros (v : pyval) : res Z :=
  match v with
  | PInt z => Ok (seconds z)
  | PFloat z => Ok z
  | PBool b => Ok (if b then seconds 1 else 0%Z)
  | _ => Err (TypeError "unsupported operand type(s) for -")
  end.

(** ** Pushing the logs of a task *)

(** [command=...]: a payload, or nothing *)
Definition payload_of_val (v : pyval) : res (option payload) :=
  match v with
  | PNone => Ok None
  | PStr s => Ok (Some (PayStr s))
  | PDict d => Ok (Some (PayDict d))
  | PList l => l ← mapR (λ v, match v with PStr s => Ok s | _ => Err (ValidationError "command") end) l;
               Ok (Some (PayList l))
  | _ => Err (ValidationError "command")
  end.

(** [WebHook( **webhook_cfg) if webhook_cfg else None] *)
Definition webhook_of_val (v : pyval) : res (option WebHook) :=
  if negb (truthy v) then Ok None
  else match v with
       | PDict d => h ← WebHook_validate d; Ok (Some h)
       | _ => Err (TypeError "argument after ** must be a mapping")
       end.

(** The request the webhook callback will find *)
Definition dummy_request (m : metadata) (conn_arg : DriverConnectionArgs) : res ExecutionRequest :=
  webhook ← webhook_of_val (dict_get_or "webhook" PNone m);
  driver ← match dict_get_or "driver" (PStr "paramiko") m with
           | PStr s => match driver_of s with Some d => Ok d | None => Err (ValidationError "driver") end
           | _ => Err (ValidationError "driver")
           end;
  command ← payload_of_val (dict_get_or "command" (PStr "") m);
  ExecutionRequest.model_validate
    (mkExecutionRequest driver None conn_arg None None command None None None None (Some 300%Z) None None
       audit_full webhook true None None None []).

Definition push_args (m : metadata) (trigger_webhook : bool) : SendArgs :=
  mkSendArgs None None (Some 60%Z)
    (if trigger_webhook && truthy (dict_get_or "webhook" PNone m) then Some Models.rpc_webhook_callback else None)
    None.

Definition push_meta (task_id : string) (req : ExecutionRequest) : list (string * pyval) :=
  [("task_id", PStr task_id); ("req_payload", PDict (req_dump req));
   ("webhook_event_type", PStr "detached.log_push")].

Definition _trigger_push (task_id : string) (m : metadata) (trigger_webhook : bool)
    : M (W * Supervisor) unit :=
  try_except
    (conn_arg ← of_res (meta_conn_args m);
     dummy_req ← of_res (dummy_request m conn_arg);
     _ ← on_world (dispatch_rpc_job c conn_arg PINNED f_manage_detached_task
                     (kw_manage task_id "query" None) (push_args m trigger_webhook)
                     (Some (push_meta task_id dummy_req)));
     writes (λ s, (s.1, set_dispatch task_id (now s.1) s.2)))
    (λ _, mret tt).

(** ** The tasks *)

(** A completed task is purged after five minutes, a launch that hangs after ten. *)
Definition stale (t : Z) (m : metadata) : res bool :=
  if status_is "completed" m then
    last_sync ← micros (dict_get_or "last_sync" (PInt 0) m); Ok (seconds 300 <? t - last_sync)%Z
  else if status_is "launching" m then
    created_at ← micros (dict_get_or "created_at" (PFloat t) m); Ok (seconds 600 <? t - created_at)%Z
  else Ok false.

(** What is due for a task: a push with its webhook, a push without, or nothing *)
Definition due (t last_dispatch : Z) (m : metadata) : res (option bool) :=
  let push_interval := dict_get_or "push_interval" PNone m in
  if truthy push_interval then
    if negb (status_is "completed" m) then
      i ← micros push_interval; Ok (if (i <=? t - last_dispatch)%Z then Some true else None)
    else Ok None
  else if status_is "running" m && (seconds 600 <=? t - last_dispatch)%Z then Ok (Some false)
  else Ok None.

Definition check_task (t : Z) (x : string * metadata) : M (W * Supervisor) unit :=
  let '(task_id, m) := x in
  s ← of_res (stale t m);
  if s : bool then writes (λ s, (unregister task_id s.1, pop_dispatch task_id s.2))
  else
    d ← (λ s, (due t (default 0%Z (dict_get task_id (_last_dispatch s.2))) m, s));
    match d with
    | Some trigger_webhook => _trigger_push task_id m trigger_webhook
    | None => mret tt
    end.

Definition _check_tasks : M (W * Supervisor) unit :=
  tasks ← (λ s, (list_all s.1, s));
  t ← reads (λ s, now s.1);
  forM tasks (check_task t).

(** ** The staging directory *)
Definition remove_stale (d f : string) (count : nat) : M W nat :=
  try_except
    (λ w, if is_file_or_link d f w then (remove_file d f ≫= λ _, mret (S count)) w
          else if is_dir d f w then (rmtree d f ≫= λ _, mret (S count)) w
          else (Ok count, w))
    (λ _, mret count).

Fixpoint cleanup_loop (d : string) (ttl t : Z) (l : list string) (count : nat) : M W nat :=
  match l with
  | [] => mret count
  | f :: l =>
      mtime ← getmtime d f;
      if (ttl <? t - mtime)%Z then
        count ← remove_stale d f count;
        cleanup_loop d ttl t l count
      else cleanup_loop d ttl t l count
  end.

Definition _cleanup_staging : M W unit := λ w,
  let staging_dir := cfg_staging c in
  if negb (path_exists staging_dir w) then (Ok tt, w)
  else
    let t := now w in
    let ttl := seconds (cfg_retention_hours c * 3600) in
    try_except (l ← listdir staging_dir; cleanup_loop staging_dir ttl t l 0 ≫= λ _, mret tt)
      (λ _, mret tt) w.

(** ** One pass of the loop of [start] *)
Definition cleanup_interval : Z := 3600.

Definition step : M (W * Supervisor) unit :=
  try_except
    (acquired ← on_world (update (set_nx_ex _SUPERVISOR_LOCK_KEY "1" _SUPERVISOR_LOCK_TTL));
     if acquired : bool then
       t ← reads (λ s, now s.1);
       _check_tasks ≫= λ _,
       last ← reads (λ s, last_staging_cleanup s.2);
       if (seconds cleanup_interval <? t - last)%Z then
         on_world _cleanup_staging ≫= λ _,
         writes (λ s, (s.1, set_cleanup t s.2))
       else mret tt
     else mret tt)
    (λ _, mret tt) ≫= λ _,
  writes (λ s, (sleep interval s.1, s.2)).

(** [start], of what each test of [self.running] reads: [stop] clears it from
    another thread *)
Fixpoint start (running : list bool) : M (W * Supervisor) unit :=
  match running with
  | true :: running => step ≫= λ _, start running
  | _ => mret tt
  end.
End supervisor.

(** ** Theorems *)
Section theorems.
Context {W : Type} `{Json} `{Redis W} `{!Rq W} `{!Clock W} `{!Trace W} `{!Scheduler W} `{!Files W}
  `{!Staging W} `{!RequestJson}.
Context `{!SchedulerLaws W} `{!Quiet W calm}.
Context (c : Config) (interval : Z).
Context (key_differs : KEY ≠ cfg_host_to_node_map c ∧ KEY ≠ cfg_node_info_map c).
Implicit Types (w : W) (s : Supervisor) (m : metadata) (st : W * Supervisor).

Lemma meta_conn_args_ok m : ordinary (meta_conn_args m).
Proof.
  unfold meta_conn_args. repeat case_match; try (by apply ordinary_Err). apply conn_args_ordinary.
Qed.

Lemma webhook_validate_ordinary d : ordinary (WebHook_validate d).
Proof.
  unfold WebHook_validate, field_dict, field_pair.
  repeat (apply ordinary_bind; [ordinary_cases|intros ?]). ordinary_cases.
Qed.

Lemma dummy_request_ordinary m a : ordinary (dummy_request m a).
Proof.
  unfold dummy_request, webhook_of_val, payload_of_val.
  apply ordinary_bind; [|intros hook].
  { repeat case_match; try (by apply ordinary_Err); auto using webhook_validate_ordinary with linux_net. }
  apply ordinary_bind; [ordinary_cases|intros d].
  apply ordinary_bind; [|intros p; apply model_validate_ordinary].
  case_match; try (by apply ordinary_Err); auto with linux_net.
  apply ordinary_bind; [apply mapR_ordinary; intros v; ordinary_cases|done].
Qed.

(** What a push that was dispatched left behind *)
Definition pushed (task_id : string) (m : metadata) (hook : bool) w w' : Prop :=
  ∃ conn_arg req launched q sp, meta_conn_args m = Ok conn_arg ∧ dummy_request m conn_arg = Ok req
    ∧ queued w' = queued w ++ launched ++ [(q, sp)]
    ∧ js_func sp = f_manage_detached_task ∧ js_kwargs sp = kw_manage task_id "query" None
    ∧ dict_get "webhook_event_type" (js_meta sp) = Some (PStr "detached.log_push")
    ∧ dict_get "task_id" (js_meta sp) = Some (PStr task_id)
    ∧ (is_some (js_on_success sp) = hook && truthy (dict_get_or "webhook" PNone m)).

Lemma trigger_push_cases task_id m hook w s : ∃ w' s',
  _trigger_push c task_id m hook (w, s) = (Ok tt, (w', s'))
  ∧ hashes w' KEY = hashes w KEY
  ∧ (s' = s ∨ s' = set_dispatch task_id (now w') s ∧ pushed task_id m hook w w').
Proof.
  unfold _trigger_push, try_except, mbind, M_bind, of_res.
  pose proof (meta_conn_args_ok m) as Hc. destruct (meta_conn_args m) as [conn|e] eqn:Ec;
    [|rewrite (Hc e) by done; exists w, s; split_and!; auto].
  pose proof (dummy_request_ordinary m conn) as Hd. destruct (dummy_request m conn) as [req|e] eqn:Ed;
    [|rewrite (Hd e) by done; exists w, s; split_and!; auto].
  unfold on_world, writes. simpl fst. simpl snd.
  destruct (dispatch_effect c conn PINNED f_manage_detached_task (kw_manage task_id "query" None)
    (push_args m hook) (Some (push_meta task_id req)) w) as [He Hh].
  specialize (Hh KEY (proj1 key_differs) (proj2 key_differs)).
  destruct (dispatch_rpc_job _ _ _ _ _ _ _ w) as [[r|e] w1]; simpl in *.
  - destruct He as (_ & l & q & sp & Hq & Hf & Hk & Hm & Hcb & _). eexists _, _. split; [done|]. split; [done|].
    right. split; [done|]. exists conn, req, l, q, sp. split_and!; try done.
    + by rewrite Hm.
    + by rewrite Hm.
    + rewrite Hcb. unfold push_args; simpl. by destruct (_ && _).
  - rewrite (proj1 He). exists w1, s. split_and!; auto.
Qed.

(** The metadata holds numbers where the supervisor computes with them. *)
Definition numeric (v : pyval) : bool := is_ok (micros v).
Definition timed (t : Z) m : Prop :=
  numeric (dict_get_or "last_sync" (PInt 0) m) = true
  ∧ numeric (dict_get_or "created_at" (PFloat t) m) = true
  ∧ (truthy (dict_get_or "push_interval" PNone m) = true →
     numeric (dict_get_or "push_interval" PNone m) = true).

Definition micros_of (v : pyval) : Z := match micros v with Ok z => z | Err _ => 0%Z end.

(** A task that is to be purged at time [t] *)
Definition purged (t : Z) (o : option metadata) : bool :=
  match o with
  | Some m =>
      (status_is "completed" m
       && (300 * 1000000 <? t - micros_of (dict_get_or "last_sync" (PInt 0) m))%Z)
      || (status_is "launching" m
          && (600 * 1000000 <? t - micros_of (dict_get_or "created_at" (PFloat t) m))%Z)
  | None => false
  end.

(** A task that is to be pushed at time [t], when it was last at [last] *)
Definition push_due (t last : Z) (o : option metadata) : bool :=
  match o with
  | Some m =>
      let interval := dict_get_or "push_interval" PNone m in
      if truthy interval then negb (status_is "completed" m) && (micros_of interval <=? t - last)%Z
      else status_is "running" m && (600 * 1000000 <=? t - last)%Z
  | None => false
  end.

Lemma status_excl m : status_is "completed" m = true → status_is "launching" m = false.
Proof.
  unfold status_is. intros Hc%bool_decide_eq_true. apply bool_decide_eq_false_2. by rewrite Hc.
Qed.

Lemma stale_eq t m : timed t m → stale t m = Ok (purged t (Some m)).
Proof.
  intros (Hl & Hc & _). unfold stale, purged, micros_of, numeric in *.
  destruct (status_is "completed" m) eqn:E; [rewrite (status_excl m E)|].
  - destruct (micros (dict_get_or "last_sync" _ m)); [|done]. simpl. by rewrite orb_false_r.
  - destruct (status_is "launching" m); [|done].
    by destruct (micros (dict_get_or "created_at" _ m)).
Qed.

Lemma due_eq t last m : timed t m → ∃ d, due t last m = Ok d ∧ is_some d = push_due t last (Some m).
Proof.
  intros (_ & _ & Hi). unfold due, push_due, micros_of, numeric in *. cbv zeta.
  destruct (truthy (dict_get_or "push_interval" PNone m)).
  - specialize (Hi eq_refl). destruct (status_is "completed" m); [by eexists|]. cbn [negb andb].
    destruct (micros _) as [z|]; [|done]. eexists. split; [done|]. by destruct (z <=? _)%Z.
  - destruct (status_is "running" m); [|by eexists]. cbn [andb]. change (seconds 600) with (600 * 1000000)%Z.
    destruct (_ <=? _)%Z; by eexists.
Qed.

(** How the time of a task's last push may change in a pass at time [t] *)
Definition dispatch_rel (t : Z) (o : option metadata) (d d' : option Z) : Prop :=
  if purged t o then d' = None
  else d' = d ∨ push_due t (default 0%Z d) o = true ∧ ∃ w, d' = Some (now w).

Lemma check_task_cases t id m w s : timed t m → ∃ w' s',
  check_task c t (id, m) (w, s) = (Ok tt, (w', s'))
  ∧ if purged t (Some m) then w' = unregister id w ∧ s' = pop_dispatch id s
    else hashes w' KEY = hashes w KEY
         ∧ (s' = s ∨ push_due t (default 0%Z (dict_get id (_last_dispatch s))) (Some m) = true
                     ∧ s' = set_dispatch id (now w') s).
Proof.
  intros Ht. unfold check_task, mbind, M_bind, of_res. rewrite stale_eq by done.
  destruct (purged t (Some m)); [by eexists _, _|]. cbn [fst snd].
  destruct (due_eq t (default 0%Z (dict_get id (_last_dispatch s))) m Ht) as (d & -> & Hd).
  destruct d as [hook|]; [|by exists w, s; auto].
  destruct (trigger_push_cases id m hook w s) as (w' & s' & -> & Hh & Hs').
  exists w', s'. split_and!; [done..|]. destruct Hs' as [?|[? _]]; auto.
Qed.

Lemma check_task_state t id m w s w' s' : timed t m → registry_ok w → NoDup (_last_dispatch s).*1 →
  check_task c t (id, m) (w, s) = (Ok tt, (w', s')) →
  registry_ok w' ∧ NoDup (_last_dispatch s').*1 ∧ last_staging_cleanup s' = last_staging_cleanup s
  ∧ (∀ id', id' ≠ id → get id' w' = get id' w
       ∧ dict_get id' (_last_dispatch s') = dict_get id' (_last_dispatch s))
  ∧ get id w' = (if purged t (Some m) then Ok None else get id w)
  ∧ dispatch_rel t (Some m) (dict_get id (_last_dispatch s)) (dict_get id (_last_dispatch s')).
Proof.
  intros Ht Hok Hnd E. destruct (check_task_cases t id m w s Ht) as (w1 & s1 & E' & Hc).
  rewrite E in E'. injection E' as <- <-. unfold dispatch_rel. destruct (purged t (Some m)).
  - destruct Hc as [-> ->]. pose proof (λ i, unregister_get id w i Hok) as Hu. split_and!.
    + apply (Hu id).
    + by apply dict_pop_NoDup.
    + done.
    + intros id' Hne. split; [|by apply dict_get_pop_ne]. destruct (Hu id') as [_ ->].
      by rewrite decide_False.
    + destruct (Hu id) as [_ ->]. by rewrite decide_True.
    + by apply dict_get_pop_eq.
  - destruct Hc as [Hh Hs]. destruct (registry_same w w' Hh) as [Hok' Hg].
    assert (s' = s ∨ s' = set_dispatch id (now w') s) as Hs' by naive_solver.
    split; [by apply Hok'|]. split_and!.
    + destruct Hs' as [->| ->]; [done|]. by apply dict_set_NoDup.
    + by destruct Hs' as [->| ->].
    + intros id' Hne. split; [done|]. destruct Hs' as [->| ->]; [done|]. by apply dict_get_set_ne.
    + done.
    + destruct Hs as [->|[? ->]]; [by left|right]. split; [done|]. exists w'. apply dict_get_set_eq.
Qed.

Lemma check_loop t l : NoDup l.*1 → (∀ id m, (id, m) ∈ l → timed t m) → ∀ w s,
  registry_ok w → NoDup (_last_dispatch s).*1 → ∃ w' s',
  forM l (check_task c t) (w, s) = (Ok tt, (w', s'))
  ∧ registry_ok w' ∧ NoDup (_last_dispatch s').*1
  ∧ last_staging_cleanup s' = last_staging_cleanup s
  ∧ ∀ id, get id w' = (if purged t (dict_get id l) then Ok None else get id w)
      ∧ dispatch_rel t (dict_get id l) (dict_get id (_last_dispatch s)) (dict_get id (_last_dispatch s')).
Proof.
  intros Hnd Ht. induction l as [|[id m] l IH]; intros w s Hok Hs.
  { exists w, s. split_and!; [done..|]. intros i. split; [done|by left]. }
  rewrite fmap_cons, NoDup_cons in Hnd. destruct Hnd as [Hni Hnd].
  assert (timed t m) as Htm by (apply (Ht id); set_solver).
  destruct (check_task_cases t id m w s Htm) as (w1 & s1 & E & _).
  destruct (check_task_state t id m w s w1 s1 Htm Hok Hs E) as (Hok1 & Hs1 & Hl1 & Ho & Hg & Hd).
  destruct (IH Hnd ltac:(set_solver) w1 s1 Hok1 Hs1) as (w' & s' & E' & Hok' & Hs' & Hl' & Hall).
  exists w', s'. split; [cbn [forM]; unfold mbind, M_bind; by rewrite E|].
  split_and!; [done|done|congruence|]. intros i. cbn [dict_get]. destruct (Hall i) as [Hgi Hdi].
  case_decide as Ei.
  - subst i. assert (dict_get id l = None) as En by (by apply dict_get_None).
    rewrite En in Hgi, Hdi. destruct Hdi as [Hdi|[? _]]; [|done]. simpl in Hgi. by rewrite Hgi, Hdi.
  - destruct (Ho i) as [<- <-]; [done|]. done.
Qed.

(** C14. A pass over the tasks.  It purges exactly the tasks completed more than
    five minutes ago and the launches that hang for more than ten; it changes
    no other entry of the registry.  A push is sent only for a task that is
    due: with a push interval, when that much time has passed since its last
    push and it is not completed; without one, when it is running and was not
    asked for ten minutes.  The time of a push is remembered, and forgotten
    with the task. *)
Theorem check_tasks_spec w s : registry_ok w → NoDup (_last_dispatch s).*1 →
  (∀ id m, get id w = Ok (Some m) → timed (now w) m) →
  ∃ tasks w' s', list_all w = Ok tasks
    ∧ _check_tasks c (w, s) = (Ok tt, (w', s'))
    ∧ registry_ok w' ∧ NoDup (_last_dispatch s').*1
    ∧ ∀ id, get id w' = (if purged (now w) (dict_get id tasks) then Ok None else get id w)
      ∧ get id w = Ok (dict_get id tasks)
      ∧ dispatch_rel (now w) (dict_get id tasks)
          (dict_get id (_last_dispatch s)) (dict_get id (_last_dispatch s')).
Proof.
  intros Hok Hs Ht. destruct (list_all_get w Hok) as (tasks & El & Hnd & Hg).
  destruct (check_loop (now w) tasks Hnd) with (w := w) (s := s) as (w' & s' & E & Hok' & Hs' & _ & Hall).
  - intros id m Hin. apply (Ht id). rewrite Hg. by rewrite (dict_elem_of_get id m).
  - done.
  - done.
  - exists tasks, w', s'. split; [done|]. split.
    { unfold _check_tasks, reads, mbind, M_bind. simpl. by rewrite El. }
    split_and!; [done..|]. intros id. destruct (Hall id). by split_and!.
Qed.

(** A push: one job on a queue, which asks a worker to read the logs of this
    task, says whose logs they are and that they are a log push, and calls the
    webhook only when asked to and when the task has one.  What goes wrong is
    dropped, and only a push that was queued is remembered.  The registry, which
    the job itself will update, is left alone. *)
Theorem trigger_push_spec task_id m hook w s : ∃ w' s',
  _trigger_push c task_id m hook (w, s) = (Ok tt, (w', s'))
  ∧ (∀ id, get id w' = get id w)
  ∧ (s' = s
     ∨ s' = set_dispatch task_id (now w') s
       ∧ ∃ conn_arg req launched q sp, meta_conn_args m = Ok conn_arg ∧ dummy_request m conn_arg = Ok req
         ∧ queued w' = queued w ++ launched ++ [(q, sp)]
         ∧ js_func sp = f_manage_detached_task ∧ js_kwargs sp = kw_manage task_id "query" None
         ∧ dict_get "webhook_event_type" (js_meta sp) = Some (PStr "detached.log_push")
         ∧ dict_get "task_id" (js_meta sp) = Some (PStr task_id)
         ∧ is_some (js_on_success sp) = hook && truthy (dict_get_or "webhook" PNone m)).
Proof.
  destruct (trigger_push_cases task_id m hook w s) as (w' & s' & E & Hh & Hs).
  exists w', s'. split; [done|]. split; [apply (registry_same w w' Hh)|]. exact Hs.
Qed.

(** ** The staging directory *)
Definition removable d f w : bool :=
  if is_file_or_link d f w then is_ok (remove_file d f w).1
  else is_dir d f w && is_ok (rmtree d f w).1.

Lemma remove_entry d f count w : ∃ n w',
  remove_stale d f count w = (Ok n, w')
  ∧ (∀ k, hashes w' k = hashes w k)
  ∧ (∀ f', f' ≠ f → mtime_of d f' w' = mtime_of d f' w)
  ∧ (removable d f w = true → mtime_of d f w' = None).
Proof.
  unfold removable, remove_stale, try_except, mbind, M_bind. destruct (is_file_or_link d f w).
  - pose proof (remove_file_safe d f w) as Hs. pose proof (remove_file_hashes d f w) as Hh.
    pose proof (λ f', remove_file_other d f f' w) as Ho. pose proof (remove_file_gone d f w) as Hg.
    destruct (remove_file d f w) as [[u|e] w1]; simpl in *; [by eauto 9|].
    rewrite (Hs e) by done. exists count, w1. by split_and!.
  - destruct (is_dir d f w); [|by exists count, w].
    pose proof (rmtree_safe d f w) as Hs. pose proof (rmtree_hashes d f w) as Hh.
    pose proof (λ f', rmtree_other d f f' w) as Ho. pose proof (rmtree_gone d f w) as Hg.
    destruct (rmtree d f w) as [[u|e] w1]; simpl in *; [by eauto 9|].
    rewrite (Hs e) by done. exists count, w1. by split_and!.
Qed.

Definition old (ttl t : Z) d f w : Prop := ∃ tm, mtime_of d f w = Some tm ∧ (ttl < t - tm)%Z.

Lemma cleanup_loop_spec d ttl t l count w : NoDup l →
  let out := cleanup_loop d ttl t l count w in
  ordinary out.1 ∧ (∀ k, hashes out.2 k = hashes w k)
  ∧ (∀ f, ¬ old ttl t d f w → mtime_of d f out.2 = mtime_of d f w)
  ∧ ((∀ f w, removable d f w = true) → (∀ f, f ∈ l → is_some (mtime_of d f w) = true) →
       ∀ f, f ∈ l → old ttl t d f w → mtime_of d f out.2 = None).
Proof.
  intros Hnd. revert count w. induction Hnd as [|f l Hni Hnd IH]; intros count w.
  { split_and!; try done. set_solver. }
  cbn [cleanup_loop]. unfold mbind, M_bind. rewrite getmtime_eq.
  destruct (mtime_of d f w) as [tm|] eqn:Em.
  2:{ cbn. split_and!; [by apply ordinary_Err|done|done|].
      intros _ Hall. specialize (Hall f ltac:(set_solver)). by rewrite Em in Hall. }
  destruct (Z.ltb_spec ttl (t - tm)) as [Hlt|Hge].
  - destruct (remove_entry d f count w) as (n & w1 & -> & Hh1 & Ho1 & Hg1).
    destruct (IH n w1) as (Hs & Hh & Hk & Hr). split_and!; [done|intros k; by rewrite Hh| |].
    + intros f' Hf'. assert (f' ≠ f) by (intros ->; apply Hf'; by exists tm).
      rewrite Hk; [by apply Ho1|]. unfold old. by rewrite Ho1.
    + intros Hrem Hall f' Hin Hold. destruct (decide (f' = f)) as [->|Hne].
      * rewrite Hk; [by apply Hg1|]. intros (? & Hn & _). by rewrite Hg1 in Hn.
      * apply Hr; [done| |set_solver|unfold old; by rewrite Ho1].
        intros g Hg. rewrite Ho1; [apply Hall; set_solver|set_solver].
  - destruct (IH count w) as (Hs & Hh & Hk & Hr). split_and!; [done|done|done|].
    intros Hrem Hall f' [->|Hin]%elem_of_cons Hold; [|apply Hr; [done|set_solver|done|done]].
    destruct Hold as (? & ? & ?). simplify_eq. lia.
Qed.

Lemma cleanup_staging_cases w : ∃ w', _cleanup_staging c w = (Ok tt, w')
  ∧ (∀ k, hashes w' k = hashes w k)
  ∧ let d := cfg_staging c in let ttl := seconds (cfg_retention_hours c * 3600) in
    (∀ f, ¬ old ttl (now w) d f w → mtime_of d f w' = mtime_of d f w)
    ∧ (path_exists d w = true → is_ok (listdir d w).1 = true → (∀ f w, removable d f w = true) →
       ∀ f, old ttl (now w) d f w → mtime_of d f w' = None).
Proof.
  unfold _cleanup_staging. cbv zeta. destruct (path_exists (cfg_staging c) w); [|by exists w; cbn].
  cbn [negb]. unfold try_except, mbind, M_bind.
  pose proof (listdir_ok (cfg_staging c) w) as Hl. pose proof (listdir_err (cfg_staging c) w) as He.
  destruct (listdir (cfg_staging c) w) as [[l|e] w1].
  2:{ destruct (He _ _ eq_refl) as [-> ->]. by exists w. }
  destruct (Hl _ _ eq_refl) as (-> & Hnd & Hin).
  pose proof (cleanup_loop_spec (cfg_staging c) (seconds (cfg_retention_hours c * 3600)) (now w) l 0 w Hnd)
    as (Hs & Hh & Hk & Hr).
  destruct (cleanup_loop _ _ _ _ _ w) as [r w2]. cbn [fst snd] in *. exists w2.
  split; [destruct r as [n|e]; [done|by rewrite (Hs e)]|]. split_and!; [done|done|].
  intros _ _ Hrem f Hold. apply Hr; [done| | |done].
  - intros g Hg. destruct (mtime_of (cfg_staging c) g w) eqn:E; [done|]. apply Hin in Hg. by rewrite E in Hg.
  - apply Hin. destruct Hold as (tm & -> & _). done.
Qed.

Lemma micros_ordinary v : ordinary (micros v).
Proof. unfold micros. ordinary_cases. Qed.

Lemma check_tasks_safe : safe (_check_tasks c).
Proof.
  unfold _check_tasks. apply safe_bind; [apply safe_reads_res; auto with linux_net|]. intros tasks.
  apply safe_bind; [apply safe_reads|]. intros t. induction tasks as [|[id m] l IH]; [done|].
  apply safe_bind; [|done]. unfold check_task. apply safe_bind.
  - apply safe_of_res. unfold stale. repeat case_match; auto using micros_ordinary with linux_net.
  - intros b. destruct b; [done|]. apply safe_bind.
    + apply safe_reads_res. intros s. unfold due. cbv zeta.
      repeat case_match; auto using micros_ordinary with linux_net.
    + intros [hook|]; [|done]. intros [w s].
      by destruct (trigger_push_cases id m hook w s) as (w' & s' & -> & _).
Qed.

(** The supervisor's loop survives every failure, and each pass sleeps.
    Without the lock a pass does nothing else.  With it the tasks are checked;
    the staging directory is cleaned when an hour has passed since the last
    time, and only if the tasks could be checked.  A cleaning keeps whatever is
    not older than the retention and, when removal is possible, removes the
    rest; it does not touch what is stored. *)
Theorem supervisor_step_spec w s :
  let '(acquired, w1) := set_nx_ex _SUPERVISOR_LOCK_KEY "1" _SUPERVISOR_LOCK_TTL w in
  let '(r, (w2, s2)) := if acquired then _check_tasks c (w1, s) else (Ok tt, (w1, s)) in
  ∃ w' s', step c interval (w, s) = (Ok tt, (sleep interval w', s'))
    ∧ (∀ k, hashes w' k = hashes w2 k)
    ∧ if acquired && is_ok r && (seconds cleanup_interval <? now w1 - last_staging_cleanup s2)%Z then
        s' = set_cleanup (now w1) s2
        ∧ let d := cfg_staging c in let ttl := seconds (cfg_retention_hours c * 3600) in
          (∀ f, ¬ old ttl (now w2) d f w2 → mtime_of d f w' = mtime_of d f w2)
          ∧ (path_exists d w2 = true → is_ok (listdir d w2).1 = true →
             (∀ f w, removable d f w = true) → ∀ f, old ttl (now w2) d f w2 → mtime_of d f w' = None)
      else w' = w2 ∧ s' = s2.
Proof.
  unfold step, try_except, on_world, update, reads, mbind, M_bind, writes. cbn [fst snd].
  destruct (set_nx_ex _ _ _ w) as [acquired w1]. cbn [fst snd]. destruct acquired; cbn [andb].
  2:{ by exists w1, s. }
  pose proof (check_tasks_safe (w1, s)) as Hr.
  destruct (_check_tasks c (w1, s)) as [[[]|e] [w2 s2]]; cbn [is_ok fst snd] in *.
  - destruct (Z.ltb_spec (seconds cleanup_interval) (now w1 - last_staging_cleanup s2)).
    + cbn [fst snd]. destruct (cleanup_staging_cases w2) as (w3 & -> & Hh & Hk & Hg). cbn [fst snd].
      exists w3, (set_cleanup (now w1) s2). split; [done|]. by split_and!.
    + by exists w2, s2.
  - rewrite (Hr e) by done. by exists w2, s2.
Qed.
Lemma step_returns x : (step c interval x).1 = Ok tt.
Proof.
  destruct x as [w s]. pose proof (supervisor_step_spec w s) as Hs. destruct (set_nx_ex _ _ _ w) as [acquired w1].
  destruct (if acquired then _ else _) as [r [w2 s2]]. by destruct Hs as (w' & s' & -> & _).
Qed.

(** The passes before a test finds the flag cleared *)
Fixpoint passes (running : list bool) : nat :=
  match running with true :: running => S (passes running) | _ => 0 end.

(** The supervisor's thread ends when it is told to and never before: no
    failure of a pass stops it. *)
Theorem start_spec running x :
  start c interval running x = (Ok tt, Nat.iter (passes running) (λ x, (step c interval x).2) x).
Proof.
  revert x. induction running as [|[] running IH]; intros x; [done| |done]. cbn [start passes].
  rewrite Nat.iter_succ_r. unfold mbind, M_bind. pose proof (step_returns x) as Hx.
  destruct (step c interval x) as [r x']. cbn in Hx. subst r. apply IH.
Qed.
End theorems.

(** ** Examples: two old files and one task that is over *)
Module ToySupervisor.
Import ToyCallbacks.

Definition remove (f : string) (w : Toy.world) : Toy.world :=
  Toy.set_files (filter (λ g, g ≠ f) (Toy.t_files w)) w.

#[export, refine] Instance toy_staging : Staging Toy.world :=
  {| listdir d w := (Ok (remove_dups (Toy.t_files w)), w);
     getmtime d f w := (if decide (f ∈ Toy.t_files w) then Ok 0%Z else Err (FileNotFoundError f), w);
     is_file_or_link d f w := true;
     is_dir d f w := false;
     remove_file d f w := (Ok tt, remove f w);
     rmtree d f w := (Ok tt, remove f w);
     mtime_of d f w := if decide (f ∈ Toy.t_files w) then Some 0%Z else None |}.
Proof.
  all: try done.
  - intros d w l w' [= <- <-]. split; [done|]. split; [apply NoDup_remove_dups|].
    intros f. rewrite elem_of_remove_dups. by case_decide.
  - intros d f w. by case_decide.
  - intros d f f' w Hne. simpl. repeat case_decide; rewrite ?list_elem_of_filter in *; naive_solver.
  - intros d f f' w Hne. simpl. repeat case_decide; rewrite ?list_elem_of_filter in *; naive_solver.
  - intros d f w u w' [= _ <-]. simpl. case_decide; rewrite ?list_elem_of_filter in *; naive_solver.
  - intros d f w u w' [= _ <-]. simpl. case_decide; rewrite ?list_elem_of_filter in *; naive_solver.
Defined.

(** One task running, one completed long ago *)
Definition over_meta : metadata := [("status", PStr "completed"); ("last_sync", PFloat 0)].
Definition two_tasks : Toy.world :=
  Toy.set_time (seconds 400) (Toy.set_files ["old.bin"]
    (hset KEY "t2" (dumps (PDict over_meta)) (toy_task []))).

Definition fresh : Supervisor := mkSupervisor 0 [("t1", seconds 399); ("t2", 7%Z)].

Lemma two_tasks_get t s : hget KEY t two_tasks = Some s →
  (t = "t1" ∧ s = dumps (PDict task_meta)) ∨ (t = "t2" ∧ s = dumps (PDict over_meta)).
Proof.
  change (hget KEY t two_tasks) with
    (hget KEY t (hset KEY "t2" (dumps (PDict over_meta))
       (hset KEY "t1" (dumps (PDict task_meta)) toy_cluster))).
  rewrite !hget_hset. destruct (decide _) as [[_ ->]|_].
  { intros Hs%(inj Some). right. split; [reflexivity|exact (eq_sym Hs)]. }
  destruct (decide _) as [[_ ->]|_].
  { intros Hs%(inj Some). left. split; [reflexivity|exact (eq_sym Hs)]. }
  rewrite toy_cluster_empty. discriminate.
Qed.

Lemma two_tasks_ok : registry_ok two_tasks.
Proof. intros t s [[_ ->]|[_ ->]]%two_tasks_get; eauto. Qed.

Lemma two_tasks_have : get "t1" two_tasks = Ok (Some task_meta) ∧ get "t2" two_tasks = Ok (Some over_meta).
Proof. split; (apply registry_ok_get; [exact two_tasks_ok|vm_compute; reflexivity]). Qed.

Lemma metas_timed t : timed t task_meta ∧ timed t over_meta.
Proof. split; split_and!; (reflexivity || discriminate). Qed.

Lemma two_tasks_timed t m : get t two_tasks = Ok (Some m) → timed (now two_tasks) m.
Proof.
  rewrite registry_ok_get by exact two_tasks_ok. generalize (now two_tasks). intros n.
  intros [[_ Hm]|[_ Hm]]%two_tasks_get; apply (f_equal loads) in Hm; rewrite !loads_dumps in Hm;
    injection Hm as ->; apply metas_timed.
Qed.

(** The completed task is purged with what was remembered of it; the running
    one was asked a second ago and is left alone. *)
Lemma check_tasks_spec_witness :
  ∃ w' s', _check_tasks default_config (two_tasks, fresh) = (Ok tt, (w', s'))
    ∧ get "t2" w' = Ok None ∧ dict_get "t2" (_last_dispatch s') = None
    ∧ get "t1" w' = get "t1" two_tasks ∧ dict_get "t1" (_last_dispatch s') = Some (seconds 399).
Proof.
  destruct (check_tasks_spec default_config default_key_differs two_tasks fresh two_tasks_ok)
    as (tasks & w' & s' & Hl & Hc & _ & _ & Hg).
  - apply (bool_decide_unpack _). vm_compute. exact I.
  - exact two_tasks_timed.
  - exists w', s'. split; [exact Hc|].
    destruct two_tasks_have as [T1 T2].
    assert (dict_get "t1" tasks = Some task_meta) as H1
      by (destruct (Hg "t1") as (_ & Ht & _); rewrite T1 in Ht; congruence).
    assert (dict_get "t2" tasks = Some over_meta) as H2
      by (destruct (Hg "t2") as (_ & Ht & _); rewrite T2 in Ht; congruence).
    destruct (Hg "t1") as (G1 & _ & D1), (Hg "t2") as (G2 & _ & D2).
    rewrite H1 in G1, D1. rewrite H2 in G2, D2. destruct D1 as [D1|[D1 _]]; [|discriminate].
    split_and!; [exact G2|exact D2|exact G1|exact D1].
Defined.

Lemma trigger_push_spec_witness :
  ∃ w' s', _trigger_push default_config "t1" task_meta true (two_tasks, fresh) = (Ok tt, (w', s'))
    ∧ get "t1" w' = get "t1" two_tasks.
Proof.
  destruct (trigger_push_spec default_config default_key_differs "t1" task_meta true two_tasks fresh)
    as (w' & s' & E & Hg & _).
  exists w', s'. split; [exact E|apply Hg].
Defined.

(** The first pass, with the lock *)
Lemma supervisor_step_spec_witness :
  ∃ w' s', step default_config 1000000 (two_tasks, fresh) = (Ok tt, (sleep 1000000 w', s')).
Proof.
  pose proof (supervisor_step_spec default_config 1000000 default_key_differs two_tasks fresh) as Hs.
  destruct (set_nx_ex _ _ _ two_tasks) as [[] w1].
  - destruct (_check_tasks _ _) as [r [w2 s2]]. destruct Hs as (w' & s' & E & _). exists w', s'. exact E.
  - destruct Hs as (w' & s' & E & _). exists w', s'. exact E.
Defined.
End ToySupervisor.
