(* ===== verification/Shell.v ===== *)
(** * Shell commands

    [shlex.quote], the way a POSIX shell reads words, and the pieces of command
    lines the Paramiko driver builds
    ([linux_net/plugins/drivers/paramiko/__init__.py]): environment exports,
    [sudo], detached launches, and the output it takes apart. *)

From Stdlib Require Import Ascii.
From S2P Require Import Prelude PyLib.

(** ** [shlex.quote] *)
Definition single : ascii := "'"%char.
Definition double : ascii := ascii_of_nat 34.
Definition backslash : ascii := ascii_of_nat 92.

(** A quote in a quoted string: close, a quote in double quotes, open again *)
Definition escaped_single : string :=
  String single (String double (String single (String double (String single EmptyString)))).

Definition is_alnum (a : ascii) : bool :=
  let n := nat_of_ascii a in
  (48 <=? n) && (n <=? 57) || (65 <=? n) && (n <=? 90) || (97 <=? n) && (n <=? 122).

Definition safe_char (a : ascii) : bool := is_alnum a || has_char a "_@%+=:,./-".

Fixpoint all_safe (s : string) : bool :=
  match s with EmptyString => true | String a s => safe_char a && all_safe s end.

Definition wrap (q : ascii) (s : string) : string := String q (s +:+ String q EmptyString).

Definition shlex_quote (s : string) : string :=
  if String.eqb s "" then wrap single ""
  else if all_safe s then s
  else wrap single (replace_char single escaped_single s).

(** ** How a shell reads words

    POSIX quoting: within single quotes every character stands for itself;
    within double quotes too, but for the dollar, the backquote and the
    backslash; a backslash outside quotes quotes the next character.  [None]
    is a line that is more than a list of words. *)
Inductive quoting := Plain | Single | Double.

Definition is_meta (a : ascii) : bool := has_char a "|&;<>()$`*?[#~!{}" || is_line_end a.
Definition is_blank (a : ascii) : bool := (nat_of_ascii a =? 32) || (nat_of_ascii a =? 9).

Definition add_char (acc : option string) (a : ascii) : option string :=
  Some (default "" acc +:+ String a EmptyString).

Definition flush (acc : option string) (l : list string) : list string :=
  match acc with Some w => w :: l | None => l end.

Fixpoint words_from (q : quoting) (acc : option string) (s : string) : option (list string) :=
  match s with
  | EmptyString => match q with Plain => Some (flush acc []) | _ => None end
  | String a s =>
      match q with
      | Plain =>
          if Ascii.eqb a single then words_from Single (Some (default "" acc)) s
          else if Ascii.eqb a double then words_from Double (Some (default "" acc)) s
          else if Ascii.eqb a backslash then
            match s with
            | String b s => if is_line_end b then None else words_from Plain (add_char acc b) s
            | EmptyString => None
            end
          else if is_blank a then l ← words_from Plain None s; Some (flush acc l)
          else if is_meta a then None
          else words_from Plain (add_char acc a) s
      | Single =>
          if Ascii.eqb a single then words_from Plain acc s else words_from Single (add_char acc a) s
      | Double =>
          if Ascii.eqb a double then words_from Plain acc s
          else if has_char a "$`" || Ascii.eqb a backslash then None
          else words_from Double (add_char acc a) s
      end
  end.

Definition words (s : string) : option (list string) := words_from Plain None s.

Example words_quotes : words ("a 'b c'" +:+ String double ("d e" +:+ String double " f")) = Some ["a"; "b cd e"; "f"].
Proof. reflexivity. Qed.

Lemma add_char_app acc a s : default "" (add_char acc a) +:+ s = default "" acc +:+ String a s.
Proof. simpl. by rewrite string_app_assoc. Qed.

(** Text without a quote is taken as it is within single quotes. *)
Lemma words_single s : ∀ acc rest, has_char single s = false →
  words_from Single (Some acc) (s +:+ rest) = words_from Single (Some (acc +:+ s)) rest.
Proof.
  induction s as [|a s IH]; intros acc rest Hs; [by rewrite string_app_nil|].
  cbn [has_char] in Hs. apply orb_false_elim in Hs as [Ha Hs].
  change (String a s +:+ rest) with (String a (s +:+ rest)). cbn [words_from]. rewrite Ha.
  unfold add_char. cbn [default]. rewrite IH by done. by rewrite string_app_assoc.
Qed.

Lemma words_escaped acc rest :
  words_from Single (Some acc) (escaped_single +:+ rest)
  = words_from Single (Some (acc +:+ String single EmptyString)) rest.
Proof. reflexivity. Qed.

Lemma words_replaced s : ∀ acc rest,
  words_from Single (Some acc) (replace_char single escaped_single s +:+ rest)
  = words_from Single (Some (acc +:+ s)) rest.
Proof.
  induction s as [|a s IH]; intros acc rest; [by rewrite string_app_nil|].
  cbn [replace_char]. destruct (Ascii.eqb a single) eqn:Ea.
  - apply Ascii.eqb_eq in Ea as ->. rewrite string_app_assoc, words_escaped, IH.
    by rewrite string_app_assoc.
  - change (String a ?t +:+ rest) with (String a (t +:+ rest)). cbn [words_from]. rewrite Ea.
    unfold add_char. cbn [default]. rewrite IH. by rewrite string_app_assoc.
Qed.

Lemma safe_plain a : safe_char a = true →
  Ascii.eqb a single = false ∧ Ascii.eqb a double = false ∧ Ascii.eqb a backslash = false
  ∧ is_blank a = false ∧ is_meta a = false.
Proof. destruct a as [[] [] [] [] [] [] [] []]; vm_compute; intros; done. Qed.

Lemma words_safe s : ∀ acc rest, s ≠ "" → all_safe s = true →
  words_from Plain acc (s +:+ rest) = words_from Plain (Some (default "" acc +:+ s)) rest.
Proof.
  induction s as [|a s IH]; intros acc rest Hne Hs; [done|]. cbn [all_safe] in Hs.
  apply andb_prop in Hs as [Ha Hs]. destruct (safe_plain a Ha) as (H1 & H2 & H3 & H4 & H5).
  change (String a s +:+ rest) with (String a (s +:+ rest)). cbn [words_from].
  rewrite H1, H2, H3, H4, H5. destruct s as [|b s]; [done|].
  rewrite IH by done. by rewrite add_char_app.
Qed.

(** A quoted string is one word, or part of one. *)
Lemma words_quoted s acc rest :
  words_from Plain acc (shlex_quote s +:+ rest)
  = words_from Plain (Some (default "" acc +:+ s)) rest.
Proof.
  unfold shlex_quote. destruct (String.eqb_spec s "") as [->|Hne].
  { change (wrap single "" +:+ rest) with (String single (String single rest)). cbn [words_from].
    rewrite string_app_nil. reflexivity. }
  destruct (all_safe s) eqn:Es; [by apply words_safe|].
  unfold wrap. change (String single ?t +:+ rest) with (String single (t +:+ rest)).
  cbn [words_from]. rewrite Ascii.eqb_refl, string_app_assoc, words_replaced.
  change (String single EmptyString +:+ rest) with (String single rest). cbn [words_from].
  by rewrite Ascii.eqb_refl.
Qed.

Lemma words_quote s : words (shlex_quote s) = Some [s].
Proof.
  unfold words. rewrite <-(string_app_nil (shlex_quote s)), words_quoted. done.
Qed.

(** ** The driver's command lines *)

(** [_apply_env_to_command] *)
Definition export_of (kv : string * string) : string :=
  "export " +:+ shlex_quote kv.1 +:+ "=" +:+ shlex_quote kv.2.

Definition _apply_env_to_command (command : string) (env : option (list (string * string))) : string :=
  match env with
  | None | Some [] => command
  | Some env => join " && " (export_of <$> env) +:+ " && " +:+ command
  end.

(** "Smart wrapping: if command contains redirections or pipes" *)
Definition has_shell_chars (s : string) : bool := any (contains s) [">"; "|"; ">>"; "<<"; "<"].

Definition sudo_command (cmd : string) : string :=
  if has_shell_chars cmd && negb (contains cmd "bash -c")
  then "sudo -S bash -c " +:+ shlex_quote cmd
  else "sudo -S " +:+ cmd.

(** [_clean_sudo_output]: the lines with the password or the prompt are dropped. *)
Definition is_noise (password line : string) : bool :=
  any (contains line) [password; "[sudo] password for"].

Definition _clean_sudo_output (output password : string) : string :=
  lstrip (join nl (filter (λ line, is_noise password line = false) (splitlines output))).

(** [_parse_etime]: [[[DD-]HH:]MM:SS] in seconds *)
Definition _parse_etime (etime : string) : res Z :=
  '(total_seconds, etime) ←
    (if has_char "-" etime then
       match split_char "-" etime with
       | [days_part; etime] => d ← py_int 10 days_part; Ok ((d * 86400)%Z, etime)
       | _ => Err (ValueError "too many values to unpack (expected 2)")
       end
     else Ok (0%Z, etime));
  match split_char ":" etime with
  | [h; m; s] => h ← py_int 10 h; m ← py_int 10 m; s ← py_int 10 s;
                 Ok (total_seconds + (h * 3600 + m * 60 + s))%Z
  | [m; s] => m ← py_int 10 m; s ← py_int 10 s; Ok (total_seconds + (m * 60 + s))%Z
  | l => s ← py_int 10 (default "" (head l)); Ok (total_seconds + s)%Z
  end.

Example etime_days : _parse_etime "02-03:04:05" = Ok 183845%Z.
Proof. reflexivity. Qed.

(** *** Detached launches: the files of a task and the launcher *)
Definition DETACHED_TASK_FILE_PREFIX : string := "np".
Definition DETACHED_TASK_PROCESS_PREFIX : string := "np_".

Definition _get_detached_dir (username : string) : string := "/tmp/np-detached-" +:+ username.

Definition task_file (username task_id ext : string) : string :=
  _get_detached_dir username +:+ "/" +:+ DETACHED_TASK_FILE_PREFIX +:+ "_" +:+ task_id +:+ ext.

Definition proc_name (task_id : string) : string := DETACHED_TASK_PROCESS_PREFIX +:+ task_id.

Definition log_max : Z := 1073741824.
Definition log_keep : Z := 734003200.

Definition inner_script (final_cmd pid_file age_file : string) : string :=
  final_cmd +:+ nl +:+ "RET=$?" +:+ nl +:+ "echo $RET > " +:+ pid_file +:+ ".exit" +:+ nl
  +:+ "date +%s >> " +:+ age_file +:+ nl +:+ "exit $RET".

Definition wrapped_cmd (task_id script : string) : string :=
  "exec -a " +:+ proc_name task_id +:+ " bash -c " +:+ shlex_quote script.

Definition watcher_script (output_file : string) : string :=
  "while kill -0 $MAIN_PID 2>/dev/null; do sleep 60; size=$(stat -c%s " +:+ output_file
  +:+ " 2>/dev/null || echo 0); if [ $size -gt " +:+ str_of_Z log_max +:+ " ]; then tail -c "
  +:+ str_of_Z log_keep +:+ " " +:+ output_file +:+ " > " +:+ output_file
  +:+ ".tmp 2>/dev/null && cp -f " +:+ output_file +:+ ".tmp " +:+ output_file
  +:+ " 2>/dev/null; fi; done".

Definition bg_launch (t : Z) (username task_id cmd final_cmd : string) : string :=
  let output_file := task_file username task_id ".log" in
  let pid_file := task_file username task_id ".pid" in
  let meta_file := pid_file +:+ ".meta" in
  let age_file := pid_file +:+ ".age" in
  let wrapped := wrapped_cmd task_id (inner_script final_cmd pid_file age_file) in
  "echo " +:+ str_of_Z t +:+ " > " +:+ age_file +:+ "; nohup setsid bash -c " +:+ shlex_quote wrapped
  +:+ " </dev/null >> " +:+ output_file +:+ " 2>&1 & MAIN_PID=$!; echo $MAIN_PID > " +:+ pid_file
  +:+ "; echo " +:+ task_id +:+ " > " +:+ meta_file +:+ "; echo " +:+ shlex_quote cmd +:+ " >> "
  +:+ meta_file +:+ "; ( " +:+ watcher_script output_file +:+ " ) &".

(** Writing a script to a file *)
Definition write_script (content script_path : string) : string :=
  "printf %s " +:+ shlex_quote content +:+ " > " +:+ script_path +:+ " && chmod +x " +:+ script_path.

(** *** The cleanup of expired tasks: the text the driver sends *)
Definition q (s : string) : string := String backslash (String double (s +:+ String backslash (String double EmptyString))).

Definition cleanup_cmd (username : string) (retention_seconds : Z) : string :=
  let dir := _get_detached_dir username in
  "now=$(date +%s); if [ -d " +:+ dir +:+ " ]; then   for f in " +:+ dir +:+ "/"
  +:+ DETACHED_TASK_FILE_PREFIX +:+ "_*.pid.age; do     if [ -f " +:+ q "$f"
  +:+ " ]; then       line_count=$(wc -l < " +:+ q "$f" +:+ ");       if [ " +:+ q "$line_count"
  +:+ " -ge 2 ]; then         end_time=$(tail -n 1 " +:+ q "$f"
  +:+ ");         if [ $((now - end_time)) -gt " +:+ str_of_Z retention_seconds
  +:+ " ]; then           base=" +:+ q "${f%.pid.age}" +:+ ";           rm -f " +:+ q "$base" +:+ ".log "
  +:+ q "$base" +:+ ".pid " +:+ q "$base" +:+ ".pid.*;         fi;       fi;     fi;   done; fi".

(** ** What the shell runs is what was asked *)
Lemma words_quote_acc s acc : words_from Plain acc (shlex_quote s) = Some [default "" acc +:+ s].
Proof. rewrite <-(string_app_nil (shlex_quote s)), words_quoted. done. Qed.

(** A safe word and a blank *)
Lemma words_cons x t : x ≠ "" → all_safe x = true →
  words (x +:+ " " +:+ t) = l ← words t; Some (x :: l).
Proof. intros Hx Hs. unfold words. by rewrite words_safe. Qed.

Definition line (l : list string) (t : string) : string := foldr (λ x t, x +:+ " " +:+ t) t l.

Lemma words_line l s : Forall (λ x, x ≠ "" ∧ all_safe x = true) l →
  words (line l (shlex_quote s)) = Some (l ++ [s]).
Proof.
  induction 1 as [|x l [Hx Hs] Hl IH]; [apply words_quote|].
  cbn [line foldr]. rewrite words_cons by done. fold (line l (shlex_quote s)). by rewrite IH.
Qed.

Lemma all_safe_app s t : all_safe (s +:+ t) = all_safe s && all_safe t.
Proof.
  induction s as [|a s IH]; [done|]. change (String a s +:+ t) with (String a (s +:+ t)).
  cbn [all_safe]. by rewrite IH, andb_assoc.
Qed.

Ltac safe_words := repeat constructor; done.


(** Finding: the quotes of the cleanup's text are escaped once too often.  The
    shell takes them as part of the file name, and finds no such file. *)
Lemma cleanup_quotes_stay :
  words ("test -f " +:+ q "/tmp/np-detached-u/np_1.pid.age")
  = Some ["test"; "-f"; wrap double "/tmp/np-detached-u/np_1.pid.age"].
Proof. vm_compute. reflexivity. Qed.

(** Finding: with sudo and an environment only the export runs under sudo, and
    there is no such program. *)
Lemma sudo_of_env :
  words (sudo_command (_apply_env_to_command "id" (Some [("A", "b")]))) = None
  ∧ sudo_command (_apply_env_to_command "id" (Some [("A", "b")])) = "sudo -S export A=b && id".
Proof. split; vm_compute; reflexivity. Qed.

