(* ===== verification/Ssh.v ===== *)
(** * SSH sessions and file transfers as the drivers see them

    The interface of [paramiko.SSHClient], of its channels and of
    [SFTPClient], with the worker's own files.  A call may fail at any time;
    what it then leaves behind is constrained only where the drivers rely on
    it. *)

From Stdlib Require Import Ascii.
From S2P Require Import Prelude PyLib World.

Definition bytes : Type := list ascii.
Definition len (b : bytes) : Z := Z.of_nat (length b).

(** [f.read(n)] at position [pos]: a negative [n] reads to the end. *)
Definition read_at (content : bytes) (pos n : Z) : bytes :=
  let rest := drop (Z.to_nat pos) content in
  if (n <? 0)%Z then rest else take (Z.to_nat n) rest.

(** [except IOError]: [OSError] and its subclasses *)
Definition is_os_error (e : exn) : bool :=
  match e with
  | FileNotFoundError _ => true
  | OtherError cls _ =>
      bool_decide (cls ∈ ["OSError"; "IOError"; "PermissionError"; "ConnectionError"; "TimeoutError";
        "BrokenPipeError"; "ConnectionResetError"; "ConnectionAbortedError"; "ConnectionRefusedError";
        "FileExistsError"; "InterruptedError"; "IsADirectoryError"; "NotADirectoryError";
        "BlockingIOError"; "ChildProcessError"; "ProcessLookupError"])
  | _ => false
  end.

(** The keyword arguments of [exec_command] that were given *)
Record exec_kwargs := mkExec {
  ek_timeout : option Z;
  ek_get_pty : option bool;
  ek_bufsize : option Z;
}.
Definition no_kwargs : exec_kwargs := mkExec None None None.

(** A command on its channel: [stdin], [stdout] and [stderr], decoded *)
Class Ssh (W : Type) := {
  Client : Type;
  Channel : Type;
  exec_command : Client → string → exec_kwargs → M W Channel;
  stdin_write : Channel → string → M W unit;
  stdin_close : Channel → M W unit;
  stdout_read : Channel → M W string;
  stderr_read : Channel → M W string;
  recv_exit_status : Channel → M W Z;
  exit_status_ready : Channel → M W bool;
  recv_ready : Channel → M W bool;
  recv : Channel → Z → M W string;
  recv_stderr_ready : Channel → M W bool;
  recv_stderr : Channel → Z → M W string;
  channel_close : Channel → M W unit;
}.

(** ** Files here and there

    [local] and [remote] are views of what lies under a path on either side; a
    file shows what was written to it, buffered or not.  [md5_hex] is
    [hashlib.md5(b).hexdigest()]. *)
Inductive node := File (b : bytes) | Dir.

Definition is_file (o : option node) : bool := match o with Some (File _) => true | _ => false end.
Definition content (o : option node) : bytes := match o with Some (File b) => b | _ => [] end.

Class Disks (W : Type) `{Ssh W} := {
  Sftp : Type;
  local : W → string → option node;
  remote : W → string → option node;
  md5_hex : bytes → string;
  (** Here *)
  os_makedirs : string → M W unit;
  os_walk : string → W → list (string * list string * list string);
  getsize : string → M W Z;
  open_rb : string → M W unit;
  read_local : string → Z → Z → M W bytes;
  open_local : string → bool → M W unit;
  write_local : string → bytes → M W unit;
  close_local : string → M W unit;
  (** There *)
  open_sftp : Client → M W Sftp;
  sftp_close : Sftp → M W unit;
  sftp_stat : Sftp → string → M W (Z * bool);
  sftp_listdir_attr : Sftp → string → M W (list (string * bool));
  sftp_mkdir : Sftp → string → M W unit;
  sftp_chmod : Sftp → string → Z → M W unit;
  open_remote_rb : Sftp → string → M W unit;
  read_remote : Sftp → string → Z → Z → M W bytes;
  open_remote : Sftp → string → bool → M W unit;
  write_remote : Sftp → string → bytes → M W unit;
  close_remote : Sftp → string → M W unit;
}.

(** [os.path.exists] and [os.path.isdir] *)
Definition os_path_exists {W} `{Disks W} (p : string) (w : W) : bool := bool_decide (is_Some (local w p)).
Definition os_path_isdir {W} `{Disks W} (p : string) (w : W) : bool :=
  match local w p with Some Dir => true | _ => false end.

(** A call that raises ordinary exceptions only and leaves the files of both
    sides alone *)
Definition files : Type := string → option node.
Definition views {W} `{Disks W} (w : W) : files * files := (local w, remote w).

Abbreviation disk_call := (steady views).

(** What opening and writing a file do to one side's files *)
Definition opened (p : string) (app : bool) (fs fs' : string → option node) : Prop :=
  fs p ≠ Some Dir ∧ fs' p = Some (File (if app then content (fs p) else [])) ∧ ∀ p', p' ≠ p → fs' p' = fs p'.
Definition appended (p : string) (b : bytes) (fs fs' : string → option node) : Prop :=
  fs' p = Some (File (content (fs p) ++ b)) ∧ ∀ p', p' ≠ p → fs' p' = fs p'.

(** The documented behaviour: sizes and reads tell the content, opening for
    writing, which no directory allows, empties the file unless it appends, a write to a file appends, and one
    that fails may have written a part.  [md5sum] prints the digest and the name, or
    nothing on its standard output. *)
Definition plain_name (p : string) : bool :=
  negb (has_char "'" p || has_char (ascii_of_nat 92) p || has_char newline p).

Class DiskLaws (W : Type) `{Disks W} : Prop := {
  getsize_call : ∀ p, disk_call (getsize p);
  open_rb_call : ∀ p, disk_call (open_rb p);
  read_local_call : ∀ p pos n, disk_call (read_local p pos n);
  close_local_call : ∀ p, disk_call (close_local p);
  open_sftp_call : ∀ c, disk_call (open_sftp c);
  sftp_close_call : ∀ s, disk_call (sftp_close s);
  stat_call : ∀ s p, disk_call (sftp_stat s p);
  chmod_call : ∀ s p m, disk_call (sftp_chmod s p m);
  open_remote_rb_call : ∀ s p, disk_call (open_remote_rb s p);
  read_remote_call : ∀ s p pos n, disk_call (read_remote s p pos n);
  close_remote_call : ∀ s p, disk_call (close_remote s p);
  md5sum_call : ∀ c p, plain_name p = true →
    disk_call (exec_command c ("md5sum '" +:+ p +:+ "'") no_kwargs);
  stdout_read_call : ∀ ch, disk_call (stdout_read ch);
  getsize_ok : ∀ p w n w', getsize p w = (Ok n, w') → ∀ b, local w p = Some (File b) → n = len b;
  stat_ok : ∀ s p w n d w', sftp_stat s p w = (Ok (n, d), w') →
    match remote w p with Some (File b) => n = len b ∧ d = false | Some Dir => d = true | None => False end;
  read_local_ok : ∀ p pos n w r w', read_local p pos n w = (Ok r, w') →
    ∃ b, local w p = Some (File b) ∧ r = read_at b pos n;
  read_remote_ok : ∀ s p pos n w r w', read_remote s p pos n w = (Ok r, w') →
    ∃ b, remote w p = Some (File b) ∧ r = read_at b pos n;
  md5sum_ok : ∀ c p w ch w1 out w2, plain_name p = true →
    exec_command c ("md5sum '" +:+ p +:+ "'") no_kwargs w = (Ok ch, w1) → stdout_read ch w1 = (Ok out, w2) →
    out = "" ∨ ∃ b, remote w p = Some (File b) ∧ out = md5_hex b +:+ "  " +:+ p +:+ nl;
  md5_hex_word : ∀ b, md5_hex b ≠ "" ∧ no_space (md5_hex b) = true;
  mkdir_spec : ∀ s d w, let '(r, w') := sftp_mkdir s d w in
    local w' = local w ∧ ordinary r ∧ ∀ p, p ≠ d → remote w' p = remote w p;
  open_remote_spec : ∀ s p app w, let '(r, w') := open_remote s p app w in
    local w' = local w ∧ ordinary r ∧
    (opened p app (remote w) (remote w') ∨ is_ok r = false ∧ remote w' = remote w);
  write_remote_spec : ∀ s p b w, let '(r, w') := write_remote s p b w in
    local w' = local w ∧ ordinary r ∧ (is_file (remote w p) = true →
    ∃ k, appended p (take k b) (remote w) (remote w') ∧ (is_ok r = true → take k b = b));
  open_local_spec : ∀ p app w, let '(r, w') := open_local p app w in
    remote w' = remote w ∧ ordinary r ∧
    (opened p app (local w) (local w') ∨ is_ok r = false ∧ local w' = local w);
  write_local_spec : ∀ p b w, let '(r, w') := write_local p b w in
    remote w' = remote w ∧ ordinary r ∧ (is_file (local w p) = true →
    ∃ k, appended p (take k b) (local w) (local w') ∧ (is_ok r = true → take k b = b));
}.
#[export] Hint Resolve getsize_call open_rb_call read_local_call close_local_call open_sftp_call
  sftp_close_call stat_call chmod_call open_remote_rb_call read_remote_call close_remote_call
  md5sum_call stdout_read_call : linux_net.
