(* ===== verification/Transfer.v ===== *)
(** * File transfers of the Paramiko driver

    [_upload_file], [_download_file] and the checksums of
    [linux_net/plugins/drivers/paramiko/__init__.py], for single files and for
    directory trees.  A transfer ends as it should whatever fails: what it may
    leave of the destination is a theorem, and so is that resuming completes an
    interrupted one. *)

From Stdlib Require Import Ascii.
From S2P Require Import Prelude PyLib Models World Storage Ssh Shell.

(** The dictionaries the transfers return *)
Definition TransferResult : Type := list (string * pyval).

Definition transfer_dict (local_path remote_path : string) (transferred : Z) (l : TransferResult)
    : TransferResult :=
  [("success", PBool true); ("local_path", PStr local_path); ("remote_path", PStr remote_path);
   ("transferred_bytes", PInt transferred)] ++ l.

Definition skipped_dict (local_path remote_path : string) (total : Z) : TransferResult :=
  transfer_dict local_path remote_path 0
    [("total_bytes", PInt total); ("skipped", PBool true); ("sync_mode", PStr "hash")].

Definition done_dict (local_path remote_path : string) (transferred total : Z) (resumed : bool)
    : TransferResult :=
  transfer_dict local_path remote_path transferred
    [("total_bytes", PInt total); ("resumed", PBool resumed)].

(** [total_bytes], [files_transferred] and [files_skipped] of a tree *)
Record Counts := mkCounts { n_bytes : Z; n_files : Z; n_skipped : Z }.

Definition tree_dict (local_path remote_path : string) (c : Counts) : TransferResult :=
  transfer_dict local_path remote_path (n_bytes c)
    [("files_transferred", PInt (n_files c)); ("files_skipped", PInt (n_skipped c));
     ("recursive", PBool true)].

Definition get_truthy (k : string) (d : TransferResult) : bool := from_option truthy false (dict_get k d).
Definition get_int (k : string) (d : TransferResult) : Z :=
  match dict_get k d with Some (PInt z) => z | _ => 0%Z end.

Definition count_result (c : Counts) (res : TransferResult) : Counts :=
  if get_truthy "success" res then
    let total := (n_bytes c + get_int "transferred_bytes" res)%Z in
    if get_truthy "skipped" res then mkCounts total (n_files c) (n_skipped c + 1)
    else mkCounts total (n_files c + 1) (n_skipped c)
  else c.

Section transfer.
Context {W : Type} `{Disks W}.
(** The working directory, for [os.path.relpath] *)
Context (cwd : string).

(** [while True: chunk = read(...); if not chunk: break; write(chunk)] *)
Fixpoint copy_loop (fuel : nat) (read : Z → M W bytes) (write : bytes → M W unit)
    (pos transferred : Z) : M W Z :=
  match fuel with
  | O => raise OutOfFuel
  | S fuel =>
      chunk ← read pos;
      match chunk with
      | [] => mret transferred
      | _ => write chunk ≫= λ _, copy_loop fuel read write (pos + len chunk) (transferred + len chunk)
      end
  end.

Fixpoint read_loop (fuel : nat) (read : Z → M W bytes) (acc : bytes) : M W bytes :=
  match fuel with
  | O => raise OutOfFuel
  | S fuel => chunk ← read (len acc);
              match chunk with [] => mret acc | _ => read_loop fuel read (acc ++ chunk) end
  end.

Definition _get_local_md5 (fuel : nat) (path : string) : M W (option string) := λ w,
  if negb (os_path_exists path w) || os_path_isdir path w then (Ok None, w)
  else (open_rb path ≫= λ _,
        b ← read_loop fuel (λ pos, read_local path pos 4096) []; mret (Some (md5_hex b))) w.

Definition _get_remote_md5 (session : Client) (path : string) : M W (option string) :=
  ch ← exec_command session ("md5sum '" +:+ path +:+ "'") no_kwargs;
  out ← stdout_read ch;
  let output := strip out in
  mret (if negb (String.eqb output "") && contains output " " then head (split_ws output) else None).

(** [try: ...  finally: sftp.close()] around a body that opens its own SFTP session *)
Definition with_sftp {A} (session : Client) (f : Sftp → M W A) : M W A :=
  sftp ← open_sftp session; try_finally (f sftp) (sftp_close sftp).

(** [except Exception: remote_file.close(); raise] *)
Definition close_on_error {A} (sftp : Sftp) (path : string) (m : M W A) : M W A :=
  try_except m (λ e, close_remote sftp path ≫= λ _, raise e).

(** [except IOError] *)
Definition except_os {A} (m : M W A) (h : M W A) : M W A := λ w,
  match m w with
  | (Err e, w') => if is_os_error e then h w' else (Err e, w')
  | r => r
  end.

Definition set_chmod (sftp : Sftp) (remote_path : string) (chmod : option string) : M W unit :=
  if str_truthy chmod then
    try_except (mode ← of_res (py_int 8 (default "" chmod)); sftp_chmod sftp remote_path mode)
      (λ _, mret tt)
  else mret tt.

(** "Hash-based sync check" *)
Definition same_hash (fuel : nat) (session : Client) (local_path remote_path : string)
    (sync_mode : SyncMode) (there : bool) : M W bool :=
  match sync_mode with
  | sync_hash =>
      if there then
        local_md5 ← _get_local_md5 fuel local_path;
        remote_md5 ← _get_remote_md5 session remote_path;
        mret (bool_decide (local_md5 = remote_md5))
      else mret false
  | sync_full => mret false
  end.

(** From [with open(local_path, "rb")] on *)
Definition upload_copy (fuel : nat) (sftp : Sftp) (local_path remote_path : string) (resume : bool)
    (chunk_size : Z) (chmod : option string) (local_size remote_size : Z) : M W TransferResult :=
  let append := resume && (0 <? remote_size)%Z in
  open_rb local_path ≫= λ _,
  open_remote sftp remote_path append ≫= λ _,
  transferred ← close_on_error sftp remote_path
    (n ← copy_loop fuel (λ pos, read_local local_path pos chunk_size) (write_remote sftp remote_path)
           (if append then remote_size else 0%Z) remote_size;
     close_remote sftp remote_path ≫= λ _,
     set_chmod sftp remote_path chmod ≫= λ _,
     mret n);
  mret (done_dict local_path remote_path transferred local_size append).

(** "Single file upload logic" *)
Definition upload_single (fuel : nat) (session : Client) (sftp : Sftp) (local_path remote_path : string)
    (resume : bool) (sync_mode : SyncMode) (chunk_size : Z) (chmod : option string)
    : M W TransferResult :=
  ex ← reads (os_path_exists local_path);
  if negb ex then raise (FileNotFoundError ("Local file not found: " +:+ local_path))
  else
    local_size ← getsize local_path;
    attrs ← except_os (a ← sftp_stat sftp remote_path; mret (Some a.1)) (mret None);
    let remote_size := default 0%Z attrs in
    let remote_exists := bool_decide (is_Some attrs) in
    same ← same_hash fuel session local_path remote_path sync_mode remote_exists;
    if same : bool then mret (skipped_dict local_path remote_path local_size)
    else if resume && remote_exists && (local_size <=? remote_size)%Z
    then mret (done_dict local_path remote_path local_size local_size false)
    else
      upload_copy fuel sftp local_path remote_path resume chunk_size chmod local_size remote_size.

(** Every file of [os.walk], with its destination *)
Definition fix_slashes (p : string) : string := replace_char backslash sep p.

Definition dest_dir (local_path remote_path root : string) : string :=
  let rel_path := relpath cwd root local_path in
  if String.eqb rel_path "." then remote_path else fix_slashes (path_join remote_path rel_path).

Definition dest_file (dir file : string) : string := fix_slashes (path_join dir file).

(** [for x in l: acc = f(acc, x)] *)
Fixpoint foldM {A B} (f : B → A → M W B) (l : list A) (b : B) : M W B :=
  match l with
  | [] => mret b
  | x :: l => b ← f b x; foldM f l b
  end.

Definition upload_dir (single : string → string → M W TransferResult) (sftp : Sftp)
    (local_path remote_path : string) (c : Counts) (d : string * list string * list string)
    : M W Counts :=
  let '(root, _, files) := d in
  let dest := dest_dir local_path remote_path root in
  except_os (sftp_mkdir sftp dest) (mret tt) ≫= λ _,
  foldM (λ c file,
    res ← single (path_join root file) (dest_file dest file);
    mret (count_result c res)) files c.

(** A file of a tree goes through [_upload_file] again, not recursive. *)
Definition upload_one (fuel : nat) (session : Client) (resume : bool) (sync_mode : SyncMode)
    (chunk_size : Z) (chmod : option string) (local_path remote_path : string) : M W TransferResult :=
  with_sftp session (λ sftp,
    upload_single fuel session sftp local_path remote_path resume sync_mode chunk_size chmod).

Definition _upload_file (fuel : nat) (session : Client) (local_path remote_path : string)
    (resume recursive : bool) (sync_mode : SyncMode) (chunk_size : Z) (chmod : option string)
    : M W TransferResult :=
  with_sftp session (λ sftp,
    isdir ← reads (os_path_isdir local_path);
    if recursive && isdir then
      dirs ← reads (os_walk local_path);
      c ← foldM (upload_dir (upload_one fuel session resume sync_mode chunk_size chmod) sftp
                   local_path remote_path) dirs (mkCounts 0 0 0);
      mret (tree_dict local_path remote_path c)
    else upload_single fuel session sftp local_path remote_path resume sync_mode chunk_size chmod).

(** From [sftp.file(remote_path, "rb")] on *)
Definition download_copy (fuel : nat) (sftp : Sftp) (remote_path local_path : string) (resume : bool)
    (chunk_size remote_size local_size : Z) : M W TransferResult :=
  open_remote_rb sftp remote_path ≫= λ _,
  let append := resume && (0 <? local_size)%Z in
  open_local local_path append ≫= λ _,
  transferred ← try_finally
    (close_on_error sftp remote_path
      (n ← copy_loop fuel (λ pos, read_remote sftp remote_path pos chunk_size) (write_local local_path)
             (if append then local_size else 0%Z) local_size;
       close_remote sftp remote_path ≫= λ _,
       mret n))
    (close_local local_path);
  mret (done_dict local_path remote_path transferred remote_size append).

(** "Single file download logic" *)
Definition download_single (fuel : nat) (session : Client) (sftp : Sftp) (remote_path local_path : string)
    (resume : bool) (sync_mode : SyncMode) (chunk_size remote_size : Z) : M W TransferResult :=
  local_exists ← reads (os_path_exists local_path);
  same ← same_hash fuel session local_path remote_path sync_mode local_exists;
  if same : bool then mret (skipped_dict local_path remote_path remote_size)
  else
    local_size ← (if resume && local_exists then n ← getsize local_path; mret (Some n) else mret None);
    if from_option (λ n, remote_size <=? n)%Z false local_size
    then mret (done_dict local_path remote_path remote_size remote_size false)
    else
      download_copy fuel sftp remote_path local_path resume chunk_size remote_size (default 0%Z local_size).

Definition download_entry (down : bool → string → string → M W TransferResult)
    (remote_path local_path : string) (c : Counts) (entry : string * bool) : M W Counts :=
  res ← down entry.2 (fix_slashes (path_join remote_path entry.1)) (path_join local_path entry.1);
  mret (count_result c res).

(** [depth] bounds the nesting of remote directories. *)
Fixpoint _download_file (depth fuel : nat) (session : Client) (remote_path local_path : string)
    (resume recursive : bool) (sync_mode : SyncMode) (chunk_size : Z) : M W TransferResult :=
  match depth with
  | O => raise OutOfFuel
  | S depth =>
      with_sftp session (λ sftp,
        found ← except_os
          (a ← sftp_stat sftp remote_path;
           if recursive && a.2 then
             ex ← reads (os_path_exists local_path);
             (if negb ex then os_makedirs local_path else mret tt) ≫= λ _,
             entries ← sftp_listdir_attr sftp remote_path;
             c ← foldM (download_entry
                   (λ isdir r l, _download_file depth fuel session r l resume isdir sync_mode chunk_size)
                   remote_path local_path) entries (mkCounts 0 0 0);
             mret (inl (tree_dict local_path remote_path c))
           else mret (inr a.1))
          (raise (FileNotFoundError ("Remote path not found: " +:+ remote_path)));
        match found with
        | inl d => mret d
        | inr remote_size =>
            download_single fuel session sftp remote_path local_path resume sync_mode chunk_size remote_size
        end)
  end.
End transfer.

(** ** Reasoning about the files of both sides: [wp] under [views] *)
Section wp.
Context {W : Type} `{DiskLaws W}.
Abbreviation wp := (Prelude.wp views).

Lemma wp_close {A} s p (m : M W A) (Q : res A → _ → Prop) v :
  wp m (λ r v', match r with Ok _ => Q r v' | Err _ => ∀ e, Q (Err e) v' end) v →
  wp (close_on_error s p m) Q v.
Proof.
  intros Hm. apply wp_try. eapply wp_mono; [exact Hm|]. intros [a|e] v' Ho HQ; [done|].
  apply wp_seq; [auto with linux_net|done|]. apply wp_raise; [by apply Ho|done].
Qed.

Lemma wp_except_os {A} (m h : M W A) (Q : res A → _ → Prop) v :
  wp m (λ r v', match r with Ok _ => Q r v' | Err e => Q r v' ∧ wp h Q v' end) v →
  wp (except_os m h) Q v.
Proof.
  intros Hm w Hw. destruct (Hm w Hw) as [Ho HQ]. unfold except_os.
  destruct (m w) as [[a|e] w']; [by split|]. destruct HQ as [HQ Hh].
  destruct (is_os_error e); [by apply Hh|by split].
Qed.

Lemma wp_with_sftp {A} c (f : Sftp → M W A) (Q : res A → _ → Prop) v :
  (∀ e, Q (Err e) v) → (∀ s, wp (f s) (λ r v', Q r v' ∧ ∀ e, Q (Err e) v') v) → wp (with_sftp c f) Q v.
Proof.
  intros He Hf. apply wp_bind, wp_keep; [auto with linux_net|].
  intros [s|e]; [|done]. apply wp_finally; auto with linux_net.
Qed.

(** *** Reading and copying in chunks *)
Lemma read_at_split b pos n : n ≠ 0%Z → (0 ≤ pos)%Z →
  (read_at b pos n = [] → drop (Z.to_nat pos) b = []) ∧
  drop (Z.to_nat pos) b = read_at b pos n ++ drop (Z.to_nat (pos + len (read_at b pos n))) b.
Proof.
  intros Hn Hpos. unfold read_at, len. set (d := drop (Z.to_nat pos) b).
  destruct (n <? 0)%Z eqn:E; to_prop.
  - split; [done|]. rewrite drop_ge, app_nil_r; [done|]. unfold d. rewrite length_drop. lia.
  - split.
    + destruct d eqn:Ed; [done|]. by destruct (Z.to_nat n) eqn:?; [lia|].
    + rewrite <-(take_drop (Z.to_nat n) d) at 1. f_equal. unfold d. rewrite drop_drop.
      rewrite length_take, length_drop.
      destruct (decide (Z.to_nat n ≤ length b - Z.to_nat pos)); [f_equal; lia|].
      rewrite !drop_ge; [done|lia..].
Qed.

Lemma len_drop_split b pos n : n ≠ 0%Z → (0 ≤ pos)%Z →
  len (drop (Z.to_nat pos) b) = (len (read_at b pos n) + len (drop (Z.to_nat (pos + len (read_at b pos n))) b))%Z.
Proof.
  intros Hn Hpos. destruct (read_at_split b pos n Hn Hpos) as [_ E]. apply (f_equal len) in E.
  rewrite E. unfold len. rewrite length_app. lia.
Qed.

Lemma appended_trans p b b' X X' X'' : appended p b X X' → appended p b' X' X'' → appended p (b ++ b') X X''.
Proof.
  intros [E1 K1] [E2 K2]. split.
  - rewrite E2, E1. simpl. by rewrite app_assoc.
  - intros p' Hp. by rewrite K2, K1.
Qed.

(** What a copy in chunks of [n] adds to a start: the source from there on, or
    nothing at all when the chunks are empty *)
Definition rest (n : Z) (start b : bytes) : bytes := if Z.eqb n 0 then [] else drop (length start) b.

Section copy.
Context (src : bytes) (n : Z) (p : string) (rd : Z → M W bytes) (wr : bytes → M W unit).
Context (st : files → files * files).
Context (Hrd : ∀ pos X (Q : res bytes → _ → Prop),
  (∀ r, (∀ a, r = Ok a → a = read_at src pos n) → Q r (st X)) → wp (rd pos) Q (st X)).
Context (Hwr : ∀ b X (Q : res unit → _ → Prop), is_file (X p) = true →
  (∀ r X' k, appended p (take k b) X X' → (is_ok r = true → take k b = b) → Q r (st X')) →
  wp (wr b) Q (st X)).

Lemma wp_copy_loop fuel pos tr X (Q : res Z → _ → Prop) : n ≠ 0%Z → (0 ≤ pos)%Z →
  (len (drop (Z.to_nat pos) src) < Z.of_nat fuel)%Z →
  (∃ o, X p = Some (File o)) →
  (∀ r X' k, appended p (take k (drop (Z.to_nat pos) src)) X X' →
     (∀ t, r = Ok t → take k (drop (Z.to_nat pos) src) = drop (Z.to_nat pos) src
                      ∧ t = (tr + len (drop (Z.to_nat pos) src))%Z) → Q r (st X')) →
  wp (copy_loop fuel rd wr pos tr) Q (st X).
Proof.
  intros Hn. revert pos tr X. induction fuel as [|fuel IH]; intros pos tr X Hpos Hf [o Ho] HQ.
  { unfold len in Hf. lia. }
  assert (appended p [] X X) as Hnil.
  { split; [|done]. by rewrite Ho, app_nil_r. }
  cbn [copy_loop]. apply wp_bind, Hrd. intros [chunk|e] Hr.
  - specialize (Hr chunk eq_refl). destruct (read_at_split src pos n Hn Hpos) as [Hend Hsplit].
    pose proof (len_drop_split src pos n Hn Hpos) as Hlen. rewrite <-Hr in *.
    destruct chunk as [|a chunk].
    { apply wp_ret, (HQ _ _ 0); [by rewrite take_0|]. intros t [= <-].
      rewrite (Hend eq_refl). split; [done|]. unfold len. simpl. lia. }
    apply wp_bind, Hwr; [by rewrite Ho|]. intros r X' k Hap Hk. set (rest := drop (Z.to_nat (pos + _)) src) in *.
    destruct r as [u|e].
    + rewrite (Hk eq_refl) in Hap. apply IH.
      * unfold len. lia.
      * fold rest. unfold len in *. simpl in *. lia.
      * destruct Hap as [-> _]. by eexists.
      * intros r X'' k' Hap' Ht. fold rest in Hap', Ht. apply (HQ _ _ (length (a :: chunk) + k')).
        -- rewrite Hsplit, take_app_add. by eapply appended_trans.
        -- intros t ->. destruct (Ht t eq_refl) as [Hk' ->].
           rewrite Hsplit, take_app_add, Hk'. split; [done|]. unfold len in *. rewrite length_app. lia.
    + apply (HQ _ _ (min k (length (a :: chunk)))).
      * rewrite Hsplit, take_app_le by lia. by rewrite <-take_take, (take_ge (a :: chunk)) by done.
      * done.
  - apply (HQ _ _ 0); [by rewrite take_0|done].
Qed.

(** The same for any size of a chunk: empty chunks copy nothing. *)
Lemma wp_copy_all fuel start tr X (Q : res Z → _ → Prop) :
  (len src < Z.of_nat fuel)%Z → (∃ o, X p = Some (File o)) →
  (∀ r X' k, appended p (take k (rest n start src)) X X' →
     (∀ t, r = Ok t → take k (rest n start src) = rest n start src
                      ∧ t = (tr + len (rest n start src))%Z) → Q r (st X')) →
  wp (copy_loop fuel rd wr (len start) tr) Q (st X).
Proof.
  intros Hf Hx HQ. unfold rest in HQ. destruct (Z.eqb_spec n 0) as [E|Hn].
  - destruct fuel as [|fuel]; [unfold len in Hf; lia|]. cbn [copy_loop]. apply wp_bind, Hrd.
    assert (appended p [] X X) as Hnil.
    { split; [|done]. destruct Hx as [o ->]. by rewrite app_nil_r. }
    intros [chunk|e] Hr; [|by apply (HQ _ _ 0)].
    specialize (Hr chunk eq_refl). rewrite E in Hr. cbn in Hr. subst chunk.
    apply wp_ret, (HQ _ _ 0); [done|]. intros t [= <-]. split; [done|]. unfold len. simpl. lia.
  - apply wp_copy_loop; try done.
    + unfold len. lia.
    + unfold len in *. rewrite length_drop. lia.
    + unfold len. rewrite Nat2Z.id. exact HQ.
Qed.
End copy.

(** *** Checksums *)
Lemma wp_read_local p pos n b (Q : res bytes → _ → Prop) v : v.1 p = Some (File b) →
  (∀ r, (∀ a, r = Ok a → a = read_at b pos n) → Q r v) → wp (read_local p pos n) Q v.
Proof.
  intros Hb HQ. apply wp_call; [auto with linux_net|]. intros w w' r <- E Hv. apply HQ.
  intros a ->. destruct (read_local_ok _ _ _ _ _ _ E) as (b' & Hb' & ->). simpl in Hb. congruence.
Qed.

Lemma wp_read_loop p b fuel acc (Q : res bytes → _ → Prop) v : v.1 p = Some (File b) →
  acc ++ drop (length acc) b = b → (len (drop (length acc) b) < Z.of_nat fuel)%Z →
  (∀ e, Q (Err e) v) → Q (Ok b) v →
  wp (read_loop fuel (λ pos, read_local p pos 4096) acc) Q v.
Proof.
  intros Hb Hacc Hf He HQ. revert acc Hacc Hf. induction fuel as [|fuel IH]; intros acc Hacc Hf.
  { unfold len in Hf. lia. }
  cbn [read_loop]. apply wp_bind, (wp_read_local _ _ _ b); [done|]. intros [chunk|e] Hr; [|done].
  assert (Z.to_nat (len acc) = length acc) as Hl by (unfold len; lia).
  destruct (read_at_split b (len acc) 4096) as [Hend Hsplit]; [lia|unfold len; lia|].
  pose proof (len_drop_split b (len acc) 4096 ltac:(lia) ltac:(unfold len; lia)) as Hlen.
  rewrite <-(Hr _ eq_refl), Hl in *.
  assert (Z.to_nat (len acc + len chunk) = length (acc ++ chunk)) as Hl'.
  { unfold len. rewrite length_app. lia. }
  rewrite Hl' in *. destruct chunk as [|a chunk].
  - apply wp_ret. rewrite Hend, app_nil_r in Hacc by done. by subst.
  - apply IH; [by rewrite <-app_assoc, <-Hsplit|]. unfold len in *. simpl in *. lia.
Qed.

Lemma wp_local_md5 fuel p b (Q : res (option string) → _ → Prop) v : v.1 p = Some (File b) →
  (len b < Z.of_nat fuel)%Z → (∀ e, Q (Err e) v) → Q (Ok (Some (md5_hex b))) v →
  wp (_get_local_md5 fuel p) Q v.
Proof.
  intros Hb Hf He HQ w Hw. unfold _get_local_md5.
  assert (os_path_exists p w = true ∧ os_path_isdir p w = false) as [-> ->].
  { unfold os_path_exists, os_path_isdir. rewrite <-Hw in Hb. simpl in Hb. by rewrite Hb. }
  revert w Hw. apply wp_seq; [auto with linux_net|done|].
  apply wp_bind, (wp_read_loop p b); try done. by apply wp_ret.
Qed.

Lemma md5sum_word b p : head (split_ws (strip (md5_hex b +:+ "  " +:+ p +:+ nl))) = Some (md5_hex b).
Proof.
  rewrite split_strip. destruct (md5_hex_word b) as [Hne Hs].
  change ("  " +:+ ?t) with (" " +:+ " " +:+ t). by apply split_word.
Qed.

Lemma wp_remote_md5 c p (Q : res (option string) → _ → Prop) v : plain_name p = true →
  (∀ e, Q (Err e) v) → Q (Ok None) v →
  (∀ b, v.2 p = Some (File b) → Q (Ok (Some (md5_hex b))) v) → wp (_get_remote_md5 c p) Q v.
Proof.
  intros Hp He Hn HQ w Hw. unfold _get_remote_md5, mbind, M_bind.
  destruct (steady_run _ w v (md5sum_call c p Hp) Hw) as [Hs Hv].
  destruct (exec_command _ _ _ w) as [[ch|e] w1] eqn:E1; simpl in Hs, Hv |- *; [|rewrite Hv; split; [by apply ordinary_Err, Hs|done]].
  destruct (steady_run _ w1 v (stdout_read_call ch) Hv) as [Hs' Hv'].
  destruct (stdout_read ch w1) as [[out|e] w2] eqn:E2; simpl in Hs', Hv' |- *; rewrite Hv'; [|split; [by apply ordinary_Err, Hs'|done]].
  split; [done|]. destruct (_ && _) eqn:Eo; [|done].
  destruct (md5sum_ok c p w ch w1 out w2 Hp E1 E2) as [->|(b & Hb & ->)]; [done|].
  rewrite md5sum_word. apply HQ. by rewrite <-Hw.
Qed.

Lemma wp_local_md5_dir fuel p (Q : res (option string) → _ → Prop) v : v.1 p = Some Dir →
  Q (Ok None) v → wp (_get_local_md5 fuel p) Q v.
Proof.
  intros Hd HQ w Hw. unfold _get_local_md5, os_path_isdir. subst v. simpl in Hd. rewrite Hd, orb_true_r.
  by split.
Qed.

(** The two checksums agree on files with the same one, and, the other failing,
    on a directory here. *)
Definition agree (here there : option node) : Prop :=
  here = Some Dir ∨ ∃ b old, here = Some (File b) ∧ there = Some (File old) ∧ md5_hex b = md5_hex old.

Lemma wp_same_hash fuel c lp rp sync there (Q : res bool → _ → Prop) v :
  (sync = sync_hash → plain_name rp = true) →
  (sync = sync_hash → there = true → is_Some (v.1 lp) ∧ (len (content (v.1 lp)) < Z.of_nat fuel)%Z) →
  (∀ e, Q (Err e) v) → Q (Ok false) v →
  (sync = sync_hash → agree (v.1 lp) (v.2 rp) → Q (Ok true) v) →
  wp (same_hash fuel c lp rp sync there) Q v.
Proof.
  intros Hp Hb He Hf Ht. unfold same_hash. destruct sync; [by apply wp_ret|].
  destruct there; [|by apply wp_ret]. destruct Hb as [[x Hx] Hfuel]; [done..|].
  apply wp_bind. rewrite Hx in Hfuel. destruct x as [b|].
  - apply (wp_local_md5 _ _ b); try done. apply wp_bind, wp_remote_md5; auto.
    + apply wp_ret. by rewrite bool_decide_eq_false_2.
    + intros old Ho. apply wp_ret. case_bool_decide; [|done]. apply Ht; [done|]. right.
      exists b, old. split_and!; [done..|congruence].
  - apply wp_local_md5_dir; [done|]. apply wp_bind, wp_remote_md5; auto.
    + apply wp_ret. rewrite bool_decide_eq_true_2 by done. apply Ht; [done|]. by left.
    + intros old Ho. apply wp_ret. by rewrite bool_decide_eq_false_2.
Qed.

Lemma wp_set_chmod s p chmod (Q : res unit → _ → Prop) v : (∀ r, Q r v) → wp (set_chmod s p chmod) Q v.
Proof.
  intros HQ. unfold set_chmod. destruct (str_truthy chmod); [|by apply wp_ret].
  apply wp_try, wp_bind, wp_of_res; [apply py_int_ordinary|].
  destruct (py_int _ _) as [m|e]; [|by apply wp_ret].
  apply wp_keep; [auto with linux_net|]. intros []; [done|by apply wp_ret].
Qed.

(** *** One file *)

(** Where a copy starts: from nothing, or, resuming, from what is there *)
Definition starts (resume : bool) (old : option node) (start : bytes) : Prop :=
  start = [] ∨ resume = true ∧ old = Some (File start).

(** The bytes reported by a transfer that does not resume: those of the source,
    and, of an overwritten file, at most those it had *)
Definition counted (b : bytes) (old : option node) (d : TransferResult) : Prop :=
  (len b ≤ get_int "transferred_bytes" d ≤ len b + len (content old))%Z.

(** What a transfer of the content [b] in chunks of [n] makes of a destination
    that held [old].  On success it was skipped, the checksums agreeing (or it
    being a directory, which has none), or it was a directory there was nothing
    to resume on, or it holds a start and the rest of [b]; on failure it is as it
    was, or holds a start and a part of the rest. *)
Definition outcome (b : bytes) (n : Z) (resume : bool) (sync : SyncMode)
    (old : option node) (r : res TransferResult) (new : option node) : Prop :=
  match r with
  | Ok d =>
      get_truthy "success" d = true ∧
      if get_truthy "skipped" d
      then new = old ∧ sync = sync_hash
           ∧ (old = Some Dir ∨ ∃ old_b, old = Some (File old_b) ∧ md5_hex old_b = md5_hex b)
      else (resume = true ∧ old = Some Dir ∧ new = Some Dir)
           ∨ (old ≠ Some Dir
              ∧ (∃ start, starts resume old start ∧ new = Some (File (start ++ rest n start b)))
              ∧ (resume = false → n ≠ 0%Z → counted b old d))
  | Err _ =>
      new = old
      ∨ old ≠ Some Dir
        ∧ ∃ start k, starts resume old start ∧ new = Some (File (start ++ take k (rest n start b)))
  end.

(** A transfer to [p] touches nothing else. *)
Definition transferred (p : string) (b : bytes) (n : Z) (resume : bool) (sync : SyncMode)
    (X : files) (r : res TransferResult) (X' : files) : Prop :=
  (∀ p', p' ≠ p → X' p' = X p') ∧ outcome b n resume sync (X p) r (X' p).

Lemma outcome_err b n resume sync old r new e :
  outcome b n resume sync old r new → outcome b n resume sync old (Err e) new.
Proof.
  destruct r as [d|]; [|done]. intros [_ Hr]. destruct (get_truthy "skipped" d); [left; apply Hr|].
  destruct Hr as [(_ & -> & ->)|(Hd & (start & Hst & ->) & _)]; [by left|right].
  split; [done|]. exists start, (length (rest n start b)). by rewrite take_ge.
Qed.

Lemma transferred_same p b n resume sync X e : transferred p b n resume sync X (Err e) X.
Proof. split; [done|]. by left. Qed.

Lemma transferred_skip p b n resume X lp rp m :
  X p = Some Dir ∨ (∃ old, X p = Some (File old) ∧ md5_hex old = md5_hex b) →
  transferred p b n resume sync_hash X (Ok (skipped_dict lp rp m)) X.
Proof. intros Hm. split; [done|]. by repeat split. Qed.

Lemma transferred_enough p b n sync X lp rp m :
  X p = Some Dir ∨ (∃ old, X p = Some (File old) ∧ (len b ≤ len old)%Z) →
  transferred p b n true sync X (Ok (done_dict lp rp m m false)) X.
Proof.
  intros Ho. split; [done|]. split; [done|]. cbn. destruct Ho as [Hd|(old & Ho & Hl)]; [by left|right].
  split; [by rewrite Ho|]. split; [|done]. exists old. split; [by right|].
  unfold rest. destruct (n =? 0)%Z; [by rewrite app_nil_r|].
  rewrite drop_ge, app_nil_r; [done|]. unfold len in Hl. lia.
Qed.

(** Opening the destination and copying *)
Lemma opened_starts p X X' old (resume : bool) : opened p (resume && (0 <? len old)%Z) X X' →
  X p = Some (File old) ∨ old = [] →
  ∃ start, X' p = Some (File start) ∧ starts resume (X p) start
    ∧ len start = (if resume && (0 <? len old)%Z then len old else 0)%Z.
Proof.
  intros (_ & Ho & _) Hold. rewrite Ho. destruct (resume && _) eqn:E; [|exists []; repeat split; by left].
  apply andb_prop in E as [-> E]. to_prop. destruct Hold as [->| ->]; [|done].
  exists old. repeat split. by right.
Qed.

Lemma counted_copy p lp rp b n old (resume : bool) (X : files) start t total :
  X p = Some (File old) ∨ old = [] → starts resume (X p) start →
  t = (len old + len (rest n start b))%Z → resume = false → n ≠ 0%Z →
  counted b (X p) (done_dict lp rp t total (resume && (0 <? len old)%Z)).
Proof.
  intros Hold Hst -> -> Hn. destruct Hst as [->|[? _]]; [|done]. unfold rest.
  destruct (Z.eqb_spec n 0); [done|]. change (drop (length []) b) with b.
  unfold counted, get_int. cbn. destruct Hold as [->| ->]; unfold len; simpl; lia.
Qed.

Lemma copied p b n (resume : bool) sync X X0 X' start k d :
  X p ≠ Some Dir →
  starts resume (X p) start → X0 p = Some (File start) → (∀ p', p' ≠ p → X0 p' = X p') →
  appended p (take k (rest n start b)) X0 X' →
  get_truthy "success" d = true → get_truthy "skipped" d = false →
  (take k (rest n start b) = rest n start b → (resume = false → n ≠ 0%Z → counted b (X p) d) →
     transferred p b n resume sync X (Ok d) X')
  ∧ ∀ e, transferred p b n resume sync X (Err e) X'.
Proof.
  intros Hd Hst HX0 Hf [Ha Hk] Hs Hsk. rewrite HX0 in Ha. cbn [content] in Ha.
  assert (∀ p', p' ≠ p → X' p' = X p') as Hf' by (intros p' Hp; rewrite Hk, Hf; done).
  split.
  - intros E Hc. split; [done|]. split; [done|]. rewrite Hsk. right. split; [done|]. split; [|done].
    exists start. by rewrite Ha, E.
  - intros e. split; [done|]. right. split; [done|]. by exists start, k.
Qed.

Lemma transferred_err p b n resume sync X r X' e :
  transferred p b n resume sync X r X' → transferred p b n resume sync X (Err e) X'.
Proof. intros [Hf Hr]. split; [done|]. by eapply outcome_err. Qed.

Lemma wp_write_remote s p b X L (Q : res unit → _ → Prop) : is_file (X p) = true →
  (∀ r X' k, appended p (take k b) X X' → (is_ok r = true → take k b = b) → Q r (L, X')) →
  wp (write_remote s p b) Q (L, X).
Proof.
  intros Hf HQ w Hw. pose proof (write_remote_spec s p b w) as Hs. injection Hw as Hl Hr.
  destruct (write_remote s p b w) as [r w']. destruct Hs as (Hl' & Ho & Hs). rewrite Hr in Hs.
  destruct (Hs Hf) as (k & Ha & Hk). rewrite <-Hr in Ha.
  split; [done|]. unfold views; simpl. rewrite Hl', Hl. rewrite Hr in Ha. eauto.
Qed.

Lemma wp_open_remote s p app X L (Q : res unit → _ → Prop) :
  (∀ e, Q (Err e) (L, X)) → (∀ r X', opened p app X X' → Q r (L, X')) →
  wp (open_remote s p app) Q (L, X).
Proof.
  intros He HQ w Hw. pose proof (open_remote_spec s p app w) as Hs. injection Hw as Hl Hr.
  destruct (open_remote s p app w) as [r w']. destruct Hs as (Hl' & Ho & Hop).
  split; [done|]. unfold views; simpl. rewrite Hl', Hl. rewrite Hr in Hop.
  destruct Hop as [Hop|[Hok ->]]; [by apply HQ|]. by destruct r.
Qed.

Lemma wp_upload_copy fuel s lp rp resume sync n chmod b old L R :
  L lp = Some (File b) → R rp = Some (File old) ∨ old = [] → (len b < Z.of_nat fuel)%Z →
  wp (upload_copy fuel s lp rp resume n chmod (len b) (len old))
    (λ r v', v'.1 = L ∧ transferred rp b n resume sync R r v'.2) (L, R).
Proof.
  intros Hb Hold Hfuel. unfold upload_copy.
  set (same_err := λ e, conj (eq_refl L) (transferred_same rp b n resume sync R e)).
  apply wp_seq; [auto with linux_net|exact same_err|]. apply wp_bind, wp_open_remote; [exact same_err|].
  intros r X0 Hop.
  destruct (opened_starts _ _ _ _ _ Hop Hold) as (start & HX0 & Hst & Hlen).
  destruct Hop as (Hd & _ & Hf).
  destruct r as [u|e].
  2:{ split; [done|]. split; [done|]. right. split; [done|]. exists start, 0. by rewrite app_nil_r. }
  rewrite <-Hlen. apply wp_bind, wp_close, wp_bind.
  apply (wp_copy_all b n rp _ _ (λ X, (L, X))); try done.
  - intros pos X Q HQ. by apply (wp_read_local _ _ _ b).
  - intros c X Q Hx HQ. by apply wp_write_remote.
  - by eexists.
  - intros r X' k Hap Ht.
    destruct (copied rp b n resume sync R X0 X' start k
      (done_dict lp rp (default 0%Z (match r with Ok t => Some t | _ => None end)) (len b)
        (resume && (0 <? len old)%Z)) Hd Hst HX0 Hf Hap eq_refl eq_refl) as [Hok Herr].
    destruct r as [t|e]; [|intros e'; by split].
    destruct (Ht t eq_refl) as [Hall Hsum].
    apply wp_seq; [auto with linux_net|by intros; split|].
    apply wp_bind, wp_set_chmod. intros [?|?]; [|by intros; split].
    apply wp_ret, wp_ret. split; [done|]. apply Hok; [done|]. by eapply counted_copy.
Qed.

(** A directory cannot be opened for writing. *)
Lemma wp_upload_copy_dir fuel s lp rp resume sync n chmod b a size L R : R rp = Some Dir →
  wp (upload_copy fuel s lp rp resume n chmod size a)
    (λ r v', v'.1 = L ∧ transferred rp b n resume sync R r v'.2) (L, R).
Proof.
  intros Hd. unfold upload_copy.
  set (same_err := λ e, conj (eq_refl L) (transferred_same rp b n resume sync R e)).
  apply wp_seq; [auto with linux_net|exact same_err|]. apply wp_bind, wp_open_remote; [exact same_err|].
  intros r X0 [Hnd _]. by destruct Hnd.
Qed.

(** What [stat] says of the destination *)
Definition size_there (x : option node) (attrs : option Z) : Prop :=
  match attrs with
  | Some a => x = Some Dir ∨ ∃ old, x = Some (File old) ∧ a = len old
  | None => True
  end.

Lemma wp_attrs s p L R :
  wp (except_os (a ← sftp_stat s p; mret (Some a.1)) (mret None))
    (λ r v', v' = (L, R) ∧ ∀ a, r = Ok a → size_there (R p) a) (L, R).
Proof.
  apply wp_except_os, wp_bind, wp_call; [auto with linux_net|].
  intros w w' [[size d]|e] Hw E _; [apply wp_ret|split; [done|apply wp_ret]]; (split; [done|]).
  - intros a [= <-]. pose proof (stat_ok _ _ _ _ _ _ E) as Hs. injection Hw as _ Hr. rewrite Hr in Hs.
    cbn. destruct (R p) as [[old|]|]; [|by left|done]. right. exists old. by destruct Hs.
  - by intros a [= <-].
Qed.

Lemma wp_upload_single fuel c s lp rp resume sync n chmod b L R :
  L lp = Some (File b) → (len b < Z.of_nat fuel)%Z → (sync = sync_hash → plain_name rp = true) →
  wp (upload_single fuel c s lp rp resume sync n chmod)
    (λ r v', v'.1 = L ∧ transferred rp b n resume sync R r v'.2) (L, R).
Proof.
  intros Hb Hfuel Hname. unfold upload_single.
  set (same_err := λ e, conj (eq_refl L) (transferred_same rp b n resume sync R e)).
  apply wp_bind, wp_reads. intros w Hw.
  assert (os_path_exists lp w = true) as ->.
  { unfold os_path_exists. injection Hw as Hl _. by rewrite Hl, Hb. }
  cbn [negb]. apply wp_bind, wp_call; [auto with linux_net|].
  intros w1 w1' [size|e] Hw1 E1 _; [|exact (same_err e)].
  assert (size = len b) as ->.
  { eapply getsize_ok; [exact E1|]. injection Hw1 as -> _. done. }
  apply wp_bind. eapply wp_mono; [by apply wp_attrs|]. cbn beta.
  intros [attrs|e] v _ [-> Ha]; [|exact (same_err e)]. specialize (Ha attrs eq_refl).
  apply wp_bind, wp_same_hash; auto.
  - intros _ _. simpl. rewrite Hb. by split.
  - destruct attrs as [a|]; cbn [default from_option id].
    2:{ rewrite (bool_decide_eq_false_2 (is_Some None)) by by intros [? ?]. rewrite andb_false_r.
        apply (wp_upload_copy _ _ _ _ _ _ _ _ _ []); auto. }
    rewrite bool_decide_eq_true_2, andb_true_r by done. destruct (resume && _) eqn:E.
    + apply wp_ret. split; [done|]. to_prop. subst resume. apply transferred_enough.
      destruct Ha as [Hd|(old & Ho & ->)]; simpl; eauto.
    + destruct Ha as [Hd|(old & Ho & ->)]; [by apply wp_upload_copy_dir|apply wp_upload_copy; auto].
  - intros -> [Hd|(b' & old & Hb' & Ho & Hm)]; simpl in *; [congruence|]. apply wp_ret.
    split; [done|]. apply transferred_skip. right. exists old. split; [done|congruence].
Qed.

Lemma wp_upload_one fuel c lp rp resume sync n chmod b L R :
  L lp = Some (File b) → (len b < Z.of_nat fuel)%Z → (sync = sync_hash → plain_name rp = true) →
  wp (upload_one fuel c resume sync n chmod lp rp)
    (λ r v', v'.1 = L ∧ transferred rp b n resume sync R r v'.2) (L, R).
Proof.
  intros. apply wp_with_sftp; [by split; [|apply transferred_same]|]. intros s.
  eapply wp_mono; [by apply wp_upload_single|]. cbn beta. intros r v' _ [Hl Ht]. split; [done|].
  intros e. split; [done|]. by eapply transferred_err.
Qed.

Lemma wp_read_remote sf p pos n b (Q : res bytes → _ → Prop) v : v.2 p = Some (File b) →
  (∀ r, (∀ a, r = Ok a → a = read_at b pos n) → Q r v) → wp (read_remote sf p pos n) Q v.
Proof.
  intros Hb HQ. apply wp_call; [auto with linux_net|]. intros w w' r <- E Hv. apply HQ.
  intros a ->. destruct (read_remote_ok _ _ _ _ _ _ _ E) as (b' & Hb' & ->). simpl in Hb. congruence.
Qed.

Lemma wp_write_local p b X R (Q : res unit → _ → Prop) : is_file (X p) = true →
  (∀ r X' k, appended p (take k b) X X' → (is_ok r = true → take k b = b) → Q r (X', R)) →
  wp (write_local p b) Q (X, R).
Proof.
  intros Hf HQ w Hw. pose proof (write_local_spec p b w) as Hs. injection Hw as Hl Hr.
  destruct (write_local p b w) as [r w']. destruct Hs as (Hr' & Ho & Hs). rewrite Hl in Hs.
  destruct (Hs Hf) as (k & Ha & Hk). rewrite <-Hl in Ha.
  split; [done|]. unfold views; simpl. rewrite Hr', Hr. rewrite Hl in Ha. eauto.
Qed.

Lemma wp_open_local p app X R (Q : res unit → _ → Prop) :
  (∀ e, Q (Err e) (X, R)) → (∀ r X', opened p app X X' → Q r (X', R)) →
  wp (open_local p app) Q (X, R).
Proof.
  intros He HQ w Hw. pose proof (open_local_spec p app w) as Hs. injection Hw as Hl Hr.
  destruct (open_local p app w) as [r w']. destruct Hs as (Hr' & Ho & Hop).
  split; [done|]. unfold views; simpl. rewrite Hr', Hr. rewrite Hl in Hop.
  destruct Hop as [Hop|[Hok ->]]; [by apply HQ|]. by destruct r.
Qed.

(** The copy of a download, from [sftp.file(remote_path, "rb")] on *)
Lemma wp_download_copy fuel sf lp rp resume sync n b old L R :
  R rp = Some (File b) → L lp = Some (File old) ∨ old = [] → (len b < Z.of_nat fuel)%Z →
  wp (download_copy fuel sf rp lp resume n (len b) (len old))
    (λ r v', v'.2 = R ∧ transferred lp b n resume sync L r v'.1) (L, R).
Proof.
  intros Hb Hold Hfuel. unfold download_copy.
  set (same_err := λ e, conj (eq_refl R) (transferred_same lp b n resume sync L e)).
  apply wp_seq; [auto with linux_net|exact same_err|]. apply wp_bind, wp_open_local; [exact same_err|].
  intros r X0 Hop. destruct (opened_starts _ _ _ _ _ Hop Hold) as (start & HX0 & Hst & Hlen).
  destruct Hop as (Hd & _ & Hf).
  destruct r as [u|e].
  2:{ split; [done|]. split; [done|]. right. split; [done|]. exists start, 0. by rewrite app_nil_r. }
  rewrite <-Hlen. apply wp_bind, wp_finally; [auto with linux_net|]. apply wp_close, wp_bind.
  apply (wp_copy_all b n lp _ _ (λ X, (X, R))); try done.
  - intros pos X Q HQ. by apply (wp_read_remote _ _ _ _ b).
  - intros c X Q Hx HQ. by apply wp_write_local.
  - by eexists.
  - intros r X' k Hap Ht.
    destruct (copied lp b n resume sync L X0 X' start k
      (done_dict lp rp (default 0%Z (match r with Ok t => Some t | _ => None end)) (len b)
        (resume && (0 <? len old)%Z)) Hd Hst HX0 Hf Hap eq_refl eq_refl) as [Hok Herr'].
    pose proof (λ e, conj (eq_refl R) (Herr' e)) as Herr.
    destruct r as [t|e]; [|intros; split; auto].
    destruct (Ht t eq_refl) as [Hall Hsum].
    apply wp_seq; [auto with linux_net|intros; split; auto|].
    apply wp_ret. split; [|auto]. apply wp_ret. split; [done|]. apply Hok; [done|]. by eapply counted_copy.
Qed.

Lemma wp_download_copy_dir fuel sf lp rp resume sync n b a size L R : L lp = Some Dir →
  wp (download_copy fuel sf rp lp resume n size a)
    (λ r v', v'.2 = R ∧ transferred lp b n resume sync L r v'.1) (L, R).
Proof.
  intros Hd. unfold download_copy.
  set (same_err := λ e, conj (eq_refl R) (transferred_same lp b n resume sync L e)).
  apply wp_seq; [auto with linux_net|exact same_err|]. apply wp_bind, wp_open_local; [exact same_err|].
  intros r X0 [Hnd _]. by destruct Hnd.
Qed.

(** A resumed download asks the size of what is there. *)
Lemma wp_local_size lp (resume ex : bool) L R :
  (ex = true → is_Some (L lp)) →
  wp (if resume && ex then n ← getsize lp; mret (Some n) else mret None)
    (λ r v', v' = (L, R) ∧ ∀ o, r = Ok o → size_there (L lp) o ∧ (is_Some o → resume = true)) (L, R).
Proof.
  intros Hex. destruct (resume && ex) eqn:E; [|apply wp_ret; split; [done|intros o [= <-]; split; [done|by intros [? ?]]]].
  apply andb_prop in E as [-> ->]. apply wp_bind, wp_call; [auto with linux_net|].
  intros w1 w1' [m|e] Hw1 E1 _; [apply wp_ret|done]. split; [done|]. intros o [= <-]. split; [|done].
  cbn. destruct (Hex eq_refl) as [[old|] Ho]; [right|by left]. exists old. split; [done|].
  eapply getsize_ok; [exact E1|]. injection Hw1 as -> _. done.
Qed.

Lemma wp_download_single fuel c sf lp rp resume sync n b L R :
  R rp = Some (File b) → (len b < Z.of_nat fuel)%Z →
  (sync = sync_hash → plain_name rp = true ∧ len (content (L lp)) < Z.of_nat fuel)%Z →
  wp (download_single fuel c sf rp lp resume sync n (len b))
    (λ r v', v'.2 = R ∧ transferred lp b n resume sync L r v'.1) (L, R).
Proof.
  intros Hb Hfuel Hname. unfold download_single.
  set (same_err := λ e, conj (eq_refl R) (transferred_same lp b n resume sync L e)).
  apply wp_bind, wp_reads. intros w Hw.
  assert (os_path_exists lp w = true → is_Some (L lp)) as Hex.
  { unfold os_path_exists. injection Hw as -> _. by intros ?%bool_decide_eq_true_1. }
  assert (wp (local_size ← (if resume && os_path_exists lp w then m ← getsize lp; mret (Some m) else mret None);
      if from_option (λ m, len b <=? m)%Z false local_size
      then mret (done_dict lp rp (len b) (len b) false)
      else download_copy fuel sf rp lp resume n (len b) (default 0%Z local_size))
    (λ r v', v'.2 = R ∧ transferred lp b n resume sync L r v'.1) (L, R)) as Hrest.
  { apply wp_bind. eapply wp_mono; [by apply wp_local_size|]. cbn beta.
    intros [o|e] v _ [-> Ho]; [|exact (same_err e)]. destruct (Ho o eq_refl) as [Hsize Hres].
    destruct o as [m|]; cbn [from_option default id] in *; [|apply (wp_download_copy _ _ _ _ _ _ _ _ []); auto].
    rewrite (Hres (ex_intro _ m eq_refl)). destruct (_ <=? _)%Z eqn:E; to_prop.
    - apply wp_ret. split; [done|]. apply transferred_enough. destruct Hsize as [Hd|(old & Ho' & ->)]; simpl; eauto.
    - destruct Hsize as [Hd|(old & Ho' & ->)]; [by apply wp_download_copy_dir|].
      apply wp_download_copy; auto. }
  apply wp_bind, wp_same_hash; [by intros [? _]%Hname| |exact same_err|exact Hrest|].
  { intros [_ Hf]%Hname Ht. split; [by apply Hex|done]. }
  intros -> Hag. apply wp_ret. split; [done|]. apply transferred_skip.
  destruct Hag as [Hd|(b' & old & Hb' & Ho & Hm)]; simpl in *; [by left|right].
  exists b'. split; [done|congruence].
Qed.

(** A destination that is absent or a part of the source *)
Definition part_of (x : option node) (b : bytes) : Prop := x = None ∨ ∃ k, x = Some (File (take k b)).

Lemma starts_part resume x b start : starts resume x start → resume = false ∨ part_of x b →
  ∃ j, start = take j b ∧ j ≤ length b.
Proof.
  intros [->|[-> Hs]] Hp; [by exists 0; split; [|lia]|]. destruct Hp as [?|[Hn|[k Hk]]]; [done|congruence|].
  exists (min k (length b)). split; [|lia]. rewrite Hk in Hs. injection Hs as <-.
  rewrite <-take_take, (take_ge b (length b)) by done. done.
Qed.

(** A full copy, and a resumed one of a part of the source, ends with exactly the
    source or breaks with a part of it. *)
Lemma outcome_exact b n resume old r new : outcome b n resume sync_full old r new →
  n ≠ 0%Z → resume = false ∨ part_of old b →
  if is_ok r then new = Some (File b) else new = old ∨ part_of new b.
Proof.
  intros Hr Hn Hold.
  assert (∀ start, starts resume old start → ∃ j, start = take j b ∧ j ≤ length b) as Hst
    by (intros start Hs; by eapply starts_part).
  unfold outcome, rest in Hr. rewrite (proj2 (Z.eqb_neq n 0) Hn) in Hr. destruct r as [d|e]; simpl.
  - destruct Hr as [_ Hr]. destruct (get_truthy "skipped" d); [by destruct Hr as (_ & ? & _)|].
    destruct Hr as [(-> & Hd & _)|(_ & (start & (j & -> & Hj)%Hst & ->) & _)].
    + destruct Hold as [?|[?|[? ?]]]; congruence.
    + by rewrite length_take, Nat.min_l, take_drop by done.
  - destruct Hr as [->|(_ & start & k & (j & -> & Hj)%Hst & ->)]; [by left|right]. right. exists (j + k).
    rewrite length_take, Nat.min_l by done. by rewrite take_take_drop.
Qed.



(** *** Directory trees *)

(** A tree as [os.walk] lists it: of every directory the path below the root, and
    the names of its directories and files *)
Definition dir_tree : Type := list (list string * list string * list string).

(** What [os.walk] gives of a tree below the absolute directory [base] *)
Definition walk_of (base : list string) (tree : dir_tree) : list (string * list string * list string) :=
  (λ d, (path_of (base ++ d.1.1), d.1.2, d.2)) <$> tree.

(** The files of a tree, below its root *)
Definition files_of_dir (d : list string * list string * list string) : list (list string) :=
  (λ f, d.1.1 ++ [f]) <$> d.2.
Definition files_of (tree : dir_tree) : list (list string) := tree ≫= files_of_dir.

(** A name [os.path] and the replacing of backslashes leave alone *)
Definition plain (x : string) : Prop := clean x ∧ has_char backslash x = false.
Definition plain_tree (tree : dir_tree) : Prop := Forall (λ d, Forall plain d.1.1 ∧ Forall plain d.2) tree.

Lemma plain_clean l : Forall plain l → Forall clean l.
Proof. intros Hl. eapply Forall_impl; [exact Hl|]. by intros x []. Qed.

Lemma replace_absent c t s : has_char c s = false → replace_char c t s = s.
Proof.
  induction s as [|a s IH]; [done|]. cbn [has_char replace_char]. intros [-> Hs]%orb_false_elim.
  by rewrite IH.
Qed.

Lemma fix_slashes_path_of l : Forall plain l → fix_slashes (path_of l) = path_of l.
Proof.
  intros Hl. apply replace_absent. unfold path_of. rewrite has_char_app. simpl.
  induction Hl as [|x l [_ Hx] Hl IH]; [done|]. destruct l as [|y l]; [done|].
  change (join sep (x :: y :: l)) with (x +:+ sep +:+ join sep (y :: l)).
  by rewrite !has_char_app, Hx, IH.
Qed.

Lemma path_of_inj l k : l ≠ [] → k ≠ [] → Forall clean l → Forall clean k → path_of l = path_of k → l = k.
Proof. intros Hl Hk Hcl Hck E. by rewrite <-(comps_path_of "/" l), <-(comps_path_of "/" k), E. Qed.

(** A directory of the tree and its files go to the same places below the
    destination. *)
Lemma dest_dir_below cwd lb rb parts : lb ≠ [] → rb ≠ [] → Forall clean lb → Forall plain rb →
  Forall plain parts →
  dest_dir cwd (path_of lb) (path_of rb) (path_of (lb ++ parts)) = path_of (rb ++ parts).
Proof.
  intros Hl Hr Hcl Hcr Hp. unfold dest_dir. destruct parts as [|x parts].
  - rewrite !app_nil_r. unfold relpath, rel_list.
    pose proof (common_prefix_app (comps cwd (path_of lb)) []) as Hpre. rewrite app_nil_r in Hpre.
    by rewrite Hpre, Nat.sub_diag, drop_ge.
  - assert (Forall clean (x :: parts)) as Hcp by by apply plain_clean.
    assert (lb ++ x :: parts ≠ []) as Hne by by destruct lb.
    rewrite (relpath_below cwd _ _ (x :: parts)); [|done|].
    2:{ rewrite !comps_path_of; try done. by apply Forall_app. }
    assert (String.eqb (join sep (x :: parts)) "." = false) as ->.
    { apply String.eqb_neq. intros E. apply (f_equal (split_char slash)) in E.
      rewrite split_join in E; [|done|eapply Forall_impl; [exact Hcp|by intros ? (_ & _ & _ & ?)]].
      injection E as -> ->. by inversion Hcp as [|?? (_ & ? & _)]. }
    rewrite path_join_of; try done; [|by apply plain_clean]. apply fix_slashes_path_of. by apply Forall_app.
Qed.

Lemma dest_file_below rb parts f : rb ≠ [] → Forall plain rb → Forall plain parts → plain f →
  dest_file (path_of (rb ++ parts)) f = path_of (rb ++ parts ++ [f]).
Proof.
  intros Hr Hcr Hp Hf. unfold dest_file. rewrite path_join_one.
  - rewrite <-app_assoc. apply fix_slashes_path_of. rewrite !Forall_app. auto.
  - by destruct rb.
  - apply Forall_app. split; by apply plain_clean.
  - apply Hf.
Qed.

Lemma wp_foldM_from {A B} (f : B → A → M W B) all (I : list A → B → files * files → Prop)
    (E : files * files → Prop) :
  (∀ pre x post b v, all = pre ++ x :: post → I pre b v →
     wp (f b x) (λ r v', match r with Ok b' => I (pre ++ [x]) b' v' | Err _ => E v' end) v) →
  ∀ l pre b v, all = pre ++ l → I pre b v →
    wp (foldM f l b) (λ r v', match r with Ok b' => I all b' v' | Err _ => E v' end) v.
Proof.
  intros Hf l. induction l as [|x l IH]; intros pre b v Hl Hi; cbn [foldM].
  { apply wp_ret. by rewrite Hl, app_nil_r. }
  apply wp_bind. eapply wp_mono; [by apply (Hf pre x l)|]. cbn beta. intros [b'|e] v' _ Hv; [|done].
  apply (IH (pre ++ [x])); [|done]. by rewrite <-app_assoc.
Qed.

Lemma wp_foldM {A B} (f : B → A → M W B) l (I : list A → B → files * files → Prop)
    (E : files * files → Prop) b v :
  (∀ pre x post b v, l = pre ++ x :: post → I pre b v →
     wp (f b x) (λ r v', match r with Ok b' => I (pre ++ [x]) b' v' | Err _ => E v' end) v) →
  I [] b v → wp (foldM f l b) (λ r v', match r with Ok b' => I l b' v' | Err _ => E v' end) v.
Proof. intros Hf Hi. by apply (wp_foldM_from _ _ _ _ Hf l []). Qed.

(** The counts of a tree are those of its files' results. *)
Definition tallied (c : Counts) (outs : list TransferResult) : Prop :=
  n_bytes c = sumZ (get_int "transferred_bytes" <$> outs)
  ∧ n_files c = Z.of_nat (length (filter (λ d, get_truthy "skipped" d = false) outs))
  ∧ n_skipped c = Z.of_nat (length (filter (λ d, get_truthy "skipped" d = true) outs)).

Lemma tallied_snoc c outs d : tallied c outs → get_truthy "success" d = true →
  tallied (count_result c d) (outs ++ [d]).
Proof.
  intros (Hb & Hf & Hs) Hd. unfold count_result, tallied. rewrite Hd, fmap_app, sumZ_app, !filter_app, !length_app.
  change (sumZ (get_int "transferred_bytes" <$> [d])) with (get_int "transferred_bytes" d + 0)%Z.
  destruct (get_truthy "skipped" d) eqn:E; cbn [n_bytes n_files n_skipped];
    rewrite (filter_cons _ d), (filter_cons (λ d, _ = true) d), !filter_nil, E; simpl; lia.
Qed.

Section tree.
Context (cwd : string) (lb rb : list string) (fuel : nat) (session : Client).
Context (resume : bool) (sync : SyncMode) (n : Z) (chmod : option string).
Context (L R : files) (tree : dir_tree).
Definition here (f : list string) : string := path_of (lb ++ f).
Definition there (f : list string) : string := path_of (rb ++ f).

(** The file [f] after a transfer that gave [r] *)
Definition arrived (v : files * files) (f : list string) (r : res TransferResult) : Prop :=
  ∃ b, L (here f) = Some (File b) ∧ outcome b n resume sync (R (there f)) r (v.2 (there f)).

Context (Hlb : lb ≠ []) (Hrb : rb ≠ []) (Hcl : Forall clean lb) (Hcr : Forall plain rb) (Htree : plain_tree tree).
Context (Hsize : ∀ f, f ∈ files_of tree → ∃ b, L (here f) = Some (File b) ∧ (len b < Z.of_nat fuel)%Z).
Context (Hname : sync = sync_hash → ∀ f, f ∈ files_of tree → plain_name (there f) = true).
Context (Hnd : NoDup (files_of tree)) (Hds : ∀ d, d ∈ tree → d.1.1 ∉ files_of tree).

(** Outside the tree nothing changes. *)
Definition outside (v : files * files) : Prop :=
  v.1 = L ∧ ∀ p, (∀ f, f ∈ files_of tree → p ≠ there f) → (∀ d, d ∈ tree → p ≠ there d.1.1) → v.2 p = R p.

Definition tree_inv (done : list (list string)) (c : Counts) (v : files * files) : Prop :=
  outside v ∧ (∀ f, f ∈ files_of tree → f ∉ done → v.2 (there f) = R (there f))
  ∧ ∃ outs, Forall2 (λ f d, arrived v f (Ok d)) done outs ∧ tallied c outs.

(** However far it got *)
Definition tree_broken (v : files * files) : Prop :=
  outside v ∧ ∀ f, f ∈ files_of tree → ∀ e, arrived v f (Err e).

Lemma tree_names d : d ∈ tree → Forall plain d.1.1 ∧ Forall plain d.2.
Proof. unfold plain_tree in Htree. rewrite Forall_forall in Htree. apply Htree. Qed.

Lemma arrived_keep v v' done outs : (∀ f, f ∈ done → v'.2 (there f) = v.2 (there f)) →
  Forall2 (λ f d, arrived v f (Ok d)) done outs → Forall2 (λ f d, arrived v' f (Ok d)) done outs.
Proof.
  intros Hsame Hdone. induction Hdone as [|f d done outs (b & Hb & Ho) Hdone IH]; constructor.
  - exists b. split; [done|]. by rewrite Hsame by set_solver.
  - apply IH. intros g Hg. apply Hsame. set_solver.
Qed.

Lemma plain_file f : f ∈ files_of tree → Forall plain f.
Proof.
  intros ([[parts subs] fs] & Hf & Hd)%list_elem_of_bind.
  apply list_elem_of_fmap in Hf as (x & -> & Hx).
  destruct (tree_names _ Hd) as [Hp Hfs]. rewrite Forall_app. split; [done|].
  rewrite Forall_forall in Hfs. by constructor; [apply Hfs|].
Qed.

Lemma plain_dir d : d ∈ tree → Forall plain d.1.1.
Proof. intros Hd. by apply tree_names. Qed.

Lemma there_inj f g : Forall plain f → Forall plain g → there f = there g → f = g.
Proof.
  intros Hf Hg E. apply path_of_inj in E; [by simplify_list_eq|by destruct rb|by destruct rb|..];
    apply Forall_app; split; by apply plain_clean.
Qed.

Lemma inv_broken done c v : tree_inv done c v → tree_broken v.
Proof.
  intros (Hout & Hleft & outs & Hdone & _). split; [done|]. intros f Hf e.
  destruct (decide (f ∈ done)) as [Hin|Hin].
  - apply list_elem_of_lookup in Hin as [i Hi].
    destruct (Forall2_lookup_l _ _ _ _ _ Hdone Hi) as (d & _ & b & Hb & Ho). exists b. split; [done|].
    by eapply outcome_err.
  - destruct (Hsize f Hf) as (b & Hb & _). exists b. split; [done|]. left. by apply Hleft.
Qed.

Lemma wp_tree_file done f post c v : files_of tree = done ++ f :: post → tree_inv done c v →
  wp (res ← upload_one fuel session resume sync n chmod (here f) (there f); mret (count_result c res))
    (λ x v', match x with Ok c' => tree_inv (done ++ [f]) c' v' | Err _ => tree_broken v' end) v.
Proof.
  intros E Hinv. pose proof (inv_broken _ _ _ Hinv) as [_ Hbr].
  destruct Hinv as (Hout & Hleft & outs & Hdone & Hc).
  assert (f ∈ files_of tree) as Hin by (rewrite E; set_solver).
  destruct (Hsize f Hin) as (b & Hb & Hf).
  assert (f ∉ done) as Hni.
  { rewrite E in Hnd. apply NoDup_app in Hnd as (_ & Hd & _). intros Hx. apply (Hd f Hx). by left. }
  assert (∀ g, g ∈ files_of tree → g ≠ f → there g ≠ there f) as Hne.
  { intros g Hg Hgf Eg. apply Hgf. by apply there_inj; [apply plain_file..|]. }
  destruct v as [L' X]. destruct Hout as [Hl Hout]. simpl in Hl, Hleft, Hout. subst L'.
  apply wp_bind. eapply wp_mono.
  { apply (wp_upload_one fuel session (here f) (there f) resume sync n chmod b L X Hb Hf). auto. }
  cbn beta. intros x [L' X'] _ [Hl [Hf' Ht]]. simpl in Hl, Hf', Ht. subst L'.
  assert (outside (L, X')) as Hout'.
  { split; [done|]. intros p Hp Hpd. simpl. rewrite Hf' by auto. by apply Hout. }
  rewrite (Hleft f) in Ht by done.
  destruct x as [d|e].
  - apply wp_ret. split; [done|]. split; [|exists (outs ++ [d]); split].
    + intros g Hg Hgd. simpl. rewrite Hf' by (apply Hne; set_solver). apply Hleft; [done|set_solver].
    + apply Forall2_app; [|by repeat constructor; exists b].
      eapply arrived_keep; [|exact Hdone]. intros g Hg. simpl. rewrite Hf'; [done|].
      apply Hne; [rewrite E; set_solver|]. by intros ->.
    + apply tallied_snoc; [done|]. apply Ht.
  - split; [done|]. intros g Hg e'. destruct (decide (g = f)) as [->|Hgf].
    + exists b. split; [done|]. by eapply outcome_err.
    + destruct (Hbr g Hg e') as (b' & Hb' & Ho). exists b'. split; [done|]. simpl in *. by rewrite Hf' by auto.
Qed.

Lemma wp_upload_dir sftp done d post c v : tree = done ++ d :: post → tree_inv (files_of done) c v →
  wp (upload_dir cwd (upload_one fuel session resume sync n chmod) sftp (path_of lb) (path_of rb) c
        (path_of (lb ++ d.1.1), d.1.2, d.2))
    (λ x v', match x with
             | Ok c' => tree_inv (files_of (done ++ [d])) c' v'
             | Err _ => tree_broken v'
             end) v.
Proof.
  intros E Hinv. assert (d ∈ tree) as Hd by (rewrite E; set_solver).
  pose proof (plain_dir d Hd) as Hpd. cbn [upload_dir].
  rewrite dest_dir_below by done. apply wp_bind, wp_except_os.
  assert (∀ v' : files * files, v'.1 = v.1 → (∀ p, p ≠ there d.1.1 → v'.2 p = v.2 p) →
    tree_inv (files_of done) c v') as Hkeep.
  { intros v' Hl Hf. destruct Hinv as ([Hl' Hout] & Hleft & outs & Hdone & Hc).
    assert (∀ f, f ∈ files_of tree → v'.2 (there f) = v.2 (there f)) as Hsame.
    { intros f Hin. apply Hf. intros Ef. apply there_inj in Ef; [|by apply plain_file|done]. subst f. by apply (Hds d). }
    split; [|split].
    - split; [by rewrite Hl|]. intros p Hp Hpd'. rewrite Hf by auto. by apply Hout.
    - intros f Hin Hni. rewrite Hsame by done. by apply Hleft.
    - exists outs. split; [|done]. eapply arrived_keep; [|exact Hdone]. intros f Hin. apply Hsame.
      unfold files_of. rewrite E, bind_app. apply elem_of_app. by left. }
  assert (∀ v', tree_inv (files_of done) c v' →
    wp (foldM (λ c file, res ← upload_one fuel session resume sync n chmod (path_join (path_of (lb ++ d.1.1)) file)
                                 (dest_file (path_of (rb ++ d.1.1)) file); mret (count_result c res)) d.2 c)
      (λ x v', match x with
               | Ok c' => tree_inv (files_of (done ++ [d])) c' v'
               | Err _ => tree_broken v'
               end) v') as Hfiles.
  { intros v' Hinv'. set (t := λ fs, files_of done ++ files_of_dir (d.1, fs)).
    assert (files_of (done ++ [d]) = t d.2) as ->.
    { unfold files_of, t. rewrite bind_app, bind_singleton. by destruct d. }
    apply (wp_foldM _ d.2 (λ pre c v, tree_inv (t pre) c v)).
    - intros pre x post' c' v'' Efs Hi.
      assert (plain x) as Hx.
      { destruct (tree_names d Hd) as [_ Hfs]. rewrite Efs in Hfs. apply Forall_app in Hfs as [_ Hfs].
        by inversion Hfs. }
      assert (path_join (path_of (lb ++ d.1.1)) x = here (d.1.1 ++ [x])) as ->.
      { rewrite path_join_one; [by rewrite <-app_assoc|by destruct lb| |apply Hx].
        apply Forall_app. split; [done|by apply plain_clean]. }
      rewrite dest_file_below by done. change (path_of (rb ++ d.1.1 ++ [x])) with (there (d.1.1 ++ [x])).
      replace (t (pre ++ [x])) with (t pre ++ [d.1.1 ++ [x]]).
      + apply (wp_tree_file _ _ (files_of_dir (d.1, post') ++ files_of post)); [|done].
        assert (files_of_dir d = files_of_dir (d.1, pre) ++ (d.1.1 ++ [x]) :: files_of_dir (d.1, post')) as Ed.
        { unfold files_of_dir. simpl. by rewrite Efs, fmap_app. }
        unfold files_of, t. rewrite E, bind_app, bind_cons, Ed. by rewrite <-!app_assoc.
      + unfold t, files_of_dir. cbn [fst snd]. by rewrite fmap_app, <-app_assoc.
    - unfold t, files_of_dir. cbn [fmap list_fmap snd]. by rewrite app_nil_r. }
  intros w Hw. pose proof (mkdir_spec sftp (path_of (rb ++ d.1.1)) w) as Hm.
  destruct (sftp_mkdir sftp _ w) as [r w'].
  destruct Hm as (Hl & Ho & Hr). simpl. split; [done|].
  assert (tree_inv (files_of done) c (views w')) as Hinv'.
  { apply Hkeep; subst v; [done|]. intros p Hp. by apply Hr. }
  destruct r as [u|e]; [by apply Hfiles|]. split; [by eapply inv_broken|]. apply wp_ret. by apply Hfiles.
Qed.
End tree.


(** When every file is exactly there, none was skipped, and the bytes reported are
    those of the files and at most those they replaced. *)
Lemma all_counted lb rb n v v' fs outs : n ≠ 0%Z →
  Forall2 (λ f d, arrived lb rb false sync_full n v.1 v.2 v' f (Ok d)) fs outs →
  (∀ f, f ∈ fs → v'.2 (there rb f) = v.1 (here lb f))
  ∧ filter (λ d, get_truthy "skipped" d = false) outs = outs
  ∧ filter (λ d, get_truthy "skipped" d = true) outs = []
  ∧ (sumZ ((λ f, len (content (v.1 (here lb f)))) <$> fs) ≤ sumZ (get_int "transferred_bytes" <$> outs)
     ≤ sumZ ((λ f, len (content (v.1 (here lb f)))) <$> fs)
       + sumZ ((λ f, len (content (v.2 (there rb f)))) <$> fs))%Z.
Proof.
  intros Hn Hall. induction Hall as [|f d fs outs (b & Hb & Ho) Hall (IH1 & IH2 & IH3 & IH4)].
  { split_and!; [intros f Hf; set_solver|done|done|simpl; lia..]. }
  pose proof (outcome_exact _ _ _ _ _ _ Ho Hn (or_introl eq_refl)) as Hx. simpl in Hx.
  destruct Ho as [_ Ho]. destruct (get_truthy "skipped" d) eqn:E; [by destruct Ho as (_ & ? & _)|].
  destruct Ho as [[? _]|(_ & _ & Hc)]; [done|]. specialize (Hc eq_refl Hn). unfold counted in Hc.
  rewrite filter_cons_True, filter_cons_False, IH2, IH3 by congruence. split_and!; [|done|done|..].
  - intros g [->|Hg]%elem_of_cons; [congruence|by apply IH1].
  - rewrite !fmap_cons. unfold sumZ in *. cbn [foldr]. rewrite Hb. cbn [content]. lia.
  - rewrite !fmap_cons. unfold sumZ in *. cbn [foldr]. rewrite Hb. cbn [content]. lia.
Qed.

End wp.

(** ** A concrete pair of disks

    [t_budget] writes to the other side succeed; then the line breaks after one
    more byte. *)
Module ToyDisks.
Record world := mkWorld { t_local : files; t_remote : files; t_budget : nat }.

Definition put (p : string) (x : node) (X : files) : files := λ p', if decide (p' = p) then Some x else X p'.
Definition set_local (X : files) (w : world) : world := mkWorld X (t_remote w) (t_budget w).
Definition set_remote (X : files) (w : world) : world := mkWorld (t_local w) X (t_budget w).
Definition spend (w : world) : world := mkWorld (t_local w) (t_remote w) (pred (t_budget w)).

Definition nibble (n : nat) : ascii := ascii_of_nat (97 + n `mod` 16).
Fixpoint hex (b : bytes) : string :=
  match b with
  | [] => EmptyString
  | a :: b => String (nibble (nat_of_ascii a `div` 16)) (String (nibble (nat_of_ascii a)) (hex b))
  end.
Definition digest (b : bytes) : string := String "m"%char (hex b).

Definition not_found (p : string) : exn := FileNotFoundError p.
Definition broken : exn := OtherError "OSError" "Socket is closed".

Definition get_file {A} (p : string) (X : files) (f : bytes → A) : res A :=
  match X p with Some (File b) => Ok (f b) | _ => Err (not_found p) end.

Definition open_file (p : string) (app : bool) (X : files) : res unit * files :=
  match X p with
  | Some Dir => (Err (OtherError "IsADirectoryError" p), X)
  | x => (Ok tt, put p (File (if app then content x else [])) X)
  end.
Definition write_file (p : string) (b : bytes) (X : files) : files := put p (File (content (X p) ++ b)) X.

(** [md5sum] as the shell on the other side runs it *)
Definition md5sum_output (X : files) (cmd : string) : string :=
  match cmd with
  | String _ (String _ (String _ (String _ (String _ (String _ (String _ (String _ p))))))) =>
      let p := rstrip_char "'"%char p in
      match X p with Some (File b) => digest b +:+ "  " +:+ p +:+ nl | _ => "" end
  | _ => ""
  end.

#[export] Instance toy_ssh : Ssh world :=
  {| Client := unit; Channel := string;
     exec_command _ cmd _ w := (Ok cmd, w); stdin_write _ _ w := (Ok tt, w); stdin_close _ w := (Ok tt, w);
     stdout_read ch w := (Ok (md5sum_output (t_remote w) ch), w); stderr_read _ w := (Ok "", w);
     recv_exit_status _ w := (Ok 0%Z, w); exit_status_ready _ w := (Ok true, w);
     recv_ready _ w := (Ok false, w); recv _ _ w := (Ok "", w);
     recv_stderr_ready _ w := (Ok false, w); recv_stderr _ _ w := (Ok "", w);
     channel_close _ w := (Ok tt, w) |}.

Definition tree : list (string * list string * list string) :=
  [("/src", ["sub"], ["a"]); ("/src/sub", [], ["b"])].

#[export] Instance toy_disks : Disks world :=
  {| Sftp := unit; local := t_local; remote := t_remote; md5_hex := digest;
     os_makedirs p w := (Ok tt, set_local (put p Dir (t_local w)) w);
     os_walk p w := if String.eqb p "/src" then tree else [];
     getsize p w := (get_file p (t_local w) len, w);
     open_rb p w := (get_file p (t_local w) (λ _, tt), w);
     read_local p pos n w := (get_file p (t_local w) (λ b, read_at b pos n), w);
     open_local p app w := let '(r, X) := open_file p app (t_local w) in (r, set_local X w);
     write_local p b w := (Ok tt, set_local (write_file p b (t_local w)) w);
     close_local _ w := (Ok tt, w);
     open_sftp _ w := (Ok tt, w); sftp_close _ w := (Ok tt, w);
     sftp_stat _ p w := (match t_remote w p with
                         | Some (File b) => Ok (len b, false)
                         | Some Dir => Ok (4096%Z, true)
                         | None => Err (not_found p)
                         end, w);
     sftp_listdir_attr _ _ w := (Ok [], w);
     sftp_mkdir _ p w := match t_remote w p with
                         | None => (Ok tt, set_remote (put p Dir (t_remote w)) w)
                         | Some _ => (Err (OtherError "OSError" "Failure"), w)
                         end;
     sftp_chmod _ _ _ w := (Ok tt, w);
     open_remote_rb _ p w := (get_file p (t_remote w) (λ _, tt), w);
     read_remote _ p pos n w := (get_file p (t_remote w) (λ b, read_at b pos n), w);
     open_remote _ p app w := let '(r, X) := open_file p app (t_remote w) in (r, set_remote X w);
     write_remote _ p b w :=
       match t_budget w with
       | O => (Err broken, set_remote (write_file p (take 1 b) (t_remote w)) w)
       | S _ => (Ok tt, spend (set_remote (write_file p b (t_remote w)) w))
       end;
     close_remote _ _ w := (Ok tt, w) |}.

Lemma get_file_call {A} p (f : bytes → A) (X : world → files) :
  disk_call (λ w, (get_file p (X w) f, w)).
Proof. split; [|done]. intros w. simpl. unfold get_file. ordinary_cases. Qed.

Lemma get_file_ok {A} p X (f : bytes → A) a : get_file p X f = Ok a → ∃ b, X p = Some (File b) ∧ a = f b.
Proof. unfold get_file. case_match; [case_match|]; naive_solver. Qed.

Lemma open_file_spec p app X : let '(r, X') := open_file p app X in
  ordinary r ∧ (opened p app X X' ∨ is_ok r = false ∧ X' = X).
Proof.
  unfold open_file. destruct (X p) as [[b|]|] eqn:E; (split; [ordinary_cases|]); [left|by right|left];
    unfold opened, put; rewrite decide_True by done; rewrite E; (split; [done|]); (split; [done|]);
    intros p' Hp; by rewrite decide_False.
Qed.

Lemma write_file_spec p b X : appended p b X (write_file p b X).
Proof. unfold write_file, put. split; [by rewrite decide_True|]. intros. by rewrite decide_False. Qed.

Lemma rstrip_quoted p : has_char "'" p = false → rstrip_char "'"%char (p +:+ "'") = p.
Proof.
  induction p as [|a p IH]; [done|]. cbn [has_char]. intros [Ha Hp]%orb_false_elim.
  change (String a p +:+ "'") with (String a (p +:+ "'")). cbn [rstrip_char]. rewrite IH by done.
  destruct p; [|done]. rewrite Ascii.eqb_sym in Ha. by rewrite Ascii.eqb_sym, Ha.
Qed.

Lemma nibble_no_space n : is_space (nibble n) = false.
Proof.
  unfold nibble. assert (n `mod` 16 < 16) as Hn by (apply Nat.mod_upper_bound; lia).
  revert Hn. generalize (n `mod` 16). intros m Hm. do 16 (destruct m as [|m]; [done|]). lia.
Qed.

Lemma hex_no_space b : no_space (hex b) = true.
Proof. induction b as [|a b IH]; [done|]. cbn [hex no_space]. by rewrite !nibble_no_space, IH. Qed.

#[export] Instance toy_disk_laws : DiskLaws world.
Proof.
  split; try (intros; by split); try (intros; apply get_file_call).
  - intros s p. split; [|done]. intros w. simpl. ordinary_cases.
  - intros p w n w' [= E _] b Hb. destruct (get_file_ok _ _ _ _ E) as (b' & Hb' & ->). simpl in *. by simplify_eq.
  - intros s p w n d w'. simpl. by destruct (t_remote w p) as [[b|]|]; intros; simplify_eq.
  - intros p pos n w r w' [= E _]. apply (get_file_ok _ _ _ _ E).
  - intros s p pos n w r w' [= E _]. apply (get_file_ok _ _ _ _ E).
  - intros c p w ch w1 out w2 Hp [= <- <-] [= <- _]. simpl.
    change ("" +:+ ?t) with t. rewrite rstrip_quoted.
    2:{ unfold plain_name in Hp. destruct (has_char "'" p); done. }
    destruct (t_remote w p) as [[b|]|]; [right; by exists b|by left..].
  - intros b. split; [done|exact (hex_no_space b)].
  - intros s d w. simpl. destruct (t_remote w d); simpl; (split; [done|]);
      (split; [(done || by apply ordinary_Err)|]); intros p Hp; [done|]. unfold put. by rewrite decide_False.
  - intros s p app w. simpl. pose proof (open_file_spec p app (t_remote w)) as Hs.
    destruct (open_file p app (t_remote w)) as [r X]. by split; [|exact Hs].
  - intros s p b w. simpl. destruct (t_budget w); simpl; (split; [done|]).
    + split; [by apply ordinary_Err|]. intros _. exists 1. split; [apply write_file_spec|done].
    + split; [done|]. intros _. exists (length b). rewrite take_ge by done. split; [apply write_file_spec|done].
  - intros p app w. simpl. pose proof (open_file_spec p app (t_local w)) as Hs.
    destruct (open_file p app (t_local w)) as [r X]. by split; [|exact Hs].
  - intros p b w. simpl. split; [done|]. split; [done|]. intros _. exists (length b).
    rewrite take_ge by done. split; [apply write_file_spec|done].
Qed.

Definition text (s : string) : bytes := String.list_ascii_of_string s.
Definition no_files : files := λ _, None.
Definition lying (p s : string) : files := put p (File (text s)) no_files.

(** An upload that breaks after two chunks and a byte, and the resumed one *)
Definition broken_upload : res TransferResult * world :=
  _upload_file "/" 99 tt "/l" "/r" false false sync_full 3 None (mkWorld (lying "/l" "hello world") no_files 2).
Definition resumed_upload : res TransferResult * world :=
  _upload_file "/" 99 tt "/l" "/r" true false sync_full 3 None
    (mkWorld (t_local broken_upload.2) (t_remote broken_upload.2) 9).


Definition hash_download : res TransferResult * world :=
  _download_file 1 99 tt "/r" "/l" false true sync_hash 4 (mkWorld no_files (lying "/r" "hello") 9).


Definition tree_world : world := mkWorld (put "/src" Dir (put "/src/a" (File (text "A")) (put "/src/sub" Dir
  (put "/src/sub/b" (File (text "BB")) no_files)))) no_files 9.

Definition tree_upload : res TransferResult * world :=
  _upload_file "/" 9 tt "/src" "/dst" false true sync_full 4096 None tree_world.


(** Finding: a full upload over an existing file reports its old size on top. *)
Lemma overwrite_overcounts : ∃ d,
  (_upload_file "/" 99 tt "/l" "/r" false false sync_full 8 None
    (mkWorld (lying "/l" "new") (lying "/r" "previous") 9)).1 = Ok d
  ∧ get_int "transferred_bytes" d = 11%Z ∧ get_int "total_bytes" d = 3%Z.
Proof. eexists. split; [reflexivity|]. by vm_compute. Qed.

(** Finding: with a chunk size of 0 the destination is emptied and the upload
    reports success. *)
Lemma chunk_zero_empties :
  let '(r, w') := _upload_file "/" 99 tt "/l" "/r" false false sync_full 0 None
    (mkWorld (lying "/l" "new") (lying "/r" "previous") 9) in
  is_ok r = true ∧ t_remote w' "/r" = Some (File []).
Proof. by vm_compute. Qed.

(** Finding: resuming an upload onto a directory reports success and copies nothing. *)
Lemma resume_onto_directory :
  let '(r, w') := _upload_file "/" 99 tt "/l" "/r" true false sync_full 8 None
    (mkWorld (lying "/l" "new") (put "/r" Dir no_files) 9) in
  is_ok r = true ∧ t_remote w' "/r" = Some Dir.
Proof. by vm_compute. Qed.

(** Finding: in hash mode a local directory counts as equal to a remote file
    whose checksum cannot be read. *)
Lemma hash_skips_directory : ∃ d,
  (_download_file 1 99 tt "/r" "/l" false false sync_hash 8
    (mkWorld (put "/l" Dir no_files) (put "/r" Dir no_files) 9)).1 = Ok d
  ∧ get_truthy "skipped" d = true.
Proof. eexists. split; [reflexivity|]. by vm_compute. Qed.
End ToyDisks.
