(* ===== verification/ParamikoModel.v ===== *)
(** * Models of the Paramiko driver

    [linux_net/plugins/drivers/paramiko/model.py]: the arguments of the driver's
    connections, commands and configurations, with their defaults and
    validators, on JSON values of the declared types: what pydantic would
    convert (["22"] to [22]) is refused. *)

From S2P Require Import Prelude PyLib Models.

(** ** Typed fields *)
Definition field_or {A} (k : string) (dflt : A) (f : pyval → option A) (d : list (string * pyval)) : res A :=
  match dict_get k d with
  | None => Ok dflt
  | Some v => match f v with Some x => Ok x | None => Err (ValidationError k) end
  end.

Definition as_str (v : pyval) : option string := match v with PStr s => Some s | _ => None end.
Definition as_bool (v : pyval) : option bool := match v with PBool b => Some b | _ => None end.
Definition as_int (v : pyval) : option Z := match v with PInt z => Some z | _ => None end.
(** A [float], in millionths *)
Definition as_float (v : pyval) : option Z :=
  match v with PFloat us => Some us | PInt z => Some (z * 1000000)%Z | _ => None end.
Definition as_opt {A} (f : pyval → option A) (v : pyval) : option (option A) :=
  match v with PNone => Some None | _ => Some <$> f v end.

(** [Optional[Dict[str, str]]] with a default of [None] is [field_dict]. *)

(** ** Connection arguments *)
Inductive HostKeyPolicy := auto_add | reject | warning.
#[global] Instance HostKeyPolicy_eq_dec : EqDecision HostKeyPolicy.
Proof. solve_decision. Defined.

Definition policy_of (v : pyval) : option HostKeyPolicy :=
  match v with
  | PStr "auto_add" => Some auto_add | PStr "reject" => Some reject | PStr "warning" => Some warning
  | _ => None
  end.

Record ParamikoConnectionArgs := mkParamikoConnectionArgs {
  pc_host : string;
  pc_username : string;
  pc_password : option string;
  pc_key_filename : option string;
  pc_pkey : option string;
  pc_passphrase : option string;
  pc_port : Z;
  pc_timeout : Z;
  pc_host_key_policy : HostKeyPolicy;
  pc_look_for_keys : bool;
  pc_allow_agent : bool;
  pc_compress : bool;
  pc_banner_timeout : option Z;
  pc_auth_timeout : option Z;
  pc_keepalive : option Z;
  pc_proxy_host : option string;
  pc_proxy_port : Z;
  pc_proxy_username : option string;
  pc_proxy_password : option string;
  pc_proxy_key_filename : option string;
  pc_proxy_pkey : option string;
  pc_proxy_passphrase : option string;
}.
#[global] Instance ParamikoConnectionArgs_eq_dec : EqDecision ParamikoConnectionArgs.
Proof. solve_decision. Defined.

(** "Ensure at least one authentication method is provided" *)
Definition validate_authentication (a : ParamikoConnectionArgs) : res ParamikoConnectionArgs :=
  let given (o : option string) := bool_decide (is_Some o) in
  if given (pc_password a) || given (pc_key_filename a) || given (pc_pkey a) || pc_allow_agent a
     || pc_look_for_keys a
  then Ok a
  else Err (ValueError ("At least one authentication method must be provided: "
    +:+ "password, key_filename, pkey, allow_agent, or look_for_keys")).

(** [ParamikoConnectionArgs.model_validate(d)] *)
Definition ParamikoConnectionArgs_validate (d : list (string * pyval)) : res ParamikoConnectionArgs :=
  host ← match dict_get "host" d with Some (PStr s) => Ok s | _ => Err (ValidationError "host") end;
  username ← match dict_get "username" d with Some (PStr s) => Ok s | _ => Err (ValidationError "username") end;
  password ← field_str "password" d;
  key_filename ← field_str "key_filename" d;
  pkey ← field_str "pkey" d;
  passphrase ← field_str "passphrase" d;
  port ← field_or "port" 22%Z as_int d;
  timeout ← field_or "timeout" 30000000%Z as_float d;
  host_key_policy ← field_or "host_key_policy" auto_add policy_of d;
  look_for_keys ← field_or "look_for_keys" true as_bool d;
  allow_agent ← field_or "allow_agent" false as_bool d;
  compress ← field_or "compress" false as_bool d;
  banner_timeout ← field_or "banner_timeout" None (as_opt as_float) d;
  auth_timeout ← field_or "auth_timeout" None (as_opt as_float) d;
  keepalive ← field_or "keepalive" None (as_opt as_int) d;
  proxy_host ← field_str "proxy_host" d;
  proxy_port ← field_or "proxy_port" 22%Z as_int d;
  proxy_username ← field_str "proxy_username" d;
  proxy_password ← field_str "proxy_password" d;
  proxy_key_filename ← field_str "proxy_key_filename" d;
  proxy_pkey ← field_str "proxy_pkey" d;
  proxy_passphrase ← field_str "proxy_passphrase" d;
  validate_authentication
    (mkParamikoConnectionArgs host username password key_filename pkey passphrase port timeout
       host_key_policy look_for_keys allow_agent compress banner_timeout auth_timeout keepalive
       proxy_host proxy_port proxy_username proxy_password proxy_key_filename proxy_pkey proxy_passphrase).

(** ** Command and configuration arguments

    [DriverArgs] keeps undeclared keys; the driver reads one of them,
    [file_transfer]. *)
Record ParamikoSendCommandArgs := mkSendCommandArgs {
  sc_timeout : option Z;
  sc_get_pty : bool;
  sc_environment : option (list (string * string));
  sc_bufsize : Z;
  sc_script_content : option string;
  sc_script_interpreter : string;
  sc_working_directory : option string;
  sc_expect_map : option (list (string * string));
  sc_sudo : bool;
  sc_sudo_password : option string;
  sc_read_detached_task_logs : option (list (string * pyval));
  sc_list_active_detached_tasks : bool;
  sc_file_transfer : option pyval;
}.

Record ParamikoSendConfigArgs := mkSendConfigArgs {
  sf_timeout : option Z;
  sf_get_pty : bool;
  sf_sudo : bool;
  sf_sudo_password : option string;
  sf_environment : option (list (string * string));
  sf_stop_on_error : bool;
  sf_file_transfer : option pyval;
  sf_working_directory : option pyval;
}.

(** [self.args]: one of the two models *)
Inductive Args := CommandArgs (a : ParamikoSendCommandArgs) | ConfigArgs (a : ParamikoSendConfigArgs).

Definition field_obj (k : string) (d : list (string * pyval)) : res (option (list (string * pyval))) :=
  match dict_get k d with
  | None | Some PNone => Ok None
  | Some (PDict e) => Ok (Some e)
  | Some _ => Err (ValidationError k)
  end.

Definition ParamikoSendCommandArgs_validate (d : list (string * pyval)) : res ParamikoSendCommandArgs :=
  timeout ← field_or "timeout" None (as_opt as_float) d;
  get_pty ← field_or "get_pty" false as_bool d;
  environment ← field_dict "environment" d;
  bufsize ← field_or "bufsize" (-1)%Z as_int d;
  script_content ← field_str "script_content" d;
  script_interpreter ← field_or "script_interpreter" "bash" as_str d;
  working_directory ← field_str "working_directory" d;
  expect_map ← field_dict "expect_map" d;
  sudo ← field_or "sudo" false as_bool d;
  sudo_password ← field_str "sudo_password" d;
  read_detached_task_logs ← field_obj "read_detached_task_logs" d;
  list_active_detached_tasks ← field_or "list_active_detached_tasks" false as_bool d;
  Ok (mkSendCommandArgs timeout get_pty environment bufsize script_content script_interpreter
        working_directory expect_map sudo sudo_password read_detached_task_logs
        list_active_detached_tasks (dict_get "file_transfer" d)).

Definition ParamikoSendConfigArgs_validate (d : list (string * pyval)) : res ParamikoSendConfigArgs :=
  timeout ← field_or "timeout" None (as_opt as_float) d;
  get_pty ← field_or "get_pty" false as_bool d;
  sudo ← field_or "sudo" false as_bool d;
  sudo_password ← field_str "sudo_password" d;
  environment ← field_dict "environment" d;
  stop_on_error ← field_or "stop_on_error" true as_bool d;
  Ok (mkSendConfigArgs timeout get_pty sudo sudo_password environment stop_on_error
        (dict_get "file_transfer" d) (dict_get "working_directory" d)).

(** [FileTransferModel.model_validate(d)] *)
Definition operation_of (v : pyval) : option FileOperation :=
  match v with PStr "upload" => Some upload | PStr "download" => Some download | _ => None end.
Definition sync_of (v : pyval) : option SyncMode :=
  match v with PStr "full" => Some sync_full | PStr "hash" => Some sync_hash | _ => None end.

Definition FileTransferModel_validate (v : pyval) : res FileTransferModel :=
  match v with
  | PDict d =>
      operation ← match dict_get "operation" d ≫= operation_of with
                  | Some o => Ok o | None => Err (ValidationError "operation") end;
      remote_path ← match dict_get "remote_path" d with
                    | Some (PStr s) => Ok s | _ => Err (ValidationError "remote_path") end;
      local_path ← field_str "local_path" d;
      overwrite ← field_or "overwrite" true as_bool d;
      resume ← field_or "resume" false as_bool d;
      recursive ← field_or "recursive" false as_bool d;
      sync_mode ← field_or "sync_mode" sync_full sync_of d;
      hash_algorithm ← field_or "hash_algorithm" "md5" as_str d;
      verify_file ← field_or "verify_file" true as_bool d;
      chunk_size ← field_or "chunk_size" 32768%Z as_int d;
      chmod ← field_str "chmod" d;
      execute_after_upload ← field_or "execute_after_upload" false as_bool d;
      execute_command ← field_str "execute_command" d;
      cleanup_after_exec ← field_or "cleanup_after_exec" true as_bool d;
      Ok (mkFileTransfer operation remote_path local_path overwrite resume recursive sync_mode chunk_size
            chmod execute_after_upload execute_command cleanup_after_exec)
  | _ => Err (ValidationError "FileTransferModel")
  end.

(** ** Lemmas: validation raises ordinary exceptions only *)
Lemma field_or_ordinary {A} k (x : A) f d : ordinary (field_or k x f d).
Proof. unfold field_or. ordinary_cases. Qed.
Lemma field_dict_ordinary k d : ordinary (field_dict k d).
Proof. unfold field_dict. ordinary_cases. Qed.
Lemma field_obj_ordinary k d : ordinary (field_obj k d).
Proof. unfold field_obj. ordinary_cases. Qed.
Lemma validate_authentication_ordinary a : ordinary (validate_authentication a).
Proof. unfold validate_authentication. ordinary_cases. Qed.
#[export] Hint Resolve field_or_ordinary field_str_ordinary field_dict_ordinary field_obj_ordinary
  validate_authentication_ordinary : linux_net.

Ltac ordinary_fields :=
  repeat (apply ordinary_bind; [|intros ?]); auto with linux_net; ordinary_cases.

Lemma connection_validate_ordinary d : ordinary (ParamikoConnectionArgs_validate d).
Proof. unfold ParamikoConnectionArgs_validate. ordinary_fields. Qed.
Lemma command_validate_ordinary d : ordinary (ParamikoSendCommandArgs_validate d).
Proof. unfold ParamikoSendCommandArgs_validate. ordinary_fields. Qed.
Lemma config_validate_ordinary d : ordinary (ParamikoSendConfigArgs_validate d).
Proof. unfold ParamikoSendConfigArgs_validate. ordinary_fields. Qed.
Lemma transfer_validate_ordinary v : ordinary (FileTransferModel_validate v).
Proof. unfold FileTransferModel_validate. destruct v; try by apply ordinary_Err. ordinary_fields. Qed.
#[export] Hint Resolve connection_validate_ordinary command_validate_ordinary config_validate_ordinary
  transfer_validate_ordinary : linux_net.
