(* ===== verification/Paramiko.v ===== *)
(** * Sessions of the Paramiko driver

    [ParamikoDriver] of [linux_net/plugins/drivers/paramiko/__init__.py]:
    connecting directly and through a proxy, the session it keeps between jobs
    and the thread that watches it, disconnecting. *)

From Stdlib Require Import Ascii.
From S2P Require Import Prelude PyLib Models World Storage Ssh Shell Transfer ParamikoModel.

(** ** Connections: what the driver uses of [paramiko] beside channels *)
Class Transport (W : Type) `{Ssh W} := {
  PKey : Type;
  Sock : Type;
  Thread : Type;
  Event : Type;
  (** [RSAKey.from_private_key] and [Ed25519Key.from_private_key] *)
  rsa_key : string → option string → res PKey;
  ed25519_key : string → option string → res PKey;
  (** [SSHClient()], [set_missing_host_key_policy] and [connect] *)
  ssh_connect : HostKeyPolicy → list (string * (pyval + PKey + Sock)) → M W Client;
  open_channel : Client → string * Z → string * Z → M W Sock;
  (** [get_transport()] is there and [is_active()] *)
  is_active : Client → W → bool;
  remote_version : Client → W → option string;
  client_close : Client → M W unit;
  send_ignore : Client → M W unit;
  (** [threading.Event] and [threading.Thread] *)
  event_new : W → Event * W;
  event_set : Event → W → W;
  event_is_set : Event → W → bool;
  event_wait : Event → Z → W → bool * W;
  thread_start : M W Thread;
  is_alive : Thread → W → bool;
  thread_join : Thread → Z → M W unit;
}.

(** An [SSHClient], with the [_proxy_client] attribute the driver gives it *)
Record Session {W} `{Ssh W} := mkSession { se_client : Client; se_proxy : option Client }.
Arguments mkSession {W _} _ _.

(** The attributes of the class, and [_session_reused] of the driver object the
    worker runs *)
Record PState {W} `{Transport W} := mkPState {
  persisted_session : option Session;
  persisted_conn_args : option ParamikoConnectionArgs;
  last_cleanup_times : list ((string * string * Z) * Z);
  monitor_stop_event : option Event;
  monitor_thread : option Thread;
  session_reused : bool;
}.
Arguments mkPState {W _ _} _ _ _ _ _ _.

Class DriverState (W : Type) `{Transport W} := {
  pstate : W → PState;
  set_pstate : PState → W → W;
}.

(** [self] *)
Record Driver := mkDriver {
  d_args : option Args;
  d_conn_args : ParamikoConnectionArgs;
  d_staged_file_id : option string;
  d_job_id : string;
  d_file_transfer : option FileTransferModel;
}.

Section driver.
Context {W : Type} `{Disks W} `{!Transport W} `{!DriverState W} `{!Clock W}.
Implicit Types (d : Driver) (s : Session).

Definition gets {A} (f : PState → A) : M W A := reads (λ w, f (pstate w)).
Definition modify (f : PState → PState) : M W unit := writes (λ w, set_pstate (f (pstate w)) w).

(** ** The persisted session *)
Definition clear_session (p : PState) : PState :=
  mkPState None None (last_cleanup_times p) (monitor_stop_event p) (monitor_thread p) (session_reused p).
Definition keep_session (s : Session) (a : option ParamikoConnectionArgs) (p : PState) : PState :=
  mkPState (Some s) a (last_cleanup_times p) (monitor_stop_event p) (monitor_thread p) (session_reused p).
Definition set_monitor (e : option Event) (t : option Thread) (p : PState) : PState :=
  mkPState (persisted_session p) (persisted_conn_args p) (last_cleanup_times p) e t (session_reused p).
Definition set_cleanup (l : list ((string * string * Z) * Z)) (p : PState) : PState :=
  mkPState (persisted_session p) (persisted_conn_args p) l (monitor_stop_event p) (monitor_thread p)
    (session_reused p).
Definition set_reused (b : bool) (p : PState) : PState :=
  mkPState (persisted_session p) (persisted_conn_args p) (last_cleanup_times p) (monitor_stop_event p)
    (monitor_thread p) b.

Definition thread_runs (w : W) : bool :=
  match monitor_thread (pstate w) with Some t => is_alive t w | None => false end.

Definition _start_monitor_thread : M W unit :=
  alive ← reads thread_runs;
  if alive : bool then mret tt
  else
    a ← gets persisted_conn_args;
    match a with
    | None => raise (AssertionError "")
    | Some _ =>
        e ← update event_new;
        modify (λ p, set_monitor (Some e) (monitor_thread p) p) ≫= λ _,
        t ← thread_start;
        modify (λ p, set_monitor (monitor_stop_event p) (Some t) p)
    end.

Definition _stop_monitor_thread : M W unit :=
  e ← gets monitor_stop_event;
  match e with Some e => writes (event_set e) | None => mret tt end ≫= λ _,
  t ← gets monitor_thread;
  alive ← reads thread_runs;
  match t with
  | Some t => if alive : bool then thread_join t (seconds 5) else mret tt
  | None => mret tt
  end ≫= λ _,
  modify (set_monitor None None).

Definition has_keepalive (a : option ParamikoConnectionArgs) : bool :=
  match a with Some a => int_truthy (pc_keepalive a) | None => false end.

Definition _set_persisted_session (session : option Session) (conn_args : option ParamikoConnectionArgs)
    : M W (option Session) :=
  match session with
  | None =>
      a ← gets persisted_conn_args;
      (if has_keepalive a then _stop_monitor_thread else mret tt) ≫= λ _,
      modify clear_session ≫= λ _, mret None
  | Some s =>
      modify (keep_session s conn_args) ≫= λ _,
      (if has_keepalive conn_args then _start_monitor_thread else mret tt) ≫= λ _,
      gets persisted_session
  end.

Definition _get_persisted_session (conn_args : ParamikoConnectionArgs) : M W (option Session) :=
  session ← gets persisted_session;
  args ← gets persisted_conn_args;
  match session, args with
  | Some s, Some a =>
      if negb (String.eqb (pc_host a) (pc_host conn_args)) then
        try_finally (try_except (client_close (se_client s)) (λ _, mret tt))
          (_set_persisted_session None None ≫= λ _, mret tt) ≫= λ _,
        mret None
      else
        active ← reads (is_active (se_client s));
        if active : bool then mret (Some s)
        else _set_persisted_session None None ≫= λ _, mret None
  | _, _ => mret session
  end.

(** ** Connecting *)
Definition is_ssh_exception (e : exn) : bool :=
  match e with
  | OtherError cls _ =>
      bool_decide (cls ∈ ["SSHException"; "AuthenticationException"; "PasswordRequiredException";
        "BadAuthenticationType"; "PartialAuthentication"; "ChannelException"; "BadHostKeyException";
        "IncompatiblePeer"; "CouldNotCanonicalize"; "UnableToAuthenticate"; "MessageOrderError"; "ProxyCommandFailure"])
  | _ => false
  end.

Definition _load_pkey (pkey_str : string) (passphrase : option string) : res PKey :=
  match rsa_key pkey_str passphrase with
  | Ok k => Ok k
  | Err e =>
      if is_ssh_exception e then
        match ed25519_key pkey_str passphrase with
        | Ok k => Ok k
        | Err e => if is_ssh_exception e then Err (ValueError "Unsupported key format") else Err e
        end
      else Err e
  end.

Definition connect_kwargs : Type := list (string * (pyval + PKey + Sock)).
Definition kw (k : string) (v : pyval) : string * (pyval + PKey + Sock) := (k, inl (inl v)).
Definition kw_str (k : string) (o : option string) : connect_kwargs :=
  if str_truthy o then [kw k (opt_str o)] else [].
Definition kw_float (k : string) (o : option Z) : connect_kwargs :=
  match o with Some us => [kw k (PFloat us)] | None => [] end.

Definition _get_auth_kwargs (a : ParamikoConnectionArgs) (use_proxy : bool) : res connect_kwargs :=
  let '(pkey, key_filename, passphrase, password, username) :=
    if use_proxy then
      (pc_proxy_pkey a, pc_proxy_key_filename a, pc_proxy_passphrase a, pc_proxy_password a,
       if str_truthy (pc_proxy_username a) then pc_proxy_username a else Some (pc_username a))
    else (pc_pkey a, pc_key_filename a, pc_passphrase a, pc_password a, None) in
  auth ← (if str_truthy pkey then
            k ← _load_pkey (default "" pkey) passphrase; Ok [("pkey", inl (inr k))]
          else if str_truthy key_filename then
            Ok (kw_str "key_filename" key_filename ++ kw_str "passphrase" passphrase)
          else Ok (kw_str "password" password));
  Ok (auth ++ kw_str "username" username).

Definition timeouts (a : ParamikoConnectionArgs) : connect_kwargs :=
  kw_float "banner_timeout" (pc_banner_timeout a) ++ kw_float "auth_timeout" (pc_auth_timeout a).

Definition _connect_direct (a : ParamikoConnectionArgs) : M W Session :=
  let connect_kwargs :=
    [kw "hostname" (PStr (pc_host a)); kw "port" (PInt (pc_port a)); kw "username" (PStr (pc_username a));
     kw "timeout" (PFloat (pc_timeout a)); kw "look_for_keys" (PBool (pc_look_for_keys a));
     kw "allow_agent" (PBool (pc_allow_agent a)); kw "compress" (PBool (pc_compress a))] ++ timeouts a in
  auth ← of_res (_get_auth_kwargs a false);
  client ← ssh_connect (pc_host_key_policy a) (dict_update connect_kwargs auth);
  mret (mkSession client None).

Definition _connect_via_proxy (a : ParamikoConnectionArgs) (proxy_host : string) : M W Session :=
  proxy_auth ← of_res (_get_auth_kwargs a true);
  proxy_client ← ssh_connect auto_add (dict_update
    [kw "hostname" (PStr proxy_host); kw "port" (PInt (pc_proxy_port a));
     kw "timeout" (PFloat (pc_timeout a))] proxy_auth);
  channel ← open_channel proxy_client (pc_host a, pc_port a) (proxy_host, pc_proxy_port a);
  let target_kwargs :=
    [kw "hostname" (PStr (pc_host a)); kw "port" (PInt (pc_port a)); kw "username" (PStr (pc_username a));
     ("sock", inr channel); kw "timeout" (PFloat (pc_timeout a));
     kw "look_for_keys" (PBool (pc_look_for_keys a)); kw "allow_agent" (PBool (pc_allow_agent a))]
    ++ timeouts a in
  auth ← of_res (_get_auth_kwargs a false);
  target_client ← ssh_connect (pc_host_key_policy a) (dict_update target_kwargs auth);
  mret (mkSession target_client (Some proxy_client)).

Definition _cleanup_expired_tasks (d : Driver) (s : Session) : M W unit :=
  try_except
    (exec_command (se_client s) (cleanup_cmd (pc_username (d_conn_args d)) 86400)
       (mkExec (Some (seconds 5)) None None) ≫= λ _, mret tt)
    (λ _, mret tt).

Definition CLEANUP_INTERVAL : Z := seconds 1800.

Definition _maybe_cleanup_expired_tasks (d : Driver) (s : Session) : M W unit :=
  let a := d_conn_args d in
  let key := (pc_host a, pc_username a, pc_port a) in
  t ← reads now;
  times ← gets last_cleanup_times;
  if (CLEANUP_INTERVAL <? t - default 0 (dict_get key times))%Z then
    _cleanup_expired_tasks d s ≫= λ _,
    modify (λ p, set_cleanup (dict_set key t (last_cleanup_times p)) p)
  else mret tt.

Definition connect (d : Driver) : M W Session :=
  let a := d_conn_args d in
  persisted ← _get_persisted_session a;
  match persisted with
  | Some s => modify (set_reused true) ≫= λ _, mret s
  | None =>
      s ← (if str_truthy (pc_proxy_host a) then _connect_via_proxy a (default "" (pc_proxy_host a))
           else _connect_direct a);
      (if int_truthy (pc_keepalive a) then
         modify (set_reused false) ≫= λ _, _set_persisted_session (Some s) (Some a) ≫= λ _, mret tt
       else mret tt) ≫= λ _,
      _maybe_cleanup_expired_tasks d s ≫= λ _,
      mret s
  end.

Definition disconnect (d : Driver) (s : Session) (reset : bool) : M W unit :=
  let keepalive := int_truthy (pc_keepalive (d_conn_args d)) in
  if keepalive && negb reset then mret tt
  else
    try_finally
      (try_except
         (client_close (se_client s) ≫= λ _,
          match se_proxy s with
          | Some p => try_except (client_close p) (λ _, mret tt)
          | None => mret tt
          end)
         (λ _, mret tt))
      (if keepalive then _set_persisted_session None None ≫= λ _, mret tt else mret tt).

(** [ParamikoDriver.test]: connect, ask for the version, disconnect *)
Definition test (a : ParamikoConnectionArgs) : M W (string * option string) :=
  let d := mkDriver None a None "unknown" None in
  modify (set_reused false) ≫= λ _,
  s ← connect d;
  try_finally (v ← reads (remote_version (se_client s)); mret (pc_host a, if str_truthy v then v else None))
    (disconnect d s false).

(** *** The monitor thread: one round of its loop

    The thread reads the event from the class at each use; while it waits
    another thread may have replaced or removed it. *)
Inductive round := Quit | Suicide | Again (deep_check_counter : Z).

Definition stop_event : M W Event :=
  e ← gets monitor_stop_event;
  match e with
  | Some e => mret e
  | None => raise (OtherError "AttributeError" "'NoneType' object has no attribute 'is_set'")
  end.

Definition suicide : M W round := e ← stop_event; writes (event_set e) ≫= λ _, mret Suicide.

(** "Health checking" and "Keepalive" *)
Definition health_check (s : Session) (deep_check_counter : Z) : M W round :=
  active ← reads (is_active (se_client s));
  if negb active then suicide
  else
    try_except
      (send_ignore (se_client s) ≫= λ _,
       let n := (deep_check_counter + 1)%Z in
       if (5 <=? n)%Z then
         ch ← exec_command (se_client s) "echo 1" (mkExec (Some (seconds 5)) None None);
         out ← stdout_read ch;
         if String.eqb (strip out) "1" then mret (Again 0)
         else raise (OtherError "RuntimeError" "Deep health check failed: invalid response")
       else mret (Again n))
      (λ _, suicide).

Definition monitor_round (s : Session) (interval : Z) (deep_check_counter : Z) : M W round :=
  e ← stop_event;
  set ← reads (event_is_set e);
  if set : bool then mret Quit
  else
    e ← stop_event;
    stopped ← update (event_wait e (seconds interval));
    if stopped : bool then mret Quit
    else
      e ← stop_event;
      set ← reads (event_is_set e);
      if set : bool then mret Quit else health_check s deep_check_counter.
End driver.

(** Reading a key fails with an ordinary exception. *)
Class KeyLaws (W : Type) `{Transport W} : Prop := {
  rsa_ordinary : ∀ k x, ordinary (rsa_key k x);
  ed25519_ordinary : ∀ k x, ordinary (ed25519_key k x);
}.

Section keys.
Context {W : Type} `{KeyLaws W}.

Lemma load_pkey_ordinary k x : ordinary (_load_pkey (W:=W) k x).
Proof.
  unfold _load_pkey. pose proof (rsa_ordinary k x) as Hr. pose proof (ed25519_ordinary k x) as He.
  destruct (rsa_key k x); [done|]. case_match; [|done]. destruct (ed25519_key k x); [done|].
  case_match; [by apply ordinary_Err|done].
Qed.

Lemma auth_ordinary a proxy : ordinary (_get_auth_kwargs (W:=W) a proxy).
Proof.
  unfold _get_auth_kwargs. destruct proxy; simpl; (apply ordinary_bind; [|done]);
    (case_match; [apply ordinary_bind; [apply load_pkey_ordinary|done]|case_match; done]).
Qed.
End keys.
#[export] Hint Resolve load_pkey_ordinary auth_ordinary : linux_net.
