(* ===== verification/ParamikoExec.v ===== *)
(** * Work of the Paramiko driver on a session

    The methods of [ParamikoDriver]
    ([linux_net/plugins/drivers/paramiko/__init__.py]) that run something on the
    device: commands, interactive dialogues, scripts and the lines of a
    configuration. *)

From Stdlib Require Import Ascii.
From S2P Require Import Prelude PyLib Models Schedulers World Storage Ssh Shell Transfer ParamikoModel Paramiko.

(** ** The arguments of a call *)
Definition args_environment (args : option Args) : option (list (string * string)) :=
  match args with
  | Some (CommandArgs a) => sc_environment a
  | Some (ConfigArgs a) => sf_environment a
  | None => None
  end.
Definition args_sudo (args : option Args) : bool :=
  match args with
  | Some (CommandArgs a) => sc_sudo a
  | Some (ConfigArgs a) => sf_sudo a
  | None => false
  end.
Definition args_sudo_password (args : option Args) : option string :=
  match args with
  | Some (CommandArgs a) => sc_sudo_password a
  | Some (ConfigArgs a) => sf_sudo_password a
  | None => None
  end.
(** [getattr(self.args, "file_transfer", None)] and [working_directory] *)
Definition args_file_transfer (args : option Args) : pyval :=
  default PNone (match args with
                 | Some (CommandArgs a) => sc_file_transfer a
                 | Some (ConfigArgs a) => sf_file_transfer a
                 | None => None
                 end).
Definition args_working_directory (args : option Args) : pyval :=
  match args with
  | Some (CommandArgs a) => opt_str (sc_working_directory a)
  | Some (ConfigArgs a) => default PNone (sf_working_directory a)
  | None => PNone
  end.

Definition given_timeout (o : option Z) : option Z := if int_truthy o then o else None.

Definition command_kwargs (args : option Args) : exec_kwargs :=
  match args with
  | Some (CommandArgs a) =>
      mkExec (given_timeout (sc_timeout a)) (Some (sc_get_pty a))
        (if (sc_bufsize a =? -1)%Z then None else Some (sc_bufsize a))
  | _ => no_kwargs
  end.

Definition force_pty (k : exec_kwargs) : exec_kwargs := mkExec (ek_timeout k) (Some true) (ek_bufsize k).

(** The first prompt in the output that has not been answered *)
Definition unanswered (full_stdout : string) (responded : list string) (pr : string * string) : bool :=
  contains full_stdout pr.1 && negb (bool_decide (pr.1 ∈ responded)).
Definition next_prompt (expect_map : list (string * string)) (full_stdout : string)
    (responded : list string) : option (string * string) :=
  find (unanswered full_stdout responded) expect_map.

Definition poll_interval : Z := 200000.
(** [int((timeout or 60) / poll_interval)], a division of floats: the silence
    of 0.6 s is two polls long, not three. *)
Definition max_no_output (timeout : option Z) : Z :=
  let timeout := match timeout with None | Some 0%Z => 60000000%Z | Some us => us end in
  Float.trunc (Float.div (Float.div (Float.of_Z timeout) (Float.of_Z 1000000))
                         (Float.div (Float.of_Z 2) (Float.of_Z 10))).

Example max_no_output_examples : max_no_output (Some 600000%Z) = 2%Z ∧ max_no_output (Some 1000000%Z) = 5%Z
  ∧ max_no_output None = 300%Z ∧ max_no_output (Some 0%Z) = 300%Z.
Proof. by vm_compute. Qed.

Definition control_c : string := String (ascii_of_nat 3) EmptyString.

(** Polls enough for [chunks] chunks of output and the silences around them *)
Definition rounds (chunks : nat) (limit : Z) : nat := S chunks * (Z.to_nat limit + 2) + 1.

Section exec.
Context {W : Type} `{Disks W} `{!Transport W} `{!DriverState W} `{!Clock W}.
(** How many chunks of output an interactive command writes, at most *)
Context (chunks : nat).

Implicit Types (d : Driver) (s : Session).

(** [_get_base_metadata] *)
Definition _get_base_metadata (d : Driver) (start_time : Z) : M W (list (string * pyval)) :=
  t ← reads now;
  reused ← gets session_reused;
  mret [("host", PStr (pc_host (d_conn_args d))); ("duration_seconds", PFloat (round3 (t - start_time)));
        ("session_reused", PBool reused)].

Definition result_of (command stdout stderr : string) (exit_status : Z) (metadata : list (string * pyval))
    : DriverExecutionResult := mkResult command (PStr stdout) stderr exit_status None metadata PNone.

(** ** [_execute_interactive] *)
Fixpoint interact (rounds : nat) (ch : Channel) (expect_map : list (string * string)) (limit : Z)
    (full_stdout : string) (no_output_count : Z) (responded : list string) : M W string :=
  match rounds with
  | O => raise OutOfFuel
  | S rounds =>
      finished ← exit_status_ready ch;
      if finished : bool then mret full_stdout
      else
        ready ← recv_ready ch;
        if ready : bool then
          chunk ← recv ch 4096;
          if String.eqb chunk "" then interact rounds ch expect_map limit full_stdout no_output_count responded
          else
            let full_stdout := full_stdout +:+ chunk in
            match next_prompt expect_map full_stdout responded with
            | Some (prompt, response) =>
                stdin_write ch (response +:+ nl) ≫= λ _,
                interact rounds ch expect_map limit full_stdout 0 (prompt :: responded)
            | None => interact rounds ch expect_map limit full_stdout 0 responded
            end
        else
          writes (sleep poll_interval) ≫= λ _,
          let n := (no_output_count + 1)%Z in
          if (limit <? n)%Z then mret full_stdout
          else interact rounds ch expect_map limit full_stdout n responded
  end.

(** After the loop: the last output, the exit status or an interrupt *)
Definition finish_interactive (ch : Channel) (full_stdout : string) : M W (string * string * Z) :=
  ready ← recv_ready ch;
  full_stdout ← (if ready : bool then chunk ← recv ch 4096; mret (full_stdout +:+ chunk)
                 else mret full_stdout);
  finished ← exit_status_ready ch;
  exit_status ←
    (if negb finished then
       try_except (stdin_write ch control_c ≫= λ _, writes (sleep (seconds 1))) (λ _, mret tt) ≫= λ _,
       finished ← exit_status_ready ch;
       if negb finished then channel_close ch ≫= λ _, mret (-1)%Z
       else recv_exit_status ch
     else recv_exit_status ch);
  err ← recv_stderr_ready ch;
  full_stderr ← (if err : bool then recv_stderr ch 4096 else mret "");
  mret (full_stdout, full_stderr, exit_status).

Definition _execute_interactive (s : Session) (cmd : string) (expect_map : list (string * string))
    (k : exec_kwargs) : M W (string * string * Z) :=
  ch ← exec_command (se_client s) cmd (force_pty k);
  let limit := max_no_output (ek_timeout k) in
  full_stdout ← interact (rounds chunks limit) ch expect_map limit "" 0 [];
  finish_interactive ch full_stdout.

(** ** [_execute_command] *)
Definition send_password (ch : Channel) (password : option string) : M W unit :=
  if str_truthy password then stdin_write ch (default "" password +:+ nl) else mret tt.

Definition clean_output (password : option string) (out : string) : string :=
  if str_truthy password then _clean_sudo_output out (default "" password) else out.

Definition execute_plain (s : Session) (exec_cmd : string) (k : exec_kwargs) (password : option string)
    : M W (string * string * Z) :=
  ch ← exec_command (se_client s) exec_cmd k;
  send_password ch password ≫= λ _,
  stdout ← stdout_read ch;
  stderr ← stderr_read ch;
  exit_status ← recv_exit_status ch;
  mret (clean_output password stdout, stderr, exit_status).

(** The command line, the keyword arguments and the password of a command *)
Definition sudo_of (args : option Args) : bool :=
  match args with Some (CommandArgs a) => sc_sudo a | _ => false end.
Definition password_of (args : option Args) : option string :=
  if sudo_of args then args_sudo_password args else None.

Definition command_line (args : option Args) (cmd : string) : string :=
  let exec_cmd := _apply_env_to_command cmd (args_environment args) in
  if sudo_of args then sudo_command exec_cmd else exec_cmd.

Definition call_kwargs (args : option Args) : exec_kwargs :=
  let k := command_kwargs args in
  if str_truthy (password_of args) && negb (default false (ek_get_pty k)) then force_pty k else k.

Definition args_expect_map (args : option Args) : list (string * string) :=
  match args with Some (CommandArgs a) => default [] (sc_expect_map a) | _ => [] end.

Definition _execute_command (d : Driver) (s : Session) (cmd : string) (args : option Args)
    : M W DriverExecutionResult :=
  start_time ← reads now;
  '(stdout, stderr, exit_status) ←
    match args_expect_map args with
    | [] => execute_plain s (command_line args cmd) (call_kwargs args) (password_of args)
    | expect_map => _execute_interactive s (command_line args cmd) expect_map (call_kwargs args)
    end;
  metadata ← _get_base_metadata d start_time;
  mret (result_of cmd stdout stderr exit_status metadata).

(** [self._execute_command(session, cmd, None).stdout] *)
Definition run (d : Driver) (s : Session) (cmd : string) : M W string :=
  r ← _execute_command d s cmd None; mret (match r_stdout r with PStr o => o | _ => "" end).

(** ** [_execute_script_content] *)
Definition script_interpreter (a : ParamikoSendCommandArgs) : string :=
  if String.eqb (sc_script_interpreter a) "" then "bash" else sc_script_interpreter a.

Definition script_command (a : ParamikoSendCommandArgs) : string :=
  let cmd := script_interpreter a in
  let cmd := if str_truthy (sc_working_directory a)
             then "cd " +:+ default "" (sc_working_directory a) +:+ " && " +:+ cmd else cmd in
  _apply_env_to_command cmd (sc_environment a).

Definition _execute_script_content (s : Session) (a : ParamikoSendCommandArgs)
    : M W (list DriverExecutionResult) :=
  if negb (str_truthy (sc_script_content a)) then mret []
  else
    let content := default "" (sc_script_content a) in
    start_time ← reads now;
    ch ← exec_command (se_client s) (script_command a) (command_kwargs (Some (CommandArgs a)));
    stdin_write ch content ≫= λ _,
    stdin_close ch ≫= λ _,
    stdout ← stdout_read ch;
    stderr ← stderr_read ch;
    exit_status ← recv_exit_status ch;
    t ← reads now;
    mret [result_of ("script_execution_" +:+ script_interpreter a) stdout stderr exit_status
            [("duration_seconds", PFloat (round3 (t - start_time)));
             ("script_content_length", PInt (Z.of_nat (String.length content)))]].

(** ** [config] *)
Definition config_password (d : Driver) : option string :=
  match d_args d with
  | Some (ConfigArgs a) =>
      if sf_sudo a && negb (str_truthy (sf_sudo_password a)) && str_truthy (pc_password (d_conn_args d))
      then pc_password (d_conn_args d) else sf_sudo_password a
  | args => args_sudo_password args
  end.

(** [self.args] is a [ParamikoSendConfigArgs] with [sudo] *)
Definition config_sudo (args : option Args) : bool :=
  match args with Some (ConfigArgs a) => sf_sudo a | _ => false end.

Definition config_kwargs (args : option Args) (password : option string) : exec_kwargs :=
  match args with
  | None => no_kwargs
  | Some (ConfigArgs a) =>
      mkExec (given_timeout (sf_timeout a)) (Some (sf_get_pty a || (sf_sudo a && bool_decide (is_Some password)))) None
  | Some (CommandArgs a) => mkExec (given_timeout (sc_timeout a)) (Some false) None
  end.

(** [self.args and getattr(self.args, "stop_on_error", True)] *)
Definition stop_on_error (args : option Args) : bool :=
  match args with
  | None => false
  | Some (ConfigArgs a) => sf_stop_on_error a
  | Some (CommandArgs _) => true
  end.

Definition config_line (d : Driver) (s : Session) (cfg_line : string) : M W (string * string * Z) :=
  let args := d_args d in
  let cmd := if config_sudo args then sudo_command cfg_line else cfg_line in
  let cmd := _apply_env_to_command cmd (args_environment args) in
  let password := if config_sudo args then config_password d else None in
  execute_plain s cmd (config_kwargs args (config_password d)) password.

(** The loop over the lines: outputs, non-empty error outputs, the last failure *)
Fixpoint config_lines (d : Driver) (s : Session) (config : list string) (full_stdout full_stderr : list string)
    (overall_exit_status : Z) : M W (list string * list string * Z) :=
  match config with
  | [] => mret (full_stdout, full_stderr, overall_exit_status)
  | cfg_line :: config =>
      '(out, err, exit_status) ← config_line d s cfg_line;
      let full_stdout := full_stdout ++ [out] in
      let full_stderr := full_stderr ++ (if String.eqb err "" then [] else [err]) in
      if (exit_status =? 0)%Z then config_lines d s config full_stdout full_stderr overall_exit_status
      else if stop_on_error (d_args d) then mret (full_stdout, full_stderr, exit_status)
      else config_lines d s config full_stdout full_stderr exit_status
  end.

(** A failed call: its text as the error output *)
Definition error_result (d : Driver) (command : string) (start_time : Z) (e : exn)
    : M W (list DriverExecutionResult) :=
  metadata ← _get_base_metadata d start_time;
  mret [result_of command "" (exn_str e) 1 metadata].
End exec.
