(* ===== verification/ParamikoTasks.v ===== *)
(** * The entry points of the Paramiko driver

    [send], [config], [_handle_file_transfer] and the detached tasks of
    [ParamikoDriver] ([linux_net/plugins/drivers/paramiko/__init__.py]). *)

From Stdlib Require Import Ascii.
From S2P Require Import Prelude PyLib Models World Storage Ssh Shell Transfer ParamikoModel Paramiko ParamikoExec.

(** ** Requests

    [driver_args] is a union: pydantic takes the model that fits, and where both
    do the one that fits better, which [fits_command] tells. *)
Definition Args_validate (fits_command : list (string * pyval) → bool) (d : list (string * pyval)) : res Args :=
  match ParamikoSendCommandArgs_validate d, ParamikoSendConfigArgs_validate d with
  | Ok a, Ok b => Ok (if fits_command d then CommandArgs a else ConfigArgs b)
  | Ok a, Err _ => Ok (CommandArgs a)
  | Err _, Ok b => Ok (ConfigArgs b)
  | Err _, Err _ => Err (ValidationError "driver_args")
  end.

(** [ParamikoExecutionRequest.model_validate(req.model_dump())]: the request and
    the driver's own fields *)
Definition validate_request (fits_command : list (string * pyval) → bool) (req : ExecutionRequest)
    : res (ExecutionRequest * option Args * ParamikoConnectionArgs) :=
  conn_args ← ParamikoConnectionArgs_validate (DriverConnectionArgs_dump (er_connection_args req));
  args ← match er_driver_args req with
         | None => Ok None
         | Some d => a ← Args_validate fits_command d; Ok (Some a)
         end;
  req ← ExecutionRequest.model_validate req;
  Ok (req, args, conn_args).

(** [ParamikoDriver.validate] *)
Definition validate (fits_command : list (string * pyval) → bool) (req : ExecutionRequest) : res unit :=
  validate_request fits_command req ≫= λ _, Ok tt.

(** [ParamikoDriver.from_execution_request] and [__init__] *)
Definition new_driver (req : ExecutionRequest) (args : option Args) (conn_args : ParamikoConnectionArgs) : Driver :=
  mkDriver args conn_args (er_staged_file_id req)
    (if str_truthy (er_id req) then default "" (er_id req) else "unknown") (er_file_transfer req).

Section tasks.
Context {W : Type} `{Disks W} `{!Transport W} `{!DriverState W} `{!Clock W}.
(** The working directory, the bounds of the loops, [repr] *)
Context (c : Config) (cwd : string) (chunks fuel depth : nat) (repr : pyval → string).

Implicit Types (d : Driver) (s : Session).

(** ** [_handle_file_transfer] *)
Definition operation_str (o : FileOperation) : string :=
  match o with upload => "upload" | download => "download" end.

(** [_get_effective_dest_path], with the directory it makes *)
Definition effective_dest_path (d : Driver) (local_path : option string) (fallback : string) : M W string :=
  p ← reads (λ w, _get_effective_dest_path c (λ p, os_path_isdir p w) (d_job_id d) local_path (Some fallback));
  (if str_truthy local_path && isabs (default "" local_path) then mret tt
   else os_makedirs (path_join (path_join (cfg_staging c) "downloads") ("dl_" +:+ d_job_id d))) ≫= λ _,
  mret p.

Definition transfer (d : Driver) (s : Session) (op : FileTransferModel) : M W TransferResult :=
  match ft_operation op with
  | upload =>
      let local_path := _get_effective_source_path (d_staged_file_id d) (ft_local_path op) in
      if negb (str_truthy local_path)
      then raise (ValueError "No local path or staged file provided for upload.")
      else
        _upload_file cwd fuel (se_client s) (default "" local_path)
          (_get_effective_remote_path (ft_remote_path op) local_path)
          (ft_resume op) (ft_recursive op) (ft_sync_mode op) (ft_chunk_size op) (ft_chmod op)
  | download =>
      local_path ← effective_dest_path d (ft_local_path op) (basename (ft_remote_path op));
      _download_file depth fuel (se_client s) (ft_remote_path op) local_path
        (ft_resume op) (ft_recursive op) (ft_sync_mode op) (ft_chunk_size op)
  end.

Definition is_hash (m : SyncMode) : bool := match m with sync_hash => true | sync_full => false end.

Definition transfer_metadata (op : FileTransferModel) (result : TransferResult) : list (string * pyval) :=
  [("transferred_bytes", dict_get_or "transferred_bytes" (PInt 0) result);
   ("total_bytes", dict_get_or "total_bytes" (PInt 0) result);
   ("transfer_success", PBool (get_truthy "success" result));
   ("md5_verified", PBool (get_truthy "success" result && is_hash (ft_sync_mode op)));
   ("local_path", dict_get_or "local_path" PNone result);
   ("remote_path", dict_get_or "remote_path" PNone result)].

Definition transfer_result (op : FileTransferModel) (result : TransferResult)
    (metadata : list (string * pyval)) : DriverExecutionResult :=
  let str k := py_str repr (dict_get_or k (PInt 0) result) in
  result_of
    (operation_str (ft_operation op) +:+ " "
     +:+ py_str repr (dict_get_or "remote_path" (PStr (ft_remote_path op)) result))
    ("File transfer completed: " +:+ str "transferred_bytes" +:+ "/" +:+ str "total_bytes" +:+ " bytes")
    "" (if get_truthy "success" result then 0 else 1) (dict_update metadata (transfer_metadata op result)).

(** "Execute command after upload if requested" and "Cleanup remote file" *)
Definition after_upload (d : Driver) (s : Session) (op : FileTransferModel) (skip_exec : bool)
    : M W (list DriverExecutionResult) :=
  if negb skip_exec && bool_decide (ft_operation op = upload) && ft_execute_after_upload op
     && str_truthy (ft_execute_command op) then
    exec_result ← _execute_command chunks d s (default "" (ft_execute_command op)) (d_args d);
    if ft_cleanup_after_exec op then
      cleanup_result ← _execute_command chunks d s ("rm -f " +:+ ft_remote_path op) (d_args d);
      mret [exec_result; cleanup_result]
    else mret [exec_result]
  else mret [].

Definition _handle_file_transfer (d : Driver) (s : Session) (op : FileTransferModel) (skip_exec : bool)
    : M W (list DriverExecutionResult) :=
  try_except
    (start_time ← reads now;
     result ← transfer d s op;
     metadata ← _get_base_metadata d start_time;
     after ← after_upload d s op skip_exec;
     mret (transfer_result op result metadata :: after))
    (λ e, mret [result_of ("file_transfer_" +:+ operation_str (ft_operation op)) "" (exn_str e) 1 []]).

(** ** Detached tasks *)
Definition user (d : Driver) : string := pc_username (d_conn_args d).
Definition dir (d : Driver) : string := _get_detached_dir (user d).
Definition file_of (d : Driver) (task_id : pyval) (ext : string) : string :=
  task_file (user d) (py_str repr task_id) ext.

Definition _read_remote_file (s : Session) (path : string) : M W (option string) :=
  ch ← exec_command (se_client s) ("cat " +:+ path +:+ " 2>/dev/null") no_kwargs;
  out ← stdout_read ch;
  let t := strip out in
  mret (if String.eqb t "" then None else Some t).

Definition _is_task_running (d : Driver) (s : Session) (task_id : pyval) : M W (bool * option Z) :=
  pid_out ← _read_remote_file s (file_of d task_id ".pid");
  if isdigit (default "" pid_out) then
    pid ← of_res (py_int 10 (default "" pid_out));
    comm ← run chunks d s ("ps -p " +:+ str_of_Z pid +:+ " -o args= 2>/dev/null");
    mret (contains (strip comm) (proc_name (py_str repr task_id)), Some pid)
  else mret (false, None).

(** *** [_read_logs] *)
Definition size_command (log_f : string) : string := "stat -c%s " +:+ log_f +:+ " 2>/dev/null || echo 0".

(** [int(stdout.strip() or 0)] *)
Definition parse_size (out : string) : res Z :=
  let t := strip out in if String.eqb t "" then Ok 0%Z else py_int 10 t.

(** A number for a comparison, in millionths *)
Definition as_number (v : pyval) : res Z :=
  match v with
  | PInt z => Ok (z * 1000000)%Z
  | PBool b => Ok (if b then 1000000 else 0)%Z
  | PFloat us => Ok us
  | v => Err (TypeError ("'>' not supported between instances of '" +:+ py_type v +:+ "' and 'int'"))
  end.

Definition plus_one (v : pyval) : pyval :=
  match v with
  | PInt z => PInt (z + 1)
  | PBool b => PInt (if b then 2 else 1)
  | PFloat us => PFloat (us + 1000000)
  | v => v
  end.

Definition read_command (log_f : string) (offset : pyval) (n : Z) : string :=
  if (0 <? n)%Z then "tail -c +" +:+ py_str repr (plus_one offset) +:+ " " +:+ log_f +:+ " 2>/dev/null"
  else "cat " +:+ log_f.

Definition _read_logs (d : Driver) (s : Session) (task_id offset : pyval) : M W (list DriverExecutionResult) :=
  let log_f := file_of d task_id ".log" in
  '(running, pid) ← _is_task_running d s task_id;
  out ← run chunks d s (size_command log_f);
  file_size ← of_res (parse_size out);
  n ← of_res (as_number offset);
  let '(offset, n) := if (file_size * 1000000 <? n)%Z then (PInt 0, 0%Z) else (offset, n) in
  output ← run chunks d s (read_command log_f offset n);
  out ← run chunks d s (size_command log_f);
  file_size_after ← of_res (parse_size out);
  mret [result_of "query" output "" 0
    [("task_id", task_id); ("is_running", PBool running); ("pid", opt_int pid);
     ("next_offset", PInt file_size_after); ("completed", PBool (negb running))]].

(** *** [kill_task] *)
Definition kill_command (pid : Z) : string :=
  let p := str_of_Z pid in
  "kill -15 -" +:+ p +:+ " 2>/dev/null || kill -15 " +:+ p +:+ " 2>/dev/null; sleep 0.2; kill -9 -"
  +:+ p +:+ " 2>/dev/null || kill -9 " +:+ p +:+ " 2>/dev/null".

Definition remove_command (d : Driver) (task_id : string) : string :=
  let prefix := dir d +:+ "/" +:+ DETACHED_TASK_FILE_PREFIX +:+ "_" +:+ task_id in
  "rm -f " +:+ prefix +:+ ".log " +:+ prefix +:+ ".pid* " +:+ prefix +:+ ".sh 2>/dev/null".

Definition kill_task (d : Driver) (s : Session) (task_id : string) : M W (list DriverExecutionResult) :=
  '(running, pid) ← _is_task_running d s (PStr task_id);
  start_time ← reads now;
  (if running && int_truthy pid then
     run chunks d s (kill_command (default 0%Z pid)) ≫= λ _, mret tt
   else mret tt) ≫= λ _,
  run chunks d s (remove_command d task_id) ≫= λ _,
  metadata ← _get_base_metadata d start_time;
  mret [result_of "kill" ("Task " +:+ task_id +:+ " killed and cleaned up.") "" 0 metadata].

(** *** [_list_active_tasks] *)
Definition active_entry (d : Driver) (s : Session) (meta_f : string) : M W (list pyval) :=
  out ← run chunks d s ("cat " +:+ meta_f);
  match splitlines (strip out) with
  | [] => mret []
  | line1 :: rest =>
      let task_id := strip line1 in
      let task_cmd := strip (default "" (head rest)) in
      let pid_f := str_replace ".meta" "" meta_f in
      out ← run chunks d s ("cat " +:+ pid_f);
      if isdigit (strip out) then
        pid ← of_res (py_int 10 (strip out));
        comm ← run chunks d s ("ps -p " +:+ str_of_Z pid +:+ " -o args= --no-headers 2>/dev/null");
        mret (if contains (strip comm) (proc_name task_id) then
                [PDict [("task_id", PStr task_id); ("command", PStr task_cmd); ("pid", PInt pid);
                        ("status", PStr "running"); ("pid_file", PStr pid_f); ("meta_file", PStr meta_f);
                        ("log_file", PStr (str_replace ".pid" ".log" pid_f)); ("age_file", PStr (pid_f +:+ ".age"))]]
              else [])
      else mret []
  end.

Fixpoint active_entries (d : Driver) (s : Session) (meta_files : list string) (tasks : list pyval)
    : M W (list pyval) :=
  match meta_files with
  | [] => mret tasks
  | meta_f :: meta_files =>
      t ← try_except (active_entry d s meta_f) (λ _, mret []);
      active_entries d s meta_files (tasks ++ t)
  end.

Definition _list_active_tasks (d : Driver) (s : Session) : M W (list pyval) :=
  try_except
    (out ← run chunks d s ("ls -1 " +:+ dir d +:+ "/" +:+ DETACHED_TASK_FILE_PREFIX +:+ "_*.pid.meta 2>/dev/null");
     active_entries d s (split_ws (strip out)) [])
    (λ _, mret []).

(** *** [launch_detached] *)
Definition no_attribute {A} (v : pyval) : M W A :=
  raise (OtherError "AttributeError" ("'" +:+ py_type v +:+ "' object has no attribute 'operation'")).

(** "Script Content + Detached Execution": write the script, then run it *)
Definition scripted_command (d : Driver) (s : Session) (cmd task_id : string) : M W string :=
  match d_args d with
  | Some (CommandArgs a) =>
      if truthy (args_file_transfer (d_args d)) then no_attribute (args_file_transfer (d_args d))
      else if str_truthy (sc_script_content a) then
        let script_path := task_file (user d) task_id ".sh" in
        run chunks d s (write_script (default "" (sc_script_content a)) script_path) ≫= λ _,
        mret (script_interpreter a +:+ " " +:+ script_path)
      else mret cmd
  | _ => mret cmd
  end.

(** "Determine the actual command to run": it, or results to return at once *)
Definition final_command (d : Driver) (s : Session) (cmd task_id : string)
    : M W (list DriverExecutionResult + string) :=
  match d_file_transfer d with
  | Some (mkFileTransfer upload _ _ _ _ _ _ _ _ execute_after_upload execute_command _ as op) =>
      up_res ← _handle_file_transfer d s op true;
      mret (if from_option (λ r, r_exit_status r =? 0)%Z false (head up_res)
            then inr (if execute_after_upload && str_truthy execute_command
                      then default "" execute_command else cmd)
            else inl up_res)
  | _ => cmd ← scripted_command d s cmd task_id; mret (inr cmd)
  end.

(** Working directory and environment *)
Definition in_directory (args : option Args) (cmd : string) : string :=
  let dir := args_working_directory args in
  if truthy dir then "cd " +:+ py_str repr dir +:+ " && " +:+ cmd else cmd.

Definition launch_command (d : Driver) (t : Z) (task_id cmd final_cmd : string) : string :=
  let args := d_args d in
  let payload := _apply_env_to_command (in_directory args final_cmd) (args_environment args) in
  let bg_launch := bg_launch t (user d) task_id cmd payload in
  if args_sudo args then "sudo -S bash -c " +:+ shlex_quote bg_launch else bg_launch.

(** [int(time.time())] *)
Definition unix_time (t : Z) : Z := Z.quot t 1000000.

(** Launching: the exit status of the launcher *)
Definition start_launcher (d : Driver) (s : Session) (command : string) : M W Z :=
  let args := d_args d in
  ch ← exec_command (se_client s) command (mkExec None (Some (args_sudo args)) None);
  send_password ch (if args_sudo args then args_sudo_password args else None) ≫= λ _,
  recv_exit_status ch.

Definition launched_pid (d : Driver) (s : Session) (task_id : string) (exit_status : Z) : M W (option Z) :=
  if (exit_status =? 0)%Z then
    pid_out ← _read_remote_file s (task_file (user d) task_id ".pid");
    if isdigit (default "" pid_out) then pid ← of_res (py_int 10 (default "" pid_out)); mret (Some pid)
    else mret None
  else mret None.

(** "Task exited rapidly": output, error and exit status *)
Definition rapid_exit (d : Driver) (s : Session) (task_id : string) : M W (string * string * Z) :=
  log ← _read_remote_file s (task_file (user d) task_id ".log");
  exit_code ← _read_remote_file s (task_file (user d) task_id ".pid" +:+ ".exit");
  final_exit ← (if isdigit (default "" exit_code) then of_res (py_int 10 (default "" exit_code)) else mret 1%Z);
  let log_output := strip (default "" log) in
  mret (if String.eqb log_output "" then "Task " +:+ task_id +:+ " exited rapidly." else log_output,
        if (final_exit =? 0)%Z then "" else log_output, final_exit).

Definition launch_metadata (d : Driver) (task_id cmd : string) (pid : option Z) (running : bool) (t : Z)
    : list (string * pyval) :=
  let file ext := PStr (task_file (user d) task_id ext) in
  [("task_id", PStr task_id); ("pid", opt_int pid); ("log_file", file ".log"); ("pid_file", file ".pid");
   ("meta_file", file ".pid.meta"); ("age_file", file ".pid.age"); ("command", PStr cmd);
   ("is_running", PBool running); ("created_at", PFloat t)].

Definition launch_detached (d : Driver) (s : Session) (cmd task_id : string)
    : M W (list DriverExecutionResult) :=
  run chunks d s ("mkdir -p " +:+ dir d +:+ " && chmod 700 " +:+ dir d) ≫= λ _,
  fin ← final_command d s cmd task_id;
  match fin with
  | inl up_res => mret up_res
  | inr final_cmd =>
      if String.eqb final_cmd "" then
        mret [result_of "" "" "No command provided for detached execution." 1 []]
      else
        t ← reads now;
        start_time ← reads now;
        exit_status ← start_launcher d s (launch_command d (unix_time t) task_id cmd final_cmd);
        pid ← launched_pid d s task_id exit_status;
        writes (sleep 500000) ≫= λ _,
        '(running, _) ← (if int_truthy pid then _is_task_running d s (PStr task_id) else mret (false, None));
        metadata ← _get_base_metadata d start_time;
        t ← reads now;
        let metadata := dict_update metadata (launch_metadata d task_id cmd pid running t) in
        '(output, error, final_exit) ←
          (if (exit_status =? 0)%Z && int_truthy pid && negb running then rapid_exit d s task_id
           else mret ("Task " +:+ task_id +:+ " launched.", "", exit_status));
        mret [result_of "launch" output error final_exit metadata]
  end.

(** ** [send] *)
Definition send_commands (d : Driver) (s : Session) (command : list string) : M W (list DriverExecutionResult) :=
  start_time ← reads now;
  try_except (mapM (λ cmd, _execute_command chunks d s cmd (d_args d)) command)
    (error_result d (join " " command) start_time).

Definition send_payload (d : Driver) (s : Session) (command : list string) : M W (list DriverExecutionResult) :=
  match d_file_transfer d, d_args d with
  | Some op, _ => _handle_file_transfer d s op false
  | None, Some (CommandArgs a) =>
      match args_file_transfer (d_args d) with
      | PNone => if str_truthy (sc_script_content a) then _execute_script_content s a
                 else match command with [] => mret [] | _ => send_commands d s command end
      | v => op ← of_res (FileTransferModel_validate v); _handle_file_transfer d s op false
      end
  | None, _ => match command with [] => mret [] | _ => send_commands d s command end
  end.

Definition send (d : Driver) (s : Session) (command : list string) : M W (list DriverExecutionResult) :=
  match d_args d with
  | Some (CommandArgs a) =>
      match sc_read_detached_task_logs a with
      | Some q => _read_logs d s (dict_get_or "task_id" PNone q) (dict_get_or "offset" (PInt 0) q)
      | None =>
          if sc_list_active_detached_tasks a then
            tasks ← _list_active_tasks d s;
            mret [result_of "list_active_detached_tasks"
                    ("Found " +:+ str_of_Z (Z.of_nat (length tasks)) +:+ " active detached tasks") "" 0
                    [("active_tasks", PList tasks)]]
          else send_payload d s command
      end
  | _ => send_payload d s command
  end.

(** ** [config] *)
Definition run_config (d : Driver) (s : Session) (config : list string) : M W (list DriverExecutionResult) :=
  config_start_time ← reads now;
  try_except
    ('(full_stdout, full_stderr, overall_exit_status) ← config_lines d s config [] [] 0;
     metadata ← _get_base_metadata d config_start_time;
     mret [result_of (join nl config) (join nl full_stdout) (join nl full_stderr) overall_exit_status metadata])
    (error_result d (join nl config) config_start_time).

Definition config (d : Driver) (s : Session) (config : list string) : M W (list DriverExecutionResult) :=
  if truthy (args_file_transfer (d_args d)) then no_attribute (args_file_transfer (d_args d))
  else match config with [] => mret [] | _ => run_config d s config end.

Definition from_execution_request (fits_command : list (string * pyval) → bool) (req : ExecutionRequest)
    : M W Driver :=
  '(req, args, conn_args) ← of_res (validate_request fits_command req);
  modify (set_reused false) ≫= λ _,
  mret (new_driver req args conn_args).
End tasks.
