(* ===== verification/Calm.v ===== *)
(** * Calls of a driver

    How computations that keep the contract [driver_call] compose: the methods
    of a driver are built of calls of its library, so a driver keeps the
    contract when the calls do. *)

From S2P Require Import Prelude Models World Registry Rpc Ssh Transfer.

Create HintDb calm.

(** ** Composing calls *)
Section calm.
Context {W : Type} `{Others W}.

Lemma calm_ret {A} (a : A) : driver_call (W:=W) (mret a).
Proof. by split. Qed.

Lemma calm_raise {A} e : is_exception e = true → driver_call (W:=W) (@raise W A e).
Proof. split; [by apply safe_raise|done]. Qed.

Lemma calm_of_res {A} (r : res A) : ordinary r → driver_call (W:=W) (of_res r).
Proof. intros Hr. split; [by apply safe_of_res|done]. Qed.

Lemma calm_reads {A} (f : W → A) : driver_call (reads f).
Proof. split; [apply safe_reads|done]. Qed.

Lemma calm_writes (f : W → W) : (∀ w, others w (f w)) → driver_call (writes f).
Proof. intros Hf. split; [apply safe_writes|exact Hf]. Qed.

Lemma calm_update {A} (f : W → A * W) : (∀ w, others w (f w).2) → driver_call (update f).
Proof.
  intros Hf. split; [apply safe_update|]. intros w. unfold update. specialize (Hf w). by destruct (f w).
Qed.

Lemma calm_bind {A B} (m : M W A) (f : A → M W B) :
  driver_call m → (∀ a, driver_call (f a)) → driver_call (m ≫= f).
Proof.
  intros [Hs Hr] Hf. split; [apply safe_bind; [done|apply Hf]|].
  intros w. unfold mbind, M_bind. specialize (Hr w).
  destruct (m w) as [[a|e] w']; [etrans; [exact Hr|apply Hf]|done].
Qed.

(** The continuation need only be calm for the values the call returns. *)
Lemma calm_bind_ok {A B} (m : M W A) (f : A → M W B) :
  driver_call m → (∀ w a w', m w = (Ok a, w') → driver_call (f a)) → driver_call (m ≫= f).
Proof.
  intros [Hs Hr] Hf. split; intros w; unfold mbind, M_bind; specialize (Hs w); specialize (Hr w);
    specialize (Hf w); destruct (m w) as [[a|e] w']; try (by apply ordinary_Err, Hs); try done.
  - by apply (Hf a w').
  - etrans; [exact Hr|]. by apply (Hf a w').
Qed.

Lemma calm_try {A} (m : M W A) h : driver_call m → (∀ e, driver_call (h e)) → driver_call (try_except m h).
Proof.
  intros [Hs Hr] Hh. split; [apply safe_try; [done|apply Hh]|].
  intros w. unfold try_except. specialize (Hr w).
  destruct (m w) as [[a|e] w']; [done|]. destruct (is_exception e); [etrans; [exact Hr|apply Hh]|done].
Qed.

Lemma calm_finally {A} (m : M W A) fin : driver_call m → driver_call fin → driver_call (try_finally m fin).
Proof.
  intros [Hs Hr] [Hs' Hr']. split.
  - intros w. unfold try_finally. specialize (Hs w). destruct (m w) as [r w'].
    specialize (Hs' w'). destruct (fin w') as [[u|e] w'']; [done|]. by apply ordinary_Err, Hs'.
  - intros w. unfold try_finally. specialize (Hr w). destruct (m w) as [r w'].
    specialize (Hr' w'). destruct (fin w') as [[u|e] w'']; by etrans.
Qed.

Lemma calm_except_os {A} (m h : M W A) : driver_call m → driver_call h → driver_call (except_os m h).
Proof.
  intros [Hs Hr] [Hs' Hr']. split; intros w; unfold except_os; specialize (Hs w); specialize (Hr w);
    destruct (m w) as [[a|e] w']; try done; destruct (is_os_error e); auto. by etrans.
Qed.

Lemma calm_mapM {A B} (f : A → M W B) l : (∀ x, driver_call (f x)) → driver_call (mapM f l).
Proof.
  intros Hf. induction l as [|x l IH]; [apply calm_ret|]. apply calm_bind; [done|].
  intros y. apply calm_bind; [done|]. intros ys. apply calm_ret.
Qed.

Lemma calm_foldM {A B} (f : B → A → M W B) l b :
  (∀ b x, x ∈ l → driver_call (f b x)) → driver_call (foldM f l b).
Proof.
  revert b. induction l as [|x l IH]; intros b Hf; [apply calm_ret|].
  apply calm_bind; [apply Hf; by left|]. intros b'. apply IH. intros. apply Hf. by right.
Qed.

(** A computation that looks at the world first *)
Lemma calm_world {A} (m : W → M W A) : (∀ w, driver_call (m w)) → driver_call (λ w, m w w).
Proof. intros Hm. split; intros w; apply (Hm w). Qed.
End calm.
#[export] Hint Resolve calm_ret calm_of_res calm_reads : calm.

Ltac calm :=
  repeat first
    [ progress intros
    | apply calm_ret | apply calm_reads | solve [apply calm_raise; reflexivity]
    | solve [auto with calm linux_net]
    | apply calm_bind | apply calm_try | apply calm_finally | apply calm_except_os | apply calm_mapM
    | case_match ].
