(* ===== verification/ParamikoSafe.v ===== *)
(** * The Paramiko driver keeps the drivers' contract

    Every method of [ParamikoDriver] ends when the commands' output, the files
    and the paths are bounded, raises ordinary exceptions only and does nothing
    to the state beyond the calls of its libraries: the interface [Drivers], on
    which the theorems about the workers rest, has this driver as an
    implementation. *)

From Stdlib Require Import Ascii.
From S2P Require Import Prelude PyLib Models World Registry Manager Storage AuditLog Webhook Rpc Ssh Shell Transfer ParamikoModel Paramiko ParamikoExec ParamikoTasks Calm.

(** ** What the driver relies on *)

(** The chunks of output a command will still write on its channel *)
Class Chat (W : Type) `{Ssh W} := { pending : W → Channel → nat }.

Class ChatLaws (W : Type) (chunks : nat) `{Chat W} `{!Clock W} : Prop := {
  pending_bound : ∀ w ch, pending w ch ≤ chunks;
  status_pending : ∀ ch w, pending (exit_status_ready ch w).2 ch ≤ pending w ch;
  ready_pending : ∀ ch w, pending (recv_ready ch w).2 ch ≤ pending w ch;
  write_pending : ∀ ch s w, pending (stdin_write ch s w).2 ch ≤ pending w ch;
  sleep_pending : ∀ ch d w, pending (sleep d w) ch ≤ pending w ch;
  recv_pending : ∀ ch n w w1, recv_ready ch w = (Ok true, w1) →
    pending (recv ch n w1).2 ch < pending w ch;
}.

(** No file is larger than [fuel], no path longer than [depth]. *)
Class SizeLaws (W : Type) (fuel depth : nat) `{Disks W} : Prop := {
  fuel_positive : 0 < fuel;
  local_size : ∀ w p b, local w p = Some (File b) → length b < fuel;
  remote_size : ∀ w p b, remote w p = Some (File b) → length b < fuel;
  stat_length : ∀ s p w a w', sftp_stat s p w = (Ok a, w') → String.length p < depth;
  listdir_names : ∀ s p w es w', sftp_listdir_attr s p w = (Ok es, w') →
    ∀ e, e ∈ es → e.1 ≠ "" ∧ startswith e.1 sep = false;
}.

(** Calls of the device, of the disk and of threads leave the program's own
    state alone. *)
Class ChannelCalls (W : Type) `{Others W} `{Ssh W} : Prop := {
  exec_calm : ∀ cl cmd k, driver_call (exec_command cl cmd k);
  stdin_write_calm : ∀ ch s, driver_call (stdin_write ch s);
  stdin_close_calm : ∀ ch, driver_call (stdin_close ch);
  stdout_read_calm : ∀ ch, driver_call (stdout_read ch);
  stderr_read_calm : ∀ ch, driver_call (stderr_read ch);
  exit_status_calm : ∀ ch, driver_call (recv_exit_status ch);
  status_ready_calm : ∀ ch, driver_call (exit_status_ready ch);
  recv_ready_calm : ∀ ch, driver_call (recv_ready ch);
  recv_calm : ∀ ch n, driver_call (recv ch n);
  stderr_ready_calm : ∀ ch, driver_call (recv_stderr_ready ch);
  recv_stderr_calm : ∀ ch n, driver_call (recv_stderr ch n);
  channel_close_calm : ∀ ch, driver_call (channel_close ch);
}.

Class DiskCalls (W : Type) `{Others W} `{Disks W} : Prop := {
  makedirs_calm : ∀ p, driver_call (os_makedirs p);
  getsize_calm : ∀ p, driver_call (getsize p);
  open_rb_calm : ∀ p, driver_call (open_rb p);
  read_local_calm : ∀ p pos n, driver_call (read_local p pos n);
  open_local_calm : ∀ p a, driver_call (open_local p a);
  write_local_calm : ∀ p b, driver_call (write_local p b);
  close_local_calm : ∀ p, driver_call (close_local p);
  open_sftp_calm : ∀ cl, driver_call (open_sftp cl);
  sftp_close_calm : ∀ s, driver_call (sftp_close s);
  stat_calm : ∀ s p, driver_call (sftp_stat s p);
  listdir_calm : ∀ s p, driver_call (sftp_listdir_attr s p);
  mkdir_calm : ∀ s p, driver_call (sftp_mkdir s p);
  chmod_calm : ∀ s p m, driver_call (sftp_chmod s p m);
  open_remote_rb_calm : ∀ s p, driver_call (open_remote_rb s p);
  read_remote_calm : ∀ s p pos n, driver_call (read_remote s p pos n);
  open_remote_calm : ∀ s p a, driver_call (open_remote s p a);
  write_remote_calm : ∀ s p b, driver_call (write_remote s p b);
  close_remote_calm : ∀ s p, driver_call (close_remote s p);
}.

Class TransportCalls (W : Type) `{Others W} `{Transport W} : Prop := {
  ssh_connect_calm : ∀ p k, driver_call (ssh_connect p k);
  open_channel_calm : ∀ cl a b, driver_call (open_channel cl a b);
  client_close_calm : ∀ cl, driver_call (client_close cl);
  thread_start_calm : driver_call thread_start;
  thread_join_calm : ∀ t n, driver_call (thread_join t n);
  event_new_calm : ∀ w, others w (event_new w).2;
  event_set_calm : ∀ e w, others w (event_set e w);
}.

Class StateCalls (W : Type) `{Others W} `{DriverState W} `{!Clock W} : Prop := {
  sleep_calm : ∀ n w, others w (sleep n w);
  set_pstate_calm : ∀ p w, others w (set_pstate p w);
}.

#[export] Hint Resolve exec_calm stdin_write_calm stdin_close_calm stdout_read_calm stderr_read_calm
  exit_status_calm status_ready_calm recv_ready_calm recv_calm stderr_ready_calm recv_stderr_calm
  channel_close_calm makedirs_calm getsize_calm open_rb_calm read_local_calm open_local_calm
  write_local_calm close_local_calm open_sftp_calm sftp_close_calm stat_calm listdir_calm mkdir_calm
  chmod_calm open_remote_rb_calm read_remote_calm open_remote_calm write_remote_calm close_remote_calm
  ssh_connect_calm open_channel_calm client_close_calm thread_start_calm thread_join_calm : calm.

(** ** Transfers *)
Section transfers.
Context {W : Type} `{Others W} `{DiskLaws W}.
Context `{!ChannelCalls W} `{!DiskCalls W} (fuel depth : nat) `{!SizeLaws W fuel depth}.

Section loops.
Context (rd : Z → M W bytes) (wr : bytes → M W unit).
Context (Hrd : ∀ pos, driver_call (rd pos)) (Hwr : ∀ b, driver_call (wr b)).
(** The source, which neither call changes, and what is read of it *)
Context (view : W → option bytes) (n : Z).
Context (Hview : ∀ pos w, view (rd pos w).2 = view w) (Hkeep : ∀ b w, view (wr b w).2 = view w).
Context (Hread : ∀ pos w a, (rd pos w).1 = Ok a → ∃ b, view w = Some b ∧ a = read_at b pos n).

Definition bytes_left (w : W) (pos : Z) : nat :=
  match view w with Some b => length (drop (Z.to_nat pos) b) | None => 0 end.

(** What is left after a chunk *)
Lemma bytes_left_read pos w a l : (0 ≤ pos)%Z → (rd pos w).1 = Ok (a :: l) →
  bytes_left (rd pos w).2 (pos + len (a :: l)) < bytes_left w pos.
Proof.
  intros Hpos E. destruct (Hread pos w _ E) as (b & Hb & Hl). unfold bytes_left. rewrite Hview, Hb.
  destruct (decide (n = 0%Z)) as [->|Hn].
  { unfold read_at in Hl. simpl in Hl. by rewrite take_0 in Hl. }
  destruct (read_at_split b pos n Hn Hpos) as [_ Hs]. rewrite <-Hl in Hs.
  apply (f_equal length) in Hs. rewrite length_app in Hs. simpl in *. lia.
Qed.

Lemma copy_loop_others k pos tr w : others w (copy_loop k rd wr pos tr w).2.
Proof.
  revert pos tr w. induction k as [|k IH]; intros pos tr w; [done|].
  cbn [copy_loop]. unfold mbind, M_bind. pose proof (proj2 (Hrd pos) w) as Hr.
  destruct (rd pos w) as [[[|a l]|e] w1]; [done| |done].
  pose proof (proj2 (Hwr (a :: l)) w1) as Hr'.
  destruct (wr (a :: l) w1) as [[u|e] w2]; (etrans; [exact Hr|]); [|done].
  etrans; [exact Hr'|apply IH].
Qed.

Lemma copy_loop_ordinary k pos tr w : (0 ≤ pos)%Z → bytes_left w pos < k →
  ordinary (copy_loop k rd wr pos tr w).1.
Proof.
  revert pos tr w. induction k as [|k IH]; intros pos tr w Hpos Hk; [lia|].
  cbn [copy_loop]. unfold mbind, M_bind. pose proof (proj1 (Hrd pos) w) as Hr.
  pose proof (bytes_left_read pos w) as Hleft.
  destruct (rd pos w) as [[[|a l]|e] w1]; [done| |by apply ordinary_Err, Hr].
  specialize (Hleft a l Hpos eq_refl). pose proof (proj1 (Hwr (a :: l)) w1) as Hr'.
  pose proof (Hkeep (a :: l) w1) as Hv.
  destruct (wr (a :: l) w1) as [[u|e] w2]; [|by apply ordinary_Err, Hr']. simpl in Hleft, Hv.
  apply IH; [unfold len; lia|]. unfold bytes_left in *. rewrite Hv. lia.
Qed.

Lemma read_loop_calm_at k acc w :
  others w (read_loop k rd acc w).2
  ∧ (bytes_left w (len acc) < k → ordinary (read_loop k rd acc w).1).
Proof.
  revert acc w. induction k as [|k IH]; intros acc w; [split; [done|lia]|].
  cbn [read_loop]. unfold mbind, M_bind. destruct (Hrd (len acc)) as [Hs Hr]. specialize (Hs w). specialize (Hr w).
  pose proof (bytes_left_read (len acc) w) as Hleft.
  destruct (rd (len acc) w) as [[[|a l]|e] w1]; [done| |by split; [|intros; apply ordinary_Err, Hs]].
  specialize (Hleft a l ltac:(unfold len; lia) eq_refl). destruct (IH (acc ++ a :: l) w1) as [IHr IHo].
  split; [by etrans|]. intros Hk. apply IHo. simpl in Hleft.
  replace (len (acc ++ a :: l)) with (len acc + len (a :: l))%Z by (unfold len; rewrite length_app; lia). lia.
Qed.
End loops.

Definition file_view (X : files) (p : string) : option bytes :=
  match X p with Some (File b) => Some b | _ => None end.

Lemma local_view_read p pos n w : file_view (local (read_local p pos n w).2) p = file_view (local w) p.
Proof. by injection (proj2 (read_local_call p pos n) w) as -> _. Qed.
Lemma remote_view_read s p pos n w : file_view (remote (read_remote s p pos n w).2) p = file_view (remote w) p.
Proof. by injection (proj2 (read_remote_call s p pos n) w) as _ ->. Qed.

Lemma local_read p pos n w a : (read_local p pos n w).1 = Ok a →
  ∃ b, file_view (local w) p = Some b ∧ a = read_at b pos n.
Proof.
  intros E. destruct (read_local_ok p pos n w a (read_local p pos n w).2) as (b & Hb & ->).
  { by destruct (read_local p pos n w); simpl in *; subst. }
  exists b. unfold file_view. by rewrite Hb.
Qed.
Lemma remote_read s p pos n w a : (read_remote s p pos n w).1 = Ok a →
  ∃ b, file_view (remote w) p = Some b ∧ a = read_at b pos n.
Proof.
  intros E. destruct (read_remote_ok s p pos n w a (read_remote s p pos n w).2) as (b & Hb & ->).
  { by destruct (read_remote s p pos n w); simpl in *; subst. }
  exists b. unfold file_view. by rewrite Hb.
Qed.

Lemma local_left p pos w : bytes_left (λ w, file_view (local w) p) w pos < fuel.
Proof.
  pose proof fuel_positive. unfold bytes_left, file_view. destruct (local w p) as [[b|]|] eqn:E; try done.
  rewrite length_drop. pose proof (local_size w p b E). lia.
Qed.
Lemma remote_left p pos w : bytes_left (λ w, file_view (remote w) p) w pos < fuel.
Proof.
  pose proof fuel_positive. unfold bytes_left, file_view. destruct (remote w p) as [[b|]|] eqn:E; try done.
  rewrite length_drop. pose proof (remote_size w p b E). lia.
Qed.

Lemma upload_loop_calm s lp rp n pos tr : (0 ≤ pos)%Z →
  driver_call (copy_loop fuel (λ pos, read_local lp pos n) (write_remote s rp) pos tr).
Proof.
  intros Hpos. split.
  - intros w. apply (copy_loop_ordinary _ _ (λ pos, read_local_calm lp pos n) (write_remote_calm s rp) (λ w, file_view (local w) lp) n); [..|done|apply local_left].
    + intros. apply local_view_read.
    + intros b w'. pose proof (write_remote_spec s rp b w') as Hs.
      destruct (write_remote s rp b w'). simpl. by rewrite (proj1 Hs).
    + intros *. apply local_read.
  - intros w. apply (copy_loop_others _ _ (λ pos, read_local_calm lp pos n) (write_remote_calm s rp)).
Qed.

Lemma download_loop_calm s lp rp n pos tr : (0 ≤ pos)%Z →
  driver_call (copy_loop fuel (λ pos, read_remote s rp pos n) (write_local lp) pos tr).
Proof.
  intros Hpos. split.
  - intros w. apply (copy_loop_ordinary _ _ (λ pos, read_remote_calm s rp pos n) (write_local_calm lp) (λ w, file_view (remote w) rp) n); [..|done|apply remote_left].
    + intros. apply remote_view_read.
    + intros b w'. pose proof (write_local_spec lp b w') as Hs.
      destruct (write_local lp b w'). simpl. by rewrite (proj1 Hs).
    + intros *. apply remote_read.
  - intros w. apply (copy_loop_others _ _ (λ pos, read_remote_calm s rp pos n) (write_local_calm lp)).
Qed.

Lemma md5_loop_calm p : driver_call (read_loop fuel (λ pos, read_local p pos 4096) []).
Proof.
  pose proof (λ k acc w, read_loop_calm_at (λ pos, read_local p pos 4096) (λ pos, read_local_calm p pos 4096)
    (λ w, file_view (local w) p) 4096 (λ _ _, local_view_read _ _ _ _) (λ _ _ _, local_read _ _ _ _ _) k acc w) as Hl.
  split; intros w; [apply (proj2 (Hl fuel [] w)), local_left|apply (proj1 (Hl fuel [] w))].
Qed.

Lemma local_md5_calm p : driver_call (_get_local_md5 fuel p).
Proof.
  assert (driver_call (open_rb p ≫= λ _, b ← read_loop fuel (λ pos, read_local p pos 4096) [];
    mret (Some (md5_hex b)))) as [Hs Hr].
  { apply calm_bind; [calm|]. intros u. apply calm_bind; [apply md5_loop_calm|]. calm. }
  split; intros w; unfold _get_local_md5; case_match; [done|apply Hs|done|apply Hr].
Qed.

Lemma remote_md5_calm cl p : driver_call (_get_remote_md5 cl p).
Proof. unfold _get_remote_md5. calm. Qed.

Lemma same_hash_calm cl lp rp sync there : driver_call (same_hash fuel cl lp rp sync there).
Proof.
  unfold same_hash. destruct sync, there; try apply calm_ret.
  apply calm_bind; [apply local_md5_calm|]. intros o. apply calm_bind; [apply remote_md5_calm|]. calm.
Qed.

Lemma set_chmod_calm s p chmod : driver_call (set_chmod s p chmod).
Proof.
  unfold set_chmod. case_match; [|calm]. apply calm_try; [|calm].
  apply calm_bind; [apply calm_of_res, py_int_ordinary|]. calm.
Qed.

Lemma close_on_error_calm {A} s p (m : M W A) : driver_call m → driver_call (close_on_error s p m).
Proof.
  intros Hm. unfold close_on_error. split.
  - intros w. unfold try_except. pose proof (proj1 Hm w) as Ho. destruct (m w) as [[a|e] w']; [done|].
    rewrite (Ho e) by done. assert (driver_call (close_remote s p ≫= λ _, @raise W A e)) as [Hs _]; [|apply Hs].
    apply calm_bind; [calm|]. intros u. apply calm_raise. by apply Ho.
  - intros w. unfold try_except. pose proof (proj1 Hm w) as Ho. pose proof (proj2 Hm w) as Hr.
    destruct (m w) as [[a|e] w']; [done|]. rewrite (Ho e) by done. etrans; [exact Hr|].
    assert (driver_call (close_remote s p ≫= λ _, @raise W A e)) as [_ Hs]; [|apply Hs].
    apply calm_bind; [calm|]. intros u. apply calm_raise. by apply Ho.
Qed.

Lemma append_nonneg (resume : bool) n : (0 ≤ if resume && (0 <? n)%Z then n else 0)%Z.
Proof. destruct resume; simpl; [|done]. destruct (0 <? n)%Z eqn:E; to_prop; lia. Qed.
Hint Resolve local_md5_calm remote_md5_calm same_hash_calm set_chmod_calm close_on_error_calm
  upload_loop_calm download_loop_calm append_nonneg : calm.

Lemma with_sftp_calm {A} cl (f : Sftp → M W A) : (∀ s, driver_call (f s)) → driver_call (with_sftp cl f).
Proof. intros Hf. apply calm_bind; [calm|]. intros s. apply calm_finally; [done|calm]. Qed.

Lemma upload_copy_calm s lp rp resume n chmod size rsize :
  driver_call (upload_copy fuel s lp rp resume n chmod size rsize).
Proof.
  unfold upload_copy. do 2 (apply calm_bind; [calm|]; intros ?). apply calm_bind; [|calm].
  apply close_on_error_calm, calm_bind; [auto with calm|]. calm.
Qed.

Lemma upload_single_calm cl s lp rp resume sync n chmod :
  driver_call (upload_single fuel cl s lp rp resume sync n chmod).
Proof.
  unfold upload_single. apply calm_bind; [calm|]. intros ex. case_match; [calm|].
  apply calm_bind; [calm|]. intros size. apply calm_bind; [calm|]. intros attrs.
  apply calm_bind; [calm|]. intros same. case_match; [calm|]. case_match; [calm|]. apply upload_copy_calm.
Qed.

Lemma upload_calm cwd cl lp rp resume recursive sync n chmod :
  driver_call (_upload_file cwd fuel cl lp rp resume recursive sync n chmod).
Proof.
  apply with_sftp_calm. intros s. apply calm_bind; [calm|]. intros isdir.
  case_match; [|apply upload_single_calm]. apply calm_bind; [calm|]. intros dirs.
  apply calm_bind; [|calm]. apply calm_foldM. intros b [[root ds] fs] _. cbn [upload_dir].
  apply calm_bind; [calm|]. intros u. apply calm_foldM. intros b' f _.
  apply calm_bind; [|calm]. apply with_sftp_calm. intros s'. apply upload_single_calm.
Qed.

Lemma download_copy_calm s lp rp resume n size lsize :
  driver_call (download_copy fuel s rp lp resume n size lsize).
Proof.
  unfold download_copy. do 2 (apply calm_bind; [calm|]; intros ?). apply calm_bind; [|calm].
  apply calm_finally; [|calm]. apply close_on_error_calm, calm_bind; [auto with calm|]. calm.
Qed.

Lemma download_single_calm cl s lp rp resume sync n size :
  driver_call (download_single fuel cl s rp lp resume sync n size).
Proof.
  unfold download_single. apply calm_bind; [calm|]. intros ex. apply calm_bind; [calm|].
  intros same. case_match; [calm|]. apply calm_bind; [calm|]. intros o. case_match; [calm|].
  apply download_copy_calm.
Qed.

(** *** The nesting of remote directories *)
Lemma length_app_string s t : String.length (s +:+ t) = String.length s + String.length t.
Proof. induction s as [|a s IH]; [done|]. simpl. by rewrite <-IH. Qed.

Lemma length_replace_char a b s : String.length (replace_char a (String b EmptyString) s) = String.length s.
Proof. induction s as [|x s IH]; [done|]. cbn [replace_char].
  case_match; [change (String b EmptyString +:+ ?t) with (String b t)|]; simpl; by rewrite IH.
Qed.

Lemma length_join p n : n ≠ "" → startswith n sep = false →
  String.length p < String.length (fix_slashes (path_join p n)).
Proof.
  intros Hn Hs. unfold fix_slashes, sep. rewrite length_replace_char. unfold path_join, isabs. rewrite Hs.
  assert (0 < String.length n) by (destruct n; [done|simpl; lia]).
  case_match; rewrite !length_app_string; simpl; lia.
Qed.

(** A download of directories ends because paths grow. *)
Lemma download_calm k cl rp lp resume recursive sync n : 0 < k → depth < k + String.length rp →
  driver_call (_download_file k fuel cl rp lp resume recursive sync n).
Proof.
  revert rp lp recursive. induction k as [|k IH]; intros rp lp recursive Hk Hd; [lia|]. cbn [_download_file].
  apply with_sftp_calm. intros s. apply calm_bind.
  - apply calm_except_os; [|by apply calm_raise].
    apply calm_bind_ok; [calm|]. intros w a w1 E. pose proof (stat_length s rp w a w1 E) as Hlen.
    case_match; [|calm]. apply calm_bind; [calm|]. intros ex. apply calm_bind; [calm|]. intros u.
    apply calm_bind_ok; [calm|]. intros w2 es w3 E2. apply calm_bind; [|calm].
    apply calm_foldM. intros b e He. destruct (listdir_names s rp w2 es w3 E2 e He) as [Hne Hsl].
    pose proof (length_join rp e.1 Hne Hsl). apply calm_bind; [|calm]. apply IH; lia.
  - intros [d|size]; [calm|apply download_single_calm].
Qed.
End transfers.
#[export] Hint Resolve upload_calm download_calm py_int_ordinary : calm.

(** ** Sessions, commands and tasks *)
Section driver.
Context {W : Type} `{Others W} `{DiskLaws W} `{!Transport W} `{!DriverState W} `{!Clock W} `{!Chat W}.
Context `{!ChannelCalls W} `{!DiskCalls W} `{!TransportCalls W} `{!KeyLaws W} `{!StateCalls W}.
Context (chunks fuel depth : nat) `{!ChatLaws W chunks} `{!SizeLaws W fuel depth}.
Context (c : Config) (cwd : string) (repr : pyval → string).

Implicit Types (d : Driver) (s : Session).

Lemma gets_calm {A} (f : PState → A) : driver_call (W:=W) (gets f).
Proof. apply calm_reads. Qed.

Lemma modify_calm f : driver_call (W:=W) (modify f).
Proof. apply calm_writes. intros. by apply set_pstate_calm. Qed.

Lemma sleeping_calm n : driver_call (W:=W) (writes (sleep n)).
Proof. apply calm_writes. intros. by apply sleep_calm. Qed.

Lemma event_calm e : driver_call (W:=W) (writes (event_set e)).
Proof. apply calm_writes. intros. by apply event_set_calm. Qed.

Lemma new_event_calm : driver_call (W:=W) (update event_new).
Proof. apply calm_update, event_new_calm. Qed.
Hint Resolve gets_calm modify_calm sleeping_calm event_calm new_event_calm : calm.

Lemma start_monitor_calm : driver_call (W:=W) _start_monitor_thread.
Proof. unfold _start_monitor_thread. calm. Qed.

Lemma stop_monitor_calm : driver_call (W:=W) _stop_monitor_thread.
Proof. unfold _stop_monitor_thread. calm. Qed.
Hint Resolve start_monitor_calm stop_monitor_calm : calm.

Lemma set_session_calm o a : driver_call (W:=W) (_set_persisted_session o a).
Proof. unfold _set_persisted_session. calm. Qed.
Hint Resolve set_session_calm : calm.

Lemma get_session_calm a : driver_call (W:=W) (_get_persisted_session a).
Proof. unfold _get_persisted_session. calm. Qed.
Hint Resolve get_session_calm : calm.

Lemma direct_calm a : driver_call (W:=W) (_connect_direct a).
Proof. unfold _connect_direct. calm. Qed.

Lemma proxy_calm a h : driver_call (W:=W) (_connect_via_proxy a h).
Proof. unfold _connect_via_proxy. calm. Qed.

Lemma maybe_cleanup_calm d s : driver_call (_maybe_cleanup_expired_tasks d s).
Proof. unfold _maybe_cleanup_expired_tasks, _cleanup_expired_tasks. calm. Qed.
Hint Resolve direct_calm proxy_calm maybe_cleanup_calm : calm.

Lemma connect_calm d : driver_call (Paramiko.connect d).
Proof. unfold connect. calm. Qed.

Lemma disconnect_calm d s reset : driver_call (Paramiko.disconnect d s reset).
Proof. unfold Paramiko.disconnect. calm. Qed.

(** *** An interactive dialogue ends

    Every poll reads a chunk or adds to a silence, which is bounded. *)
Definition patience (limit n : Z) : nat := Z.to_nat limit + 1 - Z.to_nat n.
Definition polls_left (w : W) (ch : Channel) (limit n : Z) : nat :=
  pending w ch * (Z.to_nat limit + 2) + patience limit n.

Lemma polls_chunk (p p' : nat) limit n n' : p' < p →
  p' * (Z.to_nat limit + 2) + patience limit n' < p * (Z.to_nat limit + 2) + patience limit n.
Proof. unfold patience. intros Hp. assert (p' + 1 ≤ p) as Hp' by lia. nia. Qed.

Lemma polls_le (p p' : nat) limit n : p' ≤ p →
  p' * (Z.to_nat limit + 2) + patience limit n ≤ p * (Z.to_nat limit + 2) + patience limit n.
Proof. nia. Qed.

Lemma polls_silence (p p' : nat) limit n : p' ≤ p → (0 ≤ n)%Z → (n + 1 ≤ limit)%Z →
  p' * (Z.to_nat limit + 2) + patience limit (n + 1) < p * (Z.to_nat limit + 2) + patience limit n.
Proof. unfold patience. intros. assert (Z.to_nat (n + 1) = Z.to_nat n + 1) as -> by lia. nia. Qed.

Lemma interact_ordinary k ch expect_map limit out n responded w : (0 ≤ n)%Z →
  polls_left w ch limit n < k → ordinary (interact k ch expect_map limit out n responded w).1.
Proof.
  unfold polls_left. revert out n responded w. induction k as [|k IH]; intros out n responded w Hn Hk; [lia|].
  cbn [interact]. unfold mbind, M_bind.
  pose proof (proj1 (status_ready_calm ch) w) as K1. pose proof (status_pending ch w) as P1.
  destruct (exit_status_ready ch w) as [[[]|e] w1]; [done| |by apply ordinary_Err, K1]. simpl in P1.
  pose proof (proj1 (recv_ready_calm ch) w1) as K2. pose proof (ready_pending ch w1) as P2.
  destruct (recv_ready ch w1) as [[ready|e] w2] eqn:E2; [|by apply ordinary_Err, K2]. simpl in P2.
  destruct ready.
  - pose proof (proj1 (recv_calm ch 4096) w2) as K3. pose proof (recv_pending ch 4096 w1 w2 E2) as P3.
    destruct (recv ch 4096 w2) as [[chunk|e] w3]; [|by apply ordinary_Err, K3]. simpl in P3.
    case_match.
    { apply IH; [done|]. eapply Nat.lt_le_trans; [apply (polls_chunk (pending w ch) _ limit n); lia|lia]. }
    destruct (next_prompt _ _ _) as [[prompt response]|].
    + pose proof (proj1 (stdin_write_calm ch (response +:+ nl)) w3) as K4.
      pose proof (write_pending ch (response +:+ nl) w3) as P4.
      destruct (stdin_write ch (response +:+ nl) w3) as [[u|e] w4]; [|by apply ordinary_Err, K4]. simpl in P4.
      apply IH; [done|]. eapply Nat.lt_le_trans; [apply (polls_chunk (pending w ch) _ limit n); lia|lia].
    + apply IH; [done|]. eapply Nat.lt_le_trans; [apply (polls_chunk (pending w ch) _ limit n); lia|lia].
  - unfold writes. pose proof (sleep_pending ch poll_interval w2) as P5. simpl.
    case_match eqn:E; [done|]. to_prop. apply IH; [lia|].
    eapply Nat.lt_le_trans; [apply (polls_silence (pending w ch) _ limit n); lia|lia].
Qed.

Lemma interact_others k ch expect_map limit out n responded w :
  others w (interact k ch expect_map limit out n responded w).2.
Proof.
  revert out n responded w. induction k as [|k IH]; intros out n responded w; [done|].
  cbn [interact]. unfold mbind, M_bind.
  pose proof (proj2 (status_ready_calm ch) w) as K1.
  destruct (exit_status_ready ch w) as [[[]|e] w1]; [done| |done]. simpl in K1.
  pose proof (proj2 (recv_ready_calm ch) w1) as K2.
  destruct (recv_ready ch w1) as [[[]|e] w2]; simpl in K2; (etrans; [exact K1|]; etrans; [exact K2|]); [| |done].
  - pose proof (proj2 (recv_calm ch 4096) w2) as K3. destruct (recv ch 4096 w2) as [[chunk|e] w3]; [|done].
    etrans; [exact K3|]. case_match; [apply IH|]. destruct (next_prompt _ _ _) as [[prompt response]|]; [|apply IH].
    pose proof (proj2 (stdin_write_calm ch (response +:+ nl)) w3) as K4.
    destruct (stdin_write ch (response +:+ nl) w3) as [[u|e] w4]; [|done]. etrans; [exact K4|apply IH].
  - unfold writes. simpl. case_match; [apply sleep_calm|]. etrans; [apply sleep_calm|apply IH].
Qed.

Lemma interact_calm ch expect_map limit :
  driver_call (interact (rounds chunks limit) ch expect_map limit "" 0 []).
Proof.
  split; intros w; [|apply interact_others]. apply interact_ordinary; [done|].
  unfold polls_left, rounds, patience. pose proof (pending_bound w ch). nia.
Qed.
Hint Resolve interact_calm : calm.

(** *** Commands *)
Lemma metadata_calm d t : driver_call (W:=W) (_get_base_metadata d t).
Proof. unfold _get_base_metadata. calm. Qed.
Hint Resolve metadata_calm : calm.

Lemma finish_calm ch out : driver_call (finish_interactive ch out).
Proof. unfold finish_interactive. calm. Qed.
Hint Resolve finish_calm : calm.

Lemma interactive_calm s cmd e k : driver_call (_execute_interactive chunks s cmd e k).
Proof. unfold _execute_interactive. calm. Qed.

Lemma plain_calm s cmd k p : driver_call (execute_plain s cmd k p).
Proof. unfold execute_plain, send_password. calm. Qed.
Hint Resolve interactive_calm plain_calm : calm.

Lemma command_calm d s cmd args : driver_call (_execute_command chunks d s cmd args).
Proof. unfold _execute_command. calm. Qed.
Hint Resolve command_calm : calm.

Lemma run_calm d s cmd : driver_call (run chunks d s cmd).
Proof. unfold run. calm. Qed.
Hint Resolve run_calm : calm.

Lemma script_calm s a : driver_call (_execute_script_content s a).
Proof. unfold _execute_script_content. calm. Qed.

Lemma config_line_calm d s l : driver_call (config_line d s l).
Proof. unfold config_line. calm. Qed.

Lemma config_lines_calm d s l o e x : driver_call (config_lines d s l o e x).
Proof.
  revert o e x. induction l as [|line l IH]; intros o e x; cbn [config_lines]; [calm|].
  apply calm_bind; [apply config_line_calm|]. intros [[out err] st]. repeat case_match; calm.
Qed.
Hint Resolve script_calm config_lines_calm : calm.

Lemma error_result_calm d cmd t e : driver_call (W:=W) (error_result d cmd t e).
Proof. unfold error_result. calm. Qed.
Hint Resolve error_result_calm : calm.

(** *** Transfers and tasks *)
Lemma dest_path_calm d l f : driver_call (effective_dest_path c d l f).
Proof. unfold effective_dest_path. calm. Qed.
Hint Resolve dest_path_calm : calm.

Lemma transfer_calm d s op : driver_call (transfer c cwd fuel (S depth) d s op).
Proof.
  unfold transfer. destruct (ft_operation op).
  - case_match; [by apply calm_raise|]. by apply (upload_calm fuel depth).
  - apply calm_bind; [calm|]. intros lp. apply (download_calm fuel depth); lia.
Qed.
Hint Resolve transfer_calm : calm.

Lemma after_upload_calm d s op b : driver_call (after_upload chunks d s op b).
Proof. unfold after_upload. calm. Qed.
Hint Resolve after_upload_calm : calm.

Lemma handle_calm d s op b : driver_call (_handle_file_transfer c cwd chunks fuel (S depth) repr d s op b).
Proof. unfold _handle_file_transfer. calm. Qed.
Hint Resolve handle_calm : calm.

Lemma read_remote_file_calm s p : driver_call (W:=W) (_read_remote_file s p).
Proof. unfold _read_remote_file. calm. Qed.
Hint Resolve read_remote_file_calm : calm.

Lemma is_running_calm d s t : driver_call (_is_task_running chunks repr d s t).
Proof. unfold _is_task_running. calm. Qed.
Hint Resolve is_running_calm : calm.

Lemma parse_size_ordinary out : ordinary (parse_size out).
Proof. unfold parse_size. case_match; [done|apply py_int_ordinary]. Qed.
Lemma as_number_ordinary v : ordinary (as_number v).
Proof. unfold as_number. ordinary_cases. Qed.
Hint Resolve parse_size_ordinary as_number_ordinary : calm.

Lemma read_logs_calm d s t o : driver_call (_read_logs chunks repr d s t o).
Proof. unfold _read_logs. calm. Qed.

Lemma kill_calm d s t : driver_call (kill_task chunks repr d s t).
Proof. unfold kill_task. calm. Qed.

Lemma active_entry_calm d s f : driver_call (active_entry chunks d s f).
Proof. unfold active_entry. calm. Qed.

Lemma active_entries_calm d s l acc : driver_call (active_entries chunks d s l acc).
Proof.
  revert acc. induction l as [|f l IH]; intros acc; cbn [active_entries]; [calm|].
  apply calm_bind; [|done]. apply calm_try; [apply active_entry_calm|calm].
Qed.
Hint Resolve read_logs_calm active_entries_calm : calm.

Lemma list_tasks_calm d s : driver_call (_list_active_tasks chunks d s).
Proof. unfold _list_active_tasks. calm. Qed.
Hint Resolve list_tasks_calm : calm.

Lemma scripted_calm d s cmd t : driver_call (scripted_command chunks d s cmd t).
Proof. unfold scripted_command, no_attribute. calm. Qed.
Hint Resolve scripted_calm : calm.

Lemma final_command_calm d s cmd t : driver_call (final_command c cwd chunks fuel (S depth) repr d s cmd t).
Proof. unfold final_command. calm. Qed.
Hint Resolve final_command_calm : calm.

Lemma launch_detached_calm d s cmd t : driver_call (launch_detached c cwd chunks fuel (S depth) repr d s cmd t).
Proof. unfold launch_detached, start_launcher, send_password, launched_pid, rapid_exit. calm. Qed.

Lemma send_commands_calm d s l : driver_call (send_commands chunks d s l).
Proof. unfold send_commands. calm. Qed.
Hint Resolve send_commands_calm : calm.

Lemma send_payload_calm d s l : driver_call (send_payload c cwd chunks fuel (S depth) repr d s l).
Proof. unfold send_payload. calm. Qed.
Hint Resolve send_payload_calm : calm.

Lemma send_calm d s l : driver_call (send c cwd chunks fuel (S depth) repr d s l).
Proof. unfold send. calm. Qed.

Lemma config_calm d s l : driver_call (config d s l).
Proof. unfold config, run_config, no_attribute. calm. Qed.
End driver.

(** ** The implementation of [Drivers] *)
Section instance.
Context {W : Type} `{Others W} `{DiskLaws W} `{!Transport W} `{!DriverState W} `{!Clock W} `{!Chat W}.
Context (chunks fuel depth : nat) (c : Config) (cwd : string) (repr : pyval → string).
Context (fits_command : list (string * pyval) → bool).

(** The plugin under its name [paramiko] *)
Definition paramiko_driver : Drivers W :=
  {| Rpc.DriverObject := Driver; Rpc.Session := Session;
     drivers_has n := bool_decide (n = PARAMIKO);
     Rpc.from_execution_request := from_execution_request fits_command;
     Rpc.connect := connect;
     Rpc.send := send c cwd chunks fuel (S depth) repr;
     send_config := config;
     Rpc.launch_detached := launch_detached c cwd chunks fuel (S depth) repr;
     Rpc._read_logs d s t o := _read_logs chunks repr d s (PStr t) o;
     Rpc.kill_task := kill_task chunks repr;
     Rpc.disconnect d s := disconnect d s false |}.

Lemma validate_request_ordinary req : ordinary (validate_request fits_command req).
Proof.
  unfold validate_request. apply ordinary_bind; [apply connection_validate_ordinary|]. intros a.
  apply ordinary_bind.
  - case_match; [|done]. apply ordinary_bind; [|done]. unfold Args_validate.
    repeat case_match; (done || by apply ordinary_Err).
  - intros args. apply ordinary_bind; [apply model_validate_ordinary|done].
Qed.

End instance.
