(* ===== verification/ParamikoSpec.v ===== *)
(** * What the Paramiko driver does

    The session it keeps, the dialogues it answers, the configurations it stops
    and the logs it follows: theorems about [ParamikoDriver]. *)

From Stdlib Require Import Ascii.
From S2P Require Import Prelude PyLib Models World Registry Storage Rpc Ssh Shell Transfer ParamikoModel Paramiko ParamikoExec ParamikoTasks ParamikoSafe.

(** ** The persisted session *)

(** Calls of the device and of threads do not touch the attributes of the
    class. *)
Class SessionLaws (W : Type) `{DriverState W} : Prop := {
  pstate_set : ∀ p w, pstate (set_pstate p w) = p;
  exec_steady : ∀ cl cmd k, steady pstate (exec_command cl cmd k);
  connect_steady : ∀ p k, steady pstate (ssh_connect p k);
  channel_steady : ∀ cl a b, steady pstate (open_channel cl a b);
  close_steady : ∀ cl, steady pstate (client_close cl);
  start_steady : steady pstate thread_start;
  join_steady : ∀ t n, steady pstate (thread_join t n);
  event_new_pstate : ∀ w, pstate (event_new w).2 = pstate w;
  event_set_pstate : ∀ e w, pstate (event_set e w) = pstate w;
}.

Section session.
Context {W : Type} `{SessionLaws W} `{!KeyLaws W} `{!Clock W}.
Abbreviation wp := (Prelude.wp pstate).
Implicit Types (d : Driver) (s : Session) (p : PState).

(** A session is kept with the arguments it was made for, which ask to keep it. *)
Definition session_inv p : Prop :=
  match persisted_session p, persisted_conn_args p with
  | Some _, Some a => int_truthy (pc_keepalive a) = true
  | None, None => True
  | _, _ => False
  end.

Definition cleared p : Prop := persisted_session p = None ∧ persisted_conn_args p = None.

Lemma cleared_inv p : cleared p → session_inv p.
Proof. unfold session_inv. by intros [-> ->]. Qed.

Lemma wp_gets {A} (f : PState → A) (Q : res A → PState → Prop) p : Q (Ok (f p)) p → wp (gets f) Q p.
Proof. intros HQ. apply wp_reads. by intros w ->. Qed.

Lemma wp_modify f (Q : res unit → PState → Prop) p : Q (Ok tt) (f p) → wp (modify f) Q p.
Proof. intros HQ. apply wp_writes. intros w <-. by rewrite pstate_set. Qed.

Lemma new_event_steady : steady pstate (update event_new).
Proof.
  split; [apply safe_update|]. intros w. unfold update. pose proof (event_new_pstate w). by destruct (event_new w).
Qed.

Lemma set_event_steady e : steady pstate (writes (event_set e)).
Proof. split; [done|]. intros w. apply event_set_pstate. Qed.
#[local] Hint Resolve exec_steady connect_steady channel_steady close_steady start_steady join_steady
  new_event_steady set_event_steady : linux_net.

(** The monitor's attributes aside, stopping the monitor changes nothing. *)
Lemma wp_stop_monitor (Q : res unit → PState → Prop) p :
  (∀ r e t, Q r (set_monitor e t p)) → wp _stop_monitor_thread Q p.
Proof.
  intros HQ. assert (∀ r, Q r p) as Hp.
  { intros r. specialize (HQ r (monitor_stop_event p) (monitor_thread p)). by destruct p. }
  apply wp_bind, wp_gets, wp_bind. eapply (wp_mono _ (λ r p', p' = p)).
  { destruct (monitor_stop_event p); [by apply wp_keep; [auto with linux_net|]|by apply wp_ret]. }
  intros [u|e] p' _ ->; [|done]. apply wp_bind, wp_gets, wp_bind, wp_reads. intros w Hw.
  apply wp_bind. eapply (wp_mono _ (λ r p', p' = p)).
  { destruct (monitor_thread p); [|by apply wp_ret]. destruct (thread_runs w); [|by apply wp_ret].
    apply wp_keep; [auto with linux_net|done]. }
  intros [v|e] p' _ ->; [|done]. apply wp_modify, HQ.
Qed.

Lemma wp_start_monitor (Q : res unit → PState → Prop) p : is_Some (persisted_conn_args p) →
  (∀ r e t, Q r (set_monitor e t p)) → wp _start_monitor_thread Q p.
Proof.
  intros [a Ha] HQ. assert (∀ r, Q r p) as Hp.
  { intros r. specialize (HQ r (monitor_stop_event p) (monitor_thread p)). by destruct p. }
  apply wp_bind, wp_reads. intros w Hw. destruct (thread_runs w); [by apply wp_ret|].
  apply wp_bind, wp_gets. rewrite Ha. apply wp_bind, wp_keep; [auto with linux_net|]. intros [e|e]; [|done].
  apply wp_bind, wp_modify, wp_bind, wp_keep; [auto with linux_net|].
  intros [t|e']; [|apply HQ]. apply wp_modify. cbn. apply (HQ (Ok tt) (Some e) (Some t)).
Qed.

(** Clearing and keeping *)
Definition kept (o : option Session) (a : option ParamikoConnectionArgs) p : Prop :=
  persisted_session p = o ∧ persisted_conn_args p = a.

Lemma wp_clear (Q : res (option Session) → PState → Prop) p : session_inv p →
  (∀ p', cleared p' → Q (Ok None) p') → (∀ e p', kept (persisted_session p) (persisted_conn_args p) p' → Q (Err e) p') →
  wp (_set_persisted_session None None) Q p.
Proof.
  intros Hinv HQ He. apply wp_bind, wp_gets, wp_bind. destruct (has_keepalive _).
  - apply wp_stop_monitor. intros [u|e] ev t; [|by apply He]. apply wp_bind, wp_modify, wp_ret. by apply HQ.
  - apply wp_ret, wp_bind, wp_modify, wp_ret. by apply HQ.
Qed.

(** The session a request may run on: the kept one, when it was made for the
    same host and is alive *)
Definition reusable (a : ParamikoConnectionArgs) (w : W) : option Session :=
  match persisted_session (pstate w), persisted_conn_args (pstate w) with
  | Some s, Some b => if String.eqb (pc_host b) (pc_host a) && is_active (se_client s) w then Some s else None
  | _, _ => None
  end.

Lemma get_reusable a s w : reusable a w = Some s → _get_persisted_session a w = (Ok (Some s), w).
Proof.
  unfold reusable, _get_persisted_session, gets, reads, mbind, M_bind. intros Hr.
  destruct (persisted_session (pstate w)) as [s'|], (persisted_conn_args (pstate w)) as [b|]; try done.
  destruct (String.eqb _ _); [|done]. cbn. simpl in Hr. destruct (is_active _ w); [|done].
  by injection Hr as <-.
Qed.

(** Otherwise a kept session is dropped. *)
Lemma get_fresh a w : session_inv (pstate w) → reusable a w = None →
  let '(r, w') := _get_persisted_session a w in
  ordinary r ∧ match r with
               | Ok o => o = None ∧ cleared (pstate w')
               | Err _ => kept (persisted_session (pstate w)) (persisted_conn_args (pstate w)) (pstate w')
               end.
Proof.
  set (p := pstate w). intros Hinv.
  set (Q := λ (r : res (option Session)) p', match r with
    | Ok o => o = None ∧ cleared p' | Err _ => kept (persisted_session p) (persisted_conn_args p) p' end).
  assert (wp (_set_persisted_session None None) Q p) as Hclear by (apply wp_clear; unfold Q; auto).
  unfold reusable, _get_persisted_session, gets, reads. unfold mbind at 1 2, M_bind at 1 2. fold p.
  unfold session_inv in Hinv.
  destruct (persisted_session p) as [s|] eqn:Es, (persisted_conn_args p) as [b|] eqn:Eb; try done.
  destruct (String.eqb (pc_host b) (pc_host a)) eqn:Eh; cbn [negb andb].
  - unfold mbind at 1, M_bind at 1. destruct (is_active _ w); [done|]. intros _.
    apply (wp_run (_set_persisted_session None None ≫= λ _, mret None) Q w), wp_bind.
    eapply wp_mono; [exact Hclear|]. intros [o|e] p' _ HQ; [|exact HQ]. apply wp_ret. by destruct HQ.
  - intros _. refine (wp_run (try_finally (try_except (client_close (se_client s)) (λ _, mret tt))
      (_set_persisted_session None None ≫= λ _, mret tt) ≫= λ _, mret None) Q w _).
    assert (∀ u : unit, wp (_set_persisted_session None None ≫= λ _, mret tt)
      (λ r v, match r with Ok _ => wp (mret None) Q v | Err e => Q (Err e) v end) p) as Hc.
    { intros u. apply wp_bind. eapply wp_mono; [exact Hclear|].
      intros [o|e] p' _ HQ; [|exact HQ]. apply wp_ret, wp_ret. by destruct HQ. }
    apply wp_bind, wp_finally_do, wp_try, wp_keep; [auto with linux_net|].
    intros [u|e]; [by apply (Hc u)|]. apply wp_ret. by apply (Hc tt).
Qed.

(** *** Connecting *)
Lemma of_res_steady {A} (r : res A) : ordinary r → steady pstate (of_res (S:=W) r).
Proof. intros Hr. split; [by apply safe_of_res|done]. Qed.
#[local] Hint Resolve of_res_steady : linux_net.

Lemma direct_steady a : steady pstate (_connect_direct (W:=W) a).
Proof. unfold _connect_direct. auto with linux_net. Qed.

Lemma proxy_steady a h : steady pstate (_connect_via_proxy (W:=W) a h).
Proof. unfold _connect_via_proxy. auto 10 with linux_net. Qed.

Lemma wp_cleanup d s (Q : res unit → PState → Prop) p :
  (∀ r l, Q r (set_cleanup l p)) → wp (_maybe_cleanup_expired_tasks d s) Q p.
Proof.
  intros HQ. assert (∀ r, Q r p) as Hp.
  { intros r. specialize (HQ r (last_cleanup_times p)). by destruct p. }
  apply wp_bind, wp_reads. intros w _. apply wp_bind, wp_gets. case_match; [|by apply wp_ret].
  apply wp_seq; [unfold _cleanup_expired_tasks; auto 10 with linux_net|done|]. apply wp_modify, HQ.
Qed.

(** A session that was opened for these arguments *)
Definition new_connection (a : ParamikoConnectionArgs) : M W Session :=
  if str_truthy (pc_proxy_host a) then _connect_via_proxy a (default "" (pc_proxy_host a))
  else _connect_direct a.
Definition opened (a : ParamikoConnectionArgs) (s : Session) : Prop :=
  ∃ w1 w2, new_connection a w1 = (Ok s, w2).

(** What connecting makes of the attributes when no session is reused *)
Definition connected d p (r : res Session) p' : Prop :=
  let keep := int_truthy (pc_keepalive (d_conn_args d)) in
  session_inv p' ∧
  match r with
  | Ok s => opened (d_conn_args d) s
      ∧ if keep then kept (Some s) (Some (d_conn_args d)) p' ∧ session_reused p' = false else cleared p'
  | Err _ =>
      cleared p' ∨ kept (persisted_session p) (persisted_conn_args p) p'
      ∨ keep = true ∧ persisted_conn_args p' = Some (d_conn_args d)
  end.

Lemma kept_inv p p' : session_inv p → kept (persisted_session p) (persisted_conn_args p) p' → session_inv p'.
Proof. unfold session_inv. by intros ? [-> ->]. Qed.

Lemma wp_new_connection a p : wp (new_connection a) (λ r p', p' = p ∧ ∀ s, r = Ok s → opened a s) p.
Proof.
  intros w Hw. assert (steady pstate (new_connection a)) as Hs.
  { unfold new_connection. destruct (str_truthy _); auto using direct_steady, proxy_steady. }
  destruct (steady_run _ w p Hs Hw) as [Ho Hv]. destruct (new_connection a w) as [r w'] eqn:E.
  simpl in *. split; [done|]. split; [done|]. intros s ->. by exists w, w'.
Qed.

Lemma wp_keep_new s a (Q : res (option Session) → PState → Prop) p : int_truthy (pc_keepalive a) = true →
  (∀ r p', kept (Some s) (Some a) p' → session_reused p' = session_reused p → Q r p') →
  wp (_set_persisted_session (Some s) (Some a)) Q p.
Proof.
  intros Ha HQ. apply wp_bind, wp_modify, wp_bind. cbn [has_keepalive]. rewrite Ha.
  apply wp_start_monitor; [by eexists|]. intros [u|e] ev t; [|by apply HQ].
  apply wp_gets. by apply HQ.
Qed.

(** The rest of [connect], when there is nothing to reuse *)
Lemma wp_open d p p0 : cleared p →
  wp (s ← new_connection (d_conn_args d);
      (if int_truthy (pc_keepalive (d_conn_args d)) then
         modify (set_reused false) ≫= λ _,
         _set_persisted_session (Some s) (Some (d_conn_args d)) ≫= λ _, mret tt
       else mret tt) ≫= λ _,
      _maybe_cleanup_expired_tasks d s ≫= λ _, mret s) (connected d p0) p.
Proof.
  intros Hp. assert (∀ e, connected d p0 (Err e) p) as Hcl by (intros e; split; [by apply cleared_inv|by left]).
  apply wp_bind. eapply wp_mono; [apply wp_new_connection|].
  intros [s|e] v _ [-> Ho]; [|done]. specialize (Ho s eq_refl). apply wp_bind.
  destruct (int_truthy (pc_keepalive (d_conn_args d))) eqn:Ek.
  - apply wp_bind, wp_modify, wp_bind, wp_keep_new; [done|]. intros r q Hq Hre. cbn in Hre.
    assert (∀ v, kept (Some s) (Some (d_conn_args d)) v → session_reused v = false →
      (∀ e, connected d p0 (Err e) v) ∧ connected d p0 (Ok s) v) as Hc.
    { intros v Hv Hrv. assert (session_inv v) by (unfold session_inv; by destruct Hv as [-> ->]).
      unfold connected. rewrite Ek. split; [intros e|]; split; try done.
      right; right; split; [done|apply Hv]. }
    destruct r as [o|e]; [|by apply Hc]. apply wp_ret, wp_bind, wp_cleanup. intros [u|e] l; [|by apply Hc].
    apply wp_ret. by apply Hc.
  - apply wp_ret, wp_bind, wp_cleanup. intros [u|e] l; [apply wp_ret|].
    + split; [by apply (cleared_inv (set_cleanup l p))|]. rewrite Ek. by split.
    + split; [by apply (cleared_inv (set_cleanup l p))|]. left. exact Hp.
Qed.

Lemma connect_fresh d w : session_inv (pstate w) → reusable (d_conn_args d) w = None →
  let '(r, w') := connect d w in ordinary r ∧ connected d (pstate w) r (pstate w').
Proof.
  intros Hinv Hr. pose proof (get_fresh (d_conn_args d) w Hinv Hr) as Hg.
  unfold connect. unfold mbind at 1, M_bind at 1.
  destruct (_get_persisted_session _ w) as [[o|e] w1]; destruct Hg as [Hord Hg].
  - destruct Hg as [-> Hc]. exact (wp_run _ _ w1 (wp_open d _ (pstate w) Hc)).
  - split; [by apply ordinary_Err, Hord|]. split; [by apply (kept_inv (pstate w))|]. right. by left.
Qed.

Lemma connect_reused d s w : reusable (d_conn_args d) w = Some s →
  connect d w = (Ok s, set_pstate (set_reused true (pstate w)) w).
Proof.
  intros Hr. unfold connect. unfold mbind at 1, M_bind at 1. by rewrite (get_reusable _ s w Hr).
Qed.

Lemma connect_inv d w : session_inv (pstate w) → session_inv (pstate (connect d w).2).
Proof.
  intros Hinv. destruct (reusable (d_conn_args d) w) as [s|] eqn:E.
  - rewrite (connect_reused d s w E). simpl. by rewrite pstate_set.
  - pose proof (connect_fresh d w Hinv E) as Hc. destruct (connect d w). apply Hc.
Qed.

Lemma close_all_steady s : steady pstate
  (try_except (client_close (se_client s) ≫= λ _,
     match se_proxy s with Some q => try_except (client_close q) (λ _, mret tt) | None => mret tt end)
   (λ _, mret tt)).
Proof. apply steady_try; [|auto with linux_net]. apply steady_bind; [auto with linux_net|]. intros u. destruct (se_proxy s); auto with linux_net. Qed.

Lemma wp_disconnect d s reset p : session_inv p →
  wp (disconnect d s reset)
    (λ r p', session_inv p' ∧
       (cleared p' ∧ int_truthy (pc_keepalive (d_conn_args d)) && reset = true
        ∨ kept (persisted_session p) (persisted_conn_args p) p'
          ∧ (r = Ok tt → int_truthy (pc_keepalive (d_conn_args d)) && reset = false))) p.
Proof.
  intros Hinv. unfold disconnect. set (keep := int_truthy _).
  destruct (keep && negb reset) eqn:E.
  { apply wp_ret. split; [done|]. right. split; [done|]. intros _. by destruct keep, reset. }
  apply wp_finally_do, wp_keep; [apply close_all_steady|]. intros r.
  destruct keep eqn:Ek; simpl in E.
  - assert (reset = true) as -> by (by destruct reset). apply wp_bind, wp_clear; [done|..].
    + intros p' Hp'. apply wp_ret. destruct r; (split; [by apply cleared_inv|]; by left).
    + intros e p' Hp'. split; [by apply (kept_inv p)|]. right. split; [done|by intros ?].
  - apply wp_ret. destruct r; (split; [done|]; right; split; [done|by intros ?]).
Qed.

(** Any worker's history: connecting and disconnecting for request after request *)
Inductive history : W → Prop :=
  | history_start w : cleared (pstate w) → history w
  | history_connect d w : history w → history (connect d w).2
  | history_disconnect d s reset w : history w → history (disconnect d s reset w).2.

(** C9. The session a worker keeps between jobs.  Throughout a worker's history
    a kept session comes with the arguments it was made for, and these ask to
    keep it.  Connecting reuses it exactly when it is alive and was made for the
    same host, and then does nothing else.  In every other case the session is
    one that is opened for this request's arguments; the one kept before is
    forgotten, and the new one is kept exactly when the request asks for it.
    Disconnecting leaves a kept session alone unless it resets it. *)
Theorem session_spec w : history w → session_inv (pstate w) ∧
  (∀ d, let '(r, w') := connect d w in
     match reusable (d_conn_args d) w with
     | Some s => r = Ok s ∧ w' = set_pstate (set_reused true (pstate w)) w
     | None => ordinary r ∧ connected d (pstate w) r (pstate w')
     end)
  ∧ ∀ d s reset, let keep := int_truthy (pc_keepalive (d_conn_args d)) in
      let '(r, w') := disconnect d s reset w in
      ordinary r ∧ (r = Ok tt → if keep && reset then cleared (pstate w')
                                else kept (persisted_session (pstate w)) (persisted_conn_args (pstate w)) (pstate w')).
Proof.
  intros Hw. assert (session_inv (pstate w)) as Hinv.
  { induction Hw as [w Hw|d w Hw IH|d s reset w Hw IH]; [by apply cleared_inv|by apply connect_inv|].
    pose proof (wp_run _ _ w (wp_disconnect d s reset _ IH)) as Hc. destruct (disconnect d s reset w). apply Hc. }
  split; [done|]. split.
  - intros d. destruct (reusable (d_conn_args d) w) as [s|] eqn:E; [by rewrite (connect_reused d s w E)|].
    by apply connect_fresh.
  - intros d s reset keep. pose proof (wp_run _ _ w (wp_disconnect d s reset _ Hinv)) as Hc. subst keep.
    destruct (disconnect d s reset w) as [r w']. destruct Hc as (Ho & _ & Hc). split; [done|]. intros ->.
    destruct Hc as [[Hc ->]|[Hc Hk]]; [done|]. by rewrite Hk.
Qed.
End session.

(** ** Configurations *)
Section config.
Context {W : Type} `{Disks W} `{!Transport W} `{!DriverState W} `{!Clock W}.
Implicit Types (d : Driver) (s : Session).

(** The outcome of a line: output, error output, exit status *)
Abbreviation outcome := (string * string * Z)%type.

Definition succeeded (o : outcome) : bool := (o.2 =? 0)%Z.
(** The last exit status that is not 0 *)
Definition last_failure (x : Z) (outs : list outcome) : Z :=
  foldl (λ x (o : outcome), if succeeded o then x else o.2) x outs.
Definition error_outputs (outs : list outcome) : list string :=
  filter (λ e, e ≠ "") ((λ o : outcome, o.1.2) <$> outs).

(** Where the lines end: at the first failure, or, failures being ignored or
    absent, at the last line *)
Definition stops_right (stop : bool) (outs : list outcome) (all : bool) : Prop :=
  if all then stop = true → forallb succeeded (removelast outs) = true
  else stop = true ∧ forallb succeeded (removelast outs) = true
       ∧ from_option (λ o, negb (succeeded o)) false (last outs) = true.

Lemma stops_right_cons stop o outs b :
  stops_right stop outs b → (stop = true → succeeded o = true) → stops_right stop (o :: outs) b.
Proof.
  unfold stops_right. intros Hs Ho. destruct outs as [|o' outs].
  - destruct b; [done|]. by destruct Hs as (_ & _ & ?).
  - change (removelast (o :: o' :: outs)) with (o :: removelast (o' :: outs)).
    change (last (o :: o' :: outs)) with (last (o' :: outs)). cbn [forallb].
    destruct b; [intros Hstop; by rewrite Ho, Hs|]. destruct Hs as (Hstop & Hs & Hl).
    by rewrite Ho, Hs.
Qed.

Lemma config_lines_spec d s l o e x w :
  let '(r, w') := config_lines d s l o e x w in
  ∃ k, k ≤ length l ∧
  match r with
  | Ok (o', e', x') => ∃ outs, mapM (config_line d s) (take k l) w = (Ok outs, w')
      ∧ o' = o ++ ((λ o : outcome, o.1.1) <$> outs) ∧ e' = e ++ error_outputs outs
      ∧ x' = last_failure x outs
      ∧ stops_right (stop_on_error (d_args d)) outs (bool_decide (k = length l))
  | Err err => mapM (config_line d s) (take k l) w = (Err err, w')
  end.
Proof.
  revert o e x w. induction l as [|line l IH]; intros o e x w; cbn [config_lines].
  { exists 0. split; [done|]. exists []. split_and!; try done; by rewrite app_nil_r. }
  unfold mbind, M_bind.
  destruct (config_line d s line w) as [[[[out err] st]|ex] w1] eqn:E.
  2:{ exists 1. split; [simpl; lia|]. simpl. unfold mbind, M_bind. by rewrite E. }
  assert (error_outputs [(out, err, st)] = if String.eqb err "" then [] else [err]) as Herr.
  { unfold error_outputs. simpl. destruct (String.eqb_spec err ""); [by rewrite filter_cons_False by auto|].
    by rewrite filter_cons_True. }
  assert (∀ x', (succeeded (out, err, st) = true ∧ x' = x ∨ stop_on_error (d_args d) = false) →
      x' = last_failure x [(out, err, st)] →
      let '(r, w') := config_lines d s l (o ++ [out]) (e ++ (if String.eqb err "" then [] else [err])) x' w1 in
      ∃ k, k ≤ length (line :: l) ∧
      match r with
      | Ok (o', e', x'') => ∃ outs, mapM (config_line d s) (take k (line :: l)) w = (Ok outs, w')
          ∧ o' = o ++ ((λ o : outcome, o.1.1) <$> outs) ∧ e' = e ++ error_outputs outs
          ∧ x'' = last_failure x outs
          ∧ stops_right (stop_on_error (d_args d)) outs (bool_decide (k = length (line :: l)))
      | Err err => mapM (config_line d s) (take k (line :: l)) w = (Err err, w')
      end) as Hgo.
  { intros x' Hst Hx'. specialize (IH (o ++ [out]) (e ++ (if String.eqb err "" then [] else [err])) x' w1).
    destruct (config_lines d s l _ _ _ w1) as [[[[o' e'] x'']|ex] w'].
    - destruct IH as (k & Hk & outs & Hm & -> & -> & -> & Hstop). exists (S k). split; [simpl; lia|].
      exists ((out, err, st) :: outs). split_and!.
      + simpl. unfold mbind, M_bind. by rewrite E, Hm.
      + by rewrite <-app_assoc.
      + rewrite <-Herr, <-app_assoc. f_equal. unfold error_outputs. by rewrite <-filter_app.
      + by rewrite Hx'.
      + assert (bool_decide (S k = length (line :: l)) = bool_decide (k = length l)) as ->.
        { apply bool_decide_ext. simpl. lia. }
        apply stops_right_cons; [done|]. intros Hs. destruct Hst as [Hst|Hst]; [apply Hst|congruence].
    - destruct IH as (k & Hk & Hm). exists (S k). split; [simpl; lia|].
      simpl. unfold mbind, M_bind. by rewrite E, Hm. }
  destruct (st =? 0)%Z eqn:Est; [|destruct (stop_on_error (d_args d)) eqn:Estop].
  - apply Hgo; [by left|]. unfold last_failure, succeeded. simpl. by rewrite Est.
  - exists 1. split; [simpl; lia|]. exists [(out, err, st)]. split_and!; try done.
    + simpl. unfold mbind, M_bind. by rewrite E.
    + by rewrite Herr.
    + unfold last_failure, succeeded. simpl. by rewrite Est.
    + unfold stops_right. case_bool_decide; [done|]. unfold succeeded. simpl. by rewrite Est.
  - apply Hgo; [by right|]. unfold last_failure, succeeded. simpl. by rewrite Est.
Qed.

(** C10. Configuring runs the lines in their order, each as its own command, and
    answers with one result: the outputs of the lines that ran and the last exit
    status that was not 0.  With [stop_on_error] nothing runs after the first
    line that fails, without it every line runs; a call that raises ends the
    configuration, and its text is the answer. *)
Theorem config_spec d s lines w : truthy (args_file_transfer (d_args d)) = false → lines ≠ [] →
  let '(r, w') := config d s lines w in
  ∃ k, k ≤ length lines ∧
  match mapM (config_line d s) (take k lines) w with
  | (Ok outs, w1) =>
      w' = w1 ∧ ∃ m, r = Ok [mkResult (join nl lines) (PStr (join nl ((λ o : outcome, o.1.1) <$> outs)))
        (join nl (error_outputs outs)) (last_failure 0 outs) None m PNone]
      ∧ stops_right (stop_on_error (d_args d)) outs (bool_decide (k = length lines))
  | (Err e, w1) =>
      w' = w1 ∧ if is_exception e
                then ∃ m, r = Ok [mkResult (join nl lines) (PStr "") (exn_str e) 1 None m PNone]
                else r = Err e
  end.
Proof.
  intros Hft Hne. unfold config. rewrite Hft. destruct lines as [|line lines]; [done|].
  unfold run_config, try_except, mbind, M_bind, reads.
  pose proof (config_lines_spec d s (line :: lines) [] [] 0 w) as Hspec.
  destruct (config_lines d s (line :: lines) [] [] 0 w) as [[[[o e] x]|ex] w1].
  - destruct Hspec as (k & Hk & outs & Hm & -> & -> & -> & Hstop). simpl. exists k. split; [done|].
    rewrite Hm. split; [done|]. eexists. split; [reflexivity|done].
  - destruct Hspec as (k & Hk & Hm). destruct (is_exception ex) eqn:Ex; exists k; (split; [done|]);
      rewrite Hm, Ex; (split; [done|]); [by eexists|done].
Qed.
End config.

(** ** Interactive dialogues *)

(** What was written to a command's standard input *)
Class Written (W : Type) `{Ssh W} := { written : W → Channel → list string }.

Class WrittenLaws (W : Type) `{Written W} `{!Clock W} : Prop := {
  exec_written : ∀ cl cmd k w ch w', exec_command cl cmd k w = (Ok ch, w') → written w' ch = [];
  write_written : ∀ ch t w, let '(r, w') := stdin_write ch t w in
    ∃ l, written w' ch = written w ch ++ l ∧ (l = [t] ∨ is_ok r = false ∧ l = []);
  status_ready_written : ∀ ch w, written (exit_status_ready ch w).2 ch = written w ch;
  recv_ready_written : ∀ ch w, written (recv_ready ch w).2 ch = written w ch;
  recv_written : ∀ ch n w, written (recv ch n w).2 ch = written w ch;
  exit_status_written : ∀ ch w, written (recv_exit_status ch w).2 ch = written w ch;
  stderr_ready_written : ∀ ch w, written (recv_stderr_ready ch w).2 ch = written w ch;
  recv_stderr_written : ∀ ch n w, written (recv_stderr ch n w).2 ch = written w ch;
  close_written : ∀ ch w, written (channel_close ch w).2 ch = written w ch;
  sleep_written : ∀ ch n w, written (sleep n w) ch = written w ch;
}.

Section interactive.
Context {W : Type} `{Others W} `{WrittenLaws W} `{!Chat W}.
Context `{!Transport W} `{!DriverState W} (chunks : nat).
Context `{!ChatLaws W chunks} `{!ChannelCalls W} `{!StateCalls W}.

Definition answer (pr : string * string) : string := pr.2 +:+ nl.

(** The answers given: each to a prompt of the map that the output shows, none
    twice *)
Definition answers_to (expect_map answered : list (string * string)) (out : string) : Prop :=
  NoDup answered.*1 ∧ ∀ pr, pr ∈ answered → pr ∈ expect_map ∧ contains out pr.1 = true.

Lemma next_prompt_spec expect_map out responded pr : next_prompt expect_map out responded = Some pr →
  pr ∈ expect_map ∧ contains out pr.1 = true ∧ pr.1 ∉ responded.
Proof.
  unfold next_prompt. intros Hf. apply find_some in Hf as [Hin Hu]. unfold unanswered in Hu.
  apply andb_prop in Hu as [Hc Hn]. apply negb_true_iff, bool_decide_eq_false in Hn.
  split; [by apply list_elem_of_In|done].
Qed.

Lemma interact_answers k ch expect_map limit out n responded w out' w' :
  interact k ch expect_map limit out n responded w = (Ok out', w') →
  ∃ answered t, out' = out +:+ t ∧ answers_to expect_map answered out'
    ∧ (∀ p, p ∈ answered.*1 → p ∉ responded) ∧ written w' ch = written w ch ++ (answer <$> answered).
Proof.
  revert out n responded w. induction k as [|k IH]; intros out n responded w; [done|].
  cbn [interact]. unfold mbind, M_bind.
  assert (∀ w1, written w1 ch = written w ch → ∃ answered t, out = out +:+ t ∧ answers_to expect_map answered out
    ∧ (∀ p, p ∈ answered.*1 → p ∉ responded) ∧ written w1 ch = written w ch ++ (answer <$> answered)) as Hdone.
  { intros w1 Hw. exists [], "". rewrite string_app_nil, app_nil_r. split; [done|]. split; [|by split; [set_solver|]].
    split; [constructor|set_solver]. }
  pose proof (status_ready_written ch w) as K1.
  destruct (exit_status_ready ch w) as [[[]|e] w1]; [intros [= <- <-]; by apply Hdone| |done].
  pose proof (recv_ready_written ch w1) as K2.
  destruct (recv_ready ch w1) as [[[]|e] w2]; [| |done]; simpl in K1, K2.
  - pose proof (recv_written ch 4096 w2) as K3. destruct (recv ch 4096 w2) as [[chunk|e] w3]; [|done]. simpl in K3.
    destruct (String.eqb_spec chunk "") as [->|Hc].
    { intros Hi. destruct (IH _ _ _ _ Hi) as (a & t & Ht & Ha & Hr & Hw). exists a, t.
      by rewrite Hw, K3, K2, K1. }
    destruct (next_prompt _ _ _) as [[prompt response]|] eqn:Ep.
    + pose proof (write_written ch (response +:+ nl) w3) as K4.
      destruct (stdin_write ch (response +:+ nl) w3) as [[u|e] w4]; [|done].
      destruct K4 as (l & K4 & [->|[? _]]); [|done]. intros Hi.
      destruct (IH _ _ _ _ Hi) as (a & t & Ht & [Hnd Ha] & Hr & Hw).
      apply next_prompt_spec in Ep as (Hin & Hshow & Hnew). simpl in Hshow, Hnew.
      exists ((prompt, response) :: a), (chunk +:+ t). split; [by rewrite Ht, string_app_assoc|]. split; [|split].
      * split.
        -- simpl. constructor; [|done]. intros Hp. apply (Hr _ Hp). by left.
        -- intros pr [->|Hpr]%elem_of_cons; [|by apply Ha]. split; [done|]. rewrite Ht. by apply contains_app.
      * simpl. intros p [->|Hp]%elem_of_cons; [done|]. specialize (Hr p Hp). set_solver.
      * rewrite Hw, K4, K3, K2, K1. by rewrite <-app_assoc.
    + intros Hi. destruct (IH _ _ _ _ Hi) as (a & t & Ht & Ha & Hr & Hw). exists a, (chunk +:+ t).
      rewrite Ht, string_app_assoc. split; [done|]. rewrite <-string_app_assoc, <-Ht. split; [done|].
      split; [done|]. by rewrite Hw, K3, K2, K1.
  - pose proof (sleep_written ch poll_interval w2) as K5. unfold writes. simpl.
    case_match; [intros [= <- <-]; apply Hdone; congruence|]. intros Hi.
    destruct (IH _ _ _ _ Hi) as (a & t & Ht & Ha & Hr & Hw). exists a, t. by rewrite Hw, K5, K2, K1.
Qed.

(** Only writing changes what was written. *)
Abbreviation seen ch := (λ w, written w ch).

Lemma steady_of {A} (m : M W A) ch : driver_call m → (∀ w, written (m w).2 ch = written w ch) →
  steady (seen ch) m.
Proof. intros [Hs _] Hw. by split. Qed.

Lemma recv_ready_seen ch : steady (seen ch) (recv_ready ch).
Proof. apply steady_of; [apply recv_ready_calm|apply recv_ready_written]. Qed.
Lemma recv_seen ch n : steady (seen ch) (recv ch n).
Proof. apply steady_of; [apply recv_calm|apply recv_written]. Qed.
Lemma status_ready_seen ch : steady (seen ch) (exit_status_ready ch).
Proof. apply steady_of; [apply status_ready_calm|apply status_ready_written]. Qed.
Lemma exit_status_seen ch : steady (seen ch) (recv_exit_status ch).
Proof. apply steady_of; [apply exit_status_calm|apply exit_status_written]. Qed.
Lemma close_seen ch : steady (seen ch) (channel_close ch).
Proof. apply steady_of; [apply channel_close_calm|apply close_written]. Qed.
Lemma stderr_ready_seen ch : steady (seen ch) (recv_stderr_ready ch).
Proof. apply steady_of; [apply stderr_ready_calm|apply stderr_ready_written]. Qed.
Lemma recv_stderr_seen ch n : steady (seen ch) (recv_stderr ch n).
Proof. apply steady_of; [apply recv_stderr_calm|apply recv_stderr_written]. Qed.
Lemma sleeping_seen ch n : steady (seen ch) (writes (sleep n)).
Proof. split; [done|]. intros w. apply sleep_written. Qed.
#[local] Hint Resolve recv_ready_seen recv_seen status_ready_seen exit_status_seen close_seen
  stderr_ready_seen recv_stderr_seen sleeping_seen : linux_net.

(** Nothing, or an interrupt *)
Definition interrupted (v v' : list string) : Prop := v' = v ∨ v' = v ++ [control_c].

Lemma wp_interrupt ch (Q : res unit → list string → Prop) v :
  (∀ v', interrupted v v' → Q (Ok tt) v') →
  wp (seen ch) (try_except (stdin_write ch control_c ≫= λ _, writes (sleep (seconds 1))) (λ _, mret tt)) Q v.
Proof.
  intros HQ. apply wp_try, wp_bind. intros w Hw. pose proof (proj1 (stdin_write_calm ch control_c) w) as Ho.
  pose proof (write_written ch control_c w) as Hl. destruct (stdin_write ch control_c w) as [r w'].
  split; [done|]. simpl. destruct Hl as (l & Hl & Hor).
  assert (interrupted v (written w' ch)) as Hi.
  { rewrite Hl, Hw. destruct Hor as [->|[_ ->]]; [by right|left]. by rewrite app_nil_r. }
  destruct r as [u|e]; [|by apply wp_ret, HQ].
  apply wp_keep; [auto with linux_net|]. intros [[]|e]; [by apply HQ|by apply wp_ret, HQ].
Qed.

Lemma wp_finish ch out v :
  wp (seen ch) (finish_interactive ch out)
    (λ r v', interrupted v v' ∧ ∀ o e st, r = Ok (o, e, st) → ∃ t, o = out +:+ t) v.
Proof.
  assert (interrupted v v) as Hsame by by left.
  apply wp_bind, wp_keep; [auto with linux_net|]. intros [ready|e]; [|done].
  apply wp_bind. eapply (wp_mono _ (λ r v', v' = v ∧ ∀ o, r = Ok o → ∃ t, o = out +:+ t)).
  { destruct ready; [|apply wp_ret; split; [done|]; intros o [= <-]; exists ""; by rewrite string_app_nil].
    apply wp_bind, wp_keep; [auto with linux_net|]. intros [chunk|e]; [|done].
    apply wp_ret. split; [done|]. intros o [= <-]. by exists chunk. }
  intros [o|e] v' _ [-> Ho]; [|done]. destruct (Ho o eq_refl) as [t ->].
  apply wp_bind, wp_keep; [auto with linux_net|]. intros [fin|e]; [|done].
  apply wp_bind. eapply (wp_mono _ (λ r v', interrupted v v')).
  { destruct fin; cbn [negb]; [apply wp_keep; [auto with linux_net|done]|].
    apply wp_bind, wp_interrupt. intros v' Hv'. apply wp_bind, wp_keep; [auto with linux_net|].
    intros [fin'|e]; [|done]. destruct fin'; cbn [negb]; [apply wp_keep; [auto with linux_net|done]|].
    apply wp_bind, wp_keep; [auto with linux_net|]. intros [u|e]; [by apply wp_ret|done]. }
  intros [st|e] v' _ Hv'; [|done]. apply wp_bind, wp_keep; [auto with linux_net|]. intros [err|e]; [|done].
  apply wp_bind. eapply (wp_mono _ (λ r v'', v'' = v')).
  { destruct err; [apply wp_keep; [auto with linux_net|done]|by apply wp_ret]. }
  intros [x|e] v'' _ ->; [|done]. apply wp_ret. split; [done|]. intros o e st' [= <- _ _]. by exists t.
Qed.

(** C11. An interactive command always ends, in as many polls as its output and
    its timeout allow: a silence is never waited out for longer, and a hung
    command is interrupted and its channel closed.  What the driver has typed
    then is one answer, from the map, to each of some of the prompts the output
    shows, none twice, and after them at most an interrupt. *)
Theorem interactive_spec s cmd expect_map k w :
  let '(r, w') := _execute_interactive chunks s cmd expect_map k w in
  ordinary r ∧
  ∀ out err st, r = Ok (out, err, st) →
    ∃ ch w1 answered, exec_command (se_client s) cmd (force_pty k) w = (Ok ch, w1)
      ∧ answers_to expect_map answered out ∧ interrupted (answer <$> answered) (written w' ch).
Proof.
  pose proof (interactive_calm chunks s cmd expect_map k) as [Hs _]. specialize (Hs w).
  unfold _execute_interactive, mbind, M_bind in *.
  destruct (exec_command _ _ _ w) as [[ch|e] w1] eqn:E1; [|by split].
  destruct (interact _ ch expect_map _ "" 0 [] w1) as [[full|e] w2] eqn:E2; [|by split].
  apply interact_answers in E2 as (answered & t & -> & [Hnd Ha] & _ & Hw).
  rewrite (exec_written _ _ _ _ _ _ E1) in Hw. simpl in Hw.
  pose proof (wp_run _ _ w2 (wp_finish ch ("" +:+ t) (written w2 ch))) as Hf.
  destruct (finish_interactive ch _ w2) as [r w']. destruct Hf as (Ho & Hi & Hout). split; [done|].
  intros out err st ->. destruct (Hout _ _ _ eq_refl) as [t' ->]. exists ch, w1, answered. split; [done|].
  split; [|by rewrite <-Hw]. split; [done|]. intros pr Hpr. destruct (Ha pr Hpr). split; [done|]. by apply contains_app.
Qed.
End interactive.

(** ** Following a log *)

(** Text of bytes: output is decoded with errors replaced, one character a byte *)
Definition decoded (b : bytes) : string := String.string_of_list_ascii b.

Lemma decoded_app a b : decoded (a ++ b) = decoded a +:+ decoded b.
Proof. unfold decoded. induction a as [|x a IH]; [done|]. cbn. by rewrite IH. Qed.

(** The task may append to its log [f] at any moment, so a call ends with a log
    that is longer or the same. *)
Abbreviation log_at f w := (content (remote w f)).
Definition appends {W A} `{Disks W} (f : string) (m : M W A) : Prop :=
  safe m ∧ ∀ w, log_at f w `prefix_of` log_at f (m w).2.

(** A command prints of the log as it is at some moment between its start and
    the end of its output. *)
Definition prints {W} `{Disks W} (f cmd : string) (text : bytes → string) : Prop :=
  ∀ cl w ch w1 out w2, exec_command cl cmd no_kwargs w = (Ok ch, w1) → stdout_read ch w1 = (Ok out, w2) →
    ∃ log, log_at f w `prefix_of` log ∧ log `prefix_of` log_at f w2 ∧ out = text log.

(** What [stat], [cat] and [tail] print of [f] *)
Class LogLaws (W : Type) `{Disks W} (f : string) : Prop := {
  log_exec : ∀ cl cmd k, appends f (exec_command cl cmd k);
  log_stdout : ∀ ch, appends f (stdout_read ch);
  log_stderr : ∀ ch, appends f (stderr_read ch);
  log_status : ∀ ch, appends f (recv_exit_status ch);
  stat_prints : prints f (size_command f) (λ log, str_of_Z (len log) +:+ nl);
  cat_prints : prints f ("cat " +:+ f) decoded;
  tail_prints : ∀ n, (0 < n)%Z →
    prints f ("tail -c +" +:+ str_of_Z (n + 1) +:+ " " +:+ f +:+ " 2>/dev/null")
      (λ log, decoded (drop (Z.to_nat n) log));
}.

(** What a poll from [offset] shows: of the log [l2] it reads, what follows the
    offset; or all of it, when the log it measured before, [l1], is shorter *)
Definition shows (offset : Z) (l1 l2 : bytes) : bytes :=
  drop (Z.to_nat (if (len l1 <? offset)%Z then 0 else offset)) l2.

Section logs.
Context {W : Type} `{Disks W} `{!Transport W} `{!DriverState W} `{!Clock W}.
Context (chunks : nat) (repr : pyval → string) (f : string) `{!LogLaws W f}.
Abbreviation logged := (λ w : W, log_at f w).

(** A chain of growing logs *)
Local Ltac grown := solve [repeat first [eassumption | etrans; [eassumption|]]].

(** A call during which the log may grow *)
Lemma wp_appends {A} (m : M W A) (Q : res A → bytes → Prop) v :
  appends f m → (∀ r v', v `prefix_of` v' → Q r v') → wp logged m Q v.
Proof. intros [Hs Hg] HQ w <-. split; [apply Hs|]. apply HQ, Hg. Qed.

Lemma wp_printed d s cmd (text : bytes → string) (Q : res string → bytes → Prop) v :
  prints f cmd text →
  (∀ log v', v `prefix_of` log → log `prefix_of` v' → Q (Ok (text log)) v') →
  (∀ e v', v `prefix_of` v' → Q (Err e) v') → wp logged (run chunks d s cmd) Q v.
Proof.
  intros Hlaw HQ He. apply wp_bind, wp_bind, wp_reads. intros w0 _. apply wp_bind.
  apply (wp_mono _ (λ r v', v `prefix_of` v' ∧ ∀ o (e : string) (st : Z), r = Ok (o, e, st) →
    ∃ log, v `prefix_of` log ∧ log `prefix_of` v' ∧ o = text log)).
  2:{ intros [[[out err] st]|e] v' _ [Hv Ho]; [|by apply He].
      destruct (Ho out err st eq_refl) as (log & Hl & Hl' & ->).
      apply wp_bind, wp_bind, wp_reads. intros w1 _. apply wp_bind, wp_reads. intros w2 _.
      by apply wp_ret, wp_ret, wp_ret, HQ. }
  cbn [args_expect_map].
  assert (∀ (ch : Channel) (out : string) v1, wp logged
    (stderr ← stderr_read ch; st ← recv_exit_status ch; mret (out, stderr, st))
    (λ r v', v1 `prefix_of` v' ∧ ∀ o (e : string) (st : Z), r = Ok (o, e, st) → o = out) v1) as Htail.
  { intros ch out v1. apply wp_bind, wp_appends; [apply log_stderr|]. intros [err|e] v2 Hv2; [|by split].
    apply wp_bind, wp_appends; [apply log_status|]. intros [st|e] v3 Hv3; [|split; [by etrans|done]].
    apply wp_ret. split; [by etrans|]. by intros o e st' [= <- _ _]. }
  change (execute_plain s (command_line None cmd) (call_kwargs None) (password_of None)) with
    (ch ← exec_command (se_client s) cmd no_kwargs; out ← stdout_read ch;
     stderr ← stderr_read ch; st ← recv_exit_status ch; mret (out, stderr, st)).
  intros w <-. destruct (log_exec (se_client s) cmd no_kwargs) as [Ho Hv]. specialize (Ho w). specialize (Hv w).
  destruct (exec_command (se_client s) cmd no_kwargs w) as [[ch|e] w1] eqn:E1; simpl in Ho, Hv.
  2:{ rewrite (M_bind_err _ _ _ _ _ E1). split; [by apply ordinary_Err, Ho|]. by split. }
  rewrite (M_bind_ok _ _ _ _ _ E1). destruct (log_stdout ch) as [Ho' Hv']. specialize (Ho' w1). specialize (Hv' w1).
  destruct (stdout_read ch w1) as [[out|e] w2] eqn:E2; simpl in Ho', Hv'.
  2:{ rewrite (M_bind_err _ _ _ _ _ E2). split; [by apply ordinary_Err, Ho'|]. split; [by etrans|done]. }
  rewrite (M_bind_ok _ _ _ _ _ E2). destruct (Hlaw _ w ch w1 out w2 E1 E2) as (log & Hl & Hl' & Hout).
  destruct (Htail ch out (log_at f w2) w2 eq_refl) as [Hord [Hv2 Ht]]. split; [done|].
  split; [by etrans; [|etrans]|]. intros o e st E. rewrite (Ht o e st E). exists log. split; [done|]. split; [by etrans|done].
Qed.

Lemma wp_printed_any d s cmd (Q : res string → bytes → Prop) v :
  (∀ r v', v `prefix_of` v' → Q r v') → wp logged (run chunks d s cmd) Q v.
Proof.
  intros HQ. apply wp_bind, wp_bind, wp_reads. intros w0 _. apply wp_bind.
  cbn [args_expect_map]. unfold execute_plain. apply wp_bind, wp_appends; [apply log_exec|].
  intros [ch|e] v1 K1; [|by apply HQ]. apply wp_bind, wp_ret, wp_bind, wp_appends; [apply log_stdout|].
  intros [out|e] v2 K2; [|apply HQ; grown]. apply wp_bind, wp_appends; [apply log_stderr|].
  intros [err|e] v3 K3; [|apply HQ; grown]. apply wp_bind, wp_appends; [apply log_status|].
  intros [st|e] v4 K4; [|apply HQ; grown]. apply wp_ret, wp_bind, wp_bind, wp_reads. intros w1 _.
  apply wp_bind, wp_reads. intros w2 _. apply wp_ret, wp_ret, wp_ret, HQ. grown.
Qed.

Lemma wp_is_running d s task_id (Q : res (bool * option Z) → bytes → Prop) v :
  (∀ r v', v `prefix_of` v' → Q r v') → wp logged (_is_task_running chunks repr d s task_id) Q v.
Proof.
  intros HQ. apply wp_bind, wp_bind, wp_appends; [apply log_exec|]. intros [ch|e] v1 K1; [|by apply HQ].
  apply wp_bind, wp_appends; [apply log_stdout|]. intros [out|e] v2 K2; [|apply HQ; grown]. apply wp_ret.
  assert (v `prefix_of` v2) as Hv2 by by etrans.
  case_match; [|by apply wp_ret, HQ]. apply wp_bind, wp_of_res; [apply py_int_ordinary|].
  destruct (py_int _ _); [|by apply HQ]. apply wp_bind, wp_printed_any.
  intros [comm|e] v3 K3; [apply wp_ret|]; apply HQ; by etrans.
Qed.

Lemma wp_size d s (k : Z → M W (list DriverExecutionResult)) (Q : res (list DriverExecutionResult) → bytes → Prop) v :
  (∀ e v', v `prefix_of` v' → Q (Err e) v') →
  (∀ log v', v `prefix_of` log → log `prefix_of` v' → wp logged (k (len log)) Q v') →
  wp logged (out ← run chunks d s (size_command f); n ← of_res (parse_size out); k n) Q v.
Proof.
  intros He Hk. apply wp_bind, (wp_printed d s _ _ _ _ stat_prints); [|done].
  intros log v' Hl Hl'. apply wp_bind.
  assert (parse_size (str_of_Z (len log) +:+ nl) = Ok (len log)) as ->.
  { assert (0 ≤ len log)%Z as Hlen by (unfold len; lia). unfold parse_size. rewrite py_int_printed by done.
    destruct (str_of_Z_digits (len log) Hlen) as [Hd Hne]. rewrite strip_digits by auto.
    by destruct (String.eqb_spec (str_of_Z (len log)) ""). }
  apply wp_of_res; [done|]. by apply Hk.
Qed.

(** The answer of a poll: [l1], [l2] and [l3] are the log when it measures it,
    reads it and measures it again. *)
Definition poll_answer (task_id : pyval) (offset : Z) (v v' : bytes) (rs : list DriverExecutionResult) : Prop :=
  ∃ l1 l2 l3 running pid, v `prefix_of` l1 ∧ l1 `prefix_of` l2 ∧ l2 `prefix_of` l3 ∧ l3 `prefix_of` v'
    ∧ rs = [result_of "query" (decoded (shows offset l1 l2)) "" 0
              [("task_id", task_id); ("is_running", PBool running); ("pid", pid);
               ("next_offset", PInt (len l3)); ("completed", PBool (negb running))]].

Lemma read_logs_poll d s task_id offset w : file_of repr d task_id ".log" = f → (0 ≤ offset)%Z →
  let '(r, w') := _read_logs chunks repr d s task_id (PInt offset) w in
  ordinary r ∧ log_at f w `prefix_of` log_at f w'
  ∧ ∀ rs, r = Ok rs → poll_answer task_id offset (log_at f w) (log_at f w') rs.
Proof.
  intros Hf Hoff. set (v := log_at f w).
  set (Q := λ (r : res (list DriverExecutionResult)) v', v `prefix_of` v' ∧ ∀ rs, r = Ok rs → poll_answer task_id offset v v' rs).
  assert (∀ e v', v `prefix_of` v' → Q (Err e) v') as Herr by (intros; by split).
  apply (wp_run (_read_logs chunks repr d s task_id (PInt offset)) Q w). fold v.
  unfold _read_logs. rewrite Hf. apply wp_bind, wp_is_running. intros [[running pid]|e] v0 K0; [|by apply Herr].
  apply wp_size; [intros e v' Hv'; apply Herr; grown|]. intros l1 v1 Hl1 Hv1.
  apply wp_bind, wp_of_res; [done|]. cbn [as_number].
  assert ((len l1 * 1000000 <? offset * 1000000)%Z = (len l1 <? offset)%Z) as ->.
  { destruct (len l1 <? offset)%Z eqn:E; to_prop; [apply Z.ltb_lt|apply Z.ltb_ge]; lia. }
  assert (∀ o n, (0 ≤ o)%Z → n = (o * 1000000)%Z → (∀ l2, shows offset l1 l2 = drop (Z.to_nat o) l2) →
    wp logged
      (output ← run chunks d s (read_command repr f (PInt o) n);
       out ← run chunks d s (size_command f);
       size ← of_res (parse_size out);
       mret [result_of "query" output "" 0
         [("task_id", task_id); ("is_running", PBool running); ("pid", opt_int pid);
          ("next_offset", PInt size); ("completed", PBool (negb running))]]) Q v1) as Hread.
  { intros o n Ho -> Hs. apply wp_bind.
    apply (wp_printed d s _ (λ b, decoded (drop (Z.to_nat o) b))).
    - unfold read_command. destruct (0 <? o * 1000000)%Z eqn:E; to_prop.
      + apply (tail_prints o). lia.
      + assert (o = 0)%Z as -> by lia. exact cat_prints.
    - intros l2 v2 Hl2 Hv2. apply wp_size; [intros e v' Hv'; apply Herr; grown|].
      intros l3 v3 Hl3 Hv3. apply wp_ret. split; [grown|]. intros rs [= <-].
      exists l1, l2, l3, running, (opt_int pid). rewrite Hs. split_and!; [grown|grown|grown|done|done].
    - intros e v' Hv'. apply Herr. grown. }
  unfold shows in Hread. destruct (len l1 <? offset)%Z; by apply Hread.
Qed.

(** *** Poll after poll, each from the offset the last one answered with

    For every poll: what it showed, and what the task appended meanwhile. *)
Inductive follows (d : Driver) (s : Session) (task_id : pyval) : W → Z → list (string * bytes) → Prop :=
  | follows_start w : follows d s task_id w 0 []
  | follows_later w w' o l : follows d s task_id w o l → log_at f w `prefix_of` log_at f w' →
      follows d s task_id w' o l
  | follows_poll w w' o l r n text : follows d s task_id w o l →
      _read_logs chunks repr d s task_id (PInt o) w = (Ok [r], w') →
      dict_get "next_offset" (r_metadata r) = Some (PInt n) → r_stdout r = PStr text →
      follows d s task_id w' n (l ++ [(text, drop (length (log_at f w)) (log_at f w'))]).

(** [b] is a piece of [l]. *)
Definition piece (b l : bytes) : Prop := ∃ before after, l = before ++ b ++ after.

Fixpoint with_gaps (shown : list string) (gaps : list bytes) : string :=
  match shown, gaps with
  | t :: shown, g :: gaps => t +:+ decoded g +:+ with_gaps shown gaps
  | _, _ => ""
  end.

Lemma with_gaps_snoc shown gaps t g : length shown = length gaps →
  with_gaps (shown ++ [t]) (gaps ++ [g]) = with_gaps shown gaps +:+ t +:+ decoded g.
Proof.
  revert gaps. induction shown as [|t' shown IH]; intros [|g' gaps] Hl; try done; simpl.
  - by rewrite string_app_nil.
  - injection Hl as Hl. rewrite IH by done. by rewrite !string_app_assoc.
Qed.

(** The part of the log up to the next offset *)
Lemma follows_log d s task_id w o l : file_of repr d task_id ".log" = f → follows d s task_id w o l →
  ∃ seen gaps, seen `prefix_of` log_at f w ∧ len seen = o ∧ Forall2 piece gaps l.*2
    ∧ decoded seen = with_gaps l.*1 gaps.
Proof.
  intros Hf. induction 1 as [w|w w' o l _ (seen & gaps & Hs & Hlen & Hg & Ht) Hgrow
    |w w' o l r n text _ (seen & gaps & Hs & Hlen & Hg & Ht) Hr Hn Hout].
  - exists [], []. split_and!; [apply prefix_nil|done|constructor|done].
  - exists seen, gaps. split_and!; [by etrans|done..].
  - assert (0 ≤ o)%Z as Ho by (unfold len in Hlen; lia).
    pose proof (read_logs_poll d s task_id o w Hf Ho) as Hp. rewrite Hr in Hp.
    destruct Hp as (_ & _ & Hp). destruct (Hp _ eq_refl) as (l1 & l2 & l3 & running & pid & K1 & K2 & K3 & K4 & Ers).
    injection Ers as ->. cbn in Hn, Hout. injection Hn as <-. injection Hout as <-.
    destruct Hs as [rest Ew]. destruct K1 as [a1 ->]. destruct K2 as [a2 ->]. destruct K3 as [a3 ->]. destruct K4 as [a4 E4].
    exists (((log_at f w ++ a1) ++ a2) ++ a3), (gaps ++ [a3]). split_and!.
    + rewrite E4. by apply prefix_app_r.
    + done.
    + rewrite fmap_app. apply Forall2_app; [done|]. constructor; [|constructor].
      exists (a1 ++ a2), a4. rewrite E4, <-!(assoc (++)), drop_app_length. done.
    + rewrite fmap_app. cbn [fmap list_fmap fst]. rewrite with_gaps_snoc by (rewrite length_fmap; apply Forall2_length in Hg; by rewrite length_fmap in Hg).
      rewrite <-Ht, <-!decoded_app. f_equal. rewrite (assoc (++)). f_equal.
      unfold shows. assert ((len (log_at f w ++ a1) <? o)%Z = false) as ->.
      { apply Z.ltb_ge. rewrite <-Hlen, Ew. unfold len. rewrite !length_app. lia. }
      rewrite <-Hlen. unfold len. rewrite Nat2Z.id, Ew, <-!(assoc (++)), drop_app_length. done.
Qed.

End logs.
