(* ===== verification/ToyDevice.v ===== *)
(** * A concrete device

    One world in which the Paramiko driver runs: a device with one log file, a
    scripted dialogue and commands of which [fail] fails.  It keeps every law
    the theorems about the driver assume. *)

From Stdlib Require Import Ascii.
From S2P Require Import Prelude PyLib Models World Registry Manager Storage AuditLog Webhook Rpc Ssh Shell Transfer ParamikoModel Paramiko ParamikoExec ParamikoTasks ParamikoSafe ParamikoSpec.

Record device := mkDevice {
  v_base : Toy.world;
  v_log : bytes;
  v_chat : list string;
  v_written : list string;
  v_dead : list nat;
  v_next : nat;
  v_session : option (nat * option nat);
  v_args : option ParamikoConnectionArgs;
  v_times : list ((string * string * Z) * Z);
  v_event : option nat;
  v_thread : option nat;
  v_reused : bool;
}.

Definition set_base (b : Toy.world) (w : device) : device :=
  mkDevice b (v_log w) (v_chat w) (v_written w) (v_dead w) (v_next w) (v_session w) (v_args w) (v_times w)
    (v_event w) (v_thread w) (v_reused w).
Definition set_chat (l : list string) (w : device) : device :=
  mkDevice (v_base w) (v_log w) l (v_written w) (v_dead w) (v_next w) (v_session w) (v_args w) (v_times w)
    (v_event w) (v_thread w) (v_reused w).
Definition set_written (l : list string) (w : device) : device :=
  mkDevice (v_base w) (v_log w) (v_chat w) l (v_dead w) (v_next w) (v_session w) (v_args w) (v_times w)
    (v_event w) (v_thread w) (v_reused w).
Definition kill_client (c : nat) (w : device) : device :=
  mkDevice (v_base w) (v_log w) (v_chat w) (v_written w) (c :: v_dead w) (v_next w) (v_session w) (v_args w)
    (v_times w) (v_event w) (v_thread w) (v_reused w).
Definition bump (w : device) : device :=
  mkDevice (v_base w) (v_log w) (v_chat w) (v_written w) (v_dead w) (S (v_next w)) (v_session w) (v_args w)
    (v_times w) (v_event w) (v_thread w) (v_reused w).

(** Nothing kept, nothing said, at time [t], the log holding [log] *)
Definition fresh (t : Z) (log : string) (chat : list string) : device :=
  mkDevice (Toy.empty t []) (String.list_ascii_of_string log) chat [] [] 0 None None [] None None false.

(** The log file of task [t1] of the user [ops]; files hold 64 bytes at most. *)
Definition log_file : string := task_file "ops" "t1" ".log".
Definition quota : nat := 64.
Definition log_of (w : device) : bytes := take quota (v_log w).
Definition chat_of (w : device) : list string := take 8 (v_chat w).

Definition tail_text (n : Z) : string := "tail -c +" +:+ str_of_Z (n + 1) +:+ " " +:+ log_file +:+ " 2>/dev/null".

(** What a command prints *)
Definition output_of (cmd : string) (log : bytes) : string :=
  if String.eqb cmd (size_command log_file) then str_of_Z (len log) +:+ nl
  else if String.eqb cmd ("cat " +:+ log_file) then decoded log
  else match find (λ n, String.eqb cmd (tail_text n)) (Z.of_nat <$> seq 1 quota) with
       | Some n => decoded (drop (Z.to_nat n) log)
       | None => if String.eqb cmd "show version" then "v1" else ""
       end.

Definition refused : exn := OtherError "OSError" "Failure".

#[export, refine] Instance device_redis : Redis device :=
  {| hashes w := hashes (v_base w);
     hset k f v w := set_base (hset k f v (v_base w)) w;
     hdel k f w := set_base (hdel k f (v_base w)) w;
     hsetnx k f v w := let '(b, x) := hsetnx k f v (v_base w) in (b, set_base x w);
     hscan_iter k w := hscan_iter k (v_base w);
     rget k w := rget k (v_base w);
     set_nx_ex k v t w := let '(b, x) := set_nx_ex k v t (v_base w) in (b, set_base x w) |}.
Proof.
  - intros. apply (hset_hashes (W:=Toy.world)).
  - intros. apply (hdel_hashes (W:=Toy.world)).
  - intros k f v w. pose proof (hsetnx_result (W:=Toy.world) k f v (v_base w)) as E. by destruct (hsetnx k f v (v_base w)).
  - intros k f v w k'. pose proof (hsetnx_hashes (W:=Toy.world) k f v (v_base w) k') as E. by destruct (hsetnx k f v (v_base w)).
  - intros. apply (hscan_elem (W:=Toy.world)).
  - intros k v t w k'. pose proof (set_nx_hashes (W:=Toy.world) k v t (v_base w) k') as E. by destruct (set_nx_ex k v t (v_base w)).
Defined.

#[export, refine] Instance device_clock : Clock device :=
  {| now w := now (v_base w); sleep d w := set_base (sleep d (v_base w)) w |}.
Proof. intros d w Hd. exact (now_sleep (W:=Toy.world) d (v_base w) Hd). Defined.

#[export] Instance device_ssh : Ssh device :=
  {| Client := nat; Channel := string;
     exec_command _ cmd _ w := (Ok cmd, set_written [] w);
     stdin_write _ t w := (Ok tt, set_written (v_written w ++ [t]) w); stdin_close _ w := (Ok tt, w);
     stdout_read ch w := (Ok (output_of ch (log_of w)), w); stderr_read ch w := (Ok "", w);
     recv_exit_status ch w := (Ok (if String.eqb ch "fail" then 2 else 0)%Z, w);
     exit_status_ready _ w := (Ok (bool_decide (chat_of w = [])), w);
     recv_ready _ w := (Ok (bool_decide (chat_of w ≠ [])), w);
     recv _ _ w := (Ok (default "" (head (chat_of w))), set_chat (tail (chat_of w)) w);
     recv_stderr_ready _ w := (Ok false, w); recv_stderr _ _ w := (Ok "", w);
     channel_close _ w := (Ok tt, w) |}.

#[export] Instance device_disks : Disks device :=
  {| Sftp := unit; local _ _ := None;
     remote w p := if String.eqb p log_file then Some (File (log_of w)) else None;
     md5_hex := ToyDisks.digest;
     os_makedirs _ w := (Err refused, w); os_walk _ _ := []; getsize _ w := (Err refused, w);
     open_rb _ w := (Err refused, w); read_local _ _ _ w := (Err refused, w);
     open_local _ _ w := (Err refused, w); write_local _ _ w := (Err refused, w); close_local _ w := (Ok tt, w);
     open_sftp _ w := (Ok tt, w); sftp_close _ w := (Ok tt, w); sftp_stat _ _ w := (Err refused, w);
     sftp_listdir_attr _ _ w := (Err refused, w); sftp_mkdir _ _ w := (Err refused, w);
     sftp_chmod _ _ _ w := (Ok tt, w); open_remote_rb _ _ w := (Err refused, w);
     read_remote _ _ _ _ w := (Err refused, w); open_remote _ _ _ w := (Err refused, w);
     write_remote _ _ _ w := (Err refused, w); close_remote _ _ w := (Ok tt, w) |}.

#[export] Instance device_transport : Transport device :=
  {| PKey := string; Sock := unit; Thread := nat; Event := nat;
     rsa_key k _ := if String.eqb k "rsa" then Ok k else Err (OtherError "SSHException" "not a valid RSA private key file");
     ed25519_key k _ := Err (OtherError "SSHException" "unpack requires 4 bytes");
     ssh_connect _ _ w := (Ok (v_next w), bump w);
     open_channel _ _ _ w := (Ok tt, w);
     is_active c w := negb (bool_decide (c ∈ v_dead w));
     remote_version _ _ := Some "SSH-2.0-Toy";
     client_close c w := (Ok tt, kill_client c w);
     send_ignore _ w := (Ok tt, w);
     event_new w := (v_next w, bump w); event_set _ w := w; event_is_set _ _ := false; event_wait _ _ w := (false, w);
     thread_start w := (Ok (v_next w), bump w); is_alive _ _ := true; thread_join _ _ w := (Ok tt, w) |}.

Definition pair_of (s : Session (W:=device)) : nat * option nat := (se_client s, se_proxy s).
Definition session_of (x : nat * option nat) : Session (W:=device) := mkSession x.1 x.2.

#[export] Instance device_state : DriverState device :=
  {| pstate w := mkPState (session_of <$> v_session w) (v_args w) (v_times w) (v_event w) (v_thread w) (v_reused w);
     set_pstate p w := mkDevice (v_base w) (v_log w) (v_chat w) (v_written w) (v_dead w) (v_next w)
       (pair_of <$> persisted_session p) (persisted_conn_args p) (last_cleanup_times p) (monitor_stop_event p)
       (monitor_thread p) (session_reused p) |}.

#[export] Instance device_chat : Chat device := {| pending w _ := length (chat_of w) |}.
#[export] Instance device_written : Written device := {| written w _ := v_written w |}.

(** ** The laws *)
Lemma refused_ordinary {A} : ordinary (@Err A refused).
Proof. by apply ordinary_Err. Qed.
#[local] Hint Resolve refused_ordinary : linux_net.

(** A call that answers without looking, or not at all *)
Ltac device_call := intros; split; intros w; simpl; auto with linux_net.

#[export] Instance device_disk_laws : DiskLaws device.
Proof.
  split; try (device_call; fail); try (intros; discriminate).
  - intros c p w ch w1 out w2 _ [= <- <-] [= <- _]. by left.
  - intros b. split; [done|]. exact (ToyDisks.hex_no_space b).
  - intros s d w. simpl. split; [done|]. by split; [apply refused_ordinary|].
  - intros s p app w. simpl. split; [done|]. split; [apply refused_ordinary|]. by right.
  - intros s p b w. simpl. split; [done|]. split; [apply refused_ordinary|]. intros Hf. exists 0. split; [|done].
    split; [|done]. rewrite take_0, app_nil_r. by case_match.
  - intros p app w. simpl. split; [done|]. split; [apply refused_ordinary|]. by right.
  - intros p b w. simpl. split; [done|]. by split; [apply refused_ordinary|].
Qed.

(** While the device answers, nobody touches Redis. *)
#[export] Instance device_others : Others device :=
  {| others w w' := ∀ k, hashes w' k = hashes w k; others_order := same_hashes_order |}.
#[export] Instance device_others_laws : OthersLaws device.
Proof. intros w w' Ho. apply (registry_same w w' (Ho KEY)). Qed.

#[export] Instance device_channel_calls : ChannelCalls device.
Proof. by split; device_call. Qed.
#[export] Instance device_disk_calls : DiskCalls device.
Proof. by split; device_call. Qed.
#[export] Instance device_transport_calls : TransportCalls device.
Proof. by split; [device_call..| |]. Qed.
#[export] Instance device_state_calls : StateCalls device.
Proof. by split. Qed.
#[export] Instance device_key_laws : KeyLaws device.
Proof. split; intros k x; simpl; [case_match; [done|]|]; by apply ordinary_Err. Qed.
#[export] Instance device_session_laws : SessionLaws device.
Proof.
  split; try (device_call; fail); try done.
  intros [[[]|] ? ? ? ? ?] w; done.
Qed.

Lemma chat_length w : length (chat_of w) ≤ 8.
Proof. unfold chat_of. rewrite length_take. lia. Qed.

#[export] Instance device_chat_laws : ChatLaws device 8.
Proof.
  split; simpl; try done; [intros; apply chat_length|].
  intros ch n w w1 [= Hne <-]. apply bool_decide_eq_true in Hne.
  change (length (take 8 (tail (chat_of w))) < length (chat_of w)).
  destruct (chat_of w) as [|c l]; [done|]. cbn [tail length]. rewrite length_take. lia.
Qed.

#[export] Instance device_size_laws depth : SizeLaws device (S quota) depth.
Proof.
  split; [unfold quota; lia|done| |done|done].
  intros w p b. simpl. case_match; [|done]. intros [= <-]. unfold log_of. rewrite length_take. lia.
Qed.

#[export] Instance device_written_laws : WrittenLaws device.
Proof.
  split; simpl; try done; [by intros cl cmd k w ch w' [= _ <-]|].
  intros ch t w. exists [t]. auto.
Qed.

(** *** The log file *)
Lemma append_inj_r a b s : a +:+ s = b +:+ s → a = b.
Proof.
  revert b. induction a as [|x a IH]; intros [|y b] E; [done|exfalso..|].
  1,2: apply (f_equal String.length) in E; cbn [String.length String.append] in E; rewrite ?length_app_string in E;
    cbn [String.length] in E; rewrite ?length_app_string in E; lia.
  injection E as -> E. f_equal. by apply IH.
Qed.

Lemma tail_text_inj n m : (0 ≤ n)%Z → (0 ≤ m)%Z → tail_text n = tail_text m → n = m.
Proof.
  unfold tail_text. intros Hn Hm E. apply (inj (String.append _)), append_inj_r in E.
  pose proof (py_int_printed (n + 1) ltac:(lia)) as H1. rewrite E, py_int_printed in H1 by lia.
  injection H1 as H1. lia.
Qed.

Lemma tail_prints_rest n log : (0 < n)%Z → length log ≤ quota →
  output_of (tail_text n) log = decoded (drop (Z.to_nat n) log).
Proof.
  intros Hn Hl. unfold output_of.
  change (String.eqb (tail_text n) (size_command log_file)) with false.
  change (String.eqb (tail_text n) ("cat " +:+ log_file)) with false.
  change (String.eqb (tail_text n) "show version") with false. cbn iota.
  destruct (find _ _) as [m|] eqn:Ef.
  - apply find_some in Ef as [Hm E]. apply String.eqb_eq, tail_text_inj in E as ->; [done|lia|].
    apply list_elem_of_In, list_elem_of_fmap in Hm as (k & -> & _). lia.
  - rewrite drop_ge; [done|]. destruct (decide (Z.to_nat n ≤ quota)) as [Hq|]; [|lia].
    apply (find_none _ _) with (x := n) in Ef; [by rewrite String.eqb_refl in Ef|].
    apply list_elem_of_In, list_elem_of_fmap. exists (Z.to_nat n). split; [lia|]. apply elem_of_seq. lia.
Qed.

#[export] Instance device_log_laws : LogLaws device log_file.
Proof.
  split; try (device_call; fail); [| |intros n Hn]; intros cl w ch w1 out w2 E1 E2; exists (log_of w);
    simplify_eq/=; change (String.eqb log_file log_file) with true; cbn [content]; (split; [done|]; split; [done|]).
  - done.
  - done.
  - apply tail_prints_rest; [done|]. unfold log_of. rewrite length_take. lia.
Qed.

(** ** The theorems, on the device *)
Definition conn_args (host username : string) (keepalive : option Z) : ParamikoConnectionArgs :=
  mkParamikoConnectionArgs host username (Some "secret") None None None 22 30 auto_add true false false None None
    keepalive None 22 None None None None None.

Definition driver (host username : string) (keepalive : option Z) : Driver :=
  mkDriver None (conn_args host username keepalive) None "job" None.
Definition ops : Driver := driver "h" "ops" (Some 30%Z).

Definition client : Session (W:=device) := session_of (0, None).

Definition repr (v : pyval) : string := py_type v.


(** A session is kept, found again by the next request, and dropped when it is
    reset. *)
Definition kept_world : device := (connect ops (fresh 0 "" [])).2.

Lemma session_spec_witness :
  session_inv (pstate kept_world)
  ∧ (connect ops kept_world).1 = Ok client
  ∧ session_reused (pstate (connect ops kept_world).2) = true.
Proof.
  destruct (session_spec kept_world) as (Hinv & Hconnect & _).
  { apply history_connect, history_start. by split. }
  split; [exact Hinv|]. specialize (Hconnect ops).
  assert (reusable (d_conn_args ops) kept_world = Some client) as Hr by (vm_compute; reflexivity).
  destruct (connect ops kept_world) as [r w']. rewrite Hr in Hconnect. destruct Hconnect as [-> ->].
  split; vm_compute; reflexivity.
Defined.

(** The line that fails is the last to run. *)
Definition stop_args : Args := ConfigArgs (mkSendConfigArgs None false false None None true None None).
Definition configurer : Driver := mkDriver (Some stop_args) (conn_args "h" "ops" None) None "job" None.
Definition config_run : res (list DriverExecutionResult) * device :=
  config configurer client ["show version"; "fail"; "show version"] (fresh 0 "" []).

Lemma config_spec_witness : ∃ m,
  config_run.1 = Ok [mkResult (join nl ["show version"; "fail"; "show version"]) (PStr (join nl ["v1"; ""])) "" 2 None m PNone].
Proof.
  pose proof (config_spec configurer client ["show version"; "fail"; "show version"] (fresh 0 "" []) eq_refl ltac:(discriminate)) as Hs.
  fold config_run in Hs. destruct config_run as [r w']. destruct Hs as (k & Hk & Hs). simpl in Hk.
  destruct k as [|[|[|[|k]]]]; [| | | |lia]; vm_compute in Hs; destruct Hs as (_ & m & -> & Hstop).
  - by destruct Hstop as (_ & _ & ?).
  - by destruct Hstop as (_ & _ & ?).
  - by exists m.
  - by specialize (Hstop eq_refl).
Defined.

(** A prompt is answered once, though the output shows it again. *)
Definition dialogue : res (string * string * Z) * device :=
  _execute_interactive 8 client "install" [("[Y/n]", "y")] no_kwargs
    (fresh 0 "" ["Proceed? [Y/n] "; "Really? [Y/n] "; "done"]).

Lemma interactive_spec_witness :
  dialogue.1 = Ok ("Proceed? [Y/n] Really? [Y/n] done", "", 0%Z) ∧ v_written dialogue.2 = ["y" +:+ nl]
  ∧ ∃ answered, answers_to [("[Y/n]", "y")] answered "Proceed? [Y/n] Really? [Y/n] done".
Proof.
  assert (dialogue.1 = Ok ("Proceed? [Y/n] Really? [Y/n] done", "", 0%Z)) as Hok by (vm_compute; reflexivity).
  split; [exact Hok|]. split; [vm_compute; reflexivity|].
  pose proof (interactive_spec 8 client "install" [("[Y/n]", "y")] no_kwargs
    (fresh 0 "" ["Proceed? [Y/n] "; "Really? [Y/n] "; "done"])) as Hs.
  fold dialogue in Hs. destruct dialogue as [r w']. simpl in Hok. subst r.
  destruct Hs as [_ Hs]. destruct (Hs _ _ _ eq_refl) as (ch & w1 & answered & _ & Ha & _). by exists answered.
Defined.

Definition logging : device := fresh 0 "hello world" [].
Definition poll : res (list DriverExecutionResult) * device :=
  _read_logs 8 repr ops client (PStr "t1") (PInt 0) logging.


(** Finding: a request of another user to the same host gets the session of the
    first. *)
Lemma session_of_another_user :
  (connect (driver "h" "guest" (Some 30%Z)) kept_world).1 = Ok client
  ∧ pc_username <$> persisted_conn_args (pstate (connect (driver "h" "guest" (Some 30%Z)) kept_world).2) = Some "ops".
Proof. split; vm_compute; reflexivity. Qed.

(** Finding: a request that asks for no keepalive gets the kept session too, and
    closes it when it is done, while it stays kept. *)
Lemma kept_session_closed :
  let once := driver "h" "ops" None in
  let w := (disconnect once client false (connect once kept_world).2).2 in
  v_dead w = [0] ∧ persisted_session (pstate w) = Some client.
Proof. split; vm_compute; reflexivity. Qed.
