(* ===== verification/Vault.v ===== *)
(** * Credentials from Vault

    The credential provider of
    [linux_net/plugins/credentials/vault_kv/__init__.py]: its configuration, the
    paths it may read, the two caches in front of Vault (the process's own and
    Redis), and the fields of a secret that become connection arguments. *)

From Stdlib Require Import Ascii.
From S2P Require Import Prelude PyLib Models World ParamikoModel.

(** ** What the provider calls

    [hvac], Redis and the environment.  A read is of a namespace, a mount, a
    path and a version. *)
Definition params : Type := option string * string * string * option Z.
Definition secret : Type := pyval.

Class Vault (W : Type) := {
  VaultClient : Type;
  hvac_client : string → option string → option string → pyval → M W VaultClient;
  is_authenticated : VaultClient → M W bool;
  approle_login : VaultClient → string → string → M W unit;
  read_secret_version : VaultClient → string → string → option Z → M W (list (string * pyval));
  redis_get : string → M W (option string);
  redis_setex : string → Z → string → M W unit;
  getenv : string → W → option string;
  (** The class attribute [_cache]: expiry and data of a read *)
  l1_cache : W → list (params * (Z * secret));
  set_l1_cache : list (params * (Z * secret)) → W → W;
}.

(** ** Configuration *)
Record VaultKvConfig := mkVaultKvConfig {
  vk_addr : option string;
  vk_token : option string;
  vk_role_id : option string;
  vk_secret_id : option string;
  vk_namespace : option string;
  vk_verify : pyval;
  vk_allowed_paths : list string;
  vk_cache_ttl : Z;
}.

Definition normalize_path (v : pyval) : res (option string) :=
  if negb (truthy v) then Ok None
  else match v with
       | PStr s => Ok (if String.eqb (strip s) "" then None else Some (strip_char "/"%char (strip s)))
       | v => Err (OtherError "AttributeError" ("'" +:+ py_type v +:+ "' object has no attribute 'strip'"))
       end.

Definition _normalize_allowed_paths (value : pyval) : res (list string) :=
  let normalize l := match mapR normalize_path l with
                     | Ok r => Ok (omap (λ o, o) r)
                     | Err e => Err e
                     end in
  match value with
  | PNone => Ok []
  | PStr s => normalize (PStr <$> split_char ","%char s)
  | PList l => normalize l
  | PDict d => normalize ((λ kv : string * pyval, PStr kv.1) <$> d)
  | v => Err (TypeError ("'" +:+ py_type v +:+ "' object is not iterable"))
  end.

Definition config_fields : list string :=
  ["addr"; "token"; "role_id"; "secret_id"; "namespace"; "verify"; "allowed_paths"; "cache_ttl"].
Definition no_extra (fields : list string) (d : list (string * pyval)) : bool :=
  forallb (λ kv, bool_decide (kv.1 ∈ fields)) d.

Definition _validate_core (c : VaultKvConfig) : res VaultKvConfig :=
  if negb (is_some (vk_addr c)) then
    Err (ValidationError "Vault address 'addr' must be configured (or set via VAULT_ADDR)")
  else if negb (str_truthy (vk_token c)) && negb (str_truthy (vk_role_id c) && str_truthy (vk_secret_id c)) then
    Err (ValidationError "Vault auth requires token or AppRole (role_id + secret_id)")
  else Ok c.

(** [VaultKvConfig.model_validate(d)]; [http_url] is [str(HttpUrl(s))]. *)
Definition VaultKvConfig_validate (http_url : string → option string) (d : list (string * pyval))
    : res VaultKvConfig :=
  if negb (no_extra config_fields d) then Err (ValidationError "extra fields not permitted") else
  addr ← match dict_get "addr" d with
         | None | Some PNone => Ok None
         | Some (PStr s) => match http_url s with Some u => Ok (Some u) | None => Err (ValidationError "addr") end
         | Some _ => Err (ValidationError "addr")
         end;
  token ← field_str "token" d;
  role_id ← field_str "role_id" d;
  secret_id ← field_str "secret_id" d;
  namespace ← field_str "namespace" d;
  verify ← match dict_get "verify" d with
           | None => Ok (PBool true)
           | Some (PBool b) => Ok (PBool b)
           | Some (PStr s) => Ok (PStr s)
           | Some _ => Err (ValidationError "verify")
           end;
  allowed_paths ← match dict_get "allowed_paths" d with
                  | None => Ok []
                  | Some v => _normalize_allowed_paths v
                  end;
  cache_ttl ← field_or "cache_ttl" 30%Z as_int d;
  if negb ((0 <=? cache_ttl)%Z && (cache_ttl <=? 3600)%Z) then Err (ValidationError "cache_ttl")
  else _validate_core (mkVaultKvConfig addr token role_id secret_id namespace verify allowed_paths cache_ttl).

(** A variable that fills a key the configuration does not give *)
Definition from_env {W} `{Vault W} (key var : string) (w : W) (d : list (string * pyval)) : list (string * pyval) :=
  if negb (dict_has key d) && str_truthy (getenv var w) then dict_set key (opt_str (getenv var w)) d else d.

(** [plugin_cfg] is [model_dump(exclude={"enabled", "name"}, exclude_none=True)]
    of the server's section. *)
Definition _load_client_config {W} `{Vault W} (http_url : string → option string)
    (plugin_cfg : list (string * pyval)) (w : W) : res VaultKvConfig :=
  VaultKvConfig_validate http_url
    (from_env "secret_id" "LINUX_NET_VAULT_SECRET_ID" w
      (from_env "role_id" "LINUX_NET_VAULT_ROLE_ID" w
        (from_env "token" "LINUX_NET_VAULT_TOKEN" w plugin_cfg))).

(** ** The reference of a request *)
Definition DEFAULT_FIELD_MAPPING : list (string * string) := [("username", "username"); ("password", "password")].
Definition OPTIONAL_FIELD_MAPPING : list (string * string) := [("pkey", "pkey")].

Record VaultCredentialSettings := mkSettings {
  vs_ref : string;
  vs_mount : string;
  vs_version : option Z;
  vs_namespace : option string;
  vs_field_mapping : list (string * string);
}.

(** [ref.model_dump(exclude={"name"}, exclude_none=True)] *)
Definition CredentialRef_dump (r : CredentialRef) : list (string * pyval) :=
  let given {A} (k : string) (f : A → pyval) (o : option A) :=
    match o with Some a => [(k, f a)] | None => [] end in
  [("ref", PStr (cr_ref r))] ++ given "mount" PStr (cr_mount r) ++ given "version" PInt (cr_version r)
  ++ given "field_mapping" (λ m, PDict ((λ kv, (kv.1, PStr kv.2)) <$> m)) (cr_field_mapping r)
  ++ given "namespace" PStr (cr_namespace r).

Definition _validate_mapping (m : list (string * string)) : res (list (string * string)) :=
  if forallb (λ kv, negb (String.eqb kv.1 "") && negb (String.eqb kv.2 "")) m then Ok m
  else Err (ValidationError "field_mapping keys and values must be non-empty strings").

Definition _ensure_mapping (s : VaultCredentialSettings) : VaultCredentialSettings :=
  match vs_field_mapping s with
  | [] => mkSettings (vs_ref s) (vs_mount s) (vs_version s) (vs_namespace s) DEFAULT_FIELD_MAPPING
  | _ => s
  end.

Definition VaultCredentialSettings_validate (d : list (string * pyval)) : res VaultCredentialSettings :=
  if negb (no_extra ["ref"; "mount"; "version"; "namespace"; "field_mapping"] d)
  then Err (ValidationError "extra fields not permitted") else
  ref ← match dict_get "ref" d with Some (PStr s) => Ok s | _ => Err (ValidationError "ref") end;
  mount ← field_or "mount" "kv" as_str d;
  version ← field_or "version" None (as_opt as_int) d;
  namespace ← field_str "namespace" d;
  field_mapping ← match dict_get "field_mapping" d with
                  | None => Ok []
                  | Some (PDict e) => match str_pairs_of e with
                                      | Some m => _validate_mapping m
                                      | None => Err (ValidationError "field_mapping")
                                      end
                  | Some _ => Err (ValidationError "field_mapping")
                  end;
  if negb (from_option (λ v, (1 <=? v)%Z) true version) then Err (ValidationError "version")
  else Ok (_ensure_mapping (mkSettings ref mount version namespace field_mapping)).

Section provider.
Context {W : Type} `{Json} `{Vault W} `{!Clock W}.

Record VaultKvCredentialProvider := mkProvider {
  vp_cfg : VaultCredentialSettings;
  vp_client_cfg : VaultKvConfig;
  vp_client : VaultClient;
}.

Definition namespace_of (cfg : VaultCredentialSettings) (client_cfg : VaultKvConfig) : option string :=
  if str_truthy (vs_namespace cfg) then vs_namespace cfg else vk_namespace client_cfg.

Definition full_path (cfg : VaultCredentialSettings) : string :=
  strip_char "/"%char (vs_mount cfg) +:+ "/" +:+ strip_char "/"%char (vs_ref cfg).

Definition _assert_allowed_path (cfg : VaultCredentialSettings) (client_cfg : VaultKvConfig) : res unit :=
  match vk_allowed_paths client_cfg with
  | [] => Ok tt
  | prefixes =>
      if any (startswith (full_path cfg)) prefixes then Ok tt
      else Err (ValueError ("Access to Vault path '" +:+ full_path cfg +:+ "' is not allowed by policy"))
  end.

Definition _build_client (cfg : VaultCredentialSettings) (client_cfg : VaultKvConfig) : M W VaultClient :=
  client ← hvac_client (default "" (vk_addr client_cfg)) (vk_token client_cfg)
             (namespace_of cfg client_cfg) (vk_verify client_cfg);
  ok ← is_authenticated client;
  (if negb ok && str_truthy (vk_role_id client_cfg) && str_truthy (vk_secret_id client_cfg)
   then approle_login client (default "" (vk_role_id client_cfg)) (default "" (vk_secret_id client_cfg))
   else mret tt) ≫= λ _,
  ok ← is_authenticated client;
  if negb ok then raise (ValueError "Vault authentication failed (token or AppRole not accepted)")
  else mret client.

(** [VaultKvCredentialProvider(cfg, client_cfg)] *)
Definition new_provider (cfg : VaultCredentialSettings) (client_cfg : VaultKvConfig) : M W VaultKvCredentialProvider :=
  of_res (_assert_allowed_path cfg client_cfg) ≫= λ _,
  client ← _build_client cfg client_cfg;
  mret (mkProvider cfg client_cfg client).

Definition from_credential_ref (hvac_installed : bool) (http_url : string → option string)
    (ref : CredentialRef) (plugin_cfg : list (string * pyval)) : M W VaultKvCredentialProvider :=
  if negb hvac_installed then
    raise (OtherError "ImportError"
      "hvac is required for vault_kv credential provider. Install with `pip install hvac`.")
  else
    cfg ← of_res (match VaultCredentialSettings_validate (CredentialRef_dump ref) with
                  | Ok cfg => Ok cfg
                  | Err e => Err (ValueError ("Invalid vault_kv credential reference: " +:+ exn_str e))
                  end);
    client_cfg ← (λ w, (_load_client_config http_url plugin_cfg w, w));
    new_provider cfg client_cfg.

(** ** Reading a secret *)
Definition L1_CACHE_TTL : Z := seconds 10.

Definition params_of (v : VaultKvCredentialProvider) : params :=
  (namespace_of (vp_cfg v) (vp_client_cfg v), vs_mount (vp_cfg v), vs_ref (vp_cfg v), vs_version (vp_cfg v)).

(** [self.namespace or "default"] and [self.cfg.version or "latest"] *)
Definition redis_key (p : params) : string :=
  let '(namespace, mount, ref, version) := p in
  let ns := if str_truthy namespace then default "" namespace else "default" in
  let ver := if int_truthy version then str_of_Z (default 0%Z version) else "latest" in
  "linux_net:cache:vault:" +:+ ns +:+ ":" +:+ mount +:+ ":" +:+ ref +:+ ":" +:+ ver.

(** [self._cache[params] = (time.time() + self.L1_CACHE_TTL, data)] *)
Definition fill_l1 (p : params) (data : secret) : M W unit :=
  writes (λ w, set_l1_cache (dict_set p (now w + L1_CACHE_TTL, data)%Z (l1_cache w)) w).

(** "L2 Cache Check": an entry that cannot be read counts as absent. *)
Definition read_l2 (p : params) : M W (option secret) :=
  try_except
    (cached_l2 ← redis_get (redis_key p);
     if str_truthy cached_l2 then
       data ← of_res (loads (default "" cached_l2));
       fill_l1 p data ≫= λ _, mret (Some data)
     else mret None)
    (λ _, mret None).

Definition secret_path (v : VaultKvCredentialProvider) : string :=
  vs_mount (vp_cfg v) +:+ "/" +:+ vs_ref (vp_cfg v).

(** The text of the error a failed read becomes *)
Definition read_error (v : VaultKvCredentialProvider) (e : exn) : string :=
  match e with
  | OtherError "InvalidPath" _ => "Secret not found at Vault path: " +:+ secret_path v
  | OtherError "Forbidden" _ => "Vault token lacks permission to read path: " +:+ secret_path v
  | e => "Failed to read secret from Vault: " +:+ exn_str e
  end.

(** [response.get("data", {}).get("data", {})] *)
Definition payload_of (response : list (string * pyval)) : res pyval :=
  match dict_get_or "data" (PDict []) response with
  | PDict d => Ok (dict_get_or "data" (PDict []) d)
  | v => Err (OtherError "AttributeError" ("'" +:+ py_type v +:+ "' object has no attribute 'get'"))
  end.

(** "Direct Fetch from Vault" *)
Definition fetch (v : VaultKvCredentialProvider) : M W secret :=
  response ← try_except
    (read_secret_version (vp_client v) (vs_mount (vp_cfg v)) (vs_ref (vp_cfg v)) (vs_version (vp_cfg v)))
    (λ e, raise (ValueError (read_error v e)));
  data ← of_res (payload_of response);
  match data with
  | PDict (_ :: _) => mret data
  | _ => raise (ValueError "Secret payload is empty or invalid")
  end.

Definition _read_secret (v : VaultKvCredentialProvider) : M W secret :=
  let p := params_of v in
  let cache_ttl := vk_cache_ttl (vp_client_cfg v) in
  cached_l1 ← reads (λ w, if (0 <? cache_ttl)%Z then dict_get p (l1_cache w) else None);
  t ← reads now;
  let fresh := match cached_l1 with
               | Some (expiry, data) => if (t <? expiry)%Z then Some data else None
               | None => None
               end in
  match fresh with
  | Some data => mret data
  | None =>
      cached ← (if (0 <? cache_ttl)%Z then read_l2 p else mret None);
      match cached with
      | Some data => mret data
      | None =>
          data ← fetch v;
          (if (0 <? cache_ttl)%Z then
             fill_l1 p data ≫= λ _,
             try_except (redis_setex (redis_key p) cache_ttl (dumps data)) (λ _, mret tt)
           else mret tt) ≫= λ _,
          mret data
      end
  end.

(** ** From a secret to connection arguments *)

(** [secret.get(source)], when [source in secret] and it is not [None] *)
Definition secret_field (data : secret) (source : string) : res (option pyval) :=
  let no_get := Err (OtherError "AttributeError" ("'" +:+ py_type data +:+ "' object has no attribute 'get'")) in
  match data with
  | PDict d => Ok (match dict_get source d with Some PNone | None => None | Some x => Some x end)
  | PList l => if bool_decide (PStr source ∈ l) then no_get else Ok None
  | PStr s => if contains s source then no_get else Ok None
  | x => Err (TypeError ("argument of type '" +:+ py_type x +:+ "' is not iterable"))
  end.

(** The fields a mapping finds, and the sources it misses *)
Fixpoint map_fields (data : secret) (mapping : list (string * string)) (updates : list (string * pyval))
    (missing : list string) : res (list (string * pyval) * list string) :=
  match mapping with
  | [] => Ok (updates, missing)
  | (dest, source) :: mapping =>
      x ← secret_field data source;
      match x with
      | Some x => map_fields data mapping (dict_set dest x updates) missing
      | None => map_fields data mapping updates (missing ++ [source])
      end
  end.

(** [self.cfg.field_mapping == DEFAULT_FIELD_MAPPING], whatever the order *)
Definition is_default (mapping : list (string * string)) : bool :=
  bool_decide (length mapping = length DEFAULT_FIELD_MAPPING)
  && forallb (λ kv, bool_decide (dict_get kv.1 mapping = Some kv.2)) DEFAULT_FIELD_MAPPING.

Definition _extract_updates (mapping : list (string * string)) (data : secret) : res (list (string * pyval)) :=
  '(updates, missing) ← map_fields data mapping [] [];
  match missing with
  | [] =>
      if is_default mapping
      then r ← map_fields data OPTIONAL_FIELD_MAPPING updates []; Ok r.1
      else Ok updates
  | _ => Err (ValueError ("Missing required secret fields: " +:+ join ", " missing))
  end.

Definition texty (v : pyval) : bool := match v with PStr _ | PNone => true | _ => false end.

(** [conn_args.model_copy(update=updates, deep=True)].  Nothing is validated: a
    declared field takes any value, which stays with the extra ones when it is no
    text (its [str] is the component of the record). *)
Definition conn_args_copy (repr : pyval → string) (a : DriverConnectionArgs) (updates : list (string * pyval))
    : DriverConnectionArgs :=
  let text k old := match dict_get k updates with
                    | None => old
                    | Some PNone => None
                    | Some v => Some (py_str repr v)
                    end in
  mkDriverConnectionArgs (text "device_type" (dc_device_type a)) (text "host" (dc_host a))
    (text "username" (dc_username a)) (text "password" (dc_password a))
    (dict_update
       (filter (λ kv, kv.1 ∉ declared_conn_fields ∨ dict_get kv.1 updates = None) (dc_extra a))
       (filter (λ kv, kv.1 ∉ declared_conn_fields ∨ texty kv.2 = false) updates)).

Definition resolve (repr : pyval → string) (v : VaultKvCredentialProvider) (conn_args : DriverConnectionArgs)
    : M W DriverConnectionArgs :=
  data ← _read_secret v;
  updates ← of_res (_extract_updates (vs_field_mapping (vp_cfg v)) data);
  mret (conn_args_copy repr conn_args updates).
End provider.
