(* ===== verification/VaultSpec.v ===== *)
(** * What the Vault provider serves

    How old a secret can be when it is served, under an explicit bound of the
    delays of calls, and which fields of it become connection arguments. *)

From Stdlib Require Import Ascii.
From S2P Require Import Prelude PyLib Models World ParamikoModel Vault.

(** ** What Vault and Redis do

    [answered] is what Vault has answered so far: a read, its payload, the
    time.  [l2] are the cached strings of Redis with their expiry; Redis may
    forget any of them at any time.  A call takes at most [delay]. *)
Class VaultView (W : Type) `{Vault W} := {
  answered : W → list (params * secret * Z);
  l2 : W → string → option (string * Z);
  client_namespace : VaultClient → option string;
}.

Section passing.
Context {W : Type} `{VaultView W} `{!Clock W}.

(** Time passes, Vault answers, Redis forgets. *)
Record passed (w w' : W) : Prop := {
  passed_now : (now w ≤ now w')%Z;
  passed_answered : ∀ x, x ∈ answered w → x ∈ answered w';
  passed_l2 : ∀ k x, l2 w' k = Some x → l2 w k = Some x;
}.

Lemma passed_refl w : passed w w.
Proof. by split. Qed.
Lemma passed_trans w1 w2 w3 : passed w1 w2 → passed w2 w3 → passed w1 w3.
Proof. intros [? ? ?] [? ? ?]. split; [lia|eauto..]. Qed.

(** A call that only takes its time *)
Definition waits (delay : Z) {A} (r : res A * W) (w : W) : Prop :=
  ordinary r.1 ∧ passed w r.2 ∧ (now r.2 ≤ now w + delay)%Z ∧ l1_cache r.2 = l1_cache w.
End passing.

Class VaultLaws (W : Type) (delay : Z) `{VaultView W} `{!Clock W} : Prop := {
  delay_nonneg : (0 ≤ delay)%Z;
  set_l1_cache_get : ∀ c w, l1_cache (set_l1_cache c w) = c;
  set_l1_cache_now : ∀ c w, now (set_l1_cache c w) = now w;
  set_l1_cache_answered : ∀ c w, answered (set_l1_cache c w) = answered w;
  set_l1_cache_l2 : ∀ c w, l2 (set_l1_cache c w) = l2 w;
  client_waits : ∀ u t n v w, waits delay (hvac_client u t n v w) w;
  client_namespace_is : ∀ u t n v w cl w', hvac_client u t n v w = (Ok cl, w') → client_namespace cl = n;
  authenticated_waits : ∀ cl w, waits delay (is_authenticated cl w) w;
  login_waits : ∀ cl r s w, waits delay (approle_login cl r s w) w;
  read_waits : ∀ cl m p v w, waits delay (read_secret_version cl m p v w) w;
  read_answered : ∀ cl m p v w response w' data,
    read_secret_version cl m p v w = (Ok response, w') → payload_of response = Ok data →
    ∃ t, (now w ≤ t ≤ now w')%Z ∧ ((client_namespace cl, m, p, v), data, t) ∈ answered w';
  get_waits : ∀ k w, waits delay (redis_get k w) w;
  get_cached : ∀ k w v w', redis_get k w = (Ok (Some v), w') → ∃ e, l2 w k = Some (v, e) ∧ (now w ≤ e)%Z;
  setex_spec : ∀ k ttl v w, let '(r, w') := redis_setex k ttl v w in
    ordinary r ∧ (now w ≤ now w' ≤ now w + delay)%Z ∧ l1_cache w' = l1_cache w ∧
    (∀ x, x ∈ answered w → x ∈ answered w') ∧
    ∀ k' x, l2 w' k' = Some x → l2 w k' = Some x ∨ (k' = k ∧ x.1 = v ∧ (x.2 ≤ now w' + seconds ttl)%Z);
}.

(** ** Names that keep apart *)

(** No colon in the names of a read, no name that means none *)
Definition no_colon (s : string) : bool := negb (has_char ":"%char s).
Definition plain (p : params) : Prop :=
  let '(namespace, mount, ref, version) := p in
  match namespace with None => True | Some n => no_colon n = true ∧ n ≠ "" ∧ n ≠ "default" end
  ∧ no_colon mount = true ∧ no_colon ref = true
  ∧ match version with None => True | Some v => (1 ≤ v)%Z end.

Lemma plain_split a b a' b' : no_colon a = true → no_colon a' = true →
  a +:+ ":" +:+ b = a' +:+ ":" +:+ b' → a = a' ∧ b = b'.
Proof.
  unfold no_colon. revert a'. induction a as [|x a IH]; intros [|y a'] Ha Ha' E.
  - by injection E.
  - injection E as <- E. by rewrite negb_true_iff in Ha'.
  - injection E as -> E. by rewrite negb_true_iff in Ha.
  - injection E as <- E. cbn [has_char] in Ha, Ha'. rewrite negb_orb in Ha, Ha'.
    apply andb_prop in Ha as [_ Ha]. apply andb_prop in Ha' as [_ Ha'].
    destruct (IH a' Ha Ha' E) as [-> ->]. done.
Qed.

Lemma str_of_Z_inj n m : (0 ≤ n)%Z → (0 ≤ m)%Z → str_of_Z n = str_of_Z m → n = m.
Proof.
  intros Hn Hm E. pose proof (py_int_printed n Hn) as H1. rewrite E, py_int_printed in H1 by done. congruence.
Qed.

Lemma latest_no_number n : (0 ≤ n)%Z → str_of_Z n ≠ "latest".
Proof. intros Hn E. destruct (str_of_Z_digits n Hn) as [Hd _]. by rewrite E in Hd. Qed.

Lemma plain_namespace namespace :
  match namespace with None => True | Some n => no_colon n = true ∧ n ≠ "" ∧ n ≠ "default" end →
  no_colon (if str_truthy namespace then default "" namespace else "default") = true.
Proof. destruct namespace as [n|]; [|done]. intros (Hn & _ & _). by destruct (str_truthy (Some n)). Qed.

Lemma redis_key_inj p p' : plain p → plain p' → redis_key p = redis_key p' → p = p'.
Proof.
  destruct p as [[[ns m] r] v], p' as [[[ns' m'] r'] v']. intros (Hns & Hm & Hr & Hv) (Hns' & Hm' & Hr' & Hv').
  unfold redis_key. intros E. apply (inj (String.append _)) in E.
  destruct (plain_split _ _ _ _ (plain_namespace ns Hns) (plain_namespace ns' Hns') E) as [En E1].
  destruct (plain_split _ _ _ _ Hm Hm' E1) as [-> E2]. destruct (plain_split _ _ _ _ Hr Hr' E2) as [-> E3].
  assert (ns = ns') as ->.
  { unfold str_truthy in En. destruct ns as [n|], ns' as [n'|]; [| | |done]; cbn [default] in En.
    - destruct (String.eqb_spec n ""), (String.eqb_spec n' ""); naive_solver.
    - destruct (String.eqb_spec n ""); naive_solver.
    - destruct (String.eqb_spec n' ""); naive_solver. }
  f_equal. destruct v as [v|], v' as [v'|]; [| | |done]; cbn [int_truthy default] in E3.
  - destruct (Z.eqb_spec v 0), (Z.eqb_spec v' 0); try lia. simpl in E3. f_equal. apply str_of_Z_inj; [lia..|done].
  - destruct (Z.eqb_spec v 0); [lia|]. simpl in E3. by apply latest_no_number in E3; [|lia].
  - destruct (Z.eqb_spec v' 0); [lia|]. simpl in E3. symmetry in E3. by apply latest_no_number in E3; [|lia].
Qed.

(** ** The age of a secret *)
Section freshness.
Context {W : Type} `{Json} `{VaultLaws W delay} (ttl : Z) (Httl : (0 ≤ ttl)%Z).
Implicit Types (v : VaultKvCredentialProvider) (p : params).

(** A read under the same key of Redis was answered with [data] at [t]. *)
Definition origin p (data : secret) (t : Z) (w : W) : Prop :=
  ∃ p', redis_key p' = redis_key p ∧ (p', data, t) ∈ answered w.

Definition max_age : Z := if (0 <? ttl)%Z then (seconds ttl + L1_CACHE_TTL + 3 * delay)%Z else delay.

Definition l2_ok (w : W) : Prop := ∀ p x e, l2 w (redis_key p) = Some (x, e) →
  ∃ data t, x = dumps data ∧ origin p data t w ∧ (e ≤ t + seconds ttl + 2 * delay)%Z.
Definition l1_ok (c : list (params * (Z * secret))) (w : W) : Prop := ∀ p e data,
  dict_get p c = Some (e, data) → ∃ t, origin p data t w ∧ (e ≤ t + seconds ttl + L1_CACHE_TTL + 3 * delay)%Z.

Lemma origin_later p data t w w' : (∀ x, x ∈ answered w → x ∈ answered w') → origin p data t w → origin p data t w'.
Proof. intros Ha (p' & Hk & Hin). exists p'. auto. Qed.

Lemma l1_ok_later c w w' : (∀ x, x ∈ answered w → x ∈ answered w') → l1_ok c w → l1_ok c w'.
Proof. intros Ha Hc p e data Hg. destruct (Hc p e data Hg) as (t & Ho & He). exists t. eauto using origin_later. Qed.

Lemma l2_ok_passed w w' : passed w w' → l2_ok w → l2_ok w'.
Proof.
  intros [_ Ha Hl] Hc p x e Hg. destruct (Hc p x e (Hl _ _ Hg)) as (data & t & -> & Ho & He).
  exists data, t. eauto using origin_later.
Qed.

Lemma fill_l1_passed p data w : passed w (fill_l1 p data w).2.
Proof.
  simpl. split; [by rewrite set_l1_cache_now|by rewrite set_l1_cache_answered|by rewrite set_l1_cache_l2].
Qed.

Lemma fill_l1_ok p data t w : l1_ok (l1_cache w) w → origin p data t w → (now w ≤ t + seconds ttl + 3 * delay)%Z →
  l1_ok (l1_cache (fill_l1 p data w).2) (fill_l1 p data w).2.
Proof.
  intros Hc Ho Ht. simpl. rewrite set_l1_cache_get. intros p' e data'.
  destruct (decide (p' = p)) as [->|Hne].
  - rewrite dict_get_set_eq. intros [= <- <-]. exists t. split; [|lia].
    eapply origin_later; [|done]. intros x. by rewrite set_l1_cache_answered.
  - rewrite dict_get_set_ne by done. apply l1_ok_later with (w := w); [|done].
    intros x. by rewrite set_l1_cache_answered.
Qed.

Lemma read_l2_spec p w : l1_ok (l1_cache w) w → l2_ok w → ∃ o w', read_l2 p w = (Ok o, w')
  ∧ passed w w' ∧ (now w' ≤ now w + delay)%Z ∧ l1_ok (l1_cache w') w'
  ∧ ∀ data, o = Some data → ∃ t, origin p data t w' ∧ (now w' ≤ t + seconds ttl + 3 * delay)%Z.
Proof.
  intros Hc Hl. unfold read_l2, try_except, mbind, M_bind.
  destruct (get_waits (redis_key p) w) as (Ho & Hp & Hn & Hsame). pose proof (get_cached (redis_key p) w) as Hg.
  destruct (redis_get (redis_key p) w) as [[o|e] w1]; simpl in *.
  2:{ rewrite (Ho e) by done. exists None, w1. split; [done|]. split_and!; try done. rewrite Hsame.
      by apply l1_ok_later with (w := w), Hc; destruct Hp. }
  assert (l1_ok (l1_cache w1) w1) as Hc1 by (rewrite Hsame; by apply l1_ok_later with (w := w), Hc; destruct Hp).
  destruct o as [x|]; [|by exists None, w1].
  destruct (str_truthy (Some x)); [|by exists None, w1]. simpl.
  destruct (Hg x w1 eq_refl) as (e & Hx & He). destruct (Hl p x e Hx) as (data & t & -> & Hor & Het).
  unfold of_res. rewrite loads_dumps. simpl.
  assert (origin p data t w1) as Hor1 by (apply origin_later with (w := w); [by destruct Hp|done]).
  eexists (Some data), _. split; [reflexivity|]. pose proof (fill_l1_passed p data w1) as Hf. simpl in Hf.
  split; [by eapply passed_trans|]. rewrite set_l1_cache_now. split; [done|].
  split; [apply (fill_l1_ok p data t w1); [done..|lia]|]. intros ? [= <-]. exists t. split; [|lia].
  eapply origin_later, Hor1. by destruct Hf.
Qed.

Definition genuine v : Prop := client_namespace (vp_client v) = namespace_of (vp_cfg v) (vp_client_cfg v).

Lemma payload_ordinary response : ordinary (payload_of response).
Proof. unfold payload_of. ordinary_cases. Qed.

Lemma fetch_spec v w : genuine v → waits delay (fetch v w) w ∧
  ∀ data, (fetch v w).1 = Ok data →
    ∃ t, (now w ≤ t ≤ now (fetch v w).2)%Z ∧ (params_of v, data, t) ∈ answered (fetch v w).2.
Proof.
  intros Hv. unfold fetch, try_except, mbind, M_bind. set (c := vp_cfg v).
  pose proof (read_waits (vp_client v) (vs_mount c) (vs_ref c) (vs_version c) w) as (Ho & Hp & Hn & Hsame).
  pose proof (read_answered (vp_client v) (vs_mount c) (vs_ref c) (vs_version c) w) as Ha.
  destruct (read_secret_version _ _ _ _ w) as [[response|e] w1]; simpl in *.
  2:{ rewrite (Ho e) by done. split; [split; [by apply ordinary_Err|done]|done]. }
  unfold of_res. destruct (payload_of response) as [data|e] eqn:Ed; simpl.
  2:{ split; [|done]. split; [|done]. exact (ordinary_Err e (payload_ordinary response e Ed)). }
  destruct (Ha response w1 data eq_refl Ed) as (t & Ht & Hin). rewrite Hv in Hin.
  destruct data as [| | | | | |[|kv d]]; simpl; split; try done; try (split; [by apply ordinary_Err|done]).
  intros data [= <-]. by exists t.
Qed.

(** Keeping what was fetched *)
Lemma store_spec p data t w : l1_ok (l1_cache w) w → l2_ok w → origin p data t w → (now w ≤ t + delay)%Z →
  let m := fill_l1 p data ≫= λ _, try_except (redis_setex (redis_key p) ttl (dumps data)) (λ _, mret tt) in
  ∃ w', m w = (Ok tt, w') ∧ (now w ≤ now w' ≤ now w + delay)%Z ∧ (∀ x, x ∈ answered w → x ∈ answered w')
  ∧ l1_ok (l1_cache w') w' ∧ l2_ok w'.
Proof.
  intros Hc Hl Ho Ht m. pose proof delay_nonneg as Hd. assert (0 ≤ seconds ttl)%Z as Hs by (unfold seconds; lia).
  subst m. unfold mbind, M_bind, try_except. pose proof (fill_l1_ok p data t w Hc Ho ltac:(lia)) as Hc1.
  pose proof (fill_l1_passed p data w) as Hp. pose proof (l2_ok_passed _ _ Hp Hl) as Hl1. simpl in *.
  set (w1 := set_l1_cache _ w) in *. assert (now w1 = now w) as Hn by apply set_l1_cache_now.
  pose proof (setex_spec (redis_key p) ttl (dumps data) w1) as Hx.
  destruct (redis_setex _ _ _ w1) as [r w2]. destruct Hx as (Hord & Hnow & Hsame & Hans & Hl2).
  exists w2. split.
  { destruct r as [[]|e]; [done|]. by rewrite (Hord e eq_refl). }
  split; [lia|]. assert (∀ x, x ∈ answered w → x ∈ answered w2) as Ha by (intros; apply Hans; by destruct Hp; auto).
  split; [done|]. split; [rewrite Hsame; by apply l1_ok_later with (w := w1)|].
  intros p' x e Hg. destruct (Hl2 _ _ Hg) as [Hold|(Hk & Hx & He)]; simpl in *; subst.
  - destruct (Hl1 p' x e Hold) as (data' & t' & -> & Ho' & He'). exists data', t'. eauto using origin_later.
  - exists data, t. split; [done|]. split; [|lia].
    destruct Ho as (p0 & Hk0 & Hin). exists p0. split; [congruence|auto].
Qed.

Lemma read_secret_step v w : genuine v → vk_cache_ttl (vp_client_cfg v) = ttl →
  l1_ok (l1_cache w) w → l2_ok w →
  let '(r, w') := _read_secret v w in
  ordinary r ∧ (∀ x, x ∈ answered w → x ∈ answered w') ∧ l1_ok (l1_cache w') w' ∧ l2_ok w'
  ∧ ∀ data, r = Ok data → ∃ t p', redis_key p' = redis_key (params_of v) ∧ (p', data, t) ∈ answered w'
      ∧ (ttl = 0%Z → p' = params_of v) ∧ (now w' ≤ t + max_age)%Z.
Proof.
  intros Hv Hvt Hc Hl. pose proof delay_nonneg as Hd. assert (0 ≤ seconds ttl)%Z as Hs by (unfold seconds; lia).
  unfold _read_secret, reads. rewrite Hvt. set (p := params_of v).
  (* From the point where the caches do not answer *)
  assert (∀ w1, passed w w1 → l1_ok (l1_cache w1) w1 → l2_ok w1 →
    let '(r, w') := (data ← fetch v;
      (if (0 <? ttl)%Z then fill_l1 p data ≫= λ _, try_except (redis_setex (redis_key p) ttl (dumps data)) (λ _, mret tt)
       else mret tt) ≫= λ _, mret data) w1 in
    ordinary r ∧ (∀ x, x ∈ answered w → x ∈ answered w') ∧ l1_ok (l1_cache w') w' ∧ l2_ok w'
    ∧ ∀ data, r = Ok data → ∃ t p', redis_key p' = redis_key p ∧ (p', data, t) ∈ answered w'
      ∧ (ttl = 0%Z → p' = p) ∧ (now w' ≤ t + max_age)%Z) as Hfetch.
  { intros w1 Hp Hc1 Hl1. destruct (fetch_spec v w1 Hv) as [(Ho & Hp1 & Hn1 & Hsame) Hans].
    unfold mbind at 1. unfold M_bind at 1. destruct (fetch v w1) as [[data|e] w2]; simpl in Ho, Hp1, Hn1, Hsame, Hans.
    2:{ split; [by apply ordinary_Err, Ho|]. destruct (passed_trans _ _ _ Hp Hp1) as [_ Ha _].
        split; [done|]. split; [rewrite Hsame; apply l1_ok_later with (w := w1); [by destruct Hp1|done]|].
        split; [by eapply l2_ok_passed|done]. }
    destruct (Hans data eq_refl) as (t & Ht & Hin). destruct (passed_trans _ _ _ Hp Hp1) as [_ Ha _].
    assert (l1_ok (l1_cache w2) w2) as Hc2.
    { rewrite Hsame. apply l1_ok_later with (w := w1); [by destruct Hp1|done]. }
    assert (l2_ok w2) as Hl2 by (by eapply l2_ok_passed).
    unfold max_age. destruct (0 <? ttl)%Z eqn:Et.
    - destruct (store_spec p data t w2 Hc2 Hl2) as (w3 & Hm & Hn3 & Ha3 & Hc3 & Hl3); [by exists p|lia|].
      rewrite (M_bind_ok _ _ _ _ _ Hm). split; [done|]. split; [auto|]. split; [done|]. split; [done|].
      intros ? [= <-]. exists t, p. split_and!; [done|by apply Ha3|done|]. unfold L1_CACHE_TTL, seconds in *. lia.
    - split; [done|]. split; [done|]. split; [done|]. split; [done|].
      intros ? [= <-]. exists t, p. split_and!; [done..|]. lia. }
  unfold mbind at 1 2. unfold M_bind at 1 2. cbn zeta iota beta. destruct (0 <? ttl)%Z eqn:Et.
  - assert (max_age = seconds ttl + L1_CACHE_TTL + 3 * delay)%Z as Hage by (unfold max_age; by rewrite Et).
    match goal with |- context [match ?o with Some data => mret data | None => _ end] => destruct o as [data|] eqn:Ef end.
    + destruct (dict_get p (l1_cache w)) as [[e d]|] eqn:Eg; [|done]. destruct (now w <? e)%Z eqn:Elt; [|done].
      injection Ef as ->. simpl. split; [done|]. split; [done|]. split; [done|]. split; [done|].
      intros ? [= <-]. destruct (Hc p e data Eg) as (t & (p' & Hk & Hin) & He). exists t, p'. to_prop.
      split_and!; [done..| |]; lia.
    + destruct (read_l2_spec p w Hc Hl) as (o & w1 & Hr & Hp & Hn & Hc1 & Hdata).
      rewrite (M_bind_ok _ _ _ _ _ Hr). assert (l2_ok w1) as Hl1 by (by eapply l2_ok_passed).
      destruct o as [data|]; [|by apply Hfetch]. destruct (Hdata data eq_refl) as (t & (p' & Hk & Hin) & Ht).
      split; [done|]. split; [by destruct Hp|]. split; [done|]. split; [done|].
      intros ? [= <-]. exists t, p'. to_prop. rewrite Hage. unfold L1_CACHE_TTL, seconds in *. split_and!; [done..| |]; lia.
  - apply Hfetch; [apply passed_refl|done..].
Qed.

(** A provider some request has built *)
Definition built v : Prop := ∃ installed http_url ref cfg w w',
  from_credential_ref installed http_url ref cfg w = (Ok v, w').

Definition allowed (cfg : VaultCredentialSettings) (client_cfg : VaultKvConfig) : Prop :=
  vk_allowed_paths client_cfg = [] ∨
  ∃ prefix, prefix ∈ vk_allowed_paths client_cfg ∧ startswith (full_path cfg) prefix = true.

Lemma assert_allowed cfg client_cfg : _assert_allowed_path cfg client_cfg = Ok tt → allowed cfg client_cfg.
Proof.
  unfold _assert_allowed_path, allowed. destruct (vk_allowed_paths client_cfg) as [|x l]; [by left|].
  intros Ha. right. case_match eqn:E; [|done]. apply any_true in E as (prefix & ? & ?). by exists prefix.
Qed.

Lemma build_client_namespace cfg client_cfg w cl w' :
  _build_client cfg client_cfg w = (Ok cl, w') → client_namespace cl = namespace_of cfg client_cfg.
Proof.
  unfold _build_client, mbind, M_bind. intros E.
  destruct (hvac_client _ _ _ _ w) as [[c|e] w1] eqn:Ec; [|done]. apply client_namespace_is in Ec. rewrite <-Ec.
  destruct (is_authenticated c w1) as [[ok|e] w2]; [|done].
  match type of E with context [match ?m w2 with _ => _ end] => destruct (m w2) as [[u|e] w3] end; [|done].
  destruct (is_authenticated c w3) as [[[]|e] w4]; unfold mret, M_ret, raise in E; simpl in E;
    by simplify_eq.
Qed.

Lemma built_spec v : built v → genuine v ∧ allowed (vp_cfg v) (vp_client_cfg v).
Proof.
  intros (installed & http_url & ref & plugin_cfg & w & w' & E). unfold from_credential_ref in E.
  destruct installed; [|done]. unfold mbind, M_bind, of_res in E.
  destruct (VaultCredentialSettings_validate _) as [cfg|e]; [|done].
  simpl in E. destruct (_load_client_config http_url plugin_cfg w) as [client_cfg|e]; [|done].
  unfold new_provider, mbind, M_bind, of_res in E.
  destruct (_assert_allowed_path cfg client_cfg) as [[]|e] eqn:Ea; [|done].
  destruct (_build_client cfg client_cfg w) as [[cl|e] w1] eqn:Eb; [|done].
  unfold mret, M_ret in E. simplify_eq/=. split; [exact (build_client_namespace _ _ _ _ _ Eb)|by apply assert_allowed].
Qed.

(** Processes that share Redis, each with its own [_cache]: any of them reads
    a secret, or the world moves on without them. *)
Inductive history : W → (nat → list (params * (Z * secret))) → Prop :=
  | history_start w : (∀ k, l2 w k = None) → history w (λ _, [])
  | history_read i v w caches : built v → vk_cache_ttl (vp_client_cfg v) = ttl → history w caches →
      let w' := (_read_secret v (set_l1_cache (caches i) w)).2 in
      history w' (λ j, if decide (j = i) then l1_cache w' else caches j)
  | history_passed w w' caches : passed w w' → history w caches → history w' caches.

Lemma history_ok w caches : history w caches → l2_ok w ∧ ∀ i, l1_ok (caches i) w.
Proof.
  induction 1 as [w Hl|i v w caches Hb Hvt Hh [IH2 IH1] w'|w w' caches Hp Hh [IH2 IH1]].
  - split; [|done]. intros p x e. by rewrite Hl.
  - apply built_spec in Hb as [Hv _]. set (w0 := set_l1_cache (caches i) w) in *.
    assert (passed w w0) as Hp0.
    { subst w0. split; [by rewrite set_l1_cache_now|by rewrite set_l1_cache_answered|by rewrite set_l1_cache_l2]. }
    pose proof (read_secret_step v w0 Hv Hvt) as Hs.
    assert (∀ j, l1_ok (caches j) w0) as Hj by (intros j; apply l1_ok_later with (w := w); [by destruct Hp0|done]).
    subst w'. destruct (_read_secret v w0) as [r w2]. destruct Hs as (_ & Ha & Hc & Hl & _); simpl.
    + subst w0. rewrite set_l1_cache_get. apply Hj.
    + by eapply l2_ok_passed.
    + split; [done|]. intros j. case_decide; [done|]. by apply l1_ok_later with (w := w0).
  - split; [by eapply l2_ok_passed|]. intros i. apply l1_ok_later with (w := w); [by destruct Hp|done].
Qed.

(** C29. How old a secret can be.  However many processes share Redis, whatever
    fails and whatever Redis forgets: a provider reads allowed paths only, and
    what it serves is what Vault answered no longer ago than the lifetime of the
    cache, the ten seconds of the process's own cache, and three calls; without
    a lifetime it is fresh.  It is the answer to the same read, not merely to
    one with the same key of Redis, when names hold no colon. *)
Theorem secret_age_spec w caches i v : history w caches → built v → vk_cache_ttl (vp_client_cfg v) = ttl →
  allowed (vp_cfg v) (vp_client_cfg v) ∧
  ∀ r w', _read_secret v (set_l1_cache (caches i) w) = (r, w') →
  ordinary r ∧ ∀ data, r = Ok data → ∃ t p', (p', data, t) ∈ answered w' ∧ (now w' ≤ t + max_age)%Z
    ∧ redis_key p' = redis_key (params_of v)
    ∧ (ttl = 0%Z ∨ (plain (params_of v) ∧ ∀ x, x ∈ answered w' → plain x.1.1) → p' = params_of v).
Proof.
  intros Hh Hb Hvt. destruct (built_spec v Hb) as [Hv Hall]. split; [done|].
  destruct (history_ok w caches Hh) as [Hl Hc]. set (w0 := set_l1_cache (caches i) w).
  assert (passed w w0) as Hp0.
  { subst w0. split; [by rewrite set_l1_cache_now|by rewrite set_l1_cache_answered|by rewrite set_l1_cache_l2]. }
  intros r w' E. pose proof (read_secret_step v w0 Hv Hvt) as Hs. rewrite E in Hs.
  destruct Hs as (Ho & _ & _ & _ & Hdata).
  - subst w0. rewrite set_l1_cache_get. apply l1_ok_later with (w := w); [by destruct Hp0|done].
  - by eapply l2_ok_passed.
  - split; [done|]. intros data Hr. destruct (Hdata data Hr) as (t & p' & Hk & Hin & Hzero & Ht).
    exists t, p'. split_and!; try done. intros [Hz|[Hpl Hall']]; [by apply Hzero|].
    apply redis_key_inj; [by apply (Hall' _ Hin)|done..].
Qed.
End freshness.

(** ** The fields of a secret *)

(** A field with a value *)
Definition present (d : list (string * pyval)) (source : string) : option pyval :=
  match dict_get source d with Some PNone | None => None | Some x => Some x end.

Definition sources_of (mapping : list (string * string)) : list (string * string) :=
  mapping ++ (if is_default mapping then OPTIONAL_FIELD_MAPPING else []).

Definition missing_of (mapping : list (string * string)) (d : list (string * pyval)) : list string :=
  filter (λ s, present d s = None) mapping.*2.

Definition conn_field (a : DriverConnectionArgs) (k : string) : option pyval :=
  dict_get k (DriverConnectionArgs_dump a).

Lemma secret_field_dict d s : secret_field (PDict d) s = Ok (present d s).
Proof. done. Qed.

(** What a mapping adds to the updates *)
Definition added (d : list (string * pyval)) (mapping : list (string * string)) (u : list (string * pyval)) :=
  foldl (λ u kv, match present d kv.2 with Some x => dict_set kv.1 x u | None => u end) u mapping.

Lemma map_fields_spec d mapping u missing :
  map_fields (PDict d) mapping u missing = Ok (added d mapping u, missing ++ missing_of mapping d).
Proof.
  revert u missing. induction mapping as [|[dest source] mapping IH]; intros u missing.
  { by rewrite app_nil_r. }
  cbn [map_fields]. rewrite secret_field_dict. unfold mbind, res_bind, missing_of. rewrite fmap_cons. simpl.
  destruct (present d source) as [x|] eqn:E; rewrite IH.
  - by rewrite filter_cons_False by congruence.
  - rewrite filter_cons_True by done. unfold missing_of. by rewrite <-app_assoc.
Qed.

Lemma added_get d mapping u k : NoDup mapping.*1 →
  dict_get k (added d mapping u) =
    match dict_get k mapping ≫= present d with Some x => Some x | None => dict_get k u end.
Proof.
  revert u. induction mapping as [|[dest source] mapping IH]; intros u Hnd; [done|].
  rewrite fmap_cons in Hnd. apply NoDup_cons in Hnd as [Hni Hnd]. unfold added. cbn [foldl fst snd].
  fold (added d mapping (match present d source with Some x => dict_set dest x u | None => u end)).
  rewrite IH by done. cbn [dict_get]. case_decide as Ek.
  - subst k. apply dict_get_None in Hni. simpl in Hni. rewrite Hni. simpl. destruct (present d source) as [x|]; [|done].
    by rewrite dict_get_set_eq.
  - destruct (dict_get k mapping ≫= present d); [done|]. destruct (present d source); [|done].
    by rewrite dict_get_set_ne by done.
Qed.

Lemma added_NoDup d mapping u : NoDup u.*1 → NoDup (added d mapping u).*1.
Proof.
  revert u. induction mapping as [|[dest source] mapping IH]; intros u Hu; [done|].
  apply IH. simpl. destruct (present d source); [by apply dict_set_NoDup|done].
Qed.

Lemma dict_get_update {V} (d e : list (string * V)) k : NoDup e.*1 →
  dict_get k (dict_update d e) = match dict_get k e with Some x => Some x | None => dict_get k d end.
Proof.
  unfold dict_update. revert d. induction e as [|[k' x] e IH]; intros d Hnd; [done|].
  rewrite fmap_cons in Hnd. apply NoDup_cons in Hnd as [Hni Hnd]. simpl in *. rewrite IH by done.
  case_decide as Ek.
  - subst k'. apply dict_get_None in Hni. rewrite Hni. by rewrite dict_get_set_eq.
  - destruct (dict_get k e); [done|]. by rewrite dict_get_set_ne by done.
Qed.

Lemma dict_get_filter {V} (P : string * V → Prop) `{!∀ kv, Decision (P kv)} (d : list (string * V)) k :
  (∀ x, P (k, x)) → dict_get k (filter P d) = dict_get k d.
Proof.
  intros Hk. induction d as [|[k' x] d IH]; [done|]. destruct (decide (P (k', x))) as [Hp|Hp].
  - rewrite filter_cons_True by done. simpl. by rewrite IH.
  - rewrite filter_cons_False by done. simpl. rewrite decide_False; [done|]. intros ->. by apply Hp.
Qed.

(** A field of the arguments is the extra one of that name, or the declared one. *)
Lemma conn_field_eq a k :
  conn_field a k = match dict_get k (dc_extra a) with Some x => Some x | None => dict_get k (declared_dump a) end.
Proof.
  unfold conn_field, DriverConnectionArgs_dump. rewrite dict_get_app. destruct (dict_get k (dc_extra a)) as [x|] eqn:E.
  - assert (k ∈ (dc_extra a).*1) as Hk by (apply dict_get_elem_of in E; by apply (list_elem_of_fmap_2 fst _ (k, x))).
    assert (dict_get k (filter (λ kv, kv.1 ∉ (dc_extra a).*1) (declared_dump a)) = None) as ->; [|done].
    apply dict_get_None. intros (kv & -> & Hf)%list_elem_of_fmap. by apply list_elem_of_filter in Hf as [? _].
  - rewrite dict_get_filter; [by destruct (dict_get k (declared_dump a))|]. intros x. by apply dict_get_None.
Qed.

Lemma dict_get_filter_none {V} (P : string * V → Prop) `{!∀ kv, Decision (P kv)} (d : list (string * V)) k :
  (∀ x, (k, x) ∈ d → ¬ P (k, x)) → dict_get k (filter P d) = None.
Proof.
  intros Hk. apply dict_get_None. intros ([k' x] & E & Hf)%list_elem_of_fmap.
  simpl in E. subst k'. apply list_elem_of_filter in Hf as [Hp Hin]. by apply (Hk x).
Qed.

Lemma NoDup_keys_filter {V} (P : string * V → Prop) `{!∀ kv, Decision (P kv)} (d : list (string * V)) :
  NoDup d.*1 → NoDup (filter P d).*1.
Proof.
  induction d as [|kv d IH]; [done|]. rewrite fmap_cons. intros [Hni Hnd]%NoDup_cons.
  destruct (decide (P kv)); [rewrite filter_cons_True, fmap_cons by done|rewrite filter_cons_False by done; auto].
  constructor; [|auto]. intros (kv' & E & [_ Hin]%list_elem_of_filter)%list_elem_of_fmap.
  apply Hni. rewrite E. by apply list_elem_of_fmap_2.
Qed.

Lemma dict_get_filter_some {V} (P : string * V → Prop) `{!∀ kv, Decision (P kv)} (d : list (string * V)) k x :
  dict_get k d = Some x → P (k, x) → NoDup d.*1 → dict_get k (filter P d) = Some x.
Proof.
  intros E Hp Hnd. apply dict_elem_of_get; [|apply list_elem_of_filter; split; [done|by apply dict_get_elem_of]].
  by apply NoDup_keys_filter.
Qed.

(** A copy has the new value of every field it is given, text or not, and the old one
    of the others. *)
Lemma conn_args_copy_spec repr a u k : NoDup u.*1 →
  conn_field (conn_args_copy repr a u) k
  = match dict_get k u with Some x => Some x | None => conn_field a k end.
Proof.
  intros Hnd. rewrite !conn_field_eq. unfold conn_args_copy at 1. cbn [dc_extra].
  set (U := filter (λ kv, kv.1 ∉ declared_conn_fields ∨ texty kv.2 = false) u).
  assert (NoDup U.*1) as HU by by apply NoDup_keys_filter.
  rewrite dict_get_update by done. set (E := filter _ (dc_extra a)).
  assert (∀ x, dict_get k u = Some x → ¬ (k ∉ declared_conn_fields ∨ texty x = false) → dict_get k U = None) as HUs.
  { intros x Hx Hc. apply dict_get_filter_none.
    intros y Hy. rewrite (dict_elem_of_get k y u Hnd Hy) in Hx. injection Hx as ->. exact Hc. }
  assert (dict_get k u = None → dict_get k U = None) as HUn.
  { intros Hn. apply dict_get_filter_none. intros y Hy. by rewrite (dict_elem_of_get k y u Hnd Hy) in Hn. }
  destruct (dict_get k u) as [x|] eqn:Ek.
  - destruct (decide (k ∉ declared_conn_fields ∨ texty x = false)) as [Hc|Hc].
    { assert (dict_get k U = Some x) as ->; [|done]. by apply dict_get_filter_some. }
    rewrite (HUs x eq_refl Hc).
    assert (k ∈ declared_conn_fields ∧ texty x = true) as [Hk Ht].
    { split; [apply dec_stable; tauto|]. destruct (texty x); [done|tauto]. }
    assert (dict_get k E = None) as ->.
    { apply dict_get_filter_none. intros y _ [?|?]; simpl in *; [done|congruence]. }
    unfold declared_conn_fields in Hk. unfold conn_args_copy, declared_dump. cbn [dc_device_type dc_host dc_username dc_password].
    repeat (apply elem_of_cons in Hk as [->|Hk]; [cbn; rewrite Ek; by destruct x|]). by apply not_elem_of_nil in Hk.
  - rewrite (HUn eq_refl). unfold E. rewrite dict_get_filter by (intros x; right; exact Ek).
    destruct (dict_get k (dc_extra a)); [done|].
    unfold declared_dump, conn_args_copy. cbn [dict_get dc_device_type dc_host dc_username dc_password].
    repeat (case_decide; [subst k; by rewrite Ek|]). done.
Qed.

Section resolving.
Context {W : Type} `{Json} `{Vault W} `{!Clock W}.
Implicit Types (v : VaultKvCredentialProvider (W:=W)).

End resolving.

(** ** A concrete Vault

    Every call takes a tick; a token is accepted when it is ["t"]. *)
Module ToyVault.
Record world := mkWorld {
  u_now : Z;
  u_l1 : list (params * (Z * secret));
  u_l2 : list (string * (string * Z));
  u_answered : list (params * secret * Z);
  u_secret : secret;
}.

Definition tick (w : world) : world := mkWorld (u_now w + 1) (u_l1 w) (u_l2 w) (u_answered w) (u_secret w).

#[export, refine] Instance toy_clock : Clock world :=
  {| now := u_now; sleep d w := mkWorld (u_now w + d) (u_l1 w) (u_l2 w) (u_answered w) (u_secret w) |}.
Proof. intros d w _. simpl. lia. Defined.

#[export] Instance toy_vault : Vault world :=
  {| VaultClient := option string * option string;
     hvac_client _ token namespace _ w := (Ok (token, namespace), tick w);
     is_authenticated cl w := (Ok (bool_decide (cl.1 = Some "t")), tick w);
     approle_login _ _ _ w := (Err (OtherError "InvalidRequest" "invalid role"), tick w);
     read_secret_version cl mount path version w :=
       (Ok [("data", PDict [("data", u_secret w)])],
        mkWorld (u_now w + 1) (u_l1 w) (u_l2 w)
          (((cl.2, mount, path, version), u_secret w, u_now w) :: u_answered w) (u_secret w));
     redis_get k w := (Ok (match dict_get k (u_l2 w) with
                           | Some (x, e) => if (u_now w <=? e)%Z then Some x else None
                           | None => None
                           end), tick w);
     redis_setex k ttl x w := (Ok tt, mkWorld (u_now w + 1) (u_l1 w) (dict_set k (x, (u_now w + seconds ttl)%Z) (u_l2 w))
                                        (u_answered w) (u_secret w));
     getenv _ _ := None;
     l1_cache := u_l1;
     set_l1_cache c w := mkWorld (u_now w) c (u_l2 w) (u_answered w) (u_secret w) |}.

#[export] Instance toy_view : VaultView world :=
  {| answered := u_answered; l2 w k := dict_get k (u_l2 w); client_namespace cl := cl.2 |}.

Lemma tick_waits {A} (r : res A) w : ordinary r → waits 1 (r, tick w) w.
Proof. intros Hr. split; [done|]. split; [|by split; [simpl; lia|]]. split; [simpl; lia|done..]. Qed.

#[export] Instance toy_vault_laws : VaultLaws world 1.
Proof.
  split; try done; try (intros; by apply tick_waits).
  - intros u t n v w cl w' [= <- _]. done.
  - intros. apply tick_waits. by apply ordinary_Err.
  - intros cl m p v w. split; [done|]. split; [|by split; [simpl; lia|]].
    split; [simpl; lia|intros x Hx; by right|done].
  - intros cl m p v w response w' data [= <- <-] [= <-]. exists (u_now w). split; [simpl; lia|by left].
  - intros k w v w'. simpl. destruct (dict_get k (u_l2 w)) as [[x e]|]; [|done].
    destruct (u_now w <=? e)%Z eqn:E; [|done]. intros [= <- _]. exists e. to_prop. by split; [|lia].
  - intros k ttl v w. simpl. split; [done|]. split; [lia|]. split; [done|]. split; [done|].
    intros k' x. destruct (decide (k' = k)) as [->|Hne].
    + rewrite dict_get_set_eq. intros [= <-]. right. simpl. split_and!; [done..|lia].
    + rewrite dict_get_set_ne by done. by left.
Qed.

Definition url (s : string) : option string := Some (s +:+ "/").
Definition plugin_cfg : list (string * pyval) :=
  [("addr", PStr "http://vault:8200"); ("token", PStr "t"); ("allowed_paths", PList [PStr "/kv/net/"])].
Definition ref : CredentialRef := mkCredentialRef None "net/r1" None None None None.

Definition credentials (password : string) : secret :=
  PDict [("username", PStr "ops"); ("password", PStr password); ("note", PStr "n")].
Definition start : world := mkWorld 0 [] [] [] (credentials "old").
Definition provider : res VaultKvCredentialProvider := (from_credential_ref true url ref plugin_cfg start).1.

(** One process reads; the secret changes; 29 seconds later another process
    reads the old one. *)
Definition provider_of (r : res VaultKvCredentialProvider) : VaultKvCredentialProvider :=
  match r with
  | Ok v => v
  | Err _ => mkProvider (mkSettings "" "" None None []) (mkVaultKvConfig None None None None None PNone [] 0) (None, None)
  end.
Definition prov : VaultKvCredentialProvider := provider_of provider.
Definition after_read : world := (_read_secret prov (set_l1_cache [] start)).2.
Definition changed : world :=
  mkWorld (u_now after_read + seconds 29) (u_l1 after_read) (u_l2 after_read) (u_answered after_read) (credentials "new").

Lemma prov_built : built prov.
Proof. exists true, url, ref, plugin_cfg, start. eexists. vm_compute. reflexivity. Qed.

Lemma secret_age_spec_witness :
  (_read_secret prov (set_l1_cache [] changed)).1 = Ok (credentials "old")
  ∧ ∃ t, ((None, "kv", "net/r1", None), credentials "old", t) ∈ u_answered changed
      ∧ (u_now changed + 1 ≤ t + max_age (delay := 1) 30)%Z.
Proof.
  assert ((_read_secret prov (set_l1_cache [] changed)).1 = Ok (credentials "old")) as Hr by (vm_compute; reflexivity).
  split; [exact Hr|].
  assert (history 30 changed (λ j, if decide (j = 0) then l1_cache after_read else [])) as Hh.
  { apply history_passed with (w := after_read).
    { split; [vm_compute; discriminate|done|done]. }
    apply (history_read 30 0 prov start (λ _, [])); [apply prov_built|vm_compute; reflexivity|].
    apply history_start. done. }
  assert (vk_cache_ttl (vp_client_cfg prov) = 30%Z) as Httl by (vm_compute; reflexivity).
  set (w' := (_read_secret prov (set_l1_cache [] changed)).2).
  assert (_read_secret prov (set_l1_cache [] changed) = (Ok (credentials "old"), w')) as E.
  { rewrite <-Hr. apply surjective_pairing. }
  destruct (secret_age_spec (delay := 1) 30 ltac:(lia) changed _ 1 prov Hh prov_built Httl) as [_ Hs].
  destruct (proj2 (Hs _ _ E) _ eq_refl) as (t & p' & Hin & Ht & _ & Hp).
  assert (u_answered w' = u_answered changed) as Ha by (vm_compute; reflexivity).
  assert (now w' = u_now changed + 1)%Z as Hn by (vm_compute; reflexivity).
  assert (params_of prov = (None, "kv", "net/r1", None)) as Hprov by (vm_compute; reflexivity).
  assert (p' = (None, "kv", "net/r1", None)) as ->.
  { rewrite <-Hprov. apply Hp. right. rewrite Hprov. split; [repeat split; discriminate|].
    intros x Hx. change (x ∈ u_answered w') in Hx. rewrite Ha in Hx.
    assert (Forall (λ x, x.1.1 = (None, "kv", "net/r1", None)) (u_answered changed)) as Hc.
    { vm_compute. repeat constructor. }
    rewrite Forall_forall in Hc. specialize (Hc x Hx). destruct x as [[p0 d0] t0]. cbn [fst] in Hc |- *. rewrite Hc.
    repeat split; discriminate. }
  exists t. split; [rewrite <-Ha; exact Hin|rewrite <-Hn; exact Ht].
Defined.

(** The mapped fields replace the request's, and only they do. *)
Definition request_args : DriverConnectionArgs :=
  mkDriverConnectionArgs (Some "cisco_ios") (Some "r1") None None [("port", PInt 22)].

Definition no_repr (v : pyval) : string := "".


(** A field that is no text is passed on as it is. *)
Lemma resolve_any_type :
  conn_field (conn_args_copy no_repr request_args [("password", PInt 12345)]) "password" = Some (PInt 12345).
Proof. vm_compute. reflexivity. Qed.

(** Finding: different reads share a key of Redis: the names are joined by
    colons that they may hold themselves, and no namespace is the namespace
    [default]. *)
Lemma redis_keys_collide :
  redis_key (None, "kv", "a:b", None) = redis_key (None, "kv:a", "b", None)
  ∧ redis_key (None, "kv", "a", None) = redis_key (Some "default", "kv", "a", None).
Proof. by split. Qed.

(** Finding: the allowed prefixes are compared as text: a path that climbs out
    of an allowed directory, or continues its last name, is allowed. *)
Lemma allowed_prefix_text :
  let cfg ref := mkSettings ref "kv" None None DEFAULT_FIELD_MAPPING in
  let client_cfg := mkVaultKvConfig (Some "u") (Some "t") None None None (PBool true) ["kv/net"] 30 in
  _assert_allowed_path (cfg "net/../admin") client_cfg = Ok tt
  ∧ _assert_allowed_path (cfg "network-admins") client_cfg = Ok tt.
Proof. by vm_compute. Qed.
End ToyVault.
