(* ===== verification/Devices.v ===== *)
(** * The routes that run requests on devices

    [linux_net/routes/device.py]: filling in credentials, staging an uploaded
    file, one request, the expansion of a bulk request into one request per
    device, and the connection test. *)

From Stdlib Require Import Ascii.
From S2P Require Import Prelude PyLib Models Schedulers World Registry Manager Dispatch Storage ParamikoModel Vault VaultSpec.

(** ** Credential providers

    [credentials.get(name)], and the two methods of a provider
    ([linux_net/plugins/credentials/__init__.py]) *)
Class Credentials (W : Type) := {
  Provider : Type;
  credentials_has : string → bool;
  provider_from_ref : string → CredentialRef → list (string * pyval) → M W Provider;
  provider_resolve : Provider → DriverConnectionArgs → M W DriverConnectionArgs;
}.

(** The server's [credential] section *)
Record CredentialConfig := mkCredentialConfig {
  cc_enabled : bool;
  cc_name : option string;
  cc_rest : list (string * pyval);
}.

(** A driver plugin as the routes use it: [validate] and [test] *)
Class DriverChecks (W : Type) := {
  checks_has : DriverName → bool;
  driver_validate : DriverName → ExecutionRequest → res unit;
  driver_test : DriverName → DriverConnectionArgs → M W pyval;
}.

(** Where an upload goes *)
Class Staging (W : Type) := {
  mkdir_parents : string → M W unit;
  read_upload : string → M W string;
  write_bytes : string → string → M W unit;
}.

Definition set_connection (a : DriverConnectionArgs) (credential : option CredentialRef) (r : ExecutionRequest)
    : ExecutionRequest :=
  mkExecutionRequest (er_driver r) (er_driver_args r) a credential (er_config r)
    (er_command r) (er_file_transfer r) (er_rendering r) (er_parsing r) (er_queue_strategy r) (er_ttl r)
    (er_execution_timeout r) (er_result_ttl r) (er_audit_mode r) (er_webhook r) (er_detach r)
    (er_push_interval r) (er_staged_file_id r) (er_id r) (er_extra r).
Definition set_payloads (command config : option payload) (r : ExecutionRequest) : ExecutionRequest :=
  mkExecutionRequest (er_driver r) (er_driver_args r) (er_connection_args r) (er_credential r) config
    command (er_file_transfer r) (er_rendering r) (er_parsing r) (er_queue_strategy r) (er_ttl r)
    (er_execution_timeout r) (er_result_ttl r) (er_audit_mode r) (er_webhook r) (er_detach r)
    (er_push_interval r) (er_staged_file_id r) (er_id r) (er_extra r).
Definition set_staged (f : string) (r : ExecutionRequest) : ExecutionRequest :=
  mkExecutionRequest (er_driver r) (er_driver_args r) (er_connection_args r) (er_credential r) (er_config r)
    (er_command r) (er_file_transfer r) (er_rendering r) (er_parsing r) (er_queue_strategy r) (er_ttl r)
    (er_execution_timeout r) (er_result_ttl r) (er_audit_mode r) (er_webhook r) (er_detach r)
    (er_push_interval r) (Some f) (er_id r) (er_extra r).

(** A device of a bulk request.  [command] and [config] are payloads of a
    request here; the model of the program takes any value. *)
Record BulkDeviceRequest := mkBulkDevice {
  bd_args : DriverConnectionArgs;
  bd_command : option payload;
  bd_config : option payload;
  bd_file_transfer : option pyval;
}.

(** [check_command_config_exclusivity] *)
Definition BulkDeviceRequest_ok (d : BulkDeviceRequest) : bool :=
  Nat.leb (length (filter (λ b, b = true) [is_some (bd_command d); is_some (bd_config d); is_some (bd_file_transfer d)])) 1.

Definition given (kv : string * pyval) : bool := match kv.2 with PNone => false | _ => true end.

(** [device.model_dump(exclude_defaults=True, exclude_none=True,
    exclude_unset=True)] without [command] and [config] *)
Definition device_dict (d : BulkDeviceRequest) : list (string * pyval) :=
  let a := bd_args d in
  filter (λ kv, given kv = true)
    ([("device_type", opt_str (dc_device_type a)); ("host", opt_str (dc_host a));
      ("username", opt_str (dc_username a)); ("password", opt_str (dc_password a));
      ("file_transfer", default PNone (bd_file_transfer d))] ++ dc_extra a).

Definition host_name (d : BulkDeviceRequest) : string := default "None" (dc_host (bd_args d)).

Definition per_device_request (repr : pyval → string) (base_req : ExecutionRequest) (device : BulkDeviceRequest)
    : res ExecutionRequest :=
  if is_some (bd_command device) && is_some (bd_config device) then
    Err (ValueError ("Device " +:+ host_name device +:+ ": cannot specify both 'command' and 'config', choose one"))
  else
    let connection_args := conn_args_copy repr (er_connection_args base_req) (device_dict device) in
    if negb (is_some (dc_host connection_args)) then Err (ValueError "'host' is required for each device")
    else
      let req := set_connection connection_args (er_credential base_req) base_req in
      Ok (match bd_command device, bd_config device with
          | Some c, _ => set_payloads (Some c) None req
          | None, Some c => set_payloads None (Some c) req
          | None, None => req
          end).

Section routes.
Context {W : Type} `{Json} `{Redis W} `{!Rq W} `{!Clock W} `{!Trace W} `{!Scheduler W}.
Context `{!Credentials W} `{!DriverChecks W} `{!Staging W}.
Context (c : Config) (credential : CredentialConfig).

(** [cred_ref.name], the configured one where it is not set *)
Definition provider_name (ref : CredentialRef) : option string :=
  match cr_name ref with None => cc_name credential | n => n end.

(** [_resolve_request_credentials] on the connection arguments and the
    reference of a request *)
Definition _resolve_request_credentials (a : DriverConnectionArgs) (cred_ref : option CredentialRef)
    : M W (DriverConnectionArgs * option CredentialRef) :=
  match cred_ref with
  | None => mret (a, None)
  | Some ref =>
      if negb (cc_enabled credential) then
        raise (ValueError "Credential support is disabled in server configuration")
      else
        let name := provider_name ref in
        if negb (bool_decide (name = cc_name credential)) then
          raise (ValueError ("Unsupported credential provider: " +:+ default "None" name))
        else if negb (from_option credentials_has false name) then
          raise (ValueError ("Credential provider not found: " +:+ default "None" name))
        else
          provider ← provider_from_ref (default "" name) ref (cc_rest credential);
          resolved_args ← provider_resolve provider a;
          mret (resolved_args, None)
  end.

Definition resolve_request (req : ExecutionRequest) : M W ExecutionRequest :=
  '(a, cred) ← _resolve_request_credentials (er_connection_args req) (er_credential req);
  mret (set_connection a cred req).

(** "Enforce driver-level validation" *)
Definition check_driver (driver : DriverName) (req : ExecutionRequest) : res unit :=
  if negb (checks_has driver) then Err (ValueError ("Unsupported driver: " +:+ driver_value driver))
  else driver_validate driver req.

(** ** [/exec] *)
Context (isalnum : ascii → bool).

(** The name an upload is stored under *)
Definition safe_char (a : ascii) : bool := isalnum a || has_char a ".-_".
Fixpoint safe_filename (s : string) : string :=
  match s with
  | EmptyString => EmptyString
  | String a s => String (if safe_char a then a else "_"%char) (safe_filename s)
  end.

Definition staged_path (staged_id : string) (filename : option string) : string :=
  path_join (cfg_staging c)
    (staged_id +:+ "_" +:+ safe_filename (if str_truthy filename then default "" filename else "file")).

(** A request as it comes in: a form with the text of the request, of which
    pydantic makes [parsed], and perhaps a file (its name, its handle); or a
    JSON body. *)
Inductive body :=
  | Multipart (request_data : option string) (parsed : res ExecutionRequest) (file : option (option string * string))
  | JsonBody (parsed : res ExecutionRequest).

Definition invalid (prefix : string) (r : res ExecutionRequest) : res ExecutionRequest :=
  match r with
  | Ok r => Ok r
  | Err e => if is_exception e then Err (HTTPException 422 (prefix +:+ exn_str e)) else Err e
  end.

Definition stage_file (file : option string * string) (req : ExecutionRequest) : M W ExecutionRequest :=
  u ← update uuid4_str;
  let path := staged_path (String.substring 0 8 u) file.1 in
  mkdir_parents (cfg_staging c) ≫= λ _,
  try_except
    (content ← read_upload file.2;
     write_bytes path content ≫= λ _,
     mret (set_staged path req))
    (λ _, raise (HTTPException 500 "Internal file staging failure")).

Definition read_body (b : body) : M W ExecutionRequest :=
  match b with
  | Multipart request_data parsed file =>
      if negb (str_truthy request_data) then
        raise (HTTPException 422 "Field 'request' is required in multipart mode")
      else
        req ← of_res (invalid "Invalid 'request' JSON: " (r ← parsed; ExecutionRequest.model_validate r));
        match file with
        | Some f => stage_file f req
        | None => mret req
        end
  | JsonBody parsed => of_res (invalid "Invalid JSON request: " (r ← parsed; ExecutionRequest.model_validate r))
  end.

Definition exec_route (b : body) : M W JobInResponse :=
  req ← read_body b;
  req ← resolve_request req;
  (if negb (is_some (dc_host (er_connection_args req)))
   then raise (ValueError "'host' in connection_args is required")
   else of_res (check_driver (er_driver req) req)) ≫= λ _,
  execute_on_device c req.

(** ** [/bulk] *)
Definition bulk_route (repr : pyval → string) (base : ExecutionRequest) (devices : list BulkDeviceRequest)
    : M W (list JobInResponse * list BatchFailedItem) :=
  base_req ← of_res (ExecutionRequest.model_validate base);
  base_req ← resolve_request base_req;
  expanded ← of_res (mapR (per_device_request repr base_req) devices);
  match expanded with
  | [] => mret ([], [])
  | req :: _ =>
      of_res (check_driver (er_driver base) req) ≫= λ _,
      execute_on_bulk_devices c expanded
  end.

(** ** [/test]: success, latency, error, result *)
Definition test_route (driver : DriverName) (a : DriverConnectionArgs) (cred_ref : option CredentialRef)
    : M W (bool * Z * option string * pyval) :=
  '(a, _) ← _resolve_request_credentials a cred_ref;
  if negb (checks_has driver) then raise (ValueError ("Unsupported driver: " +:+ driver_value driver))
  else
    start_time ← reads now;
    '(success, error_message, device_info) ←
      try_except (info ← driver_test driver a; mret (true, None, info))
                 (λ e, mret (false, Some (exn_str e), PNone));
    t ← reads now;
    mret (success, (t - start_time)%Z, error_message, device_info).
End routes.

(** The bundled provider is one. *)
Section vault_credentials.
Context {W : Type} `{Json} `{Vault W} `{!Clock W} (hvac_installed : bool) (http_url : string → option string)
  (repr : pyval → string).
Definition vault_credentials : Credentials W :=
  {| Provider := VaultKvCredentialProvider (W:=W);
     credentials_has n := String.eqb n "vault_kv";
     provider_from_ref _ ref cfg := from_credential_ref hvac_installed http_url ref cfg;
     provider_resolve v a := resolve repr v a |}.
End vault_credentials.

(** ** What the routes do *)

(** A device's request: its arguments over those of the base, its payload
    instead of the base's, and the base otherwise *)
Definition overrides (base : ExecutionRequest) (d : BulkDeviceRequest) (r : ExecutionRequest) : Prop :=
  (∀ k, conn_field (er_connection_args r) k =
     match dict_get k (device_dict d) with Some x => Some x | None => conn_field (er_connection_args base) k end)
  ∧ is_some (dc_host (er_connection_args r)) = true
  ∧ (er_command r, er_config r) =
      match bd_command d, bd_config d with
      | None, None => (er_command base, er_config base)
      | command, config => (command, config)
      end
  ∧ ∃ a command config, r = set_payloads command config (set_connection a (er_credential base) base).

Lemma per_device_spec repr base d r : NoDup (device_dict d).*1 → per_device_request repr base d = Ok r →
  overrides base d r.
Proof.
  intros Hnd. unfold per_device_request. case_match eqn:Eex; [done|].
  pose proof (λ k, conn_args_copy_spec repr (er_connection_args base) (device_dict d) k Hnd) as Hc.
  revert Hc. generalize (conn_args_copy repr (er_connection_args base) (device_dict d)). intros a Hc.
  destruct (is_some (dc_host a)) eqn:Eh; [|done]. intros [= <-]. unfold overrides.
  destruct (bd_command d) as [cmd|], (bd_config d) as [cfg|]; simpl in *; (split; [exact Hc|]); (split; [done|]);
    (split; [done|]).
  - done.
  - by exists a, (Some cmd), None.
  - by exists a, None, (Some cfg).
  - exists a, (er_command base), (er_config base). by destruct base.
Qed.

(** Devices with text for their declared fields are not refused for them. *)
Lemma device_text d k x : k ∈ declared_conn_fields → dict_get k (device_dict d) = Some x → NoDup (device_dict d).*1 →
  (∀ kv, kv ∈ dc_extra (bd_args d) → kv.1 ∉ declared_conn_fields) → ∃ t, x = PStr t.
Proof.
  intros Hk Hx Hnd Hex. apply dict_get_elem_of in Hx. unfold device_dict in Hx.
  apply list_elem_of_filter in Hx as [Hg Hx]. unfold given in Hg. simpl in Hg.
  apply elem_of_app in Hx as [Hx|Hx]; [|by apply Hex in Hx].
  unfold declared_conn_fields in Hk.
  repeat (apply elem_of_cons in Hx as [Hx|Hx]; [injection Hx as -> ->|]); try by apply not_elem_of_nil in Hx.
  1-4: match goal with H : context [opt_str ?o] |- _ => destruct o; [by eexists|done] end.
  set_solver.
Qed.

Lemma mapR_Forall2 {A B} (f : A → res B) (P : A → B → Prop) l l' :
  (∀ x y, x ∈ l → f x = Ok y → P x y) → mapR f l = Ok l' → Forall2 P l l'.
Proof.
  revert l'. induction l as [|x l IH]; intros l' Hf E; [by simplify_eq/=|].
  cbn [mapR mbind res_bind] in E. destruct (f x) as [y|e] eqn:Ey; [|done].
  destruct (mapR f l) as [ys|e]; [|done]. simplify_eq/=.
  constructor; [apply Hf; [by left|done]|]. apply IH; [|done]. intros. apply Hf; [by right|done].
Qed.

(** Providers and checks do not queue jobs. *)
Class ChecksLaws (W : Type) `{Redis W} `{!Rq W} `{!Clock W} `{!Trace W} `{!Credentials W} `{!DriverChecks W} `{!Staging W} : Prop := {
  from_ref_steady : ∀ n r cfg, steady queued (provider_from_ref n r cfg);
  resolve_steady : ∀ p a, steady queued (provider_resolve p a);
  validate_ordinary : ∀ d r, ordinary (driver_validate d r);
  mkdir_steady : ∀ p, steady queued (mkdir_parents p);
  read_upload_steady : ∀ f, steady queued (read_upload f);
  write_bytes_steady : ∀ p b, steady queued (write_bytes p b);
}.

Section routes_spec.
Context {W : Type} `{Json} `{Redis W} `{!Rq W} `{!Clock W} `{!Trace W} `{!Scheduler W}.
Context `{!Credentials W} `{!DriverChecks W} `{!Staging W} `{!ChecksLaws W}.
Context (c : Config) (credential : CredentialConfig) (repr : pyval → string).
Abbreviation wp := (Prelude.wp queued).

Lemma wp_resolve a ref (Q : res (DriverConnectionArgs * option CredentialRef) → _ → Prop) v :
  (∀ e, Q (Err e) v) → (∀ a', (ref = None → a' = a) → Q (Ok (a', None)) v) →
  wp (_resolve_request_credentials credential a ref) Q v.
Proof.
  intros He Hok. destruct ref as [ref|]; [|apply wp_ret; by apply Hok].
  cbn [_resolve_request_credentials]. generalize (provider_name credential ref); intros name.
  do 3 (case_match; [by apply wp_raise|]).
  apply wp_bind, wp_keep; [apply from_ref_steady|]. intros [p|e]; [|done].
  apply wp_bind, wp_keep; [apply resolve_steady|]. intros [a'|e]; [|done]. apply wp_ret. by apply Hok.
Qed.

Lemma wp_resolve_request req (Q : res ExecutionRequest → _ → Prop) v :
  (∀ e, Q (Err e) v) → (∀ a', (er_credential req = None → a' = er_connection_args req) → Q (Ok (set_connection a' None req)) v) →
  wp (resolve_request credential req) Q v.
Proof.
  intros He Hok. apply wp_bind, wp_resolve; [done|]. intros a' Ha. apply wp_ret. by apply Hok.
Qed.

Lemma check_driver_ordinary driver req : ordinary (check_driver driver req).
Proof. unfold check_driver. case_match; [by apply ordinary_Err|apply validate_ordinary]. Qed.

(** The part of the bulk route before the dispatch *)
Definition bulk_requests (base : ExecutionRequest) (devices : list BulkDeviceRequest) : M W (list ExecutionRequest) :=
  base_req ← of_res (ExecutionRequest.model_validate base);
  base_req ← resolve_request credential base_req;
  expanded ← of_res (mapR (per_device_request repr base_req) devices);
  match expanded with
  | [] => mret []
  | req :: _ => of_res (check_driver (er_driver base) req) ≫= λ _, mret expanded
  end.

Lemma per_device_ordinary base d : ordinary (per_device_request repr base d).
Proof. unfold per_device_request. case_match; [by apply ordinary_Err|]. ordinary_cases. Qed.

Lemma bulk_requests_spec base devices v : (∀ d, d ∈ devices → NoDup (device_dict d).*1) →
  wp (bulk_requests base devices) (λ r v', v' = v ∧ ∀ reqs, r = Ok reqs →
    ∃ b a, ExecutionRequest.model_validate base = Ok b ∧ (er_credential b = None → a = er_connection_args b)
      ∧ Forall2 (overrides (set_connection a None b)) devices reqs) v.
Proof.
  intros Hnd. unfold bulk_requests. apply wp_bind, wp_of_res; [apply model_validate_ordinary|].
  destruct (ExecutionRequest.model_validate base) as [b|e]; [|done].
  apply wp_bind, wp_resolve_request; [done|]. intros a Ha.
  apply wp_bind, wp_of_res; [apply mapR_ordinary, per_device_ordinary|].
  destruct (mapR _ devices) as [reqs|e] eqn:Em; [|done].
  assert (Forall2 (overrides (set_connection a None b)) devices reqs) as Hall.
  { eapply mapR_Forall2; [|done]. intros d r Hd. by apply per_device_spec, Hnd. }
  destruct reqs as [|req reqs]; [apply wp_ret; split; [done|]; intros ? [= <-]; by exists b, a|].
  apply wp_bind, wp_of_res; [apply check_driver_ordinary|]. destruct (check_driver _ req); [|done].
  apply wp_ret. split; [done|]. intros ? [= <-]. by exists b, a.
Qed.

Lemma bulk_route_eq base devices w : bulk_route c credential repr base devices w =
  match bulk_requests base devices w with
  | (Ok [], w1) => (Ok ([], []), w1)
  | (Ok reqs, w1) => execute_on_bulk_devices c reqs w1
  | (Err e, w1) => (Err e, w1)
  end.
Proof.
  unfold bulk_route, bulk_requests, mbind, M_bind, of_res. destruct (ExecutionRequest.model_validate base); [|done].
  destruct (resolve_request _ _ w) as [[b|e] w1]; [|done].
  destruct (mapR _ _) as [[|req reqs]|e]; [done| |done]. by destruct (check_driver _ _).
Qed.

(** A bulk request.  Each device gets the base request with its own
    connection arguments over the base's, and its own command or configuration
    instead of the base's; the reference to credentials is resolved once and
    does not travel on.  The requests are dispatched together, in the order of
    the devices; a bulk request that is refused queues nothing. *)
Theorem bulk_route_spec base devices w : (∀ d, d ∈ devices → NoDup (device_dict d).*1) →
  let '(r, w') := bulk_route c credential repr base devices w in
  (∃ e, r = Err e ∧ is_exception e = true ∧ queued w' = queued w)
  ∨ ∃ b a reqs w1, ExecutionRequest.model_validate base = Ok b
      ∧ (er_credential b = None → a = er_connection_args b)
      ∧ Forall2 (overrides (set_connection a None b)) devices reqs ∧ queued w1 = queued w
      ∧ (r, w') = match reqs with
                  | [] => (Ok ([], []), w1)
                  | _ => execute_on_bulk_devices c reqs w1
                  end.
Proof.
  intros Hnd. pose proof (wp_run _ _ w (bulk_requests_spec base devices _ Hnd)) as Hb. rewrite bulk_route_eq.
  destruct (bulk_requests base devices w) as [[reqs|e] w1]; destruct Hb as (Ho & Hq & Hreqs).
  - destruct (Hreqs reqs eq_refl) as (b & a & Hv & Ha & Hall).
    destruct reqs as [|req reqs]; [right; by exists b, a, [], w1|].
    destruct (execute_on_bulk_devices c (req :: reqs) w1) as [r w'] eqn:E.
    right. exists b, a, (req :: reqs), w1. by rewrite E.
  - left. exists e. split; [done|]. split; [by apply Ho|done].
Qed.

(** *** One request *)
Context (isalnum : ascii → bool) (Hslash : isalnum slash = false).

Lemma safe_filename_no_slash s : has_char slash (safe_filename isalnum s) = false.
Proof.
  induction s as [|a s IH]; [done|]. cbn [safe_filename has_char]. rewrite IH, orb_false_r.
  unfold safe_char. destruct (Ascii.eqb_spec a slash) as [->|Hne]; [by rewrite Hslash|].
  destruct (isalnum a || has_char a ".-_"); [|done]. by destruct (Ascii.eqb_spec a slash).
Qed.

(** What pydantic makes of the body: its exceptions are ordinary ones. *)
Definition parsed (b : body) : res ExecutionRequest :=
  match b with Multipart _ p _ | JsonBody p => p end.

(** The part of the route before the dispatch *)
Definition exec_request (b : body) : M W ExecutionRequest :=
  req ← read_body c isalnum b;
  req ← resolve_request credential req;
  (if negb (is_some (dc_host (er_connection_args req)))
   then raise (ValueError "'host' in connection_args is required")
   else of_res (check_driver (er_driver req) req)) ≫= λ _,
  mret req.

(** The request with its upload: the bytes of the upload are written to a file
    directly in the staging directory, under a fresh prefix and the name with
    every character but letters, digits and [.-_] replaced, and the request names
    it. *)
Definition staged (b : body) (req : ExecutionRequest) (w : W) (req' : ExecutionRequest) (w' : W) : Prop :=
  match b with
  | Multipart _ _ (Some (filename, handle)) => ∃ u w1 w2 content w3,
      let name := safe_filename isalnum (if str_truthy filename then default "" filename else "file") in
      let path := path_join (cfg_staging c) (String.substring 0 8 u +:+ "_" +:+ name) in
      has_char slash name = false
      ∧ uuid4_str w = (u, w1) ∧ mkdir_parents (cfg_staging c) w1 = (Ok tt, w2)
      ∧ read_upload handle w2 = (Ok content, w3) ∧ write_bytes path content w3 = (Ok tt, w')
      ∧ req' = set_staged path req
  | _ => req' = req ∧ w' = w
  end.

(** The connection arguments with the credentials filled in: what the configured
    provider, built from the reference, makes of them *)
Definition resolved (a : DriverConnectionArgs) (cred_ref : option CredentialRef) (w : W)
    (a' : DriverConnectionArgs) (w' : W) : Prop :=
  match cred_ref with
  | None => a' = a ∧ w' = w
  | Some ref => ∃ name p w1,
      cc_enabled credential = true ∧ cc_name credential = Some name ∧ credentials_has name = true
      ∧ (cr_name ref = None ∨ cr_name ref = Some name)
      ∧ provider_from_ref name ref (cc_rest credential) w = (Ok p, w1)
      ∧ provider_resolve p a w1 = (Ok a', w')
  end.

Lemma resolve_run a ref w x w' : _resolve_request_credentials credential a ref w = (Ok x, w') →
  x.2 = None ∧ resolved a ref w x.1 w'.
Proof.
  destruct ref as [ref|]; [|by intros [= <- <-]]. unfold _resolve_request_credentials, resolved.
  destruct (cc_enabled credential); [|done]. cbn [negb].
  case_bool_decide as Hn; [|done]. cbn [negb]. rewrite Hn. unfold provider_name in Hn.
  destruct (cc_name credential) as [name|]; [|done]. cbn [from_option default id].
  destruct (credentials_has name) eqn:Ec; [|done]. cbn [negb]. unfold mbind, M_bind.
  destruct (provider_from_ref name ref _ w) as [[p|e] w1] eqn:Ep; [|done].
  destruct (provider_resolve p a w1) as [[a'|e] w2] eqn:Er; [|done]. intros [= <- <-].
  split; [done|]. exists name, p, w1. split_and!; try done.
  destruct (cr_name ref); naive_solver.
Qed.

Lemma stage_file_run filename handle req w req' w' text p :
  stage_file c isalnum (filename, handle) req w = (Ok req', w') →
  staged (Multipart text p (Some (filename, handle))) req w req' w'.
Proof.
  unfold stage_file, staged, update, mbind, M_bind, try_except.
  destruct (uuid4_str w) as [u w1] eqn:Eu.
  destruct (mkdir_parents (cfg_staging c) w1) as [[[]|e] w2] eqn:Em; [|done]. cbn [fst snd].
  destruct (read_upload handle w2) as [[content|e] w3] eqn:Er; [|by case_match].
  destruct (write_bytes _ content w3) as [[[]|e] w4] eqn:Ew; [|by case_match].
  intros [= <- <-]. exists u, w1, w2, content, w3. split_and!; try done. apply safe_filename_no_slash.
Qed.

Lemma invalid_ordinary prefix r : ordinary r → ordinary (invalid prefix r).
Proof. destruct r as [a|e]; [done|]. intros He. unfold invalid. case_match; [by apply ordinary_Err|done]. Qed.

Lemma invalid_Ok prefix r a : invalid prefix r = Ok a → r = Ok a.
Proof. unfold invalid. by repeat case_match. Qed.

Lemma wp_stage_file f req (Q : res ExecutionRequest → _ → Prop) v :
  (∀ r, Q r v) → wp (stage_file c isalnum f req) Q v.
Proof.
  intros HQ. apply wp_bind, wp_keep; [|intros [u|e]; [|done]].
  { split; [intros s; unfold update; by destruct (uuid4_str s)|].
    intros s. pose proof (uuid4_str_queued s) as Hu. unfold update. by destruct (uuid4_str s). }
  apply wp_seq; [apply mkdir_steady|done|].
  apply wp_try, wp_bind, wp_keep; [apply read_upload_steady|]. intros [content|e]; [|by apply wp_raise].
  apply wp_seq; [apply write_bytes_steady|intros e; by apply wp_raise|].
  by apply wp_ret.
Qed.

Lemma parse_ordinary b : ordinary (parsed b) → ordinary (r ← parsed b; ExecutionRequest.model_validate r).
Proof. intros Hb. apply ordinary_bind; [done|]. intros r. apply model_validate_ordinary. Qed.

Lemma wp_read_body b (Q : res ExecutionRequest → _ → Prop) v : ordinary (parsed b) →
  (∀ r, Q r v) → wp (read_body c isalnum b) Q v.
Proof.
  intros Hb%parse_ordinary HQ. destruct b as [text p file|p]; unfold read_body.
  - case_match; [by apply wp_raise|].
    apply wp_bind, wp_of_res; [by apply invalid_ordinary|].
    destruct (invalid _ _) as [req|e] eqn:Ei; [|done].
    destruct file as [f|]; [by apply wp_stage_file|by apply wp_ret].
  - apply wp_of_res; [by apply invalid_ordinary|]. by destruct (invalid _ _).
Qed.

Lemma read_body_run b w req1 w' : read_body c isalnum b w = (Ok req1, w') →
  ∃ p req0, parsed b = Ok p ∧ ExecutionRequest.model_validate p = Ok req0 ∧ staged b req0 w req1 w'.
Proof.
  assert (∀ prefix req, invalid prefix (r ← parsed b; ExecutionRequest.model_validate r) = Ok req →
    ∃ r, parsed b = Ok r ∧ ExecutionRequest.model_validate r = Ok req) as Hinv.
  { intros prefix req Hi%invalid_Ok. destruct (parsed b) as [r|e]; [by exists r|done]. }
  destruct b as [text p file|p]; unfold read_body, mbind, M_bind, of_res.
  - case_match; [done|]. cbn [parsed] in *.
    destruct (invalid _ _) as [req|e] eqn:Ei; [|done]. destruct (Hinv _ _ Ei) as (r & Hr & Hv).
    intros E. exists r, req. split; [done|]. split; [done|].
    destruct file as [[filename handle]|]; [by apply stage_file_run|]. by injection E.
  - cbn [parsed] in *.
    destruct (invalid _ _) as [req|e] eqn:Ei; [|done]. destruct (Hinv _ _ Ei) as (r & Hr & Hv).
    intros [= <- <-]. by exists r, req.
Qed.

(** Before the dispatch nothing is queued. *)
Lemma exec_request_quiet b v : ordinary (parsed b) → wp (exec_request b) (λ r v', v' = v) v.
Proof.
  intros Hb. unfold exec_request. apply wp_bind, wp_read_body; [done|]. intros [req1|e]; [|done].
  apply wp_bind, wp_resolve_request; [done|]. intros a _. apply wp_bind.
  destruct (is_some _); [|by apply wp_raise].
  simpl negb. apply wp_of_res; [apply check_driver_ordinary|].
  destruct (check_driver _ _) as [[]|e]; [by apply wp_ret|done].
Qed.

Lemma exec_request_run b w req w' : exec_request b w = (Ok req, w') →
  ∃ p req0 req1 a w1, parsed b = Ok p ∧ ExecutionRequest.model_validate p = Ok req0
    ∧ staged b req0 w req1 w1 ∧ resolved (er_connection_args req1) (er_credential req1) w1 a w'
    ∧ req = set_connection a None req1 ∧ is_some (dc_host a) = true ∧ check_driver (er_driver req) req = Ok tt.
Proof.
  unfold exec_request, resolve_request, mbind, M_bind, of_res.
  destruct (read_body c isalnum b w) as [[req1|e] w1] eqn:E; [|done].
  apply read_body_run in E as (p & req0 & Hp & Hv & Hst).
  destruct (_resolve_request_credentials _ _ _ w1) as [[[a cred]|e] w2] eqn:Er; [|done].
  apply resolve_run in Er as [Hc Hres]. simpl in Hc, Hres. subst cred. unfold mret, M_ret.
  destruct (is_some (dc_host (er_connection_args (set_connection a None req1)))) eqn:Eh; [|done]. cbn [negb].
  destruct (check_driver _ _) as [[]|e] eqn:Ec; [|done]. intros [= <- <-].
  exists p, req0, req1, a, w1. by split_and!.
Qed.

Lemma exec_route_eq b w : exec_route c credential isalnum b w =
  match exec_request b w with
  | (Ok req, w1) => execute_on_device c req w1
  | (Err e, w1) => (Err e, w1)
  end.
Proof.
  unfold exec_route, exec_request, mbind, M_bind, of_res. destruct (read_body _ _ _ w) as [[req|e] w1]; [|done].
  destruct (resolve_request _ _ w1) as [[b'|e] w2]; [|done]. 
  destruct (is_some _); [|done]. simpl. by destruct (check_driver _ _) as [[]|].
Qed.

(** C31. One request.  What is dispatched is the request of the body, valid, with
    the driver's own checks passed and a host.  An upload's bytes were written to a
    file directly in the staging directory, whatever its name was, and the request
    names that file.  The connection arguments are the request's or, with a
    reference to credentials, exactly what the configured provider, built from
    that reference, makes of them, and the reference is dropped.  A request that
    is refused queues nothing. *)
Theorem exec_route_spec b w : ordinary (parsed b) →
  let '(r, w') := exec_route c credential isalnum b w in
  (∃ e, r = Err e ∧ is_exception e = true ∧ queued w' = queued w)
  ∨ ∃ p req0 req1 a req w1 w2, parsed b = Ok p ∧ ExecutionRequest.model_validate p = Ok req0
      ∧ staged b req0 w req1 w1 ∧ resolved (er_connection_args req1) (er_credential req1) w1 a w2
      ∧ req = set_connection a None req1 ∧ is_some (dc_host a) = true
      ∧ check_driver (er_driver req) req = Ok tt ∧ queued w2 = queued w
      ∧ (r, w') = execute_on_device c req w2.
Proof.
  intros Hb. pose proof (wp_run _ _ w (exec_request_quiet b _ Hb)) as He. rewrite exec_route_eq.
  destruct (exec_request b w) as [[req|e] w2] eqn:E; destruct He as [Ho Hq].
  - apply exec_request_run in E as (p & req0 & req1 & a & w1 & Hall).
    destruct (execute_on_device c req w2) as [r w'] eqn:Ed.
    right. exists p, req0, req1, a, req, w1, w2. rewrite Ed. by repeat split; try apply Hall.
  - left. exists e. split; [done|]. split; [by apply Ho|done].
Qed.
End routes_spec.

(** ** Examples

    A provider that knows one user; the driver's checks are those of the
    Paramiko driver's arguments. *)
Module ToyRoutes.
#[export] Instance toy_credentials : Credentials Toy.world :=
  {| Provider := string;
     credentials_has n := String.eqb n "toy";
     provider_from_ref _ r _ := mret (cr_ref r);
     provider_resolve user a := mret (conn_args_copy (λ _, "") a [("username", PStr user)]) |}.
#[export] Instance toy_checks : DriverChecks Toy.world :=
  {| checks_has d := bool_decide (d = PARAMIKO);
     driver_validate _ r := if is_some (dc_username (er_connection_args r)) then Ok tt else Err (ValueError "username");
     driver_test _ a := mret (opt_str (dc_host a)) |}.
#[export] Instance toy_staging : Staging Toy.world :=
  {| mkdir_parents _ := mret tt; read_upload f := mret f; write_bytes _ _ := mret tt |}.

#[export] Instance toy_checks_laws : ChecksLaws Toy.world.
Proof.
  split; try (intros; apply steady_ret).
  - intros d r. simpl. ordinary_cases.
Qed.

Definition letters (a : ascii) : bool := Nat.leb 48 (nat_of_ascii a).
Definition server : CredentialConfig := mkCredentialConfig true (Some "toy") [].
Definition user_ref : CredentialRef := mkCredentialRef None "ops" None None None None.
Definition request (host : string) : ExecutionRequest :=
  mkExecutionRequest PARAMIKO None (toy_conn host) (Some user_ref) None (Some (PayStr "uptime")) None
    None None (Some FIFO) None None None audit_full None false None None None [].
Definition device (host : string) (command : option payload) : BulkDeviceRequest :=
  mkBulkDevice (toy_conn host) command None None.
Definition devices : list BulkDeviceRequest := [device "h1" (Some (PayStr "id")); device "h2" None].

Lemma device_names d : d ∈ devices → NoDup (device_dict d).*1.
Proof. revert d. apply Forall_forall. by apply (bool_decide_unpack _). Qed.

(** Two devices, one with its own command: two jobs. *)
Lemma bulk_route_spec_witness :
  ∃ r1 r2 w1, (∃ b a, Forall2 (overrides (set_connection a None b)) devices [r1; r2])
    ∧ er_command r1 = Some (PayStr "id") ∧ er_command r2 = Some (PayStr "uptime")
    ∧ bulk_route default_config server (λ _, "") (request "h0") devices toy_cluster
      = execute_on_bulk_devices default_config [r1; r2] w1.
Proof.
  pose proof (bulk_route_spec default_config server (λ _, "") (request "h0") devices toy_cluster device_names) as Hs.
  destruct (bulk_route _ _ _ _ _) as [r w'] eqn:E.
  assert (is_ok r = true) as Hok by (change r with (r, w').1; rewrite <-E; vm_compute; reflexivity).
  destruct Hs as [(e & -> & _)|(b & a & reqs & w1 & Hv & _ & Hall & _ & Hr)]; [discriminate|].
  assert (er_command b = Some (PayStr "uptime")) as Hb by (vm_compute in Hv; injection Hv as <-; reflexivity).
  pose proof (Forall2_length _ _ _ Hall) as Hl. destruct reqs as [|r1 [|r2 [|]]]; try discriminate Hl.
  exists r1, r2, w1. split; [exists b, a; exact Hall|].
  apply Forall2_cons in Hall as [(_ & _ & H1 & _) Hall]. apply Forall2_cons in Hall as [(_ & _ & H2 & _) _].
  simpl in H1, H2. injection H1 as H1 _. injection H2 as H2 _. split; [exact H1|]. split; [congruence|exact Hr].
Defined.

(** An upload whose name climbs out of the directory *)
Definition upload : body :=
  Multipart (Some "{...}") (Ok (request "h1")) (Some (Some "../../etc/passwd", "handle")).

Lemma letters_slash : letters slash = false. Proof. reflexivity. Qed.

Lemma exec_route_spec_witness :
  ∃ req w1 u, er_staged_file_id req
      = Some (path_join "/app/storage/staging" (String.substring 0 8 u +:+ "_.._.._etc_passwd"))
    ∧ er_credential req = None ∧ dc_username (er_connection_args req) = Some "ops"
    ∧ exec_route default_config server letters upload toy_cluster = execute_on_device default_config req w1.
Proof.
  pose proof (exec_route_spec default_config server letters letters_slash upload toy_cluster (λ e Hp, ltac:(discriminate Hp)))
    as Hs.
  destruct (exec_route _ _ _ _ _) as [r w'] eqn:E.
  assert (is_ok r = true) as Hok by (change r with (r, w').1; rewrite <-E; vm_compute; reflexivity).
  destruct Hs as [(e & -> & _)|(p & req0 & req1 & a & req & w1 & w2 & Hp & Hv & Hst & Hres & Hreq & _ & _ & _ & Hr)];
    [discriminate|].
  destruct Hst as (u & x1 & x2 & content & x3 & _ & _ & _ & _ & _ & Hst). subst req1 req. eexists _, w2, u.
  split; [|split; [|split; [|exact Hr]]]; [reflexivity..|].
  assert (p = request "h1") as -> by (change (@Ok ExecutionRequest (request "h1") = Ok p) in Hp; congruence).
  vm_compute in Hv. injection Hv as <-.
  destruct Hres as (name & pr & x & _ & _ & _ & _ & Hpr & Ha). injection Hpr as <- <-. injection Ha as <- _. reflexivity.
Defined.

(** Finding: the file transfer of a device of a bulk request goes to its
    connection arguments; the request keeps the one of the base. *)
Lemma bulk_file_transfer_lost :
  match per_device_request (λ _, "") (request "h1")
          (mkBulkDevice (toy_conn "h1") None None (Some (PDict [("operation", PStr "upload")]))) with
  | Ok r => er_file_transfer r = None
      ∧ dict_get "file_transfer" (dc_extra (er_connection_args r)) = Some (PDict [("operation", PStr "upload")])
  | Err _ => False
  end.
Proof. by vm_compute. Qed.
End ToyRoutes.
