(* ===== verification/Fields.v ===== *)
(** * Pydantic classes as tables of fields

    A class of many fields is the list of them, with their types and defaults;
    an object is the dictionary [model_dump] gives: the declared fields in
    order, then what [extra="allow"] keeps. *)

From S2P Require Import Prelude PyLib Models.

Inductive ftype := TStr | TInt | TFloat | TBool | TDict | TOpt (t : ftype).

(** A value of the type, unchanged but for an [int] where a [float] is asked
    for; what pydantic would convert otherwise is refused. *)
Fixpoint coerce (t : ftype) (v : pyval) : option pyval :=
  match t, v with
  | TOpt _, PNone => Some PNone
  | TOpt t, v => coerce t v
  | TStr, PStr _ | TInt, PInt _ | TFloat, PFloat _ | TBool, PBool _ | TDict, PDict _ => Some v
  | TFloat, PInt z => Some (PFloat (z * 1000000))
  | _, _ => None
  end.

Record field := mkField { f_name : string; f_type : ftype; f_default : option pyval }.

Abbreviation model := (list (string * pyval)) (only parsing).

Definition field_value (f : field) (d : model) : res pyval :=
  match dict_get (f_name f) d with
  | Some v => match coerce (f_type f) v with
              | Some v => Ok v
              | None => Err (ValidationError (f_name f))
              end
  | None => match f_default f with Some v => Ok v | None => Err (ValidationError (f_name f)) end
  end.

Fixpoint field_values (fs : list field) (d : model) : res model :=
  match fs with
  | [] => Ok []
  | f :: fs => v ← field_value f d; vs ← field_values fs d; Ok ((f_name f, v) :: vs)
  end.

(** [cls.model_validate(d)] and [fields_set] *)
Definition validate_model (fs : list field) (d : model) : res model :=
  vs ← field_values fs d;
  Ok (vs ++ filter (λ kv, kv.1 ∉ f_name <$> fs) d).

Definition model_fields_set (fs : list field) (d : model) : list string :=
  filter (λ n, dict_has n d = true) (f_name <$> fs).

(** [getattr(obj, k, None)] *)
Definition attr (k : string) (m : model) : pyval := dict_get_or k PNone m.

(** ** [==] on values: numbers by value, dictionaries whatever their order *)
Definition number (v : pyval) : option Z :=
  match v with
  | PBool b => Some (if b then 1000000 else 0)%Z
  | PInt z => Some (z * 1000000)%Z
  | PFloat us => Some us
  | _ => None
  end.

Fixpoint py_eqb (a b : pyval) {struct a} : bool :=
  match a, b with
  | PNone, PNone => true
  | PStr s, PStr t => String.eqb s t
  | PList l, PList m =>
      (fix go l m := match l, m with
                     | [], [] => true
                     | x :: l, y :: m => py_eqb x y && go l m
                     | _, _ => false
                     end) l m
  | PDict d, PDict e =>
      (length d =? length e) &&
      (fix go d := match d with
                   | [] => true
                   | (k, v) :: d => match dict_get k e with Some x => py_eqb v x && go d | None => false end
                   end) d
  | _, _ => match number a, number b with Some x, Some y => (x =? y)%Z | _, _ => false end
  end.

(** ** Lemmas *)
Lemma field_value_ordinary f d : ordinary (field_value f d).
Proof. unfold field_value. ordinary_cases. Qed.

Lemma validate_model_ordinary fs d : ordinary (validate_model fs d).
Proof.
  unfold validate_model. apply ordinary_bind; [|done].
  induction fs as [|f fs IH]; [done|]. cbn [field_values].
  apply ordinary_bind; [apply field_value_ordinary|]. intros v. by apply ordinary_bind.
Qed.
#[export] Hint Resolve validate_model_ordinary : linux_net.

(** A valid object has the declared fields, each of its type. *)
Lemma field_values_get fs d vs f : NoDup (f_name <$> fs) → field_values fs d = Ok vs → f ∈ fs →
  ∃ v, field_value f d = Ok v ∧ dict_get (f_name f) vs = Some v.
Proof.
  revert vs. induction fs as [|g fs IH]; intros vs Hnd E Hf; [by apply not_elem_of_nil in Hf|].
  cbn [field_values mbind res_bind] in E. destruct (field_value g d) as [v|e] eqn:Eg; [|done].
  destruct (field_values fs d) as [vs'|e]; [|done]. cbn in E. injection E as <-. cbn [dict_get].
  cbn in Hnd. apply NoDup_cons in Hnd as [Hg Hnd].
  apply elem_of_cons in Hf as [->|Hf]; [rewrite decide_True by done; eauto|].
  rewrite decide_False; [by apply IH|]. intros Heq. apply Hg. rewrite <-Heq. by apply list_elem_of_fmap_2.
Qed.

Lemma attr_declared fs d m f : NoDup (f_name <$> fs) → validate_model fs d = Ok m → f ∈ fs →
  field_value f d = Ok (attr (f_name f) m).
Proof.
  unfold validate_model. intros Hnd E Hf. destruct (field_values fs d) as [vs|e] eqn:Ev; [|done].
  cbn in E. injection E as <-. destruct (field_values_get _ _ _ _ Hnd Ev Hf) as (v & Hv & Hg).
  rewrite Hv. unfold attr, dict_get_or. by rewrite dict_get_app, Hg.
Qed.

Lemma py_eqb_truthy a b : py_eqb a b = true → truthy a = truthy b.
Proof.
  assert (∀ x y : Z, (x =? y)%Z = true → x = y) as Hz by (intros; by apply Z.eqb_eq).
  destruct a as [|x|x|x|x|l|x], b as [|y|y|y|y|m|y]; try done; simpl;
    try (intros Hq%Hz; repeat case_match; try lia; f_equal; apply eq_true_iff_eq; rewrite !Z.eqb_eq; lia).
  - intros ->%String.eqb_eq. done.
  - by destruct l, m.
  - by destruct x, y.
Qed.

Lemma py_eqb_get k d e v : py_eqb (PDict d) (PDict e) = true → dict_get k d = Some v →
  ∃ x, dict_get k e = Some x ∧ py_eqb v x = true.
Proof.
  cbn [py_eqb]. intros [_ Hd]%andb_true_iff. induction d as [|[k' v'] d IH]; [done|].
  cbn [dict_get]. destruct (dict_get k' e) as [x|] eqn:Ex; [|done].
  apply andb_true_iff in Hd as [Hx Hd]. case_decide as Hk; [|by apply IH].
  intros [= <-]. subst. eauto.
Qed.

(** Equal objects agree on the truth of an attribute one of them has. *)
Lemma py_eqb_attr k d e : py_eqb (PDict d) (PDict e) = true → truthy (attr k d) = true → truthy (attr k e) = true.
Proof.
  unfold attr, dict_get_or. intros He. destruct (dict_get k d) as [v|] eqn:Ev; [|done].
  destruct (py_eqb_get _ _ _ _ He Ev) as (x & -> & Hx%py_eqb_truthy). simpl. congruence.
Qed.
