(* ===== verification/Netmiko.v ===== *)
(** * The Netmiko driver

    [linux_net/plugins/drivers/netmiko/]: the session a worker keeps and the
    thread that watches it, commands, configurations line by line, file
    transfers.  The driver object, the connection and the lock they share are
    used by one job at a time; the watching thread is modelled round by round. *)

From Stdlib Require Import Ascii.
From S2P Require Import Prelude PyLib Models World Storage ParamikoModel Fields.

(** ** What the driver uses of [netmiko], of threads and of the disk *)
Class NetmikoLib (W : Type) := {
  Conn : Type;
  ConnectHandler : list (string * pyval) → M W Conn;
  nm_disconnect : Conn → M W unit;
  nm_is_alive : Conn → M W bool;
  find_prompt : Conn → M W string;
  set_base_prompt : Conn → M W unit;
  base_prompt : Conn → W → string;
  enable : Conn → M W unit;
  exit_enable_mode : Conn → M W unit;
  config_mode : Conn → option pyval → M W unit;
  exit_config_mode : Conn → M W unit;
  clear_buffer : Conn → M W unit;
  write_channel : Conn → string → M W unit;
  normalize_cmd : Conn → string → string;
  RETURN : Conn → string;
  read_until_pattern : Conn → string → Z → M W string;
  send_command : Conn → string → list (string * pyval) → M W pyval;
  nm_commit : Conn → M W (option string);
  save_config : Conn → M W (option string);
  (** source, destination, direction, overwrite *)
  nm_file_transfer : Conn → string → string → string → bool → M W (list (string * pyval));
}.

Class Threads (W : Type) := {
  NThread : Type;
  NEvent : Type;
  new_event : W → NEvent * W;
  set_event : NEvent → W → W;
  is_set : NEvent → W → bool;
  wait_event : NEvent → pyval → W → bool * W;
  start_thread : M W NThread;
  alive_thread : NThread → W → bool;
  join_thread : NThread → Z → M W unit;
}.

Class StagingDirs (W : Type) := {
  dir_exists : string → W → bool;
  make_dirs : string → M W unit;
}.

(** ** Models ([model.py]) *)
Definition opt (n : string) (t : ftype) (v : pyval) : field := mkField n (TOpt t) (Some v).
Definition required (n : string) (t : ftype) : field := mkField n t None.

Definition NetmikoConnectionArgs : list field :=
  [required "device_type" TStr; required "host" TStr; required "username" TStr; required "password" TStr;
   opt "ip" TStr PNone; opt "secret" TStr PNone; opt "port" TInt (PInt 22); opt "verbose" TBool PNone;
   opt "global_delay_factor" TInt (PInt 1); opt "global_cmd_verify" TBool PNone; opt "use_keys" TBool PNone;
   opt "key_file" TStr PNone; opt "pkey" TStr PNone; opt "passphrase" TStr PNone;
   opt "disabled_algorithms" TDict PNone; mkField "disable_sha2_fix" TBool (Some (PBool false));
   opt "allow_agent" TBool (PBool false); opt "ssh_strict" TBool PNone; opt "system_host_keys" TBool (PBool false);
   opt "alt_host_keys" TBool (PBool false); opt "alt_key_file" TStr (PStr ""); opt "ssh_config_file" TStr PNone;
   opt "timeout" TInt (PInt 100); opt "session_timeout" TInt PNone; opt "auth_timeout" TFloat PNone;
   opt "blocking_timeout" TInt (PInt 20); opt "banner_timeout" TInt (PInt 15); opt "keepalive" TInt (PInt 180);
   opt "default_enter" TStr PNone; opt "response_return" TStr PNone; opt "serial_settings" TStr PNone;
   opt "fast_cli" TBool (PBool false); opt "session_log" TStr PNone;
   opt "session_log_record_writes" TBool (PBool false); opt "session_log_file_mode" TStr (PStr "write");
   opt "allow_auto_change" TBool (PBool false); opt "encoding" TStr (PStr "ascii")].

Definition flag (n : string) (b : bool) : field := mkField n TBool (Some (PBool b)).

Definition NetmikoSendCommandArgs : list field :=
  [opt "expect_string" TStr PNone; mkField "read_timeout" TFloat (Some (PFloat 30000000));
   opt "delay_factor" TFloat PNone; opt "max_loops" TInt PNone; flag "auto_find_prompt" true;
   flag "strip_prompt" true; flag "strip_command" true; flag "normalize" true; flag "use_textfsm" false;
   opt "textfsm_template" TStr PNone; flag "use_ttp" false; opt "ttp_template" TStr PNone;
   flag "use_genie" false; flag "cmd_verify" true; flag "raise_parsing_error" false].

Definition NetmikoSendConfigSetArgs : list field :=
  [flag "exit_config_mode" true; opt "read_timeout" TFloat PNone; opt "delay_factor" TFloat PNone;
   opt "max_loops" TInt PNone; flag "strip_prompt" false; flag "strip_command" false;
   opt "config_mode_command" TStr PNone; flag "cmd_verify" true; flag "enter_config_mode" true;
   mkField "error_pattern" TStr (Some (PStr "")); mkField "terminator" TStr (Some (PStr "#"));
   opt "bypass_commands" TStr PNone].

(** [self.args]: one of the two models; of the first, which fields were given *)
Inductive nargs := SendCommand (m : list (string * pyval)) (fields_set : list string) | SendConfigSet (m : list (string * pyval)).

Definition args_model (a : nargs) : list (string * pyval) :=
  match a with SendCommand m _ | SendConfigSet m => m end.

(** [NetmikoSendConfigSetArgs | NetmikoSendCommandArgs]: where both fit,
    pydantic's choice is [fits_command d]. *)
Definition NetmikoArgs_validate (fits_command : list (string * pyval) → bool) (d : list (string * pyval)) : res nargs :=
  let as_command := m ← validate_model NetmikoSendCommandArgs d; Ok (SendCommand m (model_fields_set NetmikoSendCommandArgs d)) in
  let as_config := m ← validate_model NetmikoSendConfigSetArgs d; Ok (SendConfigSet m) in
  match as_command, as_config with
  | Ok a, Ok b => Ok (if fits_command d then a else b)
  | Ok a, Err _ => Ok a
  | Err _, b => b
  end.

(** [self] *)
Record Driver := mkDriver {
  d_args : option nargs;
  d_conn_args : list (string * pyval);
  d_enabled : bool;
  d_save : bool;
  d_staged_file_id : option string;
  d_job_id : string;
  d_file_transfer : option FileTransferModel;
}.

(** [NetmikoExecutionRequest.model_validate(req.model_dump())], with the two
    fields of its own *)
Definition validate_request (fits_command : list (string * pyval) → bool) (req : ExecutionRequest) : res Driver :=
  conn_args ← validate_model NetmikoConnectionArgs (DriverConnectionArgs_dump (er_connection_args req));
  args ← match er_driver_args req with
         | None => Ok None
         | Some d => a ← NetmikoArgs_validate fits_command d; Ok (Some a)
         end;
  save ← field_or "save" false as_bool (er_extra req);
  enable_mode ← field_or "enable_mode" false as_bool (er_extra req);
  req ← ExecutionRequest.model_validate req;
  Ok (mkDriver args conn_args enable_mode save (er_staged_file_id req)
        (if str_truthy (er_id req) then default "" (er_id req) else "unknown") (er_file_transfer req)).

Definition validate (fits_command : list (string * pyval) → bool) (req : ExecutionRequest) : res unit :=
  validate_request fits_command req ≫= λ _, Ok tt.

(** ** Prompts and errors in the output of a device *)

(** [re.escape] *)
Definition is_special (a : ascii) : bool :=
  let n := nat_of_ascii a in
  has_char a "()[]{}?*+-|^$.&~# " || (n =? 92) || (9 <=? n) && (n <=? 13).
Fixpoint re_escape (s : string) : string :=
  match s with
  | EmptyString => EmptyString
  | String a s => if is_special a then String (ascii_of_nat 92) (String a (re_escape s)) else String a (re_escape s)
  end.

(** The pattern the device is read up to: the prompt, then anything, then a
    terminator.  [config_args] never has a [terminator]. *)
Definition read_pattern (prompt : string) : string :=
  let bs := String (ascii_of_nat 92) EmptyString in
  re_escape prompt +:+ ".*?(?:[" +:+ bs +:+ "]#>$%]|#)" +:+ bs +:+ "s*$".

(** [prompt_re.match(line)] on a stripped line: the prompt is in it, and later
    on it ends with a terminator. *)
Definition is_prompt (prompt line : string) : bool :=
  let n := String.length line - 1 in
  match String.get n line with
  | Some a => has_char a "]#>$%" && contains (String.substring 0 n line) prompt
  | None => false
  end.

Definition cleaned (prompt cmd raw_output : string) : string :=
  join nl (filter (λ l, negb (String.eqb l "") && negb (String.eqb l (strip cmd)) && negb (is_prompt prompt l) = true)
             (strip <$> splitlines raw_output)).

(** [re.search(pattern, output, re.IGNORECASE)] of each of [ERROR_PATTERNS] *)
Definition reports_error (output : string) : bool :=
  let o := lower output in
  any (λ m, contains o ("% " +:+ m))
    ["unrecognized command"; "wrong parameter"; "incomplete command"; "invalid input"; "ambiguous command"]
  || contains o "^" || contains o "invalid input detected" || contains o "error:".

Definition error_message (output : string) : string :=
  "Device reported configuration error: " +:+ default "Error detected" (last (splitlines (strip output))).

(** ** The state of the class, and [_session_reused] of the object that runs *)
Record NState {W} `{NetmikoLib W} `{Threads W} := mkNState {
  persisted_session : option Conn;
  persisted_conn_args : option (list (string * pyval));
  monitor_stop_event : option NEvent;
  monitor_thread : option NThread;
  session_reused : bool;
}.
Arguments mkNState {W _ _} _ _ _ _ _.

Class NetmikoState (W : Type) `{NetmikoLib W} `{Threads W} := {
  nstate : W → NState;
  set_nstate : NState → W → W;
}.

Section driver.
Context {W : Type} `{NetmikoLib W} `{!Threads W} `{!NetmikoState W} `{!StagingDirs W} `{!Clock W}.
Context (c : Config) (repr : pyval → string).
(** [re.search] of a pattern the request gives *)
Context (re_search : string → string → res bool).
Implicit Types (d : Driver) (s : Conn).

Definition gets {A} (f : NState → A) : M W A := reads (λ w, f (nstate w)).
Definition modify (f : NState → NState) : M W unit := writes (λ w, set_nstate (f (nstate w)) w).

(** ** The persisted session *)
Definition set_session (s : option Conn) (a : option (list (string * pyval))) (p : NState) : NState :=
  mkNState s a (monitor_stop_event p) (monitor_thread p) (session_reused p).
Definition set_monitor (e : option NEvent) (t : option NThread) (p : NState) : NState :=
  mkNState (persisted_session p) (persisted_conn_args p) e t (session_reused p).
Definition set_reused (b : bool) (p : NState) : NState :=
  mkNState (persisted_session p) (persisted_conn_args p) (monitor_stop_event p) (monitor_thread p) b.

Definition keepalive (a : list (string * pyval)) : pyval := attr "keepalive" a.

Definition thread_runs (w : W) : bool :=
  match monitor_thread (nstate w) with Some t => alive_thread t w | None => false end.

Definition _start_monitor_thread : M W unit :=
  alive ← reads thread_runs;
  if alive : bool then mret tt
  else
    a ← gets persisted_conn_args;
    match a with
    | None => raise (AssertionError "")
    | Some _ =>
        e ← update new_event;
        modify (λ p, set_monitor (Some e) (monitor_thread p) p) ≫= λ _,
        t ← start_thread;
        modify (λ p, set_monitor (monitor_stop_event p) (Some t) p)
    end.

Definition _stop_monitor_thread : M W unit :=
  e ← gets monitor_stop_event;
  match e with Some e => writes (set_event e) | None => mret tt end ≫= λ _,
  t ← gets monitor_thread;
  alive ← reads thread_runs;
  match t with
  | Some t => if alive : bool then join_thread t (seconds 5) else mret tt
  | None => mret tt
  end ≫= λ _,
  modify (set_monitor None None).

Definition _set_persisted_session (session : option Conn) (conn_args : option (list (string * pyval))) : M W unit :=
  match session with
  | None =>
      a ← gets persisted_conn_args;
      match a with
      | None => raise (AssertionError "")
      | Some a =>
          (if truthy (keepalive a) then _stop_monitor_thread else mret tt) ≫= λ _,
          modify (set_session None None)
      end
  | Some s => modify (set_session (Some s) conn_args) ≫= λ _, _start_monitor_thread
  end.

(** [cls.persisted_conn_args != conn_args] *)
Definition same_args (a : option (list (string * pyval))) (conn_args : list (string * pyval)) : bool :=
  match a with Some a => py_eqb (PDict a) (PDict conn_args) | None => false end.

Definition _get_persisted_session (conn_args : list (string * pyval)) : M W (option Conn) :=
  session ← gets persisted_session;
  args ← gets persisted_conn_args;
  match session with
  | Some s =>
      if negb (same_args args conn_args) then
        try_finally (try_except (nm_disconnect s) (λ _, mret tt)) (_set_persisted_session None None) ≫= λ _,
        gets persisted_session
      else mret session
  | None => mret session
  end.

Definition connect d : M W Conn :=
  persisted ← _get_persisted_session (d_conn_args d);
  match persisted with
  | Some s => modify (set_reused true) ≫= λ _, mret s
  | None =>
      s ← ConnectHandler (d_conn_args d);
      modify (set_reused false) ≫= λ _,
      (if truthy (keepalive (d_conn_args d)) then _set_persisted_session (Some s) (Some (d_conn_args d)) else mret tt) ≫= λ _,
      mret s
  end.

Definition disconnect d s (reset : bool) : M W unit :=
  if truthy (keepalive (d_conn_args d)) && negb reset then mret tt
  else try_finally (nm_disconnect s) (_set_persisted_session None (Some (d_conn_args d))).

(** ** Results *)
Definition _get_base_metadata d (start_time : Z) : M W (list (string * pyval)) :=
  t ← reads now;
  reused ← gets session_reused;
  mret [("host", attr "host" (d_conn_args d)); ("duration_seconds", PFloat (round3 (t - start_time)));
        ("session_reused", PBool reused)].

Definition result_of (command : string) (stdout : pyval) (stderr : string) (exit_status : Z)
    (metadata : list (string * pyval)) : DriverExecutionResult :=
  mkResult command stdout stderr exit_status None metadata PNone.

Definition timed d (start_time : Z) (command : string) (stdout : pyval) (stderr : string) (exit_status : Z)
    : M W DriverExecutionResult :=
  metadata ← _get_base_metadata d start_time;
  mret (result_of command stdout stderr exit_status metadata).

Definition failed d (command : string) (start_time : Z) (e : exn) : M W (list DriverExecutionResult) :=
  r ← timed d start_time command (PStr "") (exn_str e) 1; mret [r].

(** ** File transfers *)

(** What a request gives: the model, or the value of an undeclared argument *)
Inductive transfer_op := TransferModel (op : FileTransferModel) | TransferValue (v : pyval).

Definition operation_str (o : FileOperation) : string :=
  match o with upload => "upload" | download => "download" end.

Definition effective_dest_path d (local_path : option string) (fallback : string) : M W string :=
  p ← reads (λ w, _get_effective_dest_path c (λ p, dir_exists p w) (d_job_id d) local_path (Some fallback));
  (if str_truthy local_path && isabs (default "" local_path) then mret tt
   else make_dirs (path_join (path_join (cfg_staging c) "downloads") ("dl_" +:+ d_job_id d))) ≫= λ _,
  mret p.

(** Source, destination, direction *)
Definition transfer_paths d (op : FileTransferModel) : M W (string * string * string) :=
  match ft_operation op with
  | upload =>
      let local := _get_effective_source_path (d_staged_file_id d) (ft_local_path op) in
      if negb (str_truthy local) then raise (ValueError "No local path or staged file provided for upload.")
      else mret (default "" local, _get_effective_remote_path (ft_remote_path op) local, "put")
  | download =>
      local ← effective_dest_path d (ft_local_path op) (basename (ft_remote_path op));
      mret (ft_remote_path op, local, "get")
  end.

Definition transfer_result d (start_time : Z) (op : FileTransferModel) (source dest direction : string)
    (results : list (string * pyval)) : M W (list DriverExecutionResult) :=
  let get := String.eqb direction "get" in
  let actual_remote := if get then dest else source in
  let there := truthy (attr "file_exists" results) in
  metadata ← _get_base_metadata d start_time;
  mret [result_of (operation_str (ft_operation op) +:+ " " +:+ actual_remote)
          (PStr ("File transfer results: " +:+ repr (PDict results))) "" (if there then 0 else 1)
          (dict_update metadata
             [("transferred_bytes", dict_get_or "file_size" (PInt 0) results);
              ("transfer_success", PBool there);
              ("md5_verified", PBool (truthy (attr "file_verified" results)));
              ("local_path", PStr (if get then dest else source));
              ("remote_path", PStr actual_remote)])].

Definition _handle_file_transfer d s (op : transfer_op) : M W (list DriverExecutionResult) :=
  try_except
    (start_time ← reads now;
     match op with
     | TransferValue v => raise (OtherError "AttributeError" ("'" +:+ py_type v +:+ "' object has no attribute 'operation'"))
     | TransferModel op =>
         '(source, dest, direction) ← transfer_paths d op;
         results ← nm_file_transfer s source dest direction (ft_overwrite op);
         transfer_result d start_time op source dest direction results
     end)
    (λ e, mret [result_of "file_transfer" (PStr "") (exn_str e) 1 [("duration_seconds", PFloat 0)]]).

(** [getattr(self.args, "file_transfer", None)] *)
Definition nested_transfer d : option transfer_op :=
  match d_args d with
  | Some a => match attr "file_transfer" (args_model a) with PNone => None | v => Some (TransferValue v) end
  | None => None
  end.

Definition when (b : bool) (m : M W unit) : M W unit := if b then m else mret tt.

(** ** [send] *)

(** The given attributes of the arguments, over [dflt] *)
Definition given_attrs (a : list (string * pyval)) (empty : bool) (names : list string) (dflt : list (string * pyval))
    : list (string * pyval) :=
  foldl (λ m k, match attr k a with
                | PNone => m
                | v => if empty && bool_decide (v = PStr "") then m else dict_set k v m
                end) dflt names.

Definition send_kwargs (args : option nargs) : list (string * pyval) :=
  let cmd_args := [("cmd_verify", PBool false); ("read_timeout", PFloat 30000000)] in
  match args with
  | Some (SendCommand m fields_set) =>
      if bool_decide ("cmd_verify" ∈ fields_set) then m else dict_set "cmd_verify" (PBool false) m
  | Some (SendConfigSet m) =>
      given_attrs m false ["read_timeout"; "delay_factor"; "max_loops"; "strip_prompt"; "strip_command"] cmd_args
  | None => cmd_args
  end.

(** The rest of a [try] after [m]: its [except] starts where [m] does *)
Definition attempt {A B} (m : M W A) (handler : exn → M W B) (k : A → M W B) : M W B := λ w,
  match m w with
  | (Ok a, w') => k a w'
  | (Err e, w') => if is_exception e then handler e w' else (Err e, w')
  end.

(** One command after the other; [start_time] is that of the last one begun. *)
Fixpoint send_commands d s (command : list string) (start_time : Z) (cmds : list string)
    (result : list DriverExecutionResult) : M W (list DriverExecutionResult) :=
  match cmds with
  | [] => attempt (when (d_enabled d) (exit_enable_mode s)) (failed d (join " " command) start_time) (λ _, mret result)
  | cmd :: cmds =>
      start_time ← reads now;
      attempt (send_command s cmd (send_kwargs (d_args d))) (failed d (join " " command) start_time) (λ response,
        r ← timed d start_time cmd response "" 0;
        send_commands d s command start_time cmds (result ++ [r]))
  end.

Definition top_transfer d : option transfer_op :=
  match d_file_transfer d with Some op => Some (TransferModel op) | None => nested_transfer d end.

Definition send d s (command : list string) : M W (list DriverExecutionResult) :=
  start_time ← reads now;
  attempt (when (d_enabled d) (enable s)) (failed d (join " " command) start_time) (λ _,
    match top_transfer d with
    | Some op => _handle_file_transfer d s op
    | None =>
        reused ← gets session_reused;
        when reused (try_except (clear_buffer s) (λ _, mret tt)) ≫= λ _,
        send_commands d s command start_time command []
    end).

(** ** [config] *)
Definition config_args d : list (string * pyval) :=
  match d_args d with
  | Some a => given_attrs (args_model a) true ["read_timeout"; "delay_factor"; "max_loops"; "strip_prompt";
                "strip_command"; "cmd_verify"; "error_pattern"; "config_mode_command"] []
  | None => []
  end.

Definition to_float (v : pyval) : res Z :=
  match number v with
  | Some us => Ok us
  | None => Err (TypeError ("float() argument must be a string or a real number, not '" +:+ py_type v +:+ "'"))
  end.

Definition read_timeout (args : list (string * pyval)) : res Z :=
  match attr "read_timeout" args with PNone => Ok 10000000%Z | v => to_float v end.

(** "Validate output for device-side errors": with the request's own pattern
    or the driver's *)
Definition check_output (args : list (string * pyval)) (output : string) : res bool :=
  match dict_get "error_pattern" args with
  | Some (PStr p) => re_search p output
  | Some v => Err (TypeError "first argument must be string or compiled pattern")
  | None => Ok (reports_error output)
  end.

(** One line: what it printed, the error and the status *)
Definition run_line (args : list (string * pyval)) (prompt : string) (timeout : Z) s (cmd : string)
    : M W (string * string * Z) :=
  write_channel s (normalize_cmd s cmd) ≫= λ _,
  raw_output ← read_until_pattern s (read_pattern prompt) timeout;
  let output := cleaned prompt cmd raw_output in
  bad ← of_res (check_output args output);
  mret (if bad : bool then (output, error_message output, 1%Z) else (output, "", 0%Z)).

Definition skipped d (why cmd skipped_cmd : string) : M W DriverExecutionResult :=
  t ← reads now;
  timed d t skipped_cmd (PStr "") ("Skipped due to " +:+ why +:+ " in execution of '" +:+ cmd +:+ "'") 1.

(** The lines until one fails; the rest is skipped. *)
Fixpoint config_lines d (args : list (string * pyval)) (prompt : string) (timeout : Z) s (config : list string)
    (results : list DriverExecutionResult) : M W (list DriverExecutionResult) :=
  match config with
  | [] => mret results
  | cmd :: config =>
      line_start ← reads now;
      '(output, error_msg, exit_status, why) ←
        try_except ('(o, e, st) ← run_line args prompt timeout s cmd; mret (o, e, st, "previous error"))
                   (λ e, mret ("", exn_str e, 1%Z, "exception"));
      r ← timed d line_start cmd (PStr output) error_msg exit_status;
      if (exit_status =? 0)%Z then config_lines d args prompt timeout s config (results ++ [r])
      else rest ← mapM (skipped d why cmd) config; mret (results ++ r :: rest)
  end.

Definition is_unsupported (e : exn) : bool :=
  match e with
  | NotImplementedError _ => true
  | OtherError cls _ => String.eqb cls "AttributeError"
  | _ => false
  end.

Definition _commit s : M W (option string) := λ w,
  match nm_commit s w with
  | (Err e, w') => if is_unsupported e then (Ok None, w') else (Err e, w')
  | r => r
  end.

(** [results[-1].stdout += ...] *)
Definition add_stdout (text : option string) (results : list DriverExecutionResult) : list DriverExecutionResult :=
  if str_truthy text then
    alter (λ r, mkResult (r_command r)
                  (match r_stdout r with PStr o => PStr (o +:+ nl +:+ default "" text) | v => v end)
                  (r_stderr r) (r_exit_status r) (r_download_url r) (r_metadata r) (r_parsed r))
      (pred (length results)) results
  else results.

Definition all_success (results : list DriverExecutionResult) : bool :=
  forallb (λ r, (r_exit_status r =? 0)%Z) results.

(** From the configuration mode on *)
Definition configure d s (config : list string) : M W (list DriverExecutionResult) :=
  let args := config_args d in
  let config_cmd := attr "config_mode_command" args in
  config_mode s (if truthy config_cmd then Some config_cmd else None) ≫= λ _,
  timeout ← of_res (read_timeout args);
  prompt ← reads (base_prompt s);
  results ← config_lines d args (strip prompt) timeout s config [];
  commit ← _commit s;
  let results := add_stdout commit results in
  results ← (if d_save d && all_success results
             then set_base_prompt s ≫= λ _, saved ← save_config s; mret (add_stdout saved results)
             else mret results);
  exit_config_mode s ≫= λ _,
  when (d_enabled d) (exit_enable_mode s) ≫= λ _,
  mret results.

Definition config d s (config : list string) : M W (list DriverExecutionResult) :=
  start_time ← reads now;
  try_except
    (set_base_prompt s ≫= λ _,
     when (d_enabled d) (enable s) ≫= λ _,
     match nested_transfer d with
     | Some op => _handle_file_transfer d s op
     | None => configure d s config
     end)
    (failed d (join nl config) start_time).

(** [NetmikoDriver.from_execution_request] and [__init__] *)
Definition from_execution_request (fits_command : list (string * pyval) → bool) (req : ExecutionRequest) : M W Driver :=
  d ← of_res (validate_request fits_command req);
  modify (set_reused false) ≫= λ _, mret d.

(** [NetmikoDriver.test]: device type, host, prompt *)
Definition not_none (kv : string * pyval) : bool := match kv.2 with PNone => false | _ => true end.

Definition test (connection_args : DriverConnectionArgs) : M W (pyval * pyval * string) :=
  conn_args ← of_res (validate_model NetmikoConnectionArgs
                        (filter (λ kv, not_none kv = true) (DriverConnectionArgs_dump connection_args)));
  connection ← ConnectHandler (filter (λ kv, not_none kv = true) conn_args);
  try_finally
    (prompt ← find_prompt connection; mret (attr "device_type" conn_args, attr "host" conn_args, prompt))
    (try_except (nm_disconnect connection) (λ _, mret tt)).

(** ** The thread that watches the session: one round of its loop

    It reads the event from the class at each use; while it waits, a job may
    have removed it.  On [Suicide] the worker's process ends. *)
Inductive round := Quit | Suicide | Again.

Definition stop_event : M W NEvent :=
  e ← gets monitor_stop_event;
  match e with
  | Some e => mret e
  | None => raise (OtherError "AttributeError" "'NoneType' object has no attribute 'is_set'")
  end.

Definition suicide : M W round := e ← stop_event; writes (set_event e) ≫= λ _, mret Suicide.

(** "Keepalive": the prompt that answers is drained, so that no later command
    takes it for its own *)
Definition send_return s : M W unit :=
  clear_buffer s ≫= λ _, write_channel s (RETURN s) ≫= λ _, writes (sleep 500000) ≫= λ _, clear_buffer s.

Definition monitor_round s (timeout : pyval) : M W round :=
  e ← stop_event;
  set ← reads (is_set e);
  if set : bool then mret Quit
  else
    e ← stop_event;
    stopped ← update (wait_event e timeout);
    if stopped : bool then mret Quit
    else
      e ← stop_event;
      set ← reads (is_set e);
      if set : bool then mret Quit
      else
        alive ← nm_is_alive s;
        if negb alive then suicide
        else try_except (send_return s ≫= λ _, mret Again) (λ _, suicide).
End driver.
