(* ===== verification/NetmikoSpec.v ===== *)
(** * The Netmiko driver: its theorems

    What a configuration types into the device, commits and saves; the results
    of commands; which session a job runs on; and that the driver keeps the
    contract of the workers. *)

From Stdlib Require Import Ascii.
From S2P Require Import Prelude PyLib Models World Registry Storage Rpc Calm ParamikoModel Fields Netmiko.

(** ** What the driver relies on

    The calls that leave a mark on the device, in order, whether they succeed
    or not *)
Inductive event := Typed (line : string) | Committed | Saved.

Class NetmikoLog (W : Type) := { log : W → list event }.

(** What the theorems look at: the log and the kept session *)
Definition seen {W} `{NetmikoState W} `{!NetmikoLog W} (w : W)
    : list event * (option Conn * option (list (string * pyval))) :=
  (log w, (persisted_session (nstate w), persisted_conn_args (nstate w))).

(** After more events *)
Definition on {B} (es : list event) (v : list event * B) : list event * B := (v.1 ++ es, v.2).

(** Every call raises ordinary exceptions only and leaves the driver's own
    state alone; three of them are logged. *)
Class NetmikoLaws (W : Type) `{NetmikoState W} `{!NetmikoLog W} `{!StagingDirs W} `{!Clock W} : Prop := {
  handler_call : ∀ a, steady seen (ConnectHandler a);
  disconnect_call : ∀ s, steady seen (nm_disconnect s);
  alive_call : ∀ s, steady seen (nm_is_alive s);
  prompt_call : ∀ s, steady seen (find_prompt s);
  base_prompt_call : ∀ s, steady seen (set_base_prompt s);
  enable_call : ∀ s, steady seen (enable s);
  exit_enable_call : ∀ s, steady seen (exit_enable_mode s);
  config_mode_call : ∀ s m, steady seen (config_mode s m);
  exit_config_call : ∀ s, steady seen (exit_config_mode s);
  clear_call : ∀ s, steady seen (clear_buffer s);
  read_call : ∀ s p t, steady seen (read_until_pattern s p t);
  send_command_call : ∀ s x a, steady seen (send_command s x a);
  transfer_call : ∀ s a b x o, steady seen (nm_file_transfer s a b x o);
  make_dirs_call : ∀ p, steady seen (make_dirs p);
  start_call : steady seen start_thread;
  join_call : ∀ t n, steady seen (join_thread t n);
  new_event_seen : ∀ w, seen (new_event w).2 = seen w;
  set_event_seen : ∀ e w, seen (set_event e w) = seen w;
  write_call : ∀ s x, safe (write_channel s x);
  write_log : ∀ s x w, seen (write_channel s x w).2 = on [Typed x] (seen w);
  commit_call : ∀ s, safe (nm_commit s);
  commit_log : ∀ s w, seen (nm_commit s w).2 = on [Committed] (seen w);
  save_call : ∀ s, safe (save_config s);
  save_log : ∀ s w, seen (save_config s w).2 = on [Saved] (seen w);
  set_nstate_get : ∀ p w, nstate (set_nstate p w) = p;
  set_nstate_log : ∀ p w, log (set_nstate p w) = log w;
}.

#[export] Hint Resolve handler_call disconnect_call alive_call prompt_call base_prompt_call enable_call
  exit_enable_call config_mode_call exit_config_call clear_call read_call send_command_call
  transfer_call make_dirs_call start_call join_call : linux_net.

(** A custom pattern that is no pattern raises [re.error]. *)
Definition searches (re_search : string → string → res bool) : Prop := ∀ p o, ordinary (re_search p o).

(** ** The results of a configuration *)

(** Command, error and status of a result *)
Definition core (r : DriverExecutionResult) : string * string * Z :=
  (r_command r, r_stderr r, r_exit_status r).

Definition skip_text (why cmd : string) : string :=
  "Skipped due to " +:+ why +:+ " in execution of '" +:+ cmd +:+ "'".

(** One result for every line in its order; [typed] are the lines that
    reached the device: all up to the first that fails. *)
Fixpoint granular (lines : list string) (cores : list (string * string * Z)) (typed : list string) : Prop :=
  match lines, cores with
  | [], [] => typed = []
  | cmd :: lines, (cmd', err, st) :: cores =>
      cmd' = cmd ∧ ∃ rest, typed = cmd :: rest ∧
      if (st =? 0)%Z then err = "" ∧ granular lines cores rest
      else st = 1%Z ∧ rest = [] ∧ ∃ why, cores = (λ l, (l, skip_text why cmd, 1%Z)) <$> lines
  | _, _ => False
  end.

Lemma granular_prefix lines cores typed : granular lines cores typed → typed `prefix_of` lines.
Proof.
  revert cores typed. induction lines as [|cmd lines IH]; intros [|[[cmd' err] st] cores] typed Hg; try done.
  - simpl in Hg. by subst.
  - cbn [granular] in Hg. destruct Hg as (-> & rest & -> & Hg). apply prefix_cons. case_match.
    + destruct Hg as [_ Hg]. by eapply IH.
    + destruct Hg as (_ & -> & _). apply prefix_nil.
Qed.

Lemma granular_all lines cores typed : granular lines cores typed → forallb (λ k, (k.2 =? 0)%Z) cores = true → typed = lines.
Proof.
  revert cores typed. induction lines as [|cmd lines IH]; intros [|[[cmd' err] st] cores] typed Hg Hall;
    [done..|].
  cbn [granular] in Hg. destruct Hg as (-> & rest & -> & Hg). cbn [forallb] in Hall.
  apply andb_true_iff in Hall as [Hst Hall]. cbn in Hst. rewrite Hst in Hg.
  f_equal. by eapply IH; [apply Hg|].
Qed.

Lemma all_success_core results : all_success results = forallb (λ k, (k.2 =? 0)%Z) (core <$> results).
Proof. unfold all_success. induction results as [|r results IH]; [done|]. simpl. by f_equal. Qed.

Lemma core_add_stdout text results : core <$> add_stdout text results = core <$> results.
Proof.
  unfold add_stdout. case_match; [|done]. apply list_eq. intros i. rewrite !list_lookup_fmap.
  rewrite list_lookup_alter. case_decide as E; [|done]. rewrite E. by destruct (results !! i).
Qed.

Section spec.
Context {W : Type} `{NetmikoState W} `{!NetmikoLog W} `{!StagingDirs W} `{!Clock W} `{!NetmikoLaws W}.
Context (c : Config) (repr : pyval → string) (re_search : string → string → res bool) (Hre : searches re_search).
Abbreviation wp := (Prelude.wp seen).
Implicit Types (d : Driver) (s : Conn) (v : list event * (option Conn * option (list (string * pyval)))).

Lemma on_nil v : on [] v = v.
Proof. destruct v. unfold on. simpl. by rewrite app_nil_r. Qed.
Lemma on_on es es' v : on es' (on es v) = on (es ++ es') v.
Proof. unfold on. simpl. by rewrite app_assoc. Qed.

(** A call that is logged *)
Lemma netmiko_wp_logged {A} (m : M W A) es (Q : res A → _ → Prop) v :
  safe m → (∀ w, seen (m w).2 = on es (seen w)) → (∀ r, Q r (on es v)) → wp m Q v.
Proof. intros Hs Hl HQ w <-. split; [apply Hs|]. rewrite Hl. apply HQ. Qed.

Lemma wp_when (b : bool) (m : M W unit) (Q : res unit → _ → Prop) v :
  steady seen m → (∀ r, Q r v) → wp (when b m) Q v.
Proof. intros Hm HQ. destruct b; [by apply wp_keep|by apply wp_ret]. Qed.

Lemma netmiko_wp_timed d t cmd out err st (Q : res DriverExecutionResult → _ → Prop) v :
  (∀ m, Q (Ok (result_of cmd out err st m)) v) → wp (timed d t cmd out err st) Q v.
Proof. intros HQ. apply wp_bind, wp_bind, wp_reads. intros w _. apply wp_bind, wp_reads. intros w' _. by do 2 apply wp_ret. Qed.

Lemma wp_failed d cmd t e (Q : res (list DriverExecutionResult) → _ → Prop) v :
  (∀ m, Q (Ok [result_of cmd (PStr "") (exn_str e) 1 m]) v) → wp (failed d cmd t e) Q v.
Proof. intros HQ. apply wp_bind, netmiko_wp_timed. intros m. by apply wp_ret. Qed.

Lemma check_output_ordinary args o : ordinary (check_output re_search args o).
Proof. unfold check_output. repeat case_match; (apply Hre || done || by apply ordinary_Err). Qed.

(** A line is typed, whatever becomes of it. *)
Lemma wp_run_line args prompt timeout s cmd (Q : res (string * string * Z) → _ → Prop) v :
  (∀ e, Q (Err e) (on [Typed (normalize_cmd s cmd)] v)) →
  (∀ o, Q (Ok (o, "", 0%Z)) (on [Typed (normalize_cmd s cmd)] v)) →
  (∀ o err, Q (Ok (o, err, 1%Z)) (on [Typed (normalize_cmd s cmd)] v)) →
  wp (run_line re_search args prompt timeout s cmd) Q v.
Proof.
  intros He Hok Hbad. apply wp_bind. eapply netmiko_wp_logged; [apply write_call|intros; apply write_log|].
  intros [u|e]; [|apply He]. apply wp_bind, wp_keep; [eauto with linux_net|]. intros [raw|e]; [|apply He].
  apply wp_bind, wp_of_res; [apply check_output_ordinary|].
  destruct (check_output _ _ _) as [[]|e]; [apply wp_ret, Hbad|apply wp_ret, Hok|apply He].
Qed.

Lemma wp_skipped d why cmd lines (Q : res (list DriverExecutionResult) → _ → Prop) v :
  (∀ rs, core <$> rs = (λ l, (l, skip_text why cmd, 1%Z)) <$> lines → Q (Ok rs) v) →
  wp (mapM (skipped d why cmd) lines) Q v.
Proof.
  revert Q. induction lines as [|l lines IH]; intros Q HQ; [by apply wp_ret, HQ|].
  apply wp_bind, wp_bind, wp_reads. intros w _. apply netmiko_wp_timed. intros m.
  apply wp_bind, IH. intros rs Hrs. apply wp_ret, HQ. rewrite !fmap_cons, Hrs. done.
Qed.

(** The events of the lines typed *)
Definition typing s (typed : list string) : list event := (λ l, Typed (normalize_cmd s l)) <$> typed.

Lemma wp_config_lines d args prompt timeout s lines results (Q : res (list DriverExecutionResult) → _ → Prop) v :
  (∀ new typed, granular lines (core <$> new) typed → Q (Ok (results ++ new)) (on (typing s typed) v)) →
  wp (config_lines re_search d args prompt timeout s lines results) Q v.
Proof.
  revert results Q v. induction lines as [|cmd lines IH]; intros results Q v HQ.
  { apply wp_ret. rewrite <-(on_nil v), <-(app_nil_r results). by apply (HQ [] []). }
  cbn [config_lines]. apply wp_bind, wp_reads. intros w _. apply wp_bind, wp_try, wp_bind.
  assert (∀ out err st why, (st = 0%Z ∧ err = "" ∨ st = 1%Z) → wp
    (r ← timed d (now w) cmd (PStr out) err st;
     if (st =? 0)%Z then config_lines re_search d args prompt timeout s lines (results ++ [r])
     else rest ← mapM (skipped d why cmd) lines; mret (results ++ r :: rest)) Q
    (on [Typed (normalize_cmd s cmd)] v)) as Hend.
  { intros out err st why Hst. apply wp_bind, netmiko_wp_timed. intros m. destruct Hst as [[-> ->]| ->]; simpl Z.eqb; cbn match.
    - apply IH. intros new typed Hg. rewrite <-app_assoc, on_on.
      apply (HQ (result_of cmd (PStr out) "" 0 m :: new) (cmd :: typed)).
      cbn. split; [done|]. by exists typed.
    - apply wp_bind, wp_skipped. intros rs Hrs. apply wp_ret.
      apply (HQ (result_of cmd (PStr out) err 1 m :: rs) [cmd]).
      cbn. split; [done|]. exists []. split; [done|]. split; [done|]. split; [done|]. by exists why. }
  apply wp_run_line.
  - intros e. apply wp_ret. by apply Hend; right.
  - intros o. apply wp_ret. by apply Hend; left.
  - intros o err. apply wp_ret. by apply Hend; right.
Qed.

Lemma commit_unsupported s : safe (_commit s) ∧ ∀ w, seen (_commit s w).2 = on [Committed] (seen w).
Proof.
  split; intros w; unfold _commit; [pose proof (commit_call s w) as Hc|pose proof (commit_log s w) as Hc];
    destruct (nm_commit s w) as [[x|e] w']; try done; by destruct (is_unsupported e).
Qed.

Lemma read_timeout_ordinary args : ordinary (read_timeout args).
Proof. unfold read_timeout, to_float. ordinary_cases. Qed.

(** What is left of a configuration that broke off: some lines typed, perhaps
    committed; saved only when every line had been typed and accepted *)
Definition broken d s (lines : list string) v v' : Prop :=
  ∃ typed es, typed `prefix_of` lines ∧ v' = on (typing s typed ++ es) v
    ∧ (es = [] ∨ es = [Committed] ∨ es = [Committed; Saved] ∧ d_save d = true ∧ typed = lines).

(** A configuration that ran to its end *)
Definition configured d s (lines : list string) (results : list DriverExecutionResult) v v' : Prop :=
  ∃ typed, granular lines (core <$> results) typed
    ∧ v' = on (typing s typed ++ [Committed] ++ (if d_save d && all_success results then [Saved] else [])) v.

Lemma wp_save d s lines results typed (Q : res (list DriverExecutionResult) → _ → Prop) v :
  granular lines (core <$> results) typed →
  (∀ e v', broken d s lines v v' → Q (Err e) v') →
  (∀ results' v', configured d s lines results' v v' → Q (Ok results') v') →
  wp (if d_save d && all_success results
      then set_base_prompt s ≫= λ _, saved ← save_config s; mret (add_stdout saved results)
      else mret results) Q (on (typing s typed ++ [Committed]) v).
Proof.
  intros Hg He Hok. destruct (d_save d && all_success results) eqn:Es.
  - apply andb_true_iff in Es as [Hs Hall].
    assert (typed = lines) as Ht.
    { eapply granular_all; [done|]. by rewrite <-all_success_core. }
    apply wp_bind, wp_keep; [eauto with linux_net|]. intros [u|e].
    2:{ apply He. exists typed, [Committed]. split; [by eapply granular_prefix|]. auto. }
    apply wp_bind. eapply netmiko_wp_logged; [apply save_call|intros; apply save_log|]. rewrite on_on, <-app_assoc.
    intros [saved|e].
    + apply wp_ret, Hok. exists typed. rewrite core_add_stdout. split; [done|].
      rewrite all_success_core, core_add_stdout, <-all_success_core, Hs, Hall. done.
    + apply He. exists typed, [Committed; Saved]. split; [by eapply granular_prefix|]. split; [done|]. by do 2 right.
  - apply wp_ret, Hok. exists typed. split; [done|]. by rewrite Es.
Qed.

Lemma wp_configure d s lines (Q : res (list DriverExecutionResult) → _ → Prop) v :
  (∀ e v', broken d s lines v v' → Q (Err e) v') →
  (∀ results v', configured d s lines results v v' → Q (Ok results) v') →
  wp (configure re_search d s lines) Q v.
Proof.
  intros He Hok.
  assert (∀ e, Q (Err e) v) as He0.
  { intros e. apply He. exists [], []. split; [apply prefix_nil|]. rewrite on_nil. auto. }
  apply wp_seq; [eauto with linux_net|done|].
  apply wp_bind, wp_of_res; [apply read_timeout_ordinary|]. destruct (read_timeout _) as [timeout|e]; [|done].
  apply wp_bind, wp_reads. intros w _. apply wp_bind, wp_config_lines. intros results typed Hg. simpl app.
  apply wp_bind. destruct (commit_unsupported s) as [Hs Hl]. eapply netmiko_wp_logged; [exact Hs|exact Hl|].
  rewrite on_on. intros [commit|e].
  2:{ apply He. exists typed, [Committed]. split; [by eapply granular_prefix|]. auto. }
  apply wp_bind. rewrite <-(core_add_stdout commit) in Hg. apply (wp_save d s lines _ _ _ _ Hg); [done|].
  intros results' v' (typed' & Hg' & ->).
  assert (∀ e, Q (Err e) (on (typing s typed' ++ [Committed] ++ (if d_save d && all_success results' then [Saved] else [])) v))
    as He'.
  { intros e. apply He. exists typed', ([Committed] ++ (if d_save d && all_success results' then [Saved] else [])).
    split; [by eapply granular_prefix|]. split; [done|].
    destruct (d_save d && all_success results') eqn:Es; [|auto]. do 2 right.
    apply andb_true_iff in Es as [-> Hall]. split_and!; [done..|].
    eapply granular_all; [done|]. by rewrite <-all_success_core. }
  apply wp_seq; [eauto with linux_net|done|].
  apply wp_bind, wp_when; [eauto with linux_net|]. intros [u|e]; [|done].
  apply wp_ret, Hok. by exists typed'.
Qed.

(** A transfer answers with one result, whatever happens. *)
Lemma wp_transfer d s op (Q : res (list DriverExecutionResult) → _ → Prop) v :
  (∀ r, Q (Ok [r]) v) → wp (_handle_file_transfer c repr d s op) Q v.
Proof.
  intros HQ. apply wp_try. assert (∀ e, wp (mret [result_of "file_transfer" (PStr "") (exn_str e) 1
    [("duration_seconds", PFloat 0)]]) Q v) as He by (intros e; apply wp_ret, HQ).
  apply wp_bind, wp_reads. intros w _. destruct op as [op|x]; [|by apply wp_raise].
  apply wp_bind. unfold transfer_paths, effective_dest_path.
  assert (∀ src dest dir, wp (results ← nm_file_transfer s src dest dir (ft_overwrite op);
      transfer_result repr d (now w) op src dest dir results)
    (λ r v', match r with Ok _ => Q r v' | Err e => wp (mret [result_of "file_transfer" (PStr "") (exn_str e) 1
      [("duration_seconds", PFloat 0)]]) Q v' end) v) as Hend.
  { intros src dest dir. apply wp_bind, wp_keep; [eauto with linux_net|]. intros [results|e]; [|done].
    apply wp_bind, wp_bind, wp_reads. intros w1 _. apply wp_bind, wp_reads. intros w2 _. by do 2 apply wp_ret. }
  destruct (ft_operation op).
  - case_match; [by apply wp_raise|]. by apply wp_ret.
  - apply wp_bind, wp_bind, wp_reads. intros w1 _. apply wp_bind.
    case_match; [apply wp_ret; by do 2 apply wp_ret|].
    apply wp_keep; [eauto with linux_net|]. intros [u|e]; [by do 2 apply wp_ret|done].
Qed.

Definition config_post d s (lines : list string) v (r : res (list DriverExecutionResult)) v' : Prop :=
  ∃ results, r = Ok results ∧
    match nested_transfer d with
    | Some _ => v' = v
    | None => configured d s lines results v v'
        ∨ broken d s lines v v' ∧ ∃ e m, results = [result_of (join nl lines) (PStr "") (exn_str e) 1 m]
    end.

Lemma netmiko_wp_config d s lines v : wp (config c repr re_search d s lines) (config_post d s lines v) v.
Proof.
  apply wp_bind, wp_reads. intros w0 _. apply wp_try.
  assert (∀ e v', (nested_transfer d = None → broken d s lines v v') →
    (∀ op, nested_transfer d = Some op → v' = v) →
    wp (failed d (join nl lines) (now w0) e) (config_post d s lines v) v') as He.
  { intros e v' Hb Hn. apply wp_failed. intros m. eexists. split; [done|].
    destruct (nested_transfer d) eqn:En; [by eapply Hn|]. right. eauto. }
  assert (∀ e, wp (failed d (join nl lines) (now w0) e) (config_post d s lines v) v) as He0.
  { intros e. apply He; [|done]. intros _. exists [], []. split; [apply prefix_nil|]. rewrite on_nil. auto. }
  apply wp_seq; [eauto with linux_net|done|].
  apply wp_bind, wp_when; [eauto with linux_net|]. intros [u|e]; [|done].
  destruct (nested_transfer d) as [op|] eqn:En.
  - apply wp_transfer. intros r. eexists. by rewrite En.
  - apply wp_configure; [intros e v' Hb; by apply He|]. intros results v' Hc. exists results.
    split; [done|]. rewrite En. by left.
Qed.

(** C33. A configuration never raises.  Its result is one entry per line, in
    order: the lines before the first failure succeeded, the line that failed
    has status 1, and the lines after it are reported as skipped and were
    never typed into the device.  A commit is tried once after the lines,
    whether they succeeded or not; the configuration is saved only when that
    was asked for and every line was accepted.  If anything else breaks, the
    result is one failure, and what was typed is a prefix of the lines. *)
Theorem netmiko_config_spec d s lines w :
  let '(r, w') := config c repr re_search d s lines w in
  ∃ results, r = Ok results ∧
    match nested_transfer d with
    | Some _ => seen w' = seen w
    | None => configured d s lines results (seen w) (seen w')
        ∨ broken d s lines (seen w) (seen w')
          ∧ ∃ e m, results = [result_of (join nl lines) (PStr "") (exn_str e) 1 m]
    end.
Proof.
  pose proof (wp_run _ _ w (netmiko_wp_config d s lines _)) as Hw. destruct (config _ _ _ _ _ _ w). apply Hw.
Qed.

Lemma wp_attempt {A B} (m : M W A) h (k : A → M W B) (Q : res B → _ → Prop) v :
  wp m (λ r v', match r with Ok a => wp (k a) Q v' | Err e => wp (h e) Q v' end) v → wp (attempt m h k) Q v.
Proof.
  intros Hm w Hw. destruct (Hm w Hw) as [Ho HQ]. unfold attempt.
  destruct (m w) as [[a|e] w']; [by apply HQ|]. rewrite Ho by done. by apply HQ.
Qed.

(** The results of commands: one each, or one failure for all of them *)
Definition sent (command : list string) (results : list DriverExecutionResult) : Prop :=
  Forall2 (λ cmd r, core r = (cmd, "", 0%Z)) command results
  ∨ ∃ e m, results = [result_of (join " " command) (PStr "") (exn_str e) 1 m].

Lemma wp_send_commands d s command t done_ cmds results (Q : res (list DriverExecutionResult) → _ → Prop) v :
  command = done_ ++ cmds → Forall2 (λ cmd r, core r = (cmd, "", 0%Z)) done_ results →
  (∀ results, sent command results → Q (Ok results) v) →
  wp (send_commands d s command t cmds results) Q v.
Proof.
  intros Hc Hall HQ.
  assert (∀ t e, wp (failed d (join " " command) t e) Q v) as He.
  { intros t' e. apply wp_failed. intros m. apply HQ. right. eauto. }
  revert t done_ results Hc Hall. induction cmds as [|cmd cmds IH]; intros t done_ results Hc Hall.
  - apply wp_attempt, wp_when; [eauto with linux_net|]. intros [u|e]; [|done]. apply wp_ret, HQ. left.
    by rewrite Hc, app_nil_r.
  - apply wp_bind, wp_reads. intros w _. apply wp_attempt, wp_keep; [eauto with linux_net|].
    intros [response|e]; [|done]. apply wp_bind, netmiko_wp_timed. intros m.
    apply (IH _ (done_ ++ [cmd])); [by rewrite <-app_assoc|]. by apply Forall2_app; [|constructor].
Qed.

Lemma wp_quiet (b : bool) (m : M W unit) (Q : res unit → _ → Prop) v :
  steady seen m → Q (Ok tt) v → wp (when b (try_except m (λ _, mret tt))) Q v.
Proof.
  intros Hm HQ. destruct b; [|by apply wp_ret]. apply wp_try, wp_keep; [done|].
  intros [[]|e]; [done|]. by apply wp_ret.
Qed.

Lemma wp_send d s command v : wp (send c repr d s command)
  (λ r v', v' = v ∧ ∃ results, r = Ok results ∧ (top_transfer d = None → sent command results)) v.
Proof.
  apply wp_bind, wp_reads. intros w0 _.
  apply wp_attempt, wp_when; [eauto with linux_net|]. intros [u|e].
  2:{ apply wp_failed. intros m. split; [done|]. eexists. split; [done|]. right. eauto. }
  destruct (top_transfer d) as [op|] eqn:En; [apply wp_transfer; intros r; split; [done|]; by eexists|].
  apply wp_bind, wp_reads. intros w1 _. apply wp_bind, wp_quiet; [eauto with linux_net|].
  apply (wp_send_commands _ _ _ _ []); [done|constructor|]. intros results Hr. by split; [|exists results].
Qed.

(** Sending never raises and types nothing of its own.  There is one
    successful result per command, in order, or one failure for the whole list. *)
Theorem send_spec d s command w :
  let '(r, w') := send c repr d s command w in
  seen w' = seen w ∧ ∃ results, r = Ok results ∧ (top_transfer d = None → sent command results).
Proof.
  pose proof (wp_run _ _ w (wp_send d s command _)) as Hw. destruct (send _ _ _ _ _ w). apply Hw.
Qed.

(** *** Sessions *)

(** A session is kept with its arguments, which ask for keepalives. *)
Definition kept v : Prop :=
  match v.2 with
  | (Some _, Some a) => truthy (keepalive a) = true
  | (None, None) => True
  | _ => False
  end.

Lemma steady_modify (f : NState → NState) :
  (∀ p, persisted_session (f p) = persisted_session p ∧ persisted_conn_args (f p) = persisted_conn_args p) →
  steady seen (modify f).
Proof.
  intros Hf. split; [done|]. intros w. unfold modify, writes, seen. simpl.
  rewrite set_nstate_get, set_nstate_log. by destruct (Hf (nstate w)) as [-> ->].
Qed.

Lemma wp_set_session so ao (Q : res unit → _ → Prop) v : Q (Ok tt) (v.1, (so, ao)) → wp (modify (set_session so ao)) Q v.
Proof.
  intros HQ. apply wp_writes. intros w <-. unfold seen in *. by rewrite set_nstate_get, set_nstate_log.
Qed.

Lemma steady_start : steady seen _start_monitor_thread.
Proof.
  apply steady_bind; [apply steady_reads|]. intros [|]; [apply steady_ret|].
  apply steady_bind; [apply steady_reads|]. intros [a|]; [|by apply steady_raise].
  apply steady_bind.
  { split; intros w; unfold update; pose proof (new_event_seen w); by destruct (new_event w). }
  intros e. apply steady_bind; [by apply steady_modify|]. intros _.
  apply steady_bind; [eauto with linux_net|]. intros t. by apply steady_modify.
Qed.

Lemma steady_stop : steady seen _stop_monitor_thread.
Proof.
  apply steady_bind; [apply steady_reads|]. intros e. apply steady_bind.
  { destruct e; [|apply steady_ret]. split; [done|]. intros w. apply set_event_seen. }
  intros _. apply steady_bind; [apply steady_reads|]. intros t.
  apply steady_bind; [apply steady_reads|]. intros alive. apply steady_bind; [|intros; by apply steady_modify].
  destruct t; [|apply steady_ret]. destruct alive; [eauto with linux_net|apply steady_ret].
Qed.

(** Clearing: an assertion when nothing is kept *)
Lemma netmiko_wp_clear (Q : res unit → _ → Prop) v :
  (∀ e, (v.2.2 = None → e = AssertionError "") → Q (Err e) v) → (v.2.2 ≠ None → Q (Ok tt) (v.1, (None, None))) →
  wp (_set_persisted_session None None) Q v.
Proof.
  intros He Hok. unfold _set_persisted_session. apply wp_bind, wp_reads. intros w Hw.
  destruct (persisted_conn_args (nstate w)) as [a|] eqn:Ea; rewrite <-Hw in Hok, He; simpl in Hok, He; rewrite Ea in Hok, He.
  - apply wp_bind. case_match.
    + apply wp_keep; [apply steady_stop|]. intros [u|e]; [|rewrite <-Hw; by apply He].
      apply wp_set_session. rewrite <-Hw. by apply Hok.
    + apply wp_ret, wp_set_session. rewrite <-Hw. by apply Hok.
  - apply wp_raise; [done|]. rewrite <-Hw. by apply He.
Qed.

(** What a job gets and what is kept then *)
Definition connected d v (r : res Conn) v' : Prop :=
  kept v' ∧ v'.1 = v.1 ∧
  match r with
  | Ok s =>
      (truthy (keepalive (d_conn_args d)) = true →
        ∃ a, v'.2 = (Some s, Some a) ∧ (a = d_conn_args d ∨ same_args (Some a) (d_conn_args d) = true))
      ∧ (truthy (keepalive (d_conn_args d)) = false → v'.2 = (None, None))
      ∧ ∀ s0 a, v.2 = (Some s0, Some a) → same_args (Some a) (d_conn_args d) = true → s = s0
  | Err _ => True
  end.

(** Dropping the kept session *)
Lemma wp_drop s (Q : res unit → _ → Prop) v : v.2.2 ≠ None →
  (∀ e, Q (Err e) v) → Q (Ok tt) (v.1, (None, None)) →
  wp (try_finally (try_except (nm_disconnect s) (λ _, mret tt)) (_set_persisted_session None None)) Q v.
Proof.
  intros Hv He Hok.
  assert (wp (_set_persisted_session None None)
    (λ r' v', match r' with Ok _ => Q (Ok tt) v' | Err e => Q (Err e) v' end) v) as Hc by (by apply netmiko_wp_clear).
  apply wp_finally_do, wp_try, wp_keep; [eauto with linux_net|]. intros [[]|e]; [exact Hc|]. by apply wp_ret.
Qed.

Lemma wp_get_persisted a (Q : res (option Conn) → _ → Prop) v : kept v →
  (∀ e, Q (Err e) v) →
  (∀ s0 a0, v.2 = (Some s0, Some a0) → same_args (Some a0) a = true → Q (Ok (Some s0)) v) →
  ((∀ s0 a0, v.2 = (Some s0, Some a0) → same_args (Some a0) a = false) → Q (Ok None) (v.1, (None, None))) →
  wp (_get_persisted_session a) Q v.
Proof.
  intros Hk He Hsame Hnone. apply wp_bind, wp_reads. intros w1 Hw1. apply wp_bind, wp_reads. intros w2 Hw2.
  destruct v as [l [so ao]]. unfold seen in Hw1, Hw2. injection Hw1 as _ Hs _. injection Hw2 as _ _ Ha.
  rewrite Hs, Ha. unfold kept in Hk. cbn in Hk. destruct so as [s0|], ao as [a0|]; try done.
  - destruct (same_args (Some a0) a) eqn:Ea; simpl negb; cbn match; [apply wp_ret; by eapply Hsame|].
    apply wp_bind, wp_drop; [done|done|]. apply wp_reads. intros w3 Hw3. unfold seen in Hw3. injection Hw3 as _ Hs3 _.
    rewrite Hs3. apply Hnone. by intros ? ? [= <- <-].
  - apply wp_ret. by apply Hnone.
Qed.

Lemma netmiko_wp_connect d v : kept v → wp (connect d) (connected d v) v.
Proof.
  intros Hk. apply wp_bind, wp_get_persisted; [done|by intros e|..].
  - intros s0 a0 Hv Hs. apply wp_seq; [by apply steady_modify|by intros e|].
    apply wp_ret. unfold connected. rewrite Hv. split; [done|]. split; [done|]. unfold kept in Hk. rewrite Hv in Hk.
    assert (truthy (keepalive (d_conn_args d)) = true) as ->.
    { eapply py_eqb_attr; [|exact Hk]. exact Hs. }
    split; [intros _; exists a0; auto|]. split; [done|]. by intros ? ? [= -> ->].
  - intros Hno. apply wp_bind, wp_keep; [eauto with linux_net|]. intros [s|e]; [|done].
    apply wp_seq; [by apply steady_modify|by intros e|].
    assert (∀ s0 a, v.2 = (Some s0, Some a) → same_args (Some a) (d_conn_args d) = true → s = s0) as Hsame.
    { intros s0 a Hv Ha. by rewrite (Hno s0 a Hv) in Ha. }
    apply wp_bind. destruct (truthy (keepalive (d_conn_args d))) eqn:Ek.
    + apply wp_bind, wp_set_session, wp_keep; [apply steady_start|].
      intros [u|e]; [|split; [exact Ek|by split]].
      apply wp_ret. split; [exact Ek|]. split; [done|]. rewrite Ek. split; [eauto|by split].
    + apply wp_ret, wp_ret. split; [done|]. split; [done|]. by rewrite Ek.
Qed.

(** The session of a job.  A kept session is reused exactly when it was
    opened with the same connection arguments; otherwise it is closed and
    forgotten before a new one is opened.  Whatever fails on the way, a session
    is kept together with its arguments and only when they ask for keepalives.
    After a connection, the session kept is the job's own when the job asks for
    keepalives, and there is none when it does not. *)
Theorem netmiko_connect_spec d w : kept (seen w) →
  let '(r, w') := connect d w in ordinary r ∧ connected d (seen w) r (seen w').
Proof. intros Hk. apply wp_run, netmiko_wp_connect, Hk. Qed.

(** Disconnecting keeps the session of a job with keepalives. *)
Lemma disconnect_keeps d s w : truthy (keepalive (d_conn_args d)) = true → disconnect d s false w = (Ok tt, w).
Proof. intros Hk. unfold disconnect. by rewrite Hk. Qed.

(** Finding: the disconnection of a job without keepalives closes the session
    and then always fails, as there are no kept arguments to clear. *)
Lemma disconnect_asserts d s w : truthy (keepalive (d_conn_args d)) = false → (seen w).2 = (None, None) →
  (disconnect d s false w).1 = Err (AssertionError "").
Proof.
  intros Hk Hs. unfold disconnect. rewrite Hk. simpl. unfold try_finally.
  pose proof (proj2 (disconnect_call s) w) as Hd. destruct (nm_disconnect s w) as [r w'].
  unfold seen in Hd, Hs. cbn in Hs, Hd. injection Hs as _ Ha. injection Hd as _ _ Hd.
  unfold _set_persisted_session, mbind, M_bind, gets, reads. by rewrite Hd, Ha.
Qed.
End spec.

(** ** The contract of the workers *)

(** Calls of the library, of threads and of the disk stay within [others]. *)
Class LibCalls (W : Type) `{Others W} `{NetmikoLib W} : Prop := {
  handler_calm : ∀ a, driver_call (ConnectHandler a);
  nm_disconnect_calm : ∀ s, driver_call (nm_disconnect s);
  set_base_prompt_calm : ∀ s, driver_call (set_base_prompt s);
  enable_calm : ∀ s, driver_call (enable s);
  exit_enable_calm : ∀ s, driver_call (exit_enable_mode s);
  config_mode_calm : ∀ s m, driver_call (config_mode s m);
  exit_config_calm : ∀ s, driver_call (exit_config_mode s);
  clear_buffer_calm : ∀ s, driver_call (clear_buffer s);
  write_channel_calm : ∀ s x, driver_call (write_channel s x);
  read_until_calm : ∀ s p t, driver_call (read_until_pattern s p t);
  send_command_calm : ∀ s x a, driver_call (send_command s x a);
  commit_calm : ∀ s, driver_call (nm_commit s);
  save_config_calm : ∀ s, driver_call (save_config s);
  file_transfer_calm : ∀ s a b x o, driver_call (nm_file_transfer s a b x o);
}.
Class ThreadCalls (W : Type) `{Others W} `{Threads W} : Prop := {
  start_calm : driver_call start_thread;
  join_calm : ∀ t n, driver_call (join_thread t n);
  new_event_calm : driver_call (update new_event);
  set_event_calm : ∀ e, driver_call (writes (set_event e));
}.
Class StateCalls (W : Type) `{Others W} `{NetmikoState W} : Prop := {
  modify_calm : ∀ f, driver_call (modify f);
}.
Class DirCalls (W : Type) `{Others W} `{StagingDirs W} : Prop := {
  make_dirs_calm : ∀ p, driver_call (make_dirs p);
}.
#[export] Hint Resolve handler_calm nm_disconnect_calm set_base_prompt_calm enable_calm exit_enable_calm
  config_mode_calm exit_config_calm clear_buffer_calm write_channel_calm read_until_calm send_command_calm
  commit_calm save_config_calm file_transfer_calm start_calm join_calm new_event_calm set_event_calm
  modify_calm make_dirs_calm : calm.

Section lawful.
Context {W : Type} `{Json} `{Redis W} `{Others W} `{!OthersLaws W} `{NetmikoState W} `{!StagingDirs W} `{!Clock W}.
Context `{!LibCalls W} `{!ThreadCalls W} `{!StateCalls W} `{!DirCalls W}.
Context (c : Config) (repr : pyval → string) (re_search : string → string → res bool) (Hre : searches re_search).
Context (fits_command : list (string * pyval) → bool).
Implicit Types (d : Driver) (s : Conn).

(** A method [BaseDriver] does not declare and the driver does not define *)
Definition no_method {A} (name : string) : M W A :=
  raise (OtherError "AttributeError" ("'NetmikoDriver' object has no attribute '" +:+ name +:+ "'")).

(** The plugin under its name [netmiko] *)
Definition netmiko_driver : Drivers W :=
  {| Rpc.DriverObject := Driver; Rpc.Session := Conn;
     drivers_has n := bool_decide (n = NETMIKO);
     Rpc.from_execution_request := from_execution_request fits_command;
     Rpc.connect := connect;
     Rpc.send := send c repr;
     send_config := config c repr re_search;
     Rpc.launch_detached _ _ _ _ := no_method "launch_detached";
     Rpc._read_logs _ _ _ _ := no_method "_read_logs";
     Rpc.kill_task _ _ _ := no_method "kill_task";
     Rpc.disconnect d s := disconnect d s false |}.

Lemma set_persisted_calm so ao : driver_call (W:=W) (_set_persisted_session so ao).
Proof. unfold _set_persisted_session, _start_monitor_thread, _stop_monitor_thread, gets. calm. Qed.
Hint Resolve set_persisted_calm : calm.

Lemma netmiko_connect_calm d : driver_call (connect d).
Proof. unfold connect, _get_persisted_session, gets. calm. Qed.

Lemma nm_driver_disconnect_calm d s : driver_call (disconnect d s false).
Proof. unfold disconnect. calm. Qed.

Lemma timed_calm d t cmd o e st : driver_call (W:=W) (timed d t cmd o e st).
Proof. unfold timed, _get_base_metadata, gets. calm. Qed.
Hint Resolve timed_calm : calm.

Lemma failed_calm d cmd t e : driver_call (W:=W) (failed d cmd t e).
Proof. unfold failed. calm. Qed.
Hint Resolve failed_calm : calm.

Lemma when_calm b (m : M W unit) : driver_call m → driver_call (when b m).
Proof. intros. unfold when. calm. Qed.

Lemma attempt_calm {A B} (m : M W A) h (k : A → M W B) :
  driver_call m → (∀ e, driver_call (h e)) → (∀ a, driver_call (k a)) → driver_call (attempt m h k).
Proof.
  intros [Hs Hr] Hh Hk. split; intros w; unfold attempt; specialize (Hs w); specialize (Hr w);
    destruct (m w) as [[a|e] w']; rewrite ?(Hs e eq_refl); [apply Hk|apply Hh|..];
    (etrans; [exact Hr|]); [apply Hk|apply Hh].
Qed.

Lemma handle_transfer_calm d s op : driver_call (_handle_file_transfer c repr d s op).
Proof.
  unfold _handle_file_transfer, transfer_paths, effective_dest_path, transfer_result, _get_base_metadata, gets. calm.
Qed.
Hint Resolve when_calm handle_transfer_calm : calm.

Lemma netmiko_send_commands_calm d s command t cmds results : driver_call (send_commands d s command t cmds results).
Proof.
  revert t results. induction cmds as [|cmd cmds IH]; intros t results; cbn [send_commands].
  - apply attempt_calm; calm.
  - apply calm_bind; [calm|]. intros t'. apply attempt_calm; calm.
Qed.

Lemma nm_send_calm d s command : driver_call (send c repr d s command).
Proof.
  apply calm_bind; [calm|]. intros t. apply attempt_calm; [calm..|]. intros [].
  destruct (top_transfer d); [calm|]. unfold gets. apply calm_bind; [calm|]. intros r.
  apply calm_bind; [apply when_calm; calm|]. intros _. apply netmiko_send_commands_calm.
Qed.

Lemma netmiko_config_lines_calm d args prompt t s lines results :
  driver_call (config_lines re_search d args prompt t s lines results).
Proof.
  revert results. induction lines as [|cmd lines IH]; intros results; cbn [config_lines]; [calm|].
  assert (∀ o, ordinary (check_output re_search args o)) as Hc.
  { intros o. unfold check_output. repeat case_match; (apply Hre || done || by apply ordinary_Err). }
  unfold run_line, skipped. calm; apply calm_of_res, Hc.
Qed.
Hint Resolve netmiko_config_lines_calm : calm.

Lemma commit_quiet_calm s : driver_call (_commit s).
Proof.
  destruct (commit_calm s) as [Hs Hr]. split; intros w; unfold _commit; specialize (Hs w); specialize (Hr w);
    destruct (nm_commit s w) as [[x|e] w']; try done; by destruct (is_unsupported e).
Qed.
Hint Resolve commit_quiet_calm : calm.

Lemma nm_config_calm d s lines : driver_call (config c repr re_search d s lines).
Proof.
  assert (∀ a, ordinary (read_timeout a)) as Ht by (intros a; unfold read_timeout, to_float; ordinary_cases).
  unfold config, configure. calm; by apply calm_of_res.
Qed.

Lemma nm_validate_ordinary req : ordinary (validate_request fits_command req).
Proof.
  unfold validate_request. apply ordinary_bind; [apply validate_model_ordinary|]. intros a.
  apply ordinary_bind.
  { case_match; [|done]. apply ordinary_bind; [|done]. unfold NetmikoArgs_validate.
    pose proof (validate_model_ordinary NetmikoSendConfigSetArgs l) as Ho.
    destruct (validate_model NetmikoSendCommandArgs l), (validate_model NetmikoSendConfigSetArgs l); try done.
    intros e' [= <-]. by apply Ho. }
  intros args. repeat (apply ordinary_bind; [apply field_or_ordinary|intros ?]).
  by apply ordinary_bind; [apply model_validate_ordinary|].
Qed.

(** The Netmiko driver keeps the contract the workers rely on: whatever
    the device answers, every method ends with a result or an ordinary exception
    and does nothing to the state beyond the calls of its libraries; the methods
    for detached tasks, which it lacks, only raise. *)
Theorem netmiko_lawful : DriverLaws W (D := netmiko_driver).
Proof.
  split; simpl; intros; [done|..]; try (by apply calm_raise).
  - unfold from_execution_request. apply calm_bind; [apply calm_of_res, nm_validate_ordinary|].
    intros d. apply calm_bind; [apply modify_calm|]. intros. apply calm_ret.
  - apply netmiko_connect_calm.
  - apply nm_send_calm.
  - apply nm_config_calm.
  - apply nm_driver_disconnect_calm.
Qed.
End lawful.
