(* ===== verification/Napalm.v ===== *)
(** * The NAPALM driver

    [linux_net/plugins/drivers/napalm/]: methods of the library and commands,
    configurations loaded, compared and committed or discarded; and that the
    driver keeps the contract of the workers. *)

From S2P Require Import Prelude PyLib Models World Registry Manager Rpc Calm ParamikoModel Fields.

(** ** What the driver uses of [napalm] *)
Class NapalmLib (W : Type) := {
  Device : Type;
  (** [get_network_driver(name)] and its call with the arguments *)
  network_driver : string → list (string * pyval) → M W Device;
  open_device : Device → M W unit;
  close_device : Device → M W unit;
  (** [getattr(session, name)], when there is one: the parameters of a method *)
  attribute : Device → string → option (option (list string));
  call_method : Device → string → list (string * pyval) → M W pyval;
  cli : Device → string → pyval → M W (list (string * pyval));
  load_merge_candidate : Device → string → M W unit;
  compare_config : Device → M W string;
  discard_config : Device → M W unit;
  commit_config : Device → list (string * pyval) → M W unit;
}.

(** ** Models ([model.py]) *)
Definition optional (n : string) (t : ftype) : field := mkField n (TOpt t) (Some PNone).

Definition NapalmConnectionArgs : list field :=
  [mkField "device_type" TStr None; mkField "host" TStr None; optional "username" TStr; optional "password" TStr;
   optional "timeout" TInt; optional "optional_args" TDict].
Definition NapalmCliArgs : list field := [mkField "encoding" TStr (Some (PStr "text"))].
Definition NapalmCommitConfigArgs : list field := [optional "message" TStr; optional "revert_in" TInt].

(** [NapalmConnectionArgs.model_validate(d)]: the host under its alias or name *)
Definition NapalmConnectionArgs_validate (d : list (string * pyval)) : res (list (string * pyval)) :=
  validate_model NapalmConnectionArgs
    (match dict_get "hostname" d with
     | Some h => dict_set "host" h (filter (λ kv, kv.1 ≠ "hostname") d)
     | None => d
     end).

Inductive nargs := CliArgs (m : list (string * pyval)) | CommitArgs (m : list (string * pyval)).

(** [NapalmCliArgs | NapalmCommitConfigArgs]: where both fit, pydantic's choice *)
Definition NapalmArgs_validate (fits_cli : list (string * pyval) → bool) (d : list (string * pyval)) : res nargs :=
  match validate_model NapalmCliArgs d, validate_model NapalmCommitConfigArgs d with
  | Ok a, Ok b => Ok (if fits_cli d then CliArgs a else CommitArgs b)
  | Ok a, Err _ => Ok (CliArgs a)
  | Err _, Ok b => Ok (CommitArgs b)
  | Err e, Err _ => Err e
  end.

(** "Netmiko device types -> NAPALM ones" *)
Definition NETMIKO_DEVICE_TYPE_MAP : list (string * string) :=
  [("arista_eos", "eos"); ("cisco_ios", "ios"); ("cisco_xr", "iosxr"); ("juniper", "junos"); ("nxos", "nxos");
   ("cisco_nxos_ssh", "nxos_ssh")].

Definition convert_conn_args (m : list (string * pyval)) : res (list (string * pyval)) :=
  match attr "device_type" m with
  | PStr t => Ok (dict_set "device_type" (PStr (dict_get_or t t NETMIKO_DEVICE_TYPE_MAP)) m)
  | _ => Err (ValueError "device_type is None")
  end.

Definition not_none (kv : string * pyval) : bool := match kv.2 with PNone => false | _ => true end.
Definition exclude_none (m : list (string * pyval)) : list (string * pyval) := filter (λ kv, not_none kv = true) m.

(** [conn_args_dict]: the dump under aliases, without the device type, and the
    optional arguments always there *)
Definition conn_args_dict (m : list (string * pyval)) : list (string * pyval) :=
  dict_set "optional_args" (match attr "optional_args" m with PDict d => PDict d | _ => PDict [] end)
    ((λ kv, (if String.eqb kv.1 "host" then "hostname" else kv.1, kv.2)) <$>
       filter (λ kv, kv.1 ≠ "device_type") (exclude_none m)).

(** [self] *)
Record Driver := mkDriver {
  d_args : nargs;
  d_conn_args : list (string * pyval);
  d_dry_run : bool;
}.

Definition device_name (d : Driver) : string :=
  match attr "device_type" (d_conn_args d) with PStr t => t | _ => "" end.

(** [NapalmExecutionRequest.model_validate(req.model_dump())] and the rest of
    [from_execution_request] *)
Definition new_driver (fits_cli : list (string * pyval) → bool) (req : ExecutionRequest) : res Driver :=
  conn_args ← NapalmConnectionArgs_validate (DriverConnectionArgs_dump (er_connection_args req));
  args ← match er_driver_args req with
         | None => Ok None
         | Some d => a ← NapalmArgs_validate fits_cli d; Ok (Some a)
         end;
  enable_mode ← field_or "enable_mode" true as_bool (er_extra req);
  dry_run ← field_or "dry_run" false as_bool (er_extra req);
  req ← ExecutionRequest.model_validate req;
  conn_args ← convert_conn_args conn_args;
  let dflt := if from_option (λ p, truthy (Manager.payload_val p)) false (er_command req)
              then CliArgs [("encoding", PStr "text")] else CommitArgs [("message", PNone); ("revert_in", PNone)] in
  Ok (mkDriver (default dflt args) conn_args dry_run).

(** [NapalmDriver.validate] *)
Definition validate (fits_cli : list (string * pyval) → bool) (req : ExecutionRequest) : res unit :=
  new_driver fits_cli req ≫= λ _, Ok tt.

Section driver.
Context {W : Type} `{NapalmLib W} `{!Clock W} (repr : pyval → string).
Implicit Types (d : Driver) (s : Device).

Definition connect d : M W Device := network_driver (device_name d) (conn_args_dict (d_conn_args d)).

(** ** Results: a NAPALM session is never reused. *)
Definition timed d (start_time : Z) (command stdout stderr : string) (exit_status : Z) : M W DriverExecutionResult :=
  t ← reads now;
  mret (mkResult command (PStr stdout) stderr exit_status None
          [("host", attr "host" (d_conn_args d)); ("duration_seconds", PFloat (round3 (t - start_time)));
           ("session_reused", PBool false)] PNone).

(** ** [send] *)

(** One command: a method of the library, or text for the device *)
Definition run_command (args : list (string * pyval)) s (cmd : string) : M W pyval :=
  match attribute s cmd with
  | Some (Some params) => call_method s cmd (filter (λ kv, kv.1 ∈ params) (exclude_none args))
  | Some None => raise (TypeError (cmd +:+ " is not a callable object"))
  | None =>
      resp ← cli s cmd (attr "encoding" args);
      match dict_get cmd resp with Some output => mret output | None => raise (KeyError cmd) end
  end.

Definition send_one d (args : list (string * pyval)) s (cmd : string) : M W DriverExecutionResult :=
  start_time ← reads now;
  '(output, error, exit_status) ←
    try_except (output ← run_command args s cmd; mret (py_str repr output, "", 0%Z))
               (λ e, mret ("", exn_str e, 1%Z));
  timed d start_time cmd output error exit_status.

Definition send d s (command : list string) : M W (list DriverExecutionResult) :=
  match d_args d with
  | CommitArgs _ => raise (AssertionError "")
  | CliArgs args =>
      match command with
      | [] => mret []
      | _ =>
          opened ← try_except (open_device s ≫= λ _, mret None) (λ e, mret (Some e));
          match opened with
          | Some e =>
              t ← reads now;
              r ← timed d t (join " " command) "" ("Failed to open session: " +:+ exn_str e) 1;
              mret [r]
          | None => mapM (send_one d args s) command
          end
      end
  end.

(** ** [config] *)

(** "Load candidate configuration" *)
Definition load d s (cfg_text : string) : M W string :=
  open_device s ≫= λ _, load_merge_candidate s cfg_text ≫= λ _, compare_config s.

(** "Apply or discard configuration" *)
Definition apply d (args : list (string * pyval)) s : M W unit :=
  if d_dry_run d then discard_config s else commit_config s (exclude_none args).

Definition cfg_text (cfg : list string) : string := match cfg with [x] => x | _ => join nl cfg end.

Definition config d s (cfg : list string) : M W (list DriverExecutionResult) :=
  match d_args d with
  | CliArgs _ => raise (AssertionError "")
  | CommitArgs args =>
      match cfg with
      | [] => mret []
      | _ =>
          start_time ← reads now;
          loaded ← try_except (diff ← load d s (cfg_text cfg); mret (inl diff)) (λ e, mret (inr e));
          match loaded with
          | inr e => r ← timed d start_time (cfg_text cfg) "" (exn_str e) 1; mret [r]
          | inl diff =>
              '(error, exit_status) ←
                try_except (apply d args s ≫= λ _, mret ("", 0%Z)) (λ e, mret (exn_str e, 1%Z));
              r ← timed d start_time (cfg_text cfg) diff error exit_status; mret [r]
          end
      end
  end.

Definition disconnect s : M W unit := close_device s.

(** [NapalmDriver.from_execution_request] *)
Definition from_execution_request (fits_cli : list (string * pyval) → bool) (req : ExecutionRequest) : M W Driver :=
  of_res (new_driver fits_cli req).

(** [NapalmDriver.test]: the host it answers for *)
Definition test (connection_args : DriverConnectionArgs) : M W pyval :=
  m ← of_res (NapalmConnectionArgs_validate (exclude_none (DriverConnectionArgs_dump connection_args)));
  conn_args ← of_res (convert_conn_args m);
  let d := mkDriver (CliArgs [("encoding", PStr "text")]) conn_args true in
  s ← connect d;
  try_finally (open_device s ≫= λ _, mret (attr "host" conn_args))
              (try_except (close_device s) (λ _, mret tt)).
End driver.

(** ** What the driver relies on

    The calls that change the device's configuration, in order, whether they
    succeed or not *)
Inductive event := Loaded (cfg_text : string) | Discarded | Committed (args : list (string * pyval)).

Class NapalmLog (W : Type) := { log : W → list event }.

Class NapalmLaws (W : Type) `{NapalmLib W} `{!NapalmLog W} : Prop := {
  network_driver_safe : ∀ n a, safe (network_driver n a);
  open_call : ∀ s, steady log (open_device s);
  close_safe : ∀ s, safe (close_device s);
  call_method_safe : ∀ s n a, safe (call_method s n a);
  cli_safe : ∀ s x e, safe (cli s x e);
  compare_call : ∀ s, steady log (compare_config s);
  load_safe : ∀ s x, safe (load_merge_candidate s x);
  load_log : ∀ s x w, log (load_merge_candidate s x w).2 = log w ++ [Loaded x];
  discard_safe : ∀ s, safe (discard_config s);
  discard_log : ∀ s w, log (discard_config s w).2 = log w ++ [Discarded];
  commit_safe : ∀ s a, safe (commit_config s a);
  commit_log : ∀ s a w, log (commit_config s a w).2 = log w ++ [Committed a];
}.

Section spec.
Context {W : Type} `{NapalmLib W} `{!NapalmLog W} `{!NapalmLaws W} `{!Clock W} (repr : pyval → string).
Abbreviation wp := (Prelude.wp log).
Implicit Types (d : Driver) (s : Device) (v : list event).

Lemma napalm_wp_logged {A} (m : M W A) es (Q : res A → _ → Prop) v :
  safe m → (∀ w, log (m w).2 = log w ++ es) → (∀ r, Q r (v ++ es)) → wp m Q v.
Proof. intros Hs Hl HQ w <-. split; [apply Hs|]. rewrite Hl. apply HQ. Qed.

Lemma napalm_wp_timed d t cmd out err st (Q : res DriverExecutionResult → _ → Prop) v :
  (∀ m, Q (Ok (mkResult cmd (PStr out) err st None m PNone)) v) → wp (timed d t cmd out err st) Q v.
Proof. intros HQ. apply wp_bind, wp_reads. intros w _. by apply wp_ret. Qed.

Lemma wp_load d s text (Q : res string → _ → Prop) v :
  (∀ e, Q (Err e) v) → (∀ r, Q r (v ++ [Loaded text])) → wp (load d s text) Q v.
Proof.
  intros He HQ. apply wp_seq; [apply open_call|done|].
  apply wp_bind. eapply napalm_wp_logged; [apply load_safe|intros; apply load_log|].
  intros [u|e]; [|done]. apply wp_keep; [apply compare_call|done].
Qed.

(** How a configuration of [cfg] ends *)
Definition configured d (args : list (string * pyval)) (cfg : list string) v (results : list DriverExecutionResult) v' : Prop :=
  let text := cfg_text cfg in
  let finish := if d_dry_run d then Discarded else Committed (exclude_none args) in
  match cfg with
  | [] => results = [] ∧ v' = v
  | _ => ∃ m out err st, results = [mkResult text (PStr out) err st None m PNone] ∧
      (out = "" ∧ st = 1%Z ∧ (v' = v ∨ v' = v ++ [Loaded text])
       ∨ (err = "" ∧ st = 0%Z ∨ st = 1%Z) ∧ v' = v ++ [Loaded text; finish])
  end.

Lemma napalm_wp_config d args s cfg v : d_args d = CommitArgs args →
  wp (config d s cfg) (λ r v', ∃ results, r = Ok results ∧ configured d args cfg v results v') v.
Proof.
  intros Ha. unfold config. rewrite Ha. destruct cfg as [|x cfg]; [by apply wp_ret; exists []|].
  set (c := x :: cfg). apply wp_bind, wp_reads. intros w0 _. apply wp_bind, wp_try, wp_bind.
  assert (∀ e v', v' = v ∨ v' = v ++ [Loaded (cfg_text c)] →
    wp (r ← timed d (now w0) (cfg_text c) "" (exn_str e) 1; mret [r])
      (λ r v'', ∃ results, r = Ok results ∧ configured d args c v results v'') v') as He.
  { intros e v' Hv. apply wp_bind, napalm_wp_timed. intros m. apply wp_ret. eexists. split; [done|].
    exists m, "", (exn_str e), 1%Z. split; [done|]. by left. }
  apply wp_load; [intros e; apply wp_ret; by apply He; left|].
  intros [diff|e]; [|apply wp_ret; by apply He; right]. apply wp_ret.
  assert (∀ err st, err = "" ∧ st = 0%Z ∨ st = 1%Z →
    wp (r ← timed d (now w0) (cfg_text c) diff err st; mret [r])
      (λ r v', ∃ results, r = Ok results ∧ configured d args c v results v')
      ((v ++ [Loaded (cfg_text c)]) ++ [if d_dry_run d then Discarded else Committed (exclude_none args)])) as Hend.
  { intros err st Hst. apply wp_bind, napalm_wp_timed. intros m. apply wp_ret. eexists. split; [done|].
    exists m, diff, err, st. split; [done|]. right. by rewrite <-app_assoc. }
  apply wp_bind, wp_try, wp_bind. apply (napalm_wp_logged _ [if d_dry_run d then Discarded else Committed (exclude_none args)]).
  - unfold apply. destruct (d_dry_run d); [apply discard_safe|apply commit_safe].
  - intros w. unfold apply. destruct (d_dry_run d); [apply discard_log|apply commit_log].
  - intros [u|e]; apply wp_ret; apply Hend; auto.
Qed.

(** A configuration through NAPALM is loaded as one text, and committed
    exactly once, or in a dry run discarded instead, after it has been loaded
    and compared; when that fails nothing more is done.  The driver never
    raises: its result is one entry with the difference and how it ended. *)
Theorem napalm_config_spec d args s cfg w : d_args d = CommitArgs args →
  let '(r, w') := config d s cfg w in ∃ results, r = Ok results ∧ configured d args cfg (log w) results (log w').
Proof.
  intros Ha. pose proof (wp_run _ _ w (napalm_wp_config d args s cfg _ Ha)) as Hw. destruct (config d s cfg w). apply Hw.
Qed.

(** A command's result: what it gave, or why it failed *)
Definition answered (cmd : string) (r : DriverExecutionResult) : Prop :=
  r_command r = cmd ∧ (r_exit_status r = 0%Z ∧ r_stderr r = "" ∨ r_exit_status r = 1%Z ∧ r_stdout r = PStr "").

Lemma run_command_safe args s cmd : safe (run_command args s cmd).
Proof.
  unfold run_command. case_match; [case_match; [apply call_method_safe|by apply safe_raise]|].
  apply safe_bind; [apply cli_safe|]. intros resp. case_match; [apply safe_ret|by apply safe_raise].
Qed.

Lemma send_one_answered d args s cmd w : ∃ r w', send_one repr d args s cmd w = (Ok r, w') ∧ answered cmd r.
Proof.
  unfold send_one, timed, mbind, M_bind, reads, try_except. pose proof (run_command_safe args s cmd w) as Hs.
  destruct (run_command args s cmd w) as [[out|e] w1]; simpl.
  - eexists _, _. split; [done|]. split; [done|]. by left.
  - rewrite (Hs e eq_refl). eexists _, _. split; [done|]. split; [done|]. by right.
Qed.

(** Every command is tried, whatever became of those before it; a device that
    does not open gives one failure. *)
Lemma napalm_send_spec d args s command w : d_args d = CliArgs args → command ≠ [] →
  ∃ results w', send repr d s command w = (Ok results, w') ∧
    (Forall2 answered command results ∨ ∃ e m, results =
       [mkResult (join " " command) (PStr "") ("Failed to open session: " +:+ exn_str e) 1 None m PNone]).
Proof.
  intros Ha Hc. unfold send. rewrite Ha. destruct command as [|c command]; [done|].
  generalize (c :: command). intros l. unfold mbind at 1, M_bind, try_except, mbind at 1, M_bind.
  pose proof (proj1 (open_call s) w) as Ho. destruct (open_device s w) as [[u|e] w1]; simpl.
  - assert (∀ w, ∃ results w', mapM (send_one repr d args s) l w = (Ok results, w') ∧ Forall2 answered l results) as Hall.
    { clear Ha w w1 u Ho. induction l as [|x l IH]; intros w; [by eexists [], w|].
      cbn [mapM]. unfold mbind, M_bind. destruct (send_one_answered d args s x w) as (r & w1 & -> & Hr).
      destruct (IH w1) as (rs & w2 & -> & Hrs). eexists _, _. split; [done|]. by constructor. }
    destruct (Hall w1) as (results & w' & -> & Hr). eexists _, _. split; [done|]. by left.
  - rewrite (Ho e eq_refl). eexists _, _. split; [done|]. right. eauto.
Qed.
End spec.

(** ** The contract of the workers *)
Class LibCalls (W : Type) `{Others W} `{NapalmLib W} : Prop := {
  network_driver_calm : ∀ n a, driver_call (network_driver n a);
  open_calm : ∀ s, driver_call (open_device s);
  close_calm : ∀ s, driver_call (close_device s);
  call_method_calm : ∀ s n a, driver_call (call_method s n a);
  cli_calm : ∀ s x e, driver_call (cli s x e);
  load_merge_calm : ∀ s x, driver_call (load_merge_candidate s x);
  compare_calm : ∀ s, driver_call (compare_config s);
  discard_calm : ∀ s, driver_call (discard_config s);
  commit_config_calm : ∀ s a, driver_call (commit_config s a);
}.
#[export] Hint Resolve network_driver_calm open_calm close_calm call_method_calm cli_calm load_merge_calm
  compare_calm discard_calm commit_config_calm : calm.

Section lawful.
Context {W : Type} `{Json} `{Redis W} `{Others W} `{!OthersLaws W} `{NapalmLib W} `{!Clock W} `{!LibCalls W}.
Context (repr : pyval → string) (fits_cli : list (string * pyval) → bool).

Definition no_method {A} (name : string) : M W A :=
  raise (OtherError "AttributeError" ("'NapalmDriver' object has no attribute '" +:+ name +:+ "'")).

(** The plugin under its name [napalm] *)
Definition napalm_driver : Drivers W :=
  {| Rpc.DriverObject := Driver; Rpc.Session := Device;
     drivers_has n := bool_decide (n = NAPALM);
     Rpc.from_execution_request := from_execution_request fits_cli;
     Rpc.connect := connect;
     Rpc.send := send repr;
     send_config := config;
     Rpc.launch_detached _ _ _ _ := no_method "launch_detached";
     Rpc._read_logs _ _ _ _ := no_method "_read_logs";
     Rpc.kill_task _ _ _ := no_method "kill_task";
     Rpc.disconnect _ s := disconnect s |}.

Lemma napalm_validate_ordinary req : ordinary (new_driver fits_cli req).
Proof.
  unfold new_driver. apply ordinary_bind; [apply validate_model_ordinary|]. intros a.
  apply ordinary_bind.
  { case_match; [|done]. apply ordinary_bind; [|done]. unfold NapalmArgs_validate.
    pose proof (validate_model_ordinary NapalmCliArgs l) as Ho.
    destruct (validate_model NapalmCliArgs l), (validate_model NapalmCommitConfigArgs l); try done.
    intros e' [= <-]. by apply Ho. }
  intros args. do 2 (apply ordinary_bind; [apply field_or_ordinary|intros ?]).
  apply ordinary_bind; [apply model_validate_ordinary|]. intros r. apply ordinary_bind; [|done].
  unfold convert_conn_args. ordinary_cases.
Qed.

Lemma napalm_lawful : DriverLaws W (D := napalm_driver).
Proof.
  split; simpl; intros; [done|..]; try (by apply calm_raise).
  - apply calm_of_res, napalm_validate_ordinary.
  - unfold connect. calm.
  - unfold send, send_one, run_command, timed. calm.
  - unfold config, load, apply, timed. calm.
  - unfold disconnect. calm.
Qed.
End lawful.
