(* ===== verification/Pyeapi.v ===== *)
(** * The pyeapi driver

    [linux_net/plugins/drivers/pyeapi/]: commands and configurations over
    Arista's HTTP interface; which requests can connect at all; and that the
    driver keeps the contract of the workers. *)

From S2P Require Import Prelude PyLib Models World Registry Rpc Calm ParamikoModel Fields.

(** ** What the driver uses of [pyeapi] *)
Class PyeapiLib (W : Type) := {
  Node : Type;
  (** [pyeapi.connect(return_node=True, ...)] *)
  pyeapi_connect : list (string * pyval) → M W Node;
  node_enable : Node → list string → bool → list (string * pyval) → M W (list pyval);
  node_config : Node → list string → list (string * pyval) → M W pyval;
}.

(** ** Models ([model.py]) *)
Definition optional (n : string) (t : ftype) : field := mkField n (TOpt t) (Some PNone).

Definition PyeapiConnectionArg : list field :=
  [optional "device_type" TStr; mkField "host" TStr (Some (PStr "localhost"));
   mkField "username" TStr (Some (PStr "admin")); mkField "password" TStr (Some (PStr ""));
   optional "transport" TStr; optional "port" TInt; optional "key_file" TStr; optional "cert_file" TStr;
   optional "ca_file" TStr; mkField "timeout" TInt (Some (PInt 60))].

(** [self]; [PyeapiArg] keeps every key. *)
Record Driver := mkDriver {
  d_args : list (string * pyval);
  d_conn_args : list (string * pyval);
  d_enabled : bool;
  d_save : bool;
}.

(** [PyeapiExecutionRequest.model_validate(req.model_dump())] and the rest of
    [from_execution_request] *)
Definition new_driver (req : ExecutionRequest) : res Driver :=
  conn_args ← validate_model PyeapiConnectionArg (DriverConnectionArgs_dump (er_connection_args req));
  enable_mode ← field_or "enable_mode" true as_bool (er_extra req);
  save ← field_or "save" false as_bool (er_extra req);
  req ← ExecutionRequest.model_validate req;
  Ok (mkDriver (default [] (er_driver_args req)) conn_args enable_mode save).

(** [PyeapiDriver.validate] *)
Definition validate (req : ExecutionRequest) : res unit := new_driver req ≫= λ _, Ok tt.

(** [f(a=..., **kwargs)] with a keyword given twice *)
Definition clash (names : list string) (kwargs : list (string * pyval)) : bool :=
  any (λ n, dict_has n kwargs) names.
Definition twice : exn := TypeError "got multiple values for keyword argument".

Definition no_attribute (name : string) : exn :=
  OtherError "AttributeError" ("'PyeapiDriver' object has no attribute '" +:+ name +:+ "'").

Section driver.
Context {W : Type} `{PyeapiLib W} `{!Clock W}.
Implicit Types (d : Driver) (s : Node).

(** [self.conn_args.keepalive]: no declared field, so an error when it is not
    given; and the methods for a kept session are not defined. *)
Definition connect d : M W Node :=
  match dict_get "keepalive" (d_conn_args d) with
  | None => raise (OtherError "AttributeError" "'PyeapiConnectionArg' object has no attribute 'keepalive'")
  | Some k =>
      if truthy k then raise (no_attribute "_get_persisted_session")
      else if clash ("return_node" :: (d_conn_args d).*1) (d_args d) || dict_has "return_node" (d_conn_args d)
      then raise twice
      else pyeapi_connect (d_conn_args d ++ d_args d)
  end.

Definition timed d (start_time : Z) (command : string) (stdout : pyval) (stderr : string) (exit_status : Z)
    : M W DriverExecutionResult :=
  t ← reads now;
  mret (mkResult command stdout stderr exit_status None
          [("host", attr "host" (d_conn_args d)); ("duration_seconds", PFloat (round3 (t - start_time)));
           ("session_reused", PBool false)] PNone).

Definition failed d (command : string) (start_time : Z) (e : exn) : M W (list DriverExecutionResult) :=
  r ← timed d start_time command (PStr "") (exn_str e) 1; mret [r].

(** [raw_results[i]] of each command *)
Fixpoint take_results d (start_time : Z) (command : list string) (raw_results : list pyval)
    : M W (list DriverExecutionResult) :=
  match command, raw_results with
  | [], _ => mret []
  | cmd :: command, output :: raw_results =>
      r ← timed d start_time cmd output "" 0;
      rs ← take_results d start_time command raw_results;
      mret (r :: rs)
  | _ :: _, [] => raise (IndexError "list index out of range")
  end.

Definition send d s (command : list string) : M W (list DriverExecutionResult) :=
  start_time ← reads now;
  try_except
    (raw_results ← (if clash ["commands"; "send_enable"] (d_args d) then raise twice
                    else node_enable s command (d_enabled d) (d_args d));
     take_results d start_time command raw_results)
    (failed d (match command with [] => "unknown_command" | _ => join " " command end) start_time).

Definition config d s (config : list string) : M W (list DriverExecutionResult) :=
  start_time ← reads now;
  match config with
  | [] => mret []
  | _ =>
      try_except
        (response ← (if clash ["commands"] (d_args d) then raise twice
                     else node_config s (config ++ (if d_save d then ["write memory"] else [])) (d_args d));
         r ← timed d start_time (join nl config) response "" 0; mret [r])
        (failed d (join nl config) start_time)
  end.

(** "pyeapi uses HTTP/HTTPS connection, so no need to disconnect." *)
Definition disconnect : M W unit := mret tt.

Definition from_execution_request (req : ExecutionRequest) : M W Driver := of_res (new_driver req).

Definition not_none (kv : string * pyval) : bool := match kv.2 with PNone => false | _ => true end.
Definition exclude_none (m : list (string * pyval)) : list (string * pyval) := filter (λ kv, not_none kv = true) m.

(** [PyeapiDriver.test]: host and transport *)
Definition test (connection_args : DriverConnectionArgs) : M W (pyval * pyval) :=
  conn_args ← of_res (validate_model PyeapiConnectionArg (exclude_none (DriverConnectionArgs_dump connection_args)));
  (if dict_has "return_node" conn_args then raise twice else pyeapi_connect (exclude_none conn_args)) ≫= λ _,
  let transport := attr "transport" conn_args in
  mret (attr "host" conn_args, if truthy transport then transport else PStr "http").

(** ** Which requests connect *)
Definition is_attribute_error (e : exn) : bool :=
  match e with OtherError cls _ => String.eqb cls "AttributeError" | _ => false end.

Lemma field_values_undeclared fs (m : list (string * pyval)) vs k : field_values fs m = Ok vs → k ∉ f_name <$> fs →
  dict_get k vs = None.
Proof.
  revert vs. induction fs as [|f fs IH]; intros vs E Hk; [by simplify_eq/=|].
  cbn [field_values mbind res_bind] in E. destruct (field_value f m) as [v|e]; [|done].
  destruct (field_values fs m) as [vs'|e] eqn:Ev; [|done]. cbn in E. injection E as <-.
  rewrite fmap_cons in Hk. apply not_elem_of_cons in Hk as [Hne Hk].
  cbn [dict_get]. rewrite decide_False by done. by apply IH.
Qed.

Lemma dict_get_filter_keys (P : string → Prop) `{!∀ kv : string * pyval, Decision (P kv.1)} k (m : list (string * pyval)) :
  P k → dict_get k (filter (λ kv, P kv.1) m) = dict_get k m.
Proof.
  intros Hk. induction m as [|[k' v] m IH]; [done|]. rewrite filter_cons. cbn [dict_get].
  case_decide as Hp; cbn [dict_get]; [by case_decide|]. rewrite decide_False; [done|]. intros ->. by apply Hp.
Qed.

Lemma validated_undeclared fs m vs k : validate_model fs m = Ok vs → k ∉ f_name <$> fs → dict_get k vs = dict_get k m.
Proof.
  unfold validate_model. intros E Hk. destruct (field_values fs m) as [us|e] eqn:Eu; [|done].
  cbn in E. injection E as <-. rewrite dict_get_app, (field_values_undeclared _ _ _ _ Eu Hk).
  by apply (dict_get_filter_keys (λ k, k ∉ f_name <$> fs)).
Qed.

(** A request for a pyeapi device can connect only if its connection
    arguments give [keepalive] with a value that is false: without the key, and
    with any true value, connecting raises [AttributeError] and nothing is sent.
    With a false value the device is called, with the validated connection
    arguments and the driver's, unless an argument would be given twice. *)
Theorem pyeapi_connect_spec req d w : new_driver req = Ok d →
  match dict_get "keepalive" (dc_extra (er_connection_args req)) with
  | None => ∃ e, connect d w = (Err e, w) ∧ is_attribute_error e = true
  | Some k =>
      (truthy k = true → ∃ e, connect d w = (Err e, w) ∧ is_attribute_error e = true)
      ∧ (truthy k = false → ∃ m, validate_model PyeapiConnectionArg (DriverConnectionArgs_dump (er_connection_args req)) = Ok m
           ∧ connect d w = (let args := default [] (er_driver_args req) in
                            if clash ("return_node" :: m.*1) args || dict_has "return_node" m then (Err twice, w)
                            else pyeapi_connect (m ++ args) w))
  end.
Proof.
  unfold new_driver. destruct (validate_model _ _) as [m|e] eqn:Em; [|done]. cbn [mbind res_bind].
  destruct (field_or "enable_mode" _ _ _) as [enable_mode|e]; cbn [mbind res_bind]; [|done].
  destruct (field_or "save" _ _ _) as [save|e]; cbn [mbind res_bind]; [|done].
  destruct (ExecutionRequest.model_validate req) as [req'|e] eqn:Ev; [|done]. cbn. intros [= <-].
  assert (er_driver_args req' = er_driver_args req) as ->
    by (apply model_validate_inv in Ev as (_ & -> & _); done).
  assert (dict_get "keepalive" m = dict_get "keepalive" (dc_extra (er_connection_args req))) as Hk.
  { rewrite (validated_undeclared _ _ _ _ Em); [apply dump_undeclared|]; by apply (bool_decide_unpack _). }
  unfold connect, dc_keepalive. cbn [d_conn_args]. rewrite Hk.
  cbn [d_args]. destruct (dict_get "keepalive" (dc_extra _)) as [k|]; [|eexists; split; reflexivity].
  split; intros Ht; rewrite Ht; [eexists; split; reflexivity|]. exists m. split; [done|]. cbn zeta. by destruct (_ || _).
Qed.

(** Finding: so a request with the arguments of the documentation's example
    never connects. *)
Definition example_request : ExecutionRequest :=
  mkExecutionRequest PYEAPI None
    (mkDriverConnectionArgs None (Some "172.17.0.1") (Some "admin") (Some "admin") [("transport", PStr "https")])
    None (Some (PayList ["interface Ethernet1"])) None None None None (Some FIFO) None None None audit_full None false
    None None None [("save", PBool true)].

Lemma example_never_connects d w : new_driver example_request = Ok d →
  connect d w = (Err (OtherError "AttributeError" "'PyeapiConnectionArg' object has no attribute 'keepalive'"), w).
Proof. by intros [= <-]. Qed.

(** *** Results: one per command, or one failure *)
Class PyeapiLaws : Prop := {
  enable_safe : ∀ s c b a, safe (node_enable s c b a);
  config_safe : ∀ s c a, safe (node_config s c a);
}.

Lemma take_results_safe d t command raw : safe (take_results d t command raw).
Proof.
  revert raw. induction command as [|x command IH]; intros [|y raw]; try apply safe_ret; [by apply safe_raise|].
  apply safe_bind; [apply safe_bind; [apply safe_reads|intros; apply safe_ret]|].
  intros r. apply safe_bind; [apply IH|]. intros rs. apply safe_ret.
Qed.

Lemma take_results_Ok d t command raw w rs w' : take_results d t command raw w = (Ok rs, w') →
  Forall2 (λ cmd r, r_command r = cmd ∧ r_exit_status r = 0%Z) command rs.
Proof.
  revert raw w rs w'. induction command as [|x command IH]; intros [|y raw] w rs w' E; try by simplify_eq/=.
  - injection E as <- _. constructor.
  - injection E as <- _. constructor.
  - cbn [take_results] in E. unfold timed, mbind, M_bind, reads in E. cbn in E.
    revert E. destruct (take_results d t command raw w) as [[rs'|e] w1] eqn:Er; [|done]. intros [= <- _].
    constructor; [done|]. by eapply IH.
Qed.

Lemma pyeapi_send_spec `{!PyeapiLaws} d s command w : ∃ results w', send d s command w = (Ok results, w') ∧
  (Forall2 (λ cmd r, r_command r = cmd ∧ r_exit_status r = 0%Z) command results
   ∨ ∃ m e, results = [mkResult (match command with [] => "unknown_command" | _ => join " " command end)
                          (PStr "") (exn_str e) 1 None m PNone]).
Proof.
  unfold send. unfold mbind at 1, M_bind, reads. unfold try_except.
  set (m := mbind _ _). assert (safe m) as Hs.
  { apply safe_bind; [case_match; [by apply safe_raise|apply enable_safe]|]. intros raw. apply take_results_safe. }
  specialize (Hs w). destruct (m w) as [[rs|e] w1] eqn:Em.
  - exists rs, w1. split; [done|]. left. revert Em. unfold m, mbind, M_bind.
    destruct (clash _ _); [done|]. destruct (node_enable _ _ _ _ w) as [[raw|e] w2]; [|done].
    intros E. by eapply take_results_Ok.
  - rewrite (Hs e eq_refl). eexists _, _. split; [done|]. right. by eexists _, e.
Qed.
End driver.

(** ** The contract of the workers *)
Class LibCalls (W : Type) `{Others W} `{PyeapiLib W} : Prop := {
  pyeapi_connect_calm : ∀ a, driver_call (pyeapi_connect a);
  node_enable_calm : ∀ s c b a, driver_call (node_enable s c b a);
  node_config_calm : ∀ s c a, driver_call (node_config s c a);
}.
#[export] Hint Resolve pyeapi_connect_calm node_enable_calm node_config_calm : calm.

Section lawful.
Context {W : Type} `{Json} `{Redis W} `{Others W} `{!OthersLaws W} `{PyeapiLib W} `{!Clock W} `{!LibCalls W}.

Definition no_method {A} (name : string) : M W A := raise (no_attribute name).

(** The plugin under its name [pyeapi] *)
Definition pyeapi_driver : Drivers W :=
  {| Rpc.DriverObject := Driver; Rpc.Session := Node;
     drivers_has n := bool_decide (n = PYEAPI);
     Rpc.from_execution_request := from_execution_request;
     Rpc.connect := connect;
     Rpc.send := send;
     send_config := config;
     Rpc.launch_detached _ _ _ _ := no_method "launch_detached";
     Rpc._read_logs _ _ _ _ := no_method "_read_logs";
     Rpc.kill_task _ _ _ := no_method "kill_task";
     Rpc.disconnect _ _ := disconnect |}.

Lemma pyeapi_validate_ordinary req : ordinary (new_driver req).
Proof.
  unfold new_driver. apply ordinary_bind; [apply validate_model_ordinary|]. intros a.
  do 2 (apply ordinary_bind; [apply field_or_ordinary|intros ?]).
  by apply ordinary_bind; [apply model_validate_ordinary|].
Qed.

Lemma take_results_calm d t command raw : driver_call (W:=W) (take_results d t command raw).
Proof.
  revert raw. induction command as [|x command IH]; intros [|y raw]; cbn [take_results]; unfold timed; calm.
Qed.
Hint Resolve take_results_calm : calm.

Lemma pyeapi_lawful : DriverLaws W (D := pyeapi_driver).
Proof.
  split; simpl; intros; [done|..]; try (by apply calm_raise).
  - apply calm_of_res, pyeapi_validate_ordinary.
  - unfold connect. calm.
  - unfold send, failed, timed. calm.
  - unfold config, failed, timed. calm.
  - unfold disconnect. calm.
Qed.
End lawful.
