(* ===== verification/Plugins.v ===== *)
(** * Plugins

    [linux_net/plugins/__init__.py]: loading the plugins of a directory, the
    dictionaries that load at their first use, and the drivers behind their
    names: running a request with all of them is running it with its own. *)

From S2P Require Import Prelude PyLib Models World Registry Manager Storage AuditLog Webhook Rpc RpcSpec Calm.

(** ** [PluginLoader]

    A directory is its entries in the order of [iterdir]: the name, whether it
    is a directory with an [__init__.py], and what importing the package gives:
    for each name of [__all__] the value, if it is a class, with its name
    attribute and whether it is a proper subclass of the base class. *)
Section loader.
Context {T : Type}.

Record export := mkExport { ex_subclass : bool; ex_name : option string; ex_class : T }.
Record entry := mkEntry { en_name : string; en_package : bool; en_module : res (list (option export)) }.

Definition _is_valid_class (cls : option export) : bool :=
  match cls with Some x => ex_subclass x | None => false end.

Definition _process_module (module : list (option export)) (plugin_dict : list (string * T)) : list (string * T) :=
  foldl (λ d cls, match cls with
                  | Some x => if ex_subclass x && str_truthy (ex_name x)
                              then dict_set (default "" (ex_name x)) (ex_class x) d else d
                  | None => d
                  end) plugin_dict module.

(** A package that cannot be imported is logged and left out. *)
Definition _load_package (e : entry) (plugin_dict : list (string * T)) : res (list (string * T)) :=
  match en_module e with
  | Ok module => Ok (_process_module module plugin_dict)
  | Err x => if is_exception x then Ok plugin_dict else Err x
  end.

Fixpoint load_packages (entries : list entry) (plugin_dict : list (string * T)) : res (list (string * T)) :=
  match entries with
  | [] => Ok plugin_dict
  | e :: entries =>
      plugin_dict ← (if en_package e then _load_package e plugin_dict else Ok plugin_dict);
      load_packages entries plugin_dict
  end.

(** [None]: no such directory *)
Definition load (load_dir : option (list entry)) : res (list (string * T)) :=
  match load_dir with
  | None => Ok []
  | Some entries => load_packages entries []
  end.

(** ** [LazyDictProxy], with its [_data] in the world *)
Class Proxy (W : Type) := {
  _data : W → option (list (string * T));
  set_data : list (string * T) → W → W;
}.

Context {W : Type} `{!Proxy W}.

Definition _ensure_loaded (loader : M W (list (string * T))) : M W (list (string * T)) :=
  d ← reads _data;
  match d with
  | Some d => mret d
  | None => d ← loader; writes (set_data d) ≫= λ _, mret d
  end.

Definition proxy_getitem (loader : M W (list (string * T))) (key : string) : M W T :=
  d ← _ensure_loaded loader;
  match dict_get key d with Some x => mret x | None => raise (KeyError key) end.
Definition proxy_contains (loader : M W (list (string * T))) (key : string) : M W bool :=
  d ← _ensure_loaded loader; mret (dict_has key d).
Definition proxy_get (loader : M W (list (string * T))) (key : string) (dflt : option T) : M W (option T) :=
  d ← _ensure_loaded loader; mret (match dict_get key d with Some x => Some x | None => dflt end).
Definition proxy_keys (loader : M W (list (string * T))) : M W (list string) :=
  d ← _ensure_loaded loader; mret d.*1.
Definition proxy_values (loader : M W (list (string * T))) : M W (list T) :=
  d ← _ensure_loaded loader; mret d.*2.
Definition proxy_items (loader : M W (list (string * T))) : M W (list (string * T)) := _ensure_loaded loader.
Definition proxy_len (loader : M W (list (string * T))) : M W nat :=
  d ← _ensure_loaded loader; mret (length d).
End loader.
Arguments Proxy : clear implicits.
Arguments export : clear implicits.
Arguments entry : clear implicits.

(** ** What loading finds *)

(** The plugins of a directory by name, the last export first *)
Definition found {T} (e : entry T) : list (string * T) :=
  if en_package e then
    match en_module e with
    | Ok module => omap (λ cls, match cls with
                                | Some x => if ex_subclass x && str_truthy (ex_name x)
                                            then Some (default "" (ex_name x), ex_class x) else None
                                | None => None
                                end) module
    | Err _ => []
    end
  else [].

Lemma process_module_get {T} module (d : list (string * T)) k :
  dict_get k (_process_module module d) =
    match dict_get k (reverse (omap (λ cls : option (export T), match cls with
                       | Some x => if ex_subclass x && str_truthy (ex_name x)
                                   then Some (default "" (ex_name x), ex_class x) else None
                       | None => None
                       end) module)) with
    | Some x => Some x
    | None => dict_get k d
    end.
Proof.
  revert d. induction module as [|cls module IH]; intros d; [done|].
  change (_process_module (cls :: module) d) with (_process_module module
    (match cls with
     | Some x => if ex_subclass x && str_truthy (ex_name x) then dict_set (default "" (ex_name x)) (ex_class x) d else d
     | None => d
     end)).
  rewrite IH. cbn [omap list_omap]. destruct cls as [x|]; [|done].
  destruct (ex_subclass x && str_truthy (ex_name x)); [|done].
  rewrite reverse_cons, dict_get_app. destruct (dict_get k (reverse _)); [done|].
  cbn [dict_get]. case_decide as Hk; [by rewrite Hk, dict_get_set_eq|]. by rewrite dict_get_set_ne.
Qed.

(** Loading a directory never fails (for ordinary import errors), and finds
    under a name the last class exported under it. *)
Lemma load_packages_get {T} (entries : list (entry T)) d :
  Forall (λ e, ordinary (en_module e)) entries →
  ∃ d', load_packages entries d = Ok d' ∧ ∀ k, dict_get k d' =
    match dict_get k (reverse (entries ≫= found)) with Some x => Some x | None => dict_get k d end.
Proof.
  revert d. induction entries as [|e entries IH]; intros d Hall; [by exists d|].
  apply Forall_cons in Hall as [He Hall]. cbn [load_packages].
  assert (∃ d1, (if en_package e then _load_package e d else Ok d) = Ok d1
    ∧ ∀ k, dict_get k d1 = match dict_get k (reverse (found e)) with Some x => Some x | None => dict_get k d end)
    as (d1 & -> & Hd1).
  { unfold found, _load_package. destruct (en_package e); [|by exists d].
    destruct (en_module e) as [module|x]; [|rewrite (He x eq_refl); by exists d].
    eexists. split; [done|]. intros k. apply process_module_get. }
  cbn [mbind res_bind]. destruct (IH d1 Hall) as (d' & -> & Hd'). exists d'. split; [done|]. intros k.
  
  rewrite Hd', Hd1. change (list_bind _ _ found (e :: entries)) with (found e ++ (entries ≫= found)).
  rewrite reverse_app, dict_get_app. by destruct (dict_get k (reverse (entries ≫= found))).
Qed.

(** A dictionary is loaded once: after a successful access it answers every
    later one, whatever the loader would say then. *)
Class ProxyLaws (T W : Type) `{Proxy T W} : Prop := { data_set : ∀ d w, _data (set_data d w) = Some d }.

Lemma loaded_once {T W} `{ProxyLaws T W} (loader loader' : M W (list (string * T))) w d w1 :
  _ensure_loaded loader w = (Ok d, w1) →
  _data w1 = Some d ∧ ∀ w2, _data w2 = Some d → _ensure_loaded loader' w2 = (Ok d, w2).
Proof.
  intros E. split.
  - revert E. unfold _ensure_loaded, mbind, M_bind, reads. destruct (_data w) as [d0|] eqn:Ed.
    + by intros [= <- <-].
    + destruct (loader w) as [[d0|e] w0]; [|done]. cbn. intros [= <- <-]. apply data_set.
  - intros w2 Hw2. unfold _ensure_loaded, mbind, M_bind, reads. by rewrite Hw2.
Qed.

(** ** Drivers by their names

    [drivers[name]] of two sets of plugins: an object and a session belong to
    the set that made them. *)
Section sum.
Context {W : Type} (D1 D2 : Drivers W).

Definition mixed {A} : M W A := raise (TypeError "session of another driver").

Definition sum_drivers : Drivers W :=
  {| Rpc.DriverObject := DriverObject (Drivers:=D1) + DriverObject (Drivers:=D2);
     Rpc.Session := Session (Drivers:=D1) + Session (Drivers:=D2);
     drivers_has n := drivers_has (Drivers:=D1) n || drivers_has (Drivers:=D2) n;
     Rpc.from_execution_request r :=
       if drivers_has (Drivers:=D1) (er_driver r)
       then d ← from_execution_request (Drivers:=D1) r; mret (inl d)
       else d ← from_execution_request (Drivers:=D2) r; mret (inr d);
     Rpc.connect d := match d with
                      | inl d => s ← connect (Drivers:=D1) d; mret (inl s)
                      | inr d => s ← connect (Drivers:=D2) d; mret (inr s)
                      end;
     Rpc.send d s p := match d, s with
                       | inl d, inl s => send d s p | inr d, inr s => send d s p | _, _ => mixed
                       end;
     send_config d s p := match d, s with
                          | inl d, inl s => send_config d s p | inr d, inr s => send_config d s p | _, _ => mixed
                          end;
     Rpc.launch_detached d s cmd t := match d, s with
                          | inl d, inl s => launch_detached d s cmd t
                          | inr d, inr s => launch_detached d s cmd t | _, _ => mixed
                          end;
     Rpc._read_logs d s t o := match d, s with
                          | inl d, inl s => _read_logs d s t o | inr d, inr s => _read_logs d s t o | _, _ => mixed
                          end;
     Rpc.kill_task d s t := match d, s with
                          | inl d, inl s => kill_task d s t | inr d, inr s => kill_task d s t | _, _ => mixed
                          end;
     Rpc.disconnect d s := match d, s with
                           | inl d, inl s => disconnect d s | inr d, inr s => disconnect d s | _, _ => mixed
                           end |}.

Lemma sum_lawful `{Json} `{Redis W} `{Others W} : DriverLaws W (D := D1) → DriverLaws W (D := D2) →
  DriverLaws W (D := sum_drivers).
Proof.
  intros K1 K2. split; [apply _|..]; simpl; intros; repeat case_match; try (by apply calm_raise);
    try (apply calm_bind; [|intros; apply calm_ret]); auto with linux_net.
Qed.
End sum.

(** Preparing a request keeps its driver. *)
Lemma set_payload_driver b p r : er_driver (set_payload b p r) = er_driver r.
Proof. by destruct b. Qed.

Lemma prepare_driver `{Templates} req p req' : prepare req = Ok (p, req') → er_driver req' = er_driver req.
Proof.
  unfold prepare. destruct (render_request _ req) as [[q r]|e] eqn:Er; [|done]. cbn [mbind res_bind].
  destruct (normalise q); [|done]. cbn. intros [= _ <-]. rewrite set_payload_driver.
  revert Er. unfold render_request. destruct (er_rendering req) as [rd|]; [|by intros [= _ <-]].
  case_match; [done|]. unfold render_payload.
  destruct (template_source _ _) as [t|].
  - destruct (render _ t _); [|done]. cbn [mbind res_bind].
    destruct (render_script _ _ _); [|done]. cbn [mbind res_bind]. destruct (render_paths _ _ _); [|done].
    cbn. intros [= _ <-]. cbn. apply set_payload_driver.
  - cbn [mbind res_bind]. destruct (render_script _ _ _); [|done]. cbn [mbind res_bind].
    destruct (render_paths _ _ _); [|done]. cbn. by intros [= _ <-].
Qed.

Section by_name.
Context {W : Type} `{Json} `{Redis W} `{!Rq W} `{!Clock W} `{!Trace W} `{!CurrentJob} `{Templates} (c : Config).

Section one.
Context (D E : Drivers W) (dobj : DriverObject (Drivers:=E)) (dobj' : DriverObject (Drivers:=D)).
Context (to : Session (Drivers:=E) → Session (Drivers:=D)).
Context (Hconnect : ∀ w, connect dobj' w = match connect dobj w with (Ok s, w1) => (Ok (to s), w1) | (Err e, w1) => (Err e, w1) end).
Context (Hsend : ∀ s p, send dobj' (to s) p = send dobj s p)
  (Hconfig : ∀ s p, send_config dobj' (to s) p = send_config dobj s p)
  (Hlaunch : ∀ s cmd t, launch_detached dobj' (to s) cmd t = launch_detached dobj s cmd t)
  (Hdisconnect : ∀ s, disconnect dobj' (to s) = disconnect dobj s).

(** An object that behaves like another one runs a request like it. *)
Lemma with_session_like has_cmd req p w :
  with_session (Drivers0:=D) dobj' (on_session (Drivers0:=D) c has_cmd dobj' req p) w
  = with_session (Drivers0:=E) dobj (on_session (Drivers0:=E) c has_cmd dobj req p) w.
Proof.
  unfold with_session. unfold mbind, M_bind. rewrite Hconnect. destruct (connect dobj w) as [[s|e] w1]; [|done].
  rewrite Hdisconnect. unfold try_finally.
  replace (on_session (Drivers0:=D) c has_cmd dobj' req p (to s) w1)
    with (on_session (Drivers0:=E) c has_cmd dobj req p s w1); [done|].
  unfold on_session, launch, mbind, M_bind. rewrite Hsend, Hconfig.
  repeat case_match; try done; rewrite ?Hlaunch in *; congruence.
Qed.
End one.

(** A request runs with the plugin its driver names, as if there were no
    other: executing it with two sets of plugins is executing it with the first
    set when that has the driver, and with the second one otherwise, results,
    errors, session, registry and all. *)
Theorem execute_by_name (D1 D2 : Drivers W) req w :
  execute (Drivers0:=sum_drivers D1 D2) c req w =
    if drivers_has (Drivers:=D1) (er_driver req) then execute (Drivers0:=D1) c req w
    else execute (Drivers0:=D2) c req w.
Proof.
  unfold execute. cbn [drivers_has sum_drivers]. destruct (drivers_has (Drivers:=D1) (er_driver req)) eqn:E1; cbn [negb orb].
  - unfold mbind, M_bind, of_res. destruct (prepare req) as [[p req']|e] eqn:Ep; [|done].
    destruct (execution_id w) as [[i|e] w1]; [|done]. cbn [Rpc.from_execution_request sum_drivers].
    assert (er_driver (set_id i req') = er_driver req) as -> by exact (prepare_driver _ _ _ Ep). rewrite E1.
    unfold mbind, M_bind. destruct (from_execution_request (Drivers:=D1) _ w1) as [[d|e] w2]; [|done].
    cbn [mret M_ret]. unfold try_except. by rewrite (with_session_like (sum_drivers D1 D2) D1 d (inl d) inl).
  - destruct (drivers_has (Drivers:=D2) (er_driver req)) eqn:E2; cbn [negb]; [|done].
    unfold mbind, M_bind, of_res. destruct (prepare req) as [[p req']|e] eqn:Ep; [|done].
    destruct (execution_id w) as [[i|e] w1]; [|done]. cbn [Rpc.from_execution_request sum_drivers].
    assert (er_driver (set_id i req') = er_driver req) as -> by exact (prepare_driver _ _ _ Ep). rewrite E1.
    unfold mbind, M_bind. destruct (from_execution_request (Drivers:=D2) _ w1) as [[d|e] w2]; [|done].
    cbn [mret M_ret]. unfold try_except. by rewrite (with_session_like (sum_drivers D1 D2) D2 d (inr d) inr).
Qed.
End by_name.
