(* ===== verification/Loaders.v ===== *)
(** * The plugin directories

    The loaders of [linux_net/plugins/__init__.py] for drivers, webhooks,
    renderers, parsers, schedulers and credentials, and the directories of
    [utils/config.py] they read.  The file system, and what importing a package
    gives, are parameters; [Plugins] has the loading itself. *)

From Stdlib Require Import Ascii.
From S2P Require Import Prelude PyLib Plugins.

(** ** Python's view of a package *)

(** A class by its name, with the names of its bases, its own included
    ([__mro__]), and its attributes that are strings *)
Record pyclass := mkClass {
  pc_name : string;
  pc_mro : list string;
  pc_attrs : list (string * string);
}.

(** A module: its [__all__], when it has one, and the values of its names,
    [None] for what is no class *)
Record module := mkModule {
  md_all : option (list string);
  md_values : list (string * option pyclass);
}.

(** ** [PluginConfig] *)
Record PluginConfig := mkPluginConfig {
  pl_driver : string;
  pl_webhook : string;
  pl_template : string;
  pl_scheduler : string;
  pl_credential : string;
}.

Definition default_plugins : PluginConfig :=
  mkPluginConfig "linux_net/plugins/drivers" "linux_net/plugins/webhooks" "linux_net/plugins/templates"
    "linux_net/plugins/schedulers" "linux_net/plugins/credentials".

(** ** [PluginLoader] *)
Record PluginLoader := mkLoader {
  ld_load_dir : string;
  ld_base_class : string;
  ld_type : string;
  ld_name_attr : string;
}.

Section loaders.
(** What [iterdir] lists, [None] where there is no directory, with whether it is
    a directory with an [__init__.py]; and [importlib.import_module] *)
Context (iterdir : string → option (list (string * bool))) (import_module : string → res module).

Definition _generate_package_name (l : PluginLoader) (name : string) : string :=
  let base_pkg := rstrip_char "."%char (replace_char "/"%char "." (ld_load_dir l)) in
  if String.eqb base_pkg "" then name else base_pkg +:+ "." +:+ name.

Definition is_subclass (base : string) (c : pyclass) : bool :=
  bool_decide (base ∈ pc_mro c) && negb (String.eqb (pc_name c) base).

(** A name of [__all__], as the loader sees it *)
Definition export_of (l : PluginLoader) (m : module) (name : string) : option (export pyclass) :=
  c ← mjoin (dict_get name (md_values m));
  Some (mkExport (is_subclass (ld_base_class l) c) (dict_get (ld_name_attr l) (pc_attrs c)) c).

Definition import_package (l : PluginLoader) (name : string) : res (list (option (export pyclass))) :=
  match import_module (_generate_package_name l name) with
  | Ok m => Ok (export_of l m <$> default [] (md_all m))
  | Err e => Err e
  end.

Definition entries_of (l : PluginLoader) : option (list (entry pyclass)) :=
  (λ es : list (string * bool), (λ e, mkEntry e.1 e.2 (import_package l e.1)) <$> es) <$> iterdir (ld_load_dir l).

Definition load_with (l : PluginLoader) : res (list (string * pyclass)) := Plugins.load (entries_of l).

Context (cfg : PluginConfig).

Definition load_drivers := load_with (mkLoader (pl_driver cfg) "BaseDriver" "driver" "driver_name").
Definition load_webhooks := load_with (mkLoader (pl_webhook cfg) "BaseWebHookCaller" "webhook" "webhook_name").
Definition load_template_renderers :=
  load_with (mkLoader (pl_template cfg) "BaseTemplateRenderer" "template" "template_name").
Definition load_template_parsers :=
  load_with (mkLoader (pl_template cfg) "BaseTemplateParser" "template" "template_name").
Definition load_scheduler := load_with (mkLoader (pl_scheduler cfg) "BaseScheduler" "scheduler" "scheduler_name").
Definition load_credentials :=
  load_with (mkLoader (pl_credential cfg) "BaseCredentialProvider" "credential" "credential_name").

(** ** What a loader finds *)

(** [c] is a plugin [k] of [l]: some package of its directory exports it *)
Definition offered (l : PluginLoader) (k : string) (c : pyclass) : Prop :=
  ∃ es pkg m n, iterdir (ld_load_dir l) = Some es ∧ (pkg, true) ∈ es
    ∧ import_module (_generate_package_name l pkg) = Ok m
    ∧ n ∈ default [] (md_all m) ∧ dict_get n (md_values m) = Some (Some c)
    ∧ is_subclass (ld_base_class l) c = true ∧ dict_get (ld_name_attr l) (pc_attrs c) = Some k ∧ k ≠ "".

Lemma found_offered l k c es : iterdir (ld_load_dir l) = Some es →
  (k, c) ∈ ((λ e, mkEntry e.1 e.2 (import_package l e.1)) <$> es) ≫= found ↔ offered l k c.
Proof.
  intros Hes. rewrite list_elem_of_bind. unfold found, offered. split.
  - intros (e & Hin & (pe & -> & Hpe)%list_elem_of_fmap). destruct pe as [pkg b]. simpl in Hin.
    destruct b; [|by apply not_elem_of_nil in Hin]. unfold import_package in Hin.
    destruct (import_module _) as [m|] eqn:Em; [|by apply not_elem_of_nil in Hin].
    apply list_elem_of_omap in Hin as (o & (n & -> & Hn)%list_elem_of_fmap & Ho).
    unfold export_of in Ho. destruct (dict_get n (md_values m)) as [[c'|]|] eqn:Ec; simpl in Ho; try done.
    destruct (is_subclass _ c') eqn:Es; simpl in Ho; [|done].
    destruct (dict_get (ld_name_attr l) (pc_attrs c')) as [k'|] eqn:Ek; simpl in Ho; [|done].
    destruct (negb _) eqn:En; [|done]. injection Ho as -> ->. exists es, pkg, m, n.
    apply negb_true_iff, String.eqb_neq in En. done.
  - intros (es' & pkg & m & n & Hes' & Hpkg & Hm & Hn & Hc & Hs & Hk & Hne).
    rewrite Hes in Hes'. injection Hes' as <-. exists (mkEntry pkg true (import_package l pkg)). split.
    + simpl. unfold import_package. rewrite Hm. apply list_elem_of_omap. exists (export_of l m n).
      split; [by apply list_elem_of_fmap_2|]. unfold export_of. rewrite Hc. simpl. rewrite Hs, Hk. simpl.
      by rewrite (proj2 (String.eqb_neq _ _) Hne).
    + apply list_elem_of_fmap. by exists (pkg, true).
Qed.

Lemma dict_get_reverse {V} k (d : list (string * V)) :
  (∀ v, dict_get k (reverse d) = Some v → (k, v) ∈ d)
  ∧ ((∃ v, (k, v) ∈ d) → ∃ v, dict_get k (reverse d) = Some v).
Proof.
  split.
  - intros v Hv%dict_get_elem_of. by rewrite elem_of_reverse in Hv.
  - intros [v Hv]. destruct (dict_get k (reverse d)) as [x|] eqn:E; [eauto|].
    apply dict_get_None in E. destruct E. rewrite fmap_reverse, elem_of_reverse.
    by apply (list_elem_of_fmap_2 fst _ (k, v)).
Qed.

(** A loader never fails because of a package: where importing raises ordinary
    exceptions only, its table has a name exactly when some package of its
    directory exports a proper subclass of its base class under that name, and
    holds such a class. *)
Theorem load_with_spec l :
  (∀ n, ordinary (import_module n)) →
  ∃ d, load_with l = Ok d ∧ (∀ k c, dict_get k d = Some c → offered l k c)
    ∧ ∀ k c, offered l k c → ∃ c', dict_get k d = Some c' ∧ offered l k c'.
Proof.
  intros Hi. unfold load_with, entries_of. destruct (iterdir _) as [es|] eqn:Hes; simpl.
  - set (entries := _ <$> es). destruct (load_packages_get entries []) as (d & -> & Hd).
    { apply Forall_fmap, Forall_true. intros [pkg b] e He. simpl in He. unfold import_package in He.
      specialize (Hi (_generate_package_name l pkg)). destruct (import_module _); [done|].
      injection He as <-. by apply Hi. }
    exists d. split; [done|].
    assert (∀ k c, dict_get k d = Some c → offered l k c) as Hsound.
    { intros k c. rewrite Hd. destruct (dict_get k (reverse _)) as [x|] eqn:E; [|done].
      intros [= <-]. by apply (found_offered l k x es Hes), dict_get_reverse. }
    split; [done|]. intros k c Hc%(found_offered l k c es Hes).
    destruct (proj2 (dict_get_reverse k _) (ex_intro _ c Hc)) as [c' Hc'].
    exists c'. assert (dict_get k d = Some c') as Hk by (rewrite Hd; unfold entries; by rewrite Hc'). auto.
  - exists []. split; [done|]. split; [done|].
    intros k c (es & pkg & m & n & Hes' & _). congruence.
Qed.
End loaders.

(** ** The plugins that come with the program *)
Module Bundled.
Definition class (base name attr value : string) : pyclass := mkClass name [name; base] [(attr, value)].
Definition package (base name attr value : string) : res module :=
  Ok (mkModule (Some [name]) [(name, Some (class base name attr value)); (base, Some (mkClass base [base] [(attr, "base")]))]).

Definition import_module (name : string) : res module :=
  match dict_get name [
    ("linux_net.plugins.drivers.napalm", package "BaseDriver" "NapalmDriver" "driver_name" "napalm");
    ("linux_net.plugins.drivers.netmiko", package "BaseDriver" "NetmikoDriver" "driver_name" "netmiko");
    ("linux_net.plugins.drivers.paramiko", package "BaseDriver" "ParamikoDriver" "driver_name" "paramiko");
    ("linux_net.plugins.drivers.pyeapi", package "BaseDriver" "PyeapiDriver" "driver_name" "pyeapi");
    ("linux_net.plugins.webhooks.basic", package "BaseWebHookCaller" "BasicWebHookCaller" "webhook_name" "basic");
    ("linux_net.plugins.templates.jinja2", package "BaseTemplateRenderer" "Jinja2Renderer" "template_name" "jinja2");
    ("linux_net.plugins.templates.textfsm", package "BaseTemplateParser" "TextFSMTemplateParser" "template_name" "textfsm");
    ("linux_net.plugins.templates.ttp", package "BaseTemplateParser" "TTPTemplateParser" "template_name" "ttp")] with
  | Some m => m
  | None => Err (OtherError "ModuleNotFoundError" name)
  end.

Definition iterdir (dir : string) : option (list (string * bool)) :=
  dict_get dir [
    ("linux_net/plugins/drivers", [("__init__.py", false); ("napalm", true); ("netmiko", true); ("paramiko", true); ("pyeapi", true)]);
    ("/app/linux_net/plugins/drivers", [("napalm", true); ("netmiko", true); ("paramiko", true); ("pyeapi", true)]);
    ("linux_net/plugins/webhooks", [("__init__.py", false); ("basic", true)]);
    ("linux_net/plugins/templates", [("__init__.py", false); ("jinja2", true); ("textfsm", true); ("ttp", true)])].

Definition table (r : res (list (string * pyclass))) : res (list string) :=
  match r with Ok d => Ok d.*1 | Err e => Err e end.

(** Renderers and parsers share a directory, and come apart by their base. *)
Lemma bundled_tables :
  table (load_drivers iterdir import_module default_plugins)
    = Ok ["napalm"; "netmiko"; "paramiko"; "pyeapi"]
  ∧ table (load_template_renderers iterdir import_module default_plugins) = Ok ["jinja2"]
  ∧ table (load_template_parsers iterdir import_module default_plugins)
    = Ok ["textfsm"; "ttp"].
Proof. by vm_compute. Qed.

(** The name of a package is made of the path of its directory: with an absolute
    path it begins with a dot, which Python does not import, and no plugin is
    found. *)
Lemma absolute_directory_empty :
  _generate_package_name (mkLoader "/app/linux_net/plugins/drivers" "BaseDriver" "driver" "driver_name") "napalm"
    = ".app.linux_net.plugins.drivers.napalm"
  ∧ load_drivers iterdir import_module (mkPluginConfig "/app/linux_net/plugins/drivers" "" "" "" "") = Ok [].
Proof. by vm_compute. Qed.

Lemma load_with_spec_witness :
  ∃ d, load_drivers iterdir import_module default_plugins = Ok d ∧ ∃ c, dict_get "netmiko" d = Some c.
Proof.
  assert (∀ n, ordinary (import_module n)) as Hi.
  { intros n e. unfold import_module. destruct (dict_get n _) as [m|] eqn:E; [|by intros [= <-]].
    apply dict_get_elem_of in E. repeat (apply elem_of_cons in E as [[= _ ->]|E]; [done|]).
    by apply not_elem_of_nil in E. }
  destruct (load_with_spec iterdir import_module
    (mkLoader (pl_driver default_plugins) "BaseDriver" "driver" "driver_name") Hi) as (d & Hd & _ & Hk).
  exists d. split; [exact Hd|].
  destruct (Hk "netmiko" (class "BaseDriver" "NetmikoDriver" "driver_name" "netmiko")) as (c & Hc & _); [|by exists c].
  eexists _, "netmiko", _, "NetmikoDriver". split_and!; [reflexivity| |reflexivity| |reflexivity..|done].
  - do 2 right. left.
  - left.
Defined.
End Bundled.
