(* ===== verification/NetDrivers.v ===== *)
(** * The drivers for network devices together

    Netmiko, NAPALM and pyeapi behind one table of names keep the contract of
    the workers; and a concrete switch on which the theorems about them run. *)

From Stdlib Require Import Ascii.
From S2P Require Import Prelude PyLib Models World Registry Manager Rpc Calm Plugins Fields Netmiko NetmikoSpec Napalm Pyeapi.

Section table.
Context {W : Type} `{Json} `{Redis W} `{Others W} `{!OthersLaws W} `{!Clock W}.
Context `{NetmikoState W} `{!StagingDirs W} `{!NapalmLib W} `{!PyeapiLib W}.
Context (c : Config) (repr : pyval → string) (re_search : string → string → res bool).
Context (fits_command fits_cli : list (string * pyval) → bool).

Definition network_drivers : Drivers W :=
  sum_drivers (netmiko_driver c repr re_search fits_command) (sum_drivers (napalm_driver repr fits_cli) pyeapi_driver).

End table.

(** ** A concrete switch

    It refuses the line [bad] and cannot commit; NAPALM finds one method. *)
Module ToyNet.
Record world := mkWorld {
  y_base : Toy.world;
  y_log : list NetmikoSpec.event;
  y_nlog : list Napalm.event;
  y_session : option nat;
  y_args : option (list (string * pyval));
  y_event : option nat;
  y_thread : option nat;
  y_reused : bool;
  y_next : nat;
}.

Definition set_base (b : Toy.world) (w : world) : world :=
  mkWorld b (y_log w) (y_nlog w) (y_session w) (y_args w) (y_event w) (y_thread w) (y_reused w) (y_next w).
Definition logged (e : NetmikoSpec.event) (w : world) : world :=
  mkWorld (y_base w) (y_log w ++ [e]) (y_nlog w) (y_session w) (y_args w) (y_event w) (y_thread w) (y_reused w) (y_next w).
Definition nlogged (e : Napalm.event) (w : world) : world :=
  mkWorld (y_base w) (y_log w) (y_nlog w ++ [e]) (y_session w) (y_args w) (y_event w) (y_thread w) (y_reused w) (y_next w).
Definition bump (w : world) : world :=
  mkWorld (y_base w) (y_log w) (y_nlog w) (y_session w) (y_args w) (y_event w) (y_thread w) (y_reused w) (S (y_next w)).

Definition start : world := mkWorld (Toy.empty 0 []) [] [] None None None None false 0.

#[export, refine] Instance toy_redis : Redis world :=
  {| hashes w := hashes (y_base w);
     hset k f v w := set_base (hset k f v (y_base w)) w;
     hdel k f w := set_base (hdel k f (y_base w)) w;
     hsetnx k f v w := let '(b, x) := hsetnx k f v (y_base w) in (b, set_base x w);
     hscan_iter k w := hscan_iter k (y_base w);
     rget k w := rget k (y_base w);
     set_nx_ex k v t w := let '(b, x) := set_nx_ex k v t (y_base w) in (b, set_base x w) |}.
Proof.
  - intros. apply (hset_hashes (W:=Toy.world)).
  - intros. apply (hdel_hashes (W:=Toy.world)).
  - intros k f v w. pose proof (hsetnx_result (W:=Toy.world) k f v (y_base w)) as E. by destruct (hsetnx k f v (y_base w)).
  - intros k f v w k'. pose proof (hsetnx_hashes (W:=Toy.world) k f v (y_base w) k') as E. by destruct (hsetnx k f v (y_base w)).
  - intros. apply (hscan_elem (W:=Toy.world)).
  - intros k v t w k'. pose proof (set_nx_hashes (W:=Toy.world) k v t (y_base w) k') as E. by destruct (set_nx_ex k v t (y_base w)).
Defined.

#[export, refine] Instance toy_clock : Clock world :=
  {| now w := now (y_base w); sleep d w := set_base (sleep d (y_base w)) w |}.
Proof. intros d w Hd. exact (now_sleep (W:=Toy.world) d (y_base w) Hd). Defined.

(** What the switch prints up to its prompt *)
Definition screen (w : world) : string :=
  match last (y_log w) with
  | Some (Typed l) => l +:+ nl +:+ (if String.eqb l "bad" then "% Invalid input" +:+ nl else "") +:+ "r1(config)#"
  | _ => "r1#"
  end.

#[export] Instance toy_netmiko : NetmikoLib world :=
  {| Conn := nat;
     ConnectHandler _ w := (Ok (y_next w), bump w);
     nm_disconnect _ w := (Ok tt, w); nm_is_alive _ w := (Ok true, w); find_prompt _ w := (Ok "r1#", w);
     set_base_prompt _ w := (Ok tt, w); base_prompt _ _ := "r1"; enable _ w := (Ok tt, w);
     exit_enable_mode _ w := (Ok tt, w); config_mode _ _ w := (Ok tt, w); exit_config_mode _ w := (Ok tt, w);
     clear_buffer _ w := (Ok tt, w); write_channel _ x w := (Ok tt, logged (Typed x) w);
     normalize_cmd _ x := x; RETURN _ := nl;
     read_until_pattern _ _ _ w := (Ok (screen w), w);
     send_command _ x _ w := (if String.eqb x "bad" then Err (OtherError "ReadTimeout" "no prompt") else Ok (PStr x), w);
     nm_commit _ w := (Err (NotImplementedError ""), logged NetmikoSpec.Committed w);
     save_config _ w := (Ok (Some "[OK]"), logged Saved w);
     nm_file_transfer _ _ _ _ _ w := (Ok [("file_exists", PBool true)], w) |}.

#[export] Instance toy_threads : Threads world :=
  {| NThread := nat; NEvent := nat; new_event w := (y_next w, bump w); set_event _ w := w; is_set _ _ := false;
     wait_event _ _ w := (false, w); start_thread w := (Ok (y_next w), bump w); alive_thread _ _ := true;
     join_thread _ _ w := (Ok tt, w) |}.

#[export] Instance toy_state : NetmikoState world :=
  {| nstate w := mkNState (W:=world) (y_session w) (y_args w) (y_event w) (y_thread w) (y_reused w);
     set_nstate p w := mkWorld (y_base w) (y_log w) (y_nlog w) (persisted_session p) (persisted_conn_args p)
       (monitor_stop_event p) (monitor_thread p) (session_reused p) (y_next w) |}.

#[export] Instance toy_dirs : StagingDirs world := {| dir_exists _ _ := false; make_dirs _ w := (Ok tt, w) |}.
#[export] Instance toy_log : NetmikoLog world := {| NetmikoSpec.log := y_log |}.
#[export] Instance toy_nlog : NapalmLog world := {| Napalm.log := y_nlog |}.

#[export] Instance toy_napalm : NapalmLib world :=
  {| Device := nat; network_driver _ _ w := (Ok 0, w); open_device _ w := (Ok tt, w); close_device _ w := (Ok tt, w);
     attribute _ n := if String.eqb n "get_facts" then Some (Some []) else None;
     call_method _ _ _ w := (Ok (PStr "facts"), w); cli _ x _ w := (Ok [(x, PStr x)], w);
     load_merge_candidate _ x w := (Ok tt, nlogged (Loaded x) w); compare_config _ w := (Ok "+ x", w);
     discard_config _ w := (Ok tt, nlogged Discarded w);
     commit_config _ a w := (Ok tt, nlogged (Napalm.Committed a) w) |}.

#[export] Instance toy_pyeapi : PyeapiLib world :=
  {| Node := unit; pyeapi_connect _ w := (Ok tt, w);
     node_enable _ l _ _ w := (Ok (PStr <$> l), w); node_config _ _ _ w := (Ok (PStr ""), w) |}.

(** While a switch answers, nobody touches Redis. *)
#[export] Instance toy_others : Others world :=
  {| others w w' := ∀ k, hashes w' k = hashes w k; others_order := same_hashes_order |}.
#[export] Instance toy_others_laws : OthersLaws world.
Proof. intros w w' Ho. apply (registry_same w w' (Ho KEY)). Qed.

Ltac toy_call := intros; split; intros w; simpl; try case_match; try done; by apply ordinary_Err.

#[export] Instance toy_netmiko_laws : NetmikoLaws world.
Proof.
  split; try done; try toy_call; [|by intros []].
  intros s w. simpl. by apply ordinary_Err.
Qed.
#[export] Instance toy_napalm_laws : NapalmLaws world.
Proof. by split. Qed.

#[export] Instance toy_netmiko_calls : NetmikoSpec.LibCalls world.
Proof. split; toy_call. Qed.
#[export] Instance toy_thread_calls : ThreadCalls world.
Proof. split; toy_call. Qed.
#[export] Instance toy_state_calls : NetmikoSpec.StateCalls world.
Proof. split; toy_call. Qed.
#[export] Instance toy_dir_calls : DirCalls world.
Proof. split; toy_call. Qed.
#[export] Instance toy_napalm_calls : Napalm.LibCalls world.
Proof. split; toy_call. Qed.
#[export] Instance toy_pyeapi_calls : Pyeapi.LibCalls world.
Proof. split; toy_call. Qed.

Definition repr (v : pyval) : string := "{}".
Definition no_search (p o : string) : res bool := if String.eqb p "[" then Err (OtherError "PatternError" "") else Ok false.
Lemma no_search_ordinary : searches no_search.
Proof. intros p o. unfold no_search. case_match; [by apply ordinary_Err|done]. Qed.


(** *** Configurations through Netmiko *)
Definition conn_args : list (string * pyval) := [("device_type", PStr "cisco_ios"); ("host", PStr "r1"); ("keepalive", PInt 60)].
Definition saving : Netmiko.Driver := Netmiko.mkDriver None conn_args false true None "job" None.
Definition lines : list string := ["interface e0"; "bad"; "no shutdown"].

(** The second line is refused: the third is not typed, nothing is saved. *)
Lemma netmiko_config_spec_witness :
  ∃ r1 r2 r3 w', Netmiko.config default_config repr no_search saving 0 lines start = (Ok [r1; r2; r3], w')
    ∧ r_exit_status <$> [r1; r2; r3] = [0; 1; 1]%Z
    ∧ NetmikoSpec.log w' = [Typed "interface e0"; Typed "bad"; NetmikoSpec.Committed].
Proof.
  pose proof (netmiko_config_spec default_config repr no_search no_search_ordinary saving 0 lines start) as Hs.
  destruct (Netmiko.config _ _ _ _ _ _ _) as [r w'] eqn:E.
  assert (NetmikoSpec.log w' = [Typed "interface e0"; Typed "bad"; NetmikoSpec.Committed]) as Hl
    by (change w' with (r, w').2; rewrite <-E; vm_compute; reflexivity).
  destruct Hs as (results & -> & Hs). simpl in Hs.
  assert (match results with [r1; r2; r3] => true | _ => false end = true) as Hlen
    by (change results with (match (Ok results, w').1 with Ok l => l | Err _ => [] end); rewrite <-E; vm_compute; reflexivity).
  destruct results as [|r1 [|r2 [|r3 [|]]]]; try discriminate Hlen.
  exists r1, r2, r3, w'. split; [reflexivity|]. split; [|exact Hl].
  destruct Hs as [(typed & Hg & _)|[_ (e & m & He)]]; [|discriminate He].
  assert ((r_exit_status <$> [r1; r2; r3]) = (r_exit_status <$> match (Netmiko.config default_config repr no_search saving 0 lines start).1 with Ok l => l | Err _ => [] end))
    as Hst by (rewrite E; reflexivity).
  rewrite Hst. vm_compute. reflexivity.
Defined.

(** *** Sessions of Netmiko: opened, kept, found again *)
Definition other : Netmiko.Driver := Netmiko.mkDriver None (dict_set "host" (PStr "r2") conn_args) false true None "job" None.

Lemma netmiko_connect_spec_witness :
  ∃ w1 w2 w3, Netmiko.connect saving start = (Ok 0, w1) ∧ Netmiko.connect saving w1 = (Ok 0, w2)
    ∧ Netmiko.connect other w2 = (Ok 3, w3) ∧ NetmikoSpec.kept (seen w3).
Proof.
  destruct (Netmiko.connect saving start) as [r1 w1] eqn:E1.
  assert (r1 = Ok 0) as -> by (change r1 with (r1, w1).1; rewrite <-E1; vm_compute; reflexivity).
  pose proof (netmiko_connect_spec saving start I) as H1. rewrite E1 in H1. destruct H1 as (_ & Hk1 & _ & _).
  destruct (Netmiko.connect saving w1) as [r2 w2] eqn:E2.
  pose proof (netmiko_connect_spec saving w1 Hk1) as H2. rewrite E2 in H2. destruct H2 as (_ & Hk2 & _ & _).
  destruct (Netmiko.connect other w2) as [r3 w3] eqn:E3.
  pose proof (netmiko_connect_spec other w2 Hk2) as H3. rewrite E3 in H3. destruct H3 as (_ & Hk3 & _ & _).
  exists w1, w2, w3. split; [reflexivity|].
  assert (w1 = (Netmiko.connect saving start).2) as Hw1 by (rewrite E1; reflexivity). rewrite Hw1 in E2.
  assert (r2 = Ok 0) as -> by (change r2 with (r2, w2).1; rewrite <-E2; vm_compute; reflexivity).
  split; [rewrite Hw1; exact E2|]. split; [|exact Hk3].
  assert (w2 = (Netmiko.connect saving (Netmiko.connect saving start).2).2) as Hw2 by (rewrite E2; reflexivity).
  rewrite Hw2 in E3. rewrite Hw2, E3. f_equal. change r3 with (r3, w3).1. rewrite <-E3. vm_compute. reflexivity.
Defined.

(** Finding: a transfer's result names the local file as the remote one. *)
Lemma transfer_paths_swapped :
  let op := mkFileTransfer upload "/flash/new.bin" (Some "/tmp/old.bin") true false false sync_full 32768 None false None true in
  match (_handle_file_transfer default_config repr saving 0 (TransferModel op) start).1 with
  | Ok [r] => r_command r = "upload /tmp/old.bin" ∧ dict_get "remote_path" (r_metadata r) = Some (PStr "/tmp/old.bin")
  | _ => False
  end.
Proof. by vm_compute. Qed.

(** Finding: a job without keepalives. *)
Definition brief : Netmiko.Driver :=
  Netmiko.mkDriver None (dict_set "keepalive" PNone conn_args) false true None "job" None.

Lemma brief_disconnect_fails : (Netmiko.disconnect brief 0 false start).1 = Err (AssertionError "").
Proof. by apply disconnect_asserts. Qed.

(** Finding: the lines before a failure are committed on devices that can. *)
Lemma broken_config_committed :
  last (NetmikoSpec.log (Netmiko.config default_config repr no_search saving 0 lines start).2) = Some NetmikoSpec.Committed.
Proof. by vm_compute. Qed.

(** *** Configurations through NAPALM *)
Lemma napalm_config_spec_witness :
  ∃ w', Napalm.config (Napalm.mkDriver (CommitArgs [("message", PNone)]) conn_args true) 0 ["a"; "b"] start
      = (Ok [mkResult ("a" +:+ nl +:+ "b") (PStr "+ x") "" 0 None
               [("host", PStr "r1"); ("duration_seconds", PFloat 0); ("session_reused", PBool false)] PNone], w')
    ∧ Napalm.log w' = [Loaded ("a" +:+ nl +:+ "b"); Discarded].
Proof.
  pose proof (napalm_config_spec (Napalm.mkDriver (CommitArgs [("message", PNone)]) conn_args true)
    [("message", PNone)] 0 ["a"; "b"] start eq_refl) as Hs.
  destruct (Napalm.config _ _ _ _) as [r w'] eqn:E. exists w'.
  assert (r = Ok [mkResult ("a" +:+ nl +:+ "b") (PStr "+ x") "" 0 None
    [("host", PStr "r1"); ("duration_seconds", PFloat 0); ("session_reused", PBool false)] PNone]) as Hr
    by (change r with (r, w').1; rewrite <-E; vm_compute; reflexivity).
  split; [rewrite Hr; reflexivity|].
  destruct Hs as (results & Hr' & m & out & err & st & Hres & [(_ & -> & _)|[_ Hl]]); [|exact Hl].
  rewrite Hr in Hr'. injection Hr' as Hr'. rewrite Hres in Hr'. discriminate Hr'.
Defined.

(** *** pyeapi *)
Definition keepalive_request (extra : list (string * pyval)) : ExecutionRequest :=
  mkExecutionRequest PYEAPI None (mkDriverConnectionArgs None (Some "sw1") (Some "admin") (Some "pw") extra)
    None (Some (PayList ["interface Ethernet1"])) None None None None (Some FIFO) None None None audit_full None false
    None None None [("save", PBool true)].

Lemma pyeapi_connect_spec_witness :
  ∃ d e, Pyeapi.new_driver (keepalive_request []) = Ok d ∧ Pyeapi.connect d start = (Err e, start).
Proof.
  destruct (Pyeapi.new_driver (keepalive_request [])) as [d|e] eqn:E; [|vm_compute in E; discriminate E].
  destruct (pyeapi_connect_spec (keepalive_request []) d start E) as (e & He & _). exists d, e. split; [reflexivity|exact He].
Defined.
End ToyNet.
