(* ===== verification/Stats.v ===== *)
(** * System statistics

    [Manager.get_system_stats] and [_queue_runtime_snapshot]
    ([linux_net/services/manager.py]): workers by kind, jobs by state, nodes,
    the pressure on every queue. *)

From Stdlib Require Import SpecFloat.
From stdpp Require Import sorting.
From S2P Require Import Prelude PyLib Models Schedulers World Manager.

(** ** [round(a / b, 3)] of two integers, in millionths

    The division is that of [float]; the rounding is exact on its result, half
    to even. *)
Definition half_even (n d : Z) : Z :=
  let q := (n / d)%Z in
  let r := (2 * (n mod d))%Z in
  if (r <? d)%Z || ((r =? d)%Z && Z.even q) then q else (q + 1)%Z.

(** [round(x, digits)] in units of its last digit, [k] to one *)
Definition rounded (k : Z) (x : spec_float) : Z :=
  match x with
  | S754_finite s m e =>
      let n := (k * (if s then Zneg m else Zpos m))%Z in
      if (0 <=? e)%Z then (n * 2 ^ e)%Z else half_even n (2 ^ (- e))
  | _ => 0%Z
  end.

Definition thousandths : spec_float → Z := rounded 1000.

Definition ratio3 (a b : Z) : Z := (1000 * thousandths (Float.div (Float.of_Z a) (Float.of_Z b)))%Z.

(** Three queued jobs for seven workers, and a tie of the decimal digits that
    is none of the [float]: [0.0125] is written a little above. *)
Example ratio3_example : ratio3 3 7 = 429000%Z ∧ ratio3 1 80 = 13000%Z ∧ ratio3 1 16 = 62000%Z.
Proof. by vm_compute. Qed.

Section stats.
Context {W : Type} `{Json} `{Redis W} `{!Rq W} `{!Clock W}.

Definition registry_count (state q_name : string) (w : W) : Z := Z.of_nat (length (registry_job_ids state q_name w)).

Definition listens (q_name : string) (r : WorkerRec) : Prop := q_name ∈ w_queue_names r.
#[global] Instance listens_dec q_name r : Decision (listens q_name r).
Proof. unfold listens. apply _. Defined.

(** [max(l)] of a list that is not empty *)
Definition max_of (x : Z) (l : list Z) : Z := foldl Z.max x l.

(** One queue: its workers, jobs, the oldest heartbeat and the oldest job *)
Definition snapshot (workers : list WorkerRec) (w : W) (q_name : string) : list (string * pyval) :=
  let queue_workers := filter (listens q_name) workers in
  let n := Z.of_nat (length queue_workers) in
  let heartbeat_ages := (λ h, now w - h)%Z <$> omap w_last_heartbeat queue_workers in
  let oldest_job_age := match head (queue_jobs q_name w) ≫= job_enqueued_at with
                        | Some t => (now w - t)%Z
                        | None => 0%Z
                        end in
  [("name", PStr q_name); ("workers", PInt n); ("active_jobs", PInt (registry_count "started" q_name w));
   ("queued_jobs", PInt (queue_count q_name w)); ("failed_jobs", PInt (registry_count "failed" q_name w));
   ("worker_latency_seconds", match heartbeat_ages with
                              | [] => PInt 0
                              | x :: l => PFloat (round3 (max_of x l))
                              end);
   ("oldest_job_age_seconds", PFloat (round3 oldest_job_age));
   ("backpressure_ratio", PFloat (ratio3 (queue_count q_name w) (Z.max 1 n)))].

Definition _queue_runtime_snapshot (q_names : list string) (workers : list WorkerRec) (w : W) : list pyval :=
  (λ q, PDict (snapshot workers w q)) <$> sort_by String.leb q_names.

(** ** Workers by kind *)
Record StatWorkers := mkStatWorkers {
  sw_total : Z;
  sw_pinned : Z;
  sw_fifo : Z;
  sw_node : Z;
  sw_idle : Z;
  sw_busy : Z;
}.

Definition StatWorkers_dict (s : StatWorkers) : list (string * pyval) :=
  [("total", PInt (sw_total s)); ("pinned", PInt (sw_pinned s)); ("fifo", PInt (sw_fifo s));
   ("node", PInt (sw_node s)); ("idle", PInt (sw_idle s)); ("busy", PInt (sw_busy s))].

Definition count_state (r : WorkerRec) (s : StatWorkers) : StatWorkers :=
  if String.eqb (w_state r) "busy"
  then mkStatWorkers (sw_total s) (sw_pinned s) (sw_fifo s) (sw_node s) (sw_idle s) (sw_busy s + 1)
  else mkStatWorkers (sw_total s) (sw_pinned s) (sw_fifo s) (sw_node s) (sw_idle s + 1) (sw_busy s).

Definition count_kind (r : WorkerRec) (s : StatWorkers) : StatWorkers :=
  let wq_names := w_queue_names r in
  if any (λ q, startswith q "HostQ_") wq_names
  then mkStatWorkers (sw_total s) (sw_pinned s + 1) (sw_fifo s) (sw_node s) (sw_idle s) (sw_busy s)
  else if any (λ q, startswith q "NodeQ_") wq_names
  then mkStatWorkers (sw_total s) (sw_pinned s) (sw_fifo s) (sw_node s + 1) (sw_idle s) (sw_busy s)
  else if bool_decide (get_fifo_queue_name ∈ wq_names)
  then mkStatWorkers (sw_total s) (sw_pinned s) (sw_fifo s + 1) (sw_node s) (sw_idle s) (sw_busy s)
  else s.

Definition stat_workers (workers : list WorkerRec) : StatWorkers :=
  foldl (λ s r, count_kind r (count_state r s)) (mkStatWorkers (Z.of_nat (length workers)) 0 0 0 0 0) workers.

(** "Also seeds the FIFO queue"; the set in order of first occurrence *)
Definition queues_seen (workers : list WorkerRec) : list string :=
  remove_dups (get_fifo_queue_name :: (workers ≫= w_queue_names)).

(** ** Jobs by state *)
Definition jobs_stats (q_names : list string) (w : W) : list (string * pyval) :=
  let total f := sumZ (f <$> q_names) in
  let succeeded := total (λ q, registry_count "finished" q w) in
  let failed := total (λ q, registry_count "failed" q w) in
  let in_progress := total (λ q, registry_count "started" q w) in
  let queued := total (λ q, queue_count q w) in
  [("succeeded", PInt succeeded); ("failed", PInt failed); ("in_progress", PInt in_progress);
   ("queued", PInt queued); ("total", PInt (succeeded + failed + in_progress + queued));
   ("active", PInt in_progress)].

(** ** Self-healing triggers: the counter, and its value at the start *)
Definition HEALING_KEY : string := "linux_net:stats:self_healing_triggers".

Definition triggers (w : W) : res Z :=
  match rget HEALING_KEY w with
  | Some v => if String.eqb v "" then Ok 0%Z else py_int 10 v
  | None => Ok 0%Z
  end.

(** [Manager.__init__]: [_self_healing_baseline] *)
Definition healing_baseline (w : W) : Z := match triggers w with Ok n => n | Err _ => 0%Z end.

Definition healed_count (baseline : Z) (w : W) : Z :=
  match triggers w with Ok n => Z.max 0 (n - baseline) | Err _ => 0%Z end.

(** ** All of it; [strategy] is [g_config.worker.scheduler], [baseline] and
    [start_time] are what [Manager.__init__] stored. *)
Context (c : Config) (strategy : string) (baseline start_time : Z).

Definition nodes_stats (nodes : list NodeInfo) : list (string * pyval) :=
  [("active", PInt (Z.of_nat (length nodes))); ("total_capacity", PInt (sumZ (ni_capacity <$> nodes)))].

Definition on_flags (names : list string) : pyval := PDict ((λ n, (n, PBool true)) <$> names).

Definition get_system_stats (w : W) : res (list (string * pyval)) :=
  let workers := worker_all None w in
  let q_names := queues_seen workers in
  nodes ← get_all_nodes c w;
  Ok [("status", PStr "online"); ("workers", PDict (StatWorkers_dict (stat_workers workers)));
      ("jobs", PDict (jobs_stats q_names w)); ("nodes", PDict (nodes_stats nodes));
      ("self_healing", PDict [("total_triggers", PInt (healed_count baseline w))]);
      ("scheduling", PDict
         [("strategy", PStr strategy);
          ("features", on_flags ["queue_backpressure"; "job_priority"; "rate_limiting_ready";
             "retry_with_exponential_backoff"; "distributed_locks"; "job_cancellation"; "dead_letter_queue";
             "idempotency_keys"]);
          ("queues", PList (_queue_runtime_snapshot q_names workers w))]);
      ("observability", on_flags ["prometheus_metrics"; "structured_json_logs"; "request_id_propagation";
         "job_trace_id"]);
      ("uptime_seconds", PInt (Z.quot (now w - start_time) 1000000))].
End stats.

(** ** What they say *)
Section spec.
Context {W : Type} `{Json} `{Redis W} `{!Rq W} `{!Clock W}.
Context (c : Config) (strategy : string) (baseline start_time : Z).

(** Every worker is idle or busy, and of one kind at most. *)
Definition counted (n : Z) (s : StatWorkers) : Prop :=
  (sw_idle s + sw_busy s = n ∧ sw_pinned s + sw_node s + sw_fifo s ≤ n
   ∧ 0 ≤ sw_idle s ∧ 0 ≤ sw_busy s ∧ 0 ≤ sw_pinned s ∧ 0 ≤ sw_node s ∧ 0 ≤ sw_fifo s)%Z.

Lemma count_step n r s : counted n s →
  counted (n + 1) (count_kind r (count_state r s)) ∧ sw_total (count_kind r (count_state r s)) = sw_total s.
Proof.
  unfold counted, count_kind, count_state. destruct s; intros Hc.
  repeat case_match; simpl in *; lia.
Qed.

Lemma stat_workers_counted workers :
  counted (sw_total (stat_workers workers)) (stat_workers workers)
  ∧ sw_total (stat_workers workers) = Z.of_nat (length workers).
Proof.
  unfold stat_workers. set (f := λ s r, count_kind r (count_state r s)).
  assert (∀ l n s, counted n s →
    counted (n + Z.of_nat (length l)) (foldl f s l) ∧ sw_total (foldl f s l) = sw_total s) as Hall.
  { induction l as [|r l IH]; intros n s Hs; [by rewrite Z.add_0_r|]. cbn [foldl length].
    destruct (count_step n r s Hs) as [Hs' Ht]. destruct (IH _ _ Hs') as [Hc Ht'].
    split; [|unfold f in *; congruence]. replace (n + Z.of_nat (S (length l)))%Z with (n + 1 + Z.of_nat (length l))%Z by lia. exact Hc. }
  destruct (Hall workers 0%Z (mkStatWorkers (Z.of_nat (length workers)) 0 0 0 0 0)) as [Hc Ht]; [done|].
  cbn in Ht. by rewrite Ht.
Qed.

Lemma queues_seen_spec workers q :
  q ∈ queues_seen workers ↔ q = get_fifo_queue_name ∨ ∃ r, r ∈ workers ∧ q ∈ w_queue_names r.
Proof.
  unfold queues_seen. rewrite elem_of_remove_dups, elem_of_cons, list_elem_of_bind. naive_solver.
Qed.

(** A queue's line of the snapshot: its name, its workers, what waits in it *)
Definition of_queue (workers : list WorkerRec) (w : W) (q : string) (v : pyval) : Prop :=
  ∃ d, v = PDict d ∧ dict_get "name" d = Some (PStr q)
    ∧ dict_get "workers" d = Some (PInt (Z.of_nat (length (filter (listens q) workers))))
    ∧ dict_get "queued_jobs" d = Some (PInt (queue_count q w))
    ∧ dict_get "active_jobs" d = Some (PInt (registry_count "started" q w))
    ∧ dict_get "failed_jobs" d = Some (PInt (registry_count "failed" q w)).

Lemma snapshots_spec workers q_names w :
  Forall2 (of_queue workers w) (sort_by String.leb q_names) (_queue_runtime_snapshot q_names workers w).
Proof.
  unfold _queue_runtime_snapshot. induction (sort_by String.leb q_names) as [|q l IH]; [constructor|].
  rewrite fmap_cons. constructor; [|done]. by eexists.
Qed.

(** The statistics agree with each other: every worker is counted as idle or
    busy and under one kind at most; there is one entry for the FIFO queue and
    for each queue a worker listens to, in order of their names, with that
    queue's own workers and jobs; and the jobs by state are the sums over these
    queues, their total the sum of the four states.  They fail only when the
    nodes cannot be read. *)
Lemma system_stats_spec w :
  match get_all_nodes c w with
  | Err e => get_system_stats c strategy baseline start_time w = Err e
  | Ok nodes => ∃ d s names queues scheduling, get_system_stats c strategy baseline start_time w = Ok d
      ∧ dict_get "workers" d = Some (PDict (StatWorkers_dict s))
      ∧ sw_total s = Z.of_nat (length (worker_all None w)) ∧ counted (sw_total s) s
      ∧ dict_get "scheduling" d = Some (PDict scheduling) ∧ dict_get "queues" scheduling = Some (PList queues)
      ∧ NoDup names ∧ StronglySorted (λ x y, String.leb x y = true) names
      ∧ (∀ q, q ∈ names ↔ q = get_fifo_queue_name ∨ ∃ r, r ∈ worker_all None w ∧ q ∈ w_queue_names r)
      ∧ Forall2 (of_queue (worker_all None w) w) names queues
      ∧ (let total state := sumZ ((λ q, registry_count state q w) <$> names) in
         let queued := sumZ ((λ q, queue_count q w) <$> names) in
         dict_get "jobs" d = Some (PDict
           [("succeeded", PInt (total "finished")); ("failed", PInt (total "failed"));
            ("in_progress", PInt (total "started")); ("queued", PInt queued);
            ("total", PInt (total "finished" + total "failed" + total "started" + queued));
            ("active", PInt (total "started"))]))
      ∧ dict_get "nodes" d = Some (PDict (nodes_stats nodes))
  end.
Proof.
  unfold get_system_stats. destruct (get_all_nodes c w) as [nodes|e]; [|done].
  set (workers := worker_all None w). set (names := sort_by String.leb (queues_seen workers)).
  assert (names ≡ₚ queues_seen workers) as Hp by apply sort_by_perm.
  eexists _, (stat_workers workers), names, (_queue_runtime_snapshot (queues_seen workers) workers w), _.
  split; [reflexivity|]. destruct (stat_workers_counted workers) as [Hc Ht].
  split_and!; try reflexivity; try done.
  - rewrite Hp. apply NoDup_remove_dups.
  - apply sort_by_sorted; [apply string_leb_total|apply string_leb_trans].
  - intros q. rewrite Hp. apply queues_seen_spec.
  - apply snapshots_spec.
  - assert (∀ f, sumZ (f <$> names) = sumZ (f <$> queues_seen workers)) as Hs
      by (intros f; apply sumZ_permutation; by rewrite Hp).
    cbv zeta. rewrite !Hs. reflexivity.
Qed.
End spec.
