(* ===== verification/Metrics.v ===== *)
(** * Metrics

    [render_prometheus_metrics] and [_metric_line]
    ([linux_net/services/observability.py]): the statistics as text; and a
    reader of Prometheus' text format, which gives the numbers back. *)

From Stdlib Require Import Ascii.
From stdpp Require Import pretty.
From S2P Require Import Prelude PyLib Models World Manager Stats.

Definition quote : ascii := ascii_of_nat 34.
Definition backslash : ascii := ascii_of_nat 92.
Definition dq : string := String quote EmptyString.

Section render.
Context (repr : pyval → string).

(** [str(val).replace(chr(34), chr(92) + chr(34))] *)
Definition escape (s : string) : string := replace_char quote (String backslash dq) s.

(** [_metric_line]; every caller gives one label at most. *)
Definition _metric_line (name : string) (value : pyval) (label : option (string * pyval)) : string :=
  match label with
  | None => name +:+ " " +:+ py_str repr value
  | Some (key, val) => name +:+ "{" +:+ key +:+ "=" +:+ dq +:+ escape (py_str repr val) +:+ dq +:+ "} " +:+ py_str repr value
  end.

(** [.items()] and [.get(...)] of what should be a mapping *)
Definition mapping (v : pyval) : res (list (string * pyval)) :=
  match v with
  | PDict d => Ok d
  | _ => Err (OtherError "AttributeError" ("'" +:+ py_type v +:+ "' object has no attribute"))
  end.

(** [for queue in queues: if isinstance(queue, Mapping)] *)
Definition mappings (v : pyval) : res (list (list (string * pyval))) :=
  match v with
  | PList l => Ok (omap (λ q, match q with PDict d => Some d | _ => None end) l)
  | PDict _ | PStr _ => Ok []
  | _ => Err (TypeError ("'" +:+ py_type v +:+ "' object is not iterable"))
  end.

Definition is_number (v : pyval) : bool :=
  match v with PInt _ | PFloat _ | PBool _ => true | _ => false end.

Definition queue_lines (queue : list (string * pyval)) : list string :=
  let label := Some ("queue", dict_get_or "name" (PStr "unknown") queue) in
  [_metric_line "linux_net_queue_backpressure" (dict_get_or "backpressure_ratio" (PInt 0) queue) label;
   _metric_line "linux_net_worker_latency_seconds" (dict_get_or "worker_latency_seconds" (PInt 0) queue) label].

Definition metrics_lines (uptime : pyval) (workers jobs nodes : list (string * pyval))
    (queues : list (list (string * pyval))) : list string :=
  ["# HELP linux_net_uptime_seconds Controller process uptime."; "# TYPE linux_net_uptime_seconds gauge";
   _metric_line "linux_net_uptime_seconds" uptime None;
   "# HELP linux_net_workers Worker distribution by state and type."; "# TYPE linux_net_workers gauge"]
  ++ ((λ kv, _metric_line "linux_net_workers" kv.2 (Some ("kind", PStr kv.1))) <$> workers)
  ++ ["# HELP linux_net_jobs Job counts by state."; "# TYPE linux_net_jobs gauge"]
  ++ ((λ kv, _metric_line "linux_net_jobs" kv.2 (Some ("state", PStr kv.1))) <$> filter (λ kv, is_number kv.2 = true) jobs)
  ++ ["# HELP linux_net_nodes Active node capacity."; "# TYPE linux_net_nodes gauge";
      _metric_line "linux_net_nodes" (dict_get_or "active" (PInt 0) nodes) (Some ("kind", PStr "active"));
      _metric_line "linux_net_nodes" (dict_get_or "total_capacity" (PInt 0) nodes) (Some ("kind", PStr "total_capacity"));
      "# HELP linux_net_queue_backpressure Queue pressure ratio per queue.";
      "# TYPE linux_net_queue_backpressure gauge"]
  ++ (queues ≫= queue_lines) ++ [""].

Definition render_prometheus_metrics (stats : list (string * pyval)) : res string :=
  workers ← mapping (dict_get_or "workers" (PDict []) stats);
  jobs ← mapping (dict_get_or "jobs" (PDict []) stats);
  let nodes := dict_get_or "nodes" (PDict []) stats in
  let scheduling := dict_get_or "scheduling" (PDict []) stats in
  let queues := match scheduling with PDict d => dict_get_or "queues" (PList []) d | _ => PList [] end in
  nodes ← mapping nodes;
  queues ← mappings queues;
  Ok (join nl (metrics_lines (dict_get_or "uptime_seconds" (PInt 0) stats) workers jobs nodes queues)).
End render.

(** ** Prometheus' text format

    A line is a comment, blank, or a sample: a name, perhaps a label in braces,
    a space, a value.  In the text of a label, a backslash escapes a quote, a
    backslash, and [n] for a line break. *)
Definition sample : Type := string * option (string * string) * string.

Fixpoint read_quoted (s : string) : option (string * string) :=
  match s with
  | EmptyString => None
  | String a s =>
      if Ascii.eqb a quote then Some (EmptyString, s)
      else if Ascii.eqb a backslash then
        match s with
        | String b s =>
            '(v, rest) ← read_quoted s; Some (String (if Ascii.eqb b "n" then newline else b) v, rest)
        | EmptyString => None
        end
      else '(v, rest) ← read_quoted s; Some (String a v, rest)
  end.

(** The text before the first [c], and after it *)
Fixpoint split_at (c : ascii) (s : string) : option (string * string) :=
  match s with
  | EmptyString => None
  | String a s => if Ascii.eqb a c then Some (EmptyString, s) else '(v, rest) ← split_at c s; Some (String a v, rest)
  end.

Fixpoint strip_prefix (p s : string) : option string :=
  match p, s with
  | EmptyString, _ => Some s
  | String a p, String b s => if Ascii.eqb a b then strip_prefix p s else None
  | _, _ => None
  end.

Definition read_sample (line : string) : option sample :=
  '(head, value) ← split_at " " line;
  match split_at "{" head with
  | None => Some (head, None, value)
  | Some (name, _) =>
      '(_, rest) ← split_at "{" line;
      '(key, rest) ← split_at "=" rest;
      rest ← strip_prefix dq rest;
      '(label, rest) ← read_quoted rest;
      value ← strip_prefix "} " rest;
      Some (name, Some (key, label), value)
  end.

Definition read_line (line : string) : option sample := if startswith line "#" then None else read_sample line.

Definition samples (text : string) : list sample := omap read_line (split_char newline text).

(** ** Lemmas on characters *)
Lemma split_char_cons c s t : has_char c s = false → split_char c (s +:+ String c t) = s :: split_char c t.
Proof.
  induction s as [|a s IH]; intros Hs.
  - change ("" +:+ String c t) with (String c t). simpl. by rewrite Ascii.eqb_refl.
  - change (String a s +:+ String c t) with (String a (s +:+ String c t)). simpl in Hs |- *.
    apply orb_false_iff in Hs as [-> Hs]. by rewrite IH.
Qed.

Lemma split_char_one c s : has_char c s = false → split_char c s = [s].
Proof. induction s as [|a s IH]; [done|]. simpl. intros [-> Hs]%orb_false_iff. by rewrite IH. Qed.

Lemma split_join_char c l : l ≠ [] → Forall (λ s, has_char c s = false) l → split_char c (join (String c "") l) = l.
Proof.
  unfold join. induction l as [|s [|t l] IH]; intros Hne Hl; [done| |].
  - apply Forall_cons in Hl as [Hs _]. by apply split_char_one.
  - apply Forall_cons in Hl as [Hs Hl]. cbn [String.concat].
    trans (split_char c (s +:+ String c (String.concat (String c "") (t :: l)))); [reflexivity|].
    rewrite split_char_cons by done. f_equal. by apply IH.
Qed.

Lemma split_at_app c p s : has_char c p = false →
  split_at c (p +:+ s) = '(v, rest) ← split_at c s; Some (p +:+ v, rest).
Proof.
  induction p as [|a p IH]; intros Hp.
  - change ("" +:+ s) with s. by destruct (split_at c s) as [[]|].
  - change (String a p +:+ s) with (String a (p +:+ s)). simpl in Hp |- *.
    apply orb_false_iff in Hp as [-> Hp]. rewrite IH by done. by destruct (split_at c s) as [[]|].
Qed.

Lemma split_at_here c p s : has_char c p = false → split_at c (p +:+ String c s) = Some (p, s).
Proof. intros Hp. rewrite split_at_app by done. simpl. rewrite Ascii.eqb_refl. simpl. by rewrite string_app_nil. Qed.

Lemma split_at_Some c s : has_char c s = true → ∃ v rest, split_at c s = Some (v, rest).
Proof.
  induction s as [|a s IH]; [done|]. simpl. destruct (Ascii.eqb a c); [by eauto|]. intros (v & rest & ->)%IH. simpl. eauto.
Qed.

Lemma split_at_none c s : has_char c s = false → split_at c s = None.
Proof. induction s as [|a s IH]; [done|]. simpl. intros [-> Hs]%orb_false_iff. by rewrite IH. Qed.

Lemma strip_prefix_app p s : strip_prefix p (p +:+ s) = Some s.
Proof. induction p as [|a p IH]; [done|]. change (String a p +:+ s) with (String a (p +:+ s)). simpl. by rewrite Ascii.eqb_refl. Qed.

(** Escaping is undone on text without a backslash. *)
Lemma read_escaped s rest : has_char backslash s = false →
  read_quoted (escape s +:+ String quote rest) = Some (s, rest).
Proof.
  unfold escape. induction s as [|a s IH]; [done|]. simpl. intros [Ha Hs]%orb_false_iff.
  destruct (Ascii.eqb a quote) eqn:Eq.
  - apply Ascii.eqb_eq in Eq as ->.
    change ((String backslash dq +:+ replace_char quote (String backslash dq) s) +:+ String quote rest)
      with (String backslash (String quote (replace_char quote (String backslash dq) s +:+ String quote rest))).
    simpl. by rewrite IH.
  - change (String a (replace_char quote (String backslash dq) s) +:+ String quote rest)
      with (String a (replace_char quote (String backslash dq) s +:+ String quote rest)).
    simpl. by rewrite Eq, Ha, IH.
Qed.

Lemma escape_has_char c s : c ≠ backslash → c ≠ quote → has_char c (escape s) = has_char c s.
Proof.
  intros Hb Hq. unfold escape. induction s as [|a s IH]; [done|]. simpl. destruct (Ascii.eqb a quote) eqn:Eq.
  - apply Ascii.eqb_eq in Eq as ->. rewrite has_char_app, IH. cbn [has_char dq].
    by rewrite (proj2 (Ascii.eqb_neq backslash c)), (proj2 (Ascii.eqb_neq quote c)) by done.
  - simpl. by rewrite IH.
Qed.

(** Printed numbers are on one line. *)
Lemma digits_no_char c s : is_digit c = false → all_digits s = true → has_char c s = false.
Proof.
  intros Hc. induction s as [|a s IH]; [done|]. simpl. intros [Ha Hs]%andb_true_iff. rewrite IH by done.
  destruct (Ascii.eqb a c) eqn:Ea; [|done]. apply Ascii.eqb_eq in Ea as ->. congruence.
Qed.

Lemma str_of_Z_line z : has_char newline (str_of_Z z) = false.
Proof.
  destruct (Z_le_gt_dec 0 z) as [Hz|Hz].
  - by apply digits_no_char, str_of_Z_digits.
  - destruct z as [|p|p]; [lia|lia|]. change (str_of_Z (Zneg p)) with ("-" +:+ str_of_Z (Zpos p)).
    rewrite has_char_app. simpl. apply digits_no_char; [done|]. by apply (str_of_Z_digits (Zpos p)).
Qed.

(** ** Reading the document back *)
Section roundtrip.
Context (repr : pyval → string) (Hrepr : ∀ z, has_char newline (repr (PFloat z)) = false).

(** A label a queue may have *)
Definition plain (s : string) : bool := negb (has_char backslash s) && negb (has_char newline s).

Definition number_line (v : pyval) : bool := match v with PInt _ | PFloat _ => true | _ => false end.

Lemma number_on_line v : number_line v = true → has_char newline (py_str repr v) = false.
Proof. destruct v; try done; intros _; [apply str_of_Z_line|apply Hrepr]. Qed.

(** A name of the program: no space, brace, comment sign or line break *)
Definition name_ok (s : string) : bool :=
  negb (has_char " " s) && negb (has_char "{" s) && negb (startswith s "#") && negb (has_char newline s)
  && negb (String.eqb s "").

Lemma starts_hash s t : s ≠ "" → startswith s "#" = false → startswith (s +:+ t) "#" = false.
Proof.
  intros Hne Hs. destruct s as [|a s]; [done|]. apply not_true_iff_false. apply not_true_iff_false in Hs.
  intros [r Hr]%startswith_spec. apply Hs, startswith_spec. change (String a s +:+ t) with (String a (s +:+ t)) in Hr.
  injection Hr as -> _. by exists s.
Qed.

Lemma metric_line_plain name v : name_ok name = true → number_line v = true →
  has_char newline (_metric_line repr name v None) = false
  ∧ read_line (_metric_line repr name v None) = Some (name, None, py_str repr v).
Proof.
  unfold name_ok. rewrite !andb_true_iff, !negb_true_iff, String.eqb_neq. intros [[[[Hs Hb] Hh] Hn] Hne] Hv.
  pose proof (number_on_line v Hv) as Hl. unfold _metric_line. split.
  - rewrite !has_char_app, Hn, Hl. done.
  - unfold read_line. rewrite starts_hash by done. unfold read_sample.
    change (name +:+ " " +:+ py_str repr v) with (name +:+ String " " (py_str repr v)).
    rewrite split_at_here by done. simpl. by rewrite split_at_none.
Qed.

Lemma metric_line_label name v key label : name_ok name = true → number_line v = true →
  has_char "=" key = false → has_char newline key = false → plain label = true →
  has_char newline (_metric_line repr name v (Some (key, PStr label))) = false
  ∧ read_line (_metric_line repr name v (Some (key, PStr label))) = Some (name, Some (key, label), py_str repr v).
Proof.
  unfold name_ok, plain. rewrite !andb_true_iff, !negb_true_iff, String.eqb_neq.
  intros [[[[Hs Hb] Hh] Hn] Hne] Hv Hk Hkn [Hlb Hln]. pose proof (number_on_line v Hv) as Hl.
  unfold _metric_line. cbn [py_str]. split.
  - rewrite !has_char_app, Hn, Hkn, Hl, escape_has_char, Hln by done. done.
  - unfold read_line. rewrite starts_hash by done. unfold read_sample.
    set (tail := key +:+ "=" +:+ dq +:+ escape label +:+ dq +:+ "} " +:+ py_str repr v).
    change (name +:+ "{" +:+ tail) with (name +:+ String "{" tail).
    assert (∃ x rest, split_at " " tail = Some (x, rest)) as (x & rest & Hx).
    { apply split_at_Some. unfold tail. rewrite !has_char_app. simpl. by rewrite !orb_true_r. }
    assert (split_at " " (name +:+ String "{" tail) = Some (name +:+ String "{" x, rest)) as ->.
    { rewrite split_at_app by done. cbn [split_at]. rewrite Hx. reflexivity. }
    cbn [mbind option_bind]. rewrite !split_at_here by done. cbn [mbind option_bind]. unfold tail.
    change (key +:+ "=" +:+ dq +:+ escape label +:+ dq +:+ "} " +:+ py_str repr v)
      with (key +:+ String "=" (dq +:+ escape label +:+ dq +:+ "} " +:+ py_str repr v)).
    rewrite split_at_here by done. cbn [mbind option_bind]. rewrite strip_prefix_app. cbn [mbind option_bind].
    change (dq +:+ "} " +:+ py_str repr v) with (String quote ("} " +:+ py_str repr v)).
    rewrite read_escaped by done. cbn [mbind option_bind]. by rewrite strip_prefix_app.
Qed.

(** Lines that are read as the samples [ss] *)
Definition read_as (lines : list string) (ss : list sample) : Prop :=
  Forall (λ l, has_char newline l = false) lines ∧ omap read_line lines = ss.

Lemma read_as_app l1 s1 l2 s2 : read_as l1 s1 → read_as l2 s2 → read_as (l1 ++ l2) (s1 ++ s2).
Proof. intros [H1 <-] [H2 <-]. split; [by apply Forall_app|apply omap_app]. Qed.

Lemma read_as_sample l s lines ss : has_char newline l = false ∧ read_line l = Some s →
  read_as lines ss → read_as (l :: lines) (s :: ss).
Proof. intros [Hn Hr] [H1 <-]. split; [by constructor|]. cbn [omap list_omap]. by rewrite Hr. Qed.

Lemma read_as_comment l lines ss : has_char newline l = false → read_line l = None → read_as lines ss →
  read_as (l :: lines) ss.
Proof. intros Hn Hr [H1 <-]. split; [by constructor|]. cbn [omap list_omap]. by rewrite Hr. Qed.

Lemma read_as_nil : read_as [] [].
Proof. by split. Qed.

Lemma read_as_fmap name key (d : list (string * pyval)) : name_ok name = true → has_char "=" key = false →
  has_char newline key = false → Forall (λ kv, plain kv.1 = true ∧ number_line kv.2 = true) d →
  read_as ((λ kv, _metric_line repr name kv.2 (Some (key, PStr kv.1))) <$> d)
    ((λ kv, (name, Some (key, kv.1), py_str repr kv.2)) <$> d).
Proof.
  intros Hn Hk Hkn. induction 1 as [|kv d [Hp Hv] _ IH]; [apply read_as_nil|].
  rewrite !fmap_cons. apply read_as_sample; [by apply metric_line_label|done].
Qed.

Lemma samples_join lines ss : lines ≠ [] → read_as lines ss → samples (join nl lines) = ss.
Proof. intros Hne [Hl <-]. unfold samples. by rewrite (split_join_char newline). Qed.
End roundtrip.
#[export] Hint Resolve read_as_app read_as_nil : linux_net.

Section metrics.
Context {W : Type} `{Json} `{Redis W} `{!Rq W} `{!Clock W}.
Context (c : Config) (strategy : string) (baseline start_time : Z).
Context (repr : pyval → string).

(** What a monitor should read of the statistics of [w] *)
Definition expected (nodes : list NodeInfo) (w : W) : list sample :=
  let workers := worker_all None w in
  let num d name key := (λ kv, (name, Some (key, kv.1), py_str repr kv.2)) <$> d in
  ("linux_net_uptime_seconds", None, str_of_Z (Z.quot (now w - start_time) 1000000))
  :: num (StatWorkers_dict (stat_workers workers)) "linux_net_workers" "kind"
  ++ num (jobs_stats (queues_seen workers) w) "linux_net_jobs" "state"
  ++ num (nodes_stats nodes) "linux_net_nodes" "kind"
  ++ (sort_by String.leb (queues_seen workers) ≫= λ q,
        [("linux_net_queue_backpressure", Some ("queue", q),
          py_str repr (dict_get_or "backpressure_ratio" PNone (snapshot workers w q)));
         ("linux_net_worker_latency_seconds", Some ("queue", q),
          py_str repr (dict_get_or "worker_latency_seconds" PNone (snapshot workers w q)))]).

Lemma mappings_snapshots workers q_names w :
  mappings (PList (_queue_runtime_snapshot q_names workers w))
  = Ok (snapshot workers w <$> sort_by String.leb q_names).
Proof.
  unfold mappings, _queue_runtime_snapshot. f_equal. induction (sort_by String.leb q_names) as [|q l IH]; [done|].
  rewrite !fmap_cons. cbn [omap list_omap]. by rewrite IH.
Qed.

Lemma latency_number workers w q : number_line (dict_get_or "worker_latency_seconds" (PInt 0) (snapshot workers w q)) = true.
Proof. unfold snapshot. cbn. by destruct (_ <$> omap _ _). Qed.

Lemma read_as_queues workers w l : (∀ z, has_char newline (repr (PFloat z)) = false) →
  Forall (λ q, plain q = true) l →
  read_as ((snapshot workers w <$> l) ≫= queue_lines repr)
    (l ≫= λ q,
        [("linux_net_queue_backpressure", Some ("queue", q),
          py_str repr (dict_get_or "backpressure_ratio" PNone (snapshot workers w q)));
         ("linux_net_worker_latency_seconds", Some ("queue", q),
          py_str repr (dict_get_or "worker_latency_seconds" PNone (snapshot workers w q)))]).
Proof.
  intros Hrepr. induction 1 as [|q l Hq _ IH]; [apply read_as_nil|].
  rewrite fmap_cons. apply read_as_app; [|exact IH]. unfold queue_lines.
  change (dict_get_or "name" _ _) with (PStr q).
  apply read_as_sample; [by apply metric_line_label|].
  apply read_as_sample; [|apply read_as_nil].
  apply metric_line_label; [done|done|apply latency_number|done..].
Qed.

(** C37. The metrics are the statistics: read back by the rules of Prometheus' text
    format, the document gives one sample for the uptime, each kind of worker,
    each state of a job and the nodes, and two for each queue, with exactly the
    numbers of the statistics, as long as no queue has a backslash or a line
    break in its name.  (Quotes are escaped.) *)
Theorem metrics_roundtrip w nodes : (∀ z, has_char newline (repr (PFloat z)) = false) →
  get_all_nodes c w = Ok nodes → Forall (λ q, plain q = true) (queues_seen (worker_all None w)) →
  ∃ d text, get_system_stats c strategy baseline start_time w = Ok d
    ∧ render_prometheus_metrics repr d = Ok text ∧ samples text = expected nodes w.
Proof.
  intros Hrepr Hn Hq. unfold get_system_stats. rewrite Hn. eexists _, _. split; [reflexivity|].
  split.
  { trans (queues ← mappings (PList (_queue_runtime_snapshot (queues_seen (worker_all None w)) (worker_all None w) w));
           Ok (join nl (metrics_lines repr (PInt (Z.quot (now w - start_time) 1000000))
                 (StatWorkers_dict (stat_workers (worker_all None w))) (jobs_stats (queues_seen (worker_all None w)) w)
                 (nodes_stats nodes) queues))); [reflexivity|]. by rewrite mappings_snapshots. }
  apply samples_join; [done|]. unfold metrics_lines, expected.
  apply read_as_comment; [done..|]. apply read_as_comment; [done..|].
  apply read_as_sample; [by apply metric_line_plain|].
  apply read_as_comment; [done..|]. apply read_as_comment; [done..|].
  apply read_as_app; [apply read_as_fmap; [done..|by repeat constructor]|].
  apply read_as_comment; [done..|]. apply read_as_comment; [done..|].
  apply read_as_app; [apply read_as_fmap; [done..|by repeat constructor]|].
  apply read_as_comment; [done..|]. apply read_as_comment; [done..|].
  apply read_as_sample; [by apply metric_line_label|]. apply read_as_sample; [by apply metric_line_label|].
  apply read_as_comment; [done..|]. apply read_as_comment; [done..|].
  match goal with |- read_as _ ?ss => rewrite <-(app_nil_r ss) end.
  apply read_as_app; [|apply read_as_comment; [done..|apply read_as_nil]].
  apply read_as_queues; [done|]. by rewrite sort_by_perm.
Qed.
End metrics.

(** ** A small fleet: a pinned worker and a FIFO one, a node with room for two *)
Module Fleet.
Definition fifo_worker : WorkerRec := mkWorker "w1_FifoQ" None (Some 1000000%Z) "idle" ["FifoQ"].
Definition pinned_worker (host : string) : WorkerRec :=
  mkWorker ("w1_HostQ_" +:+ host) None (Some 500000%Z) "busy" ["HostQ_" +:+ host].
Definition world (host : string) : Toy.world := Toy.empty 2000000 [fifo_worker; pinned_worker host].
Definition repr (v : pyval) : string := match v with PFloat z => str_of_Z z | _ => "" end.

Lemma repr_line z : has_char newline (repr (PFloat z)) = false.
Proof. apply str_of_Z_line. Qed.

Definition text (host : string) : string :=
  match get_system_stats default_config "least_load" 0 0 (world host) with
  | Ok d => match render_prometheus_metrics repr d with Ok t => t | Err _ => "" end
  | Err _ => ""
  end.

Lemma metrics_roundtrip_witness : ∃ t,
  text "r1" = t ∧ samples t = expected 0 repr [] (world "r1")
  ∧ ("linux_net_workers", Some ("kind", "busy"), "1") ∈ samples t
  ∧ ("linux_net_worker_latency_seconds", Some ("queue", "HostQ_r1"), "1500000") ∈ samples t.
Proof.
  destruct (metrics_roundtrip default_config "least_load" 0 0 repr (world "r1") [] repr_line) as (d & t & Hd & Ht & Hs).
  { vm_compute. reflexivity. }
  { vm_compute. repeat constructor. }
  assert (text "r1" = t) as E by (unfold text; rewrite Hd, Ht; reflexivity).
  exists t. split; [exact E|]. split; [exact Hs|]. rewrite Hs. vm_compute.
  split; repeat first [apply list_elem_of_here | apply list_elem_of_further].
Defined.

(** Finding: only quotes are escaped.  A host whose name ends with a backslash
    has no readable sample, and a line break in it starts a line of its own. *)
Lemma backslash_unreadable :
  length (samples (text ("r1" +:+ String backslash ""))) = length (samples (text "r1")) - 2
  ∧ ("up", None, "0" +:+ dq +:+ "} 0") ∈ samples (text ("r1" +:+ nl +:+ "up 0")).
Proof. split; [by vm_compute|]. vm_compute. repeat first [apply list_elem_of_here | apply list_elem_of_further]. Qed.
End Fleet.
