(* ===== verification/Templating.v ===== *)
(** * Template plugins

    [linux_net/plugins/templates/]: where the source of a template comes from,
    the Jinja2 renderer, the TextFSM and TTP parsers; behind their names they
    are the [Templates] the workers use. *)

From S2P Require Import Prelude PyLib Models World Rpc ParamikoModel Fields.

(** ** What the plugins use of the disk, the network and the template engines *)
Class Sources := {
  read_text : string → res string;
  http_get : string → res string;
  ftp_get : string → res string;
  read_text_ordinary : ∀ p, ordinary (read_text p);
  http_get_ordinary : ∀ u, ordinary (http_get u);
  ftp_get_ordinary : ∀ u, ordinary (ftp_get u);
}.
#[export] Hint Resolve read_text_ordinary http_get_ordinary ftp_get_ordinary : linux_net.

Class Engines := {
  (** [Template( **options)], and its [render( **context)] *)
  Template : Type;
  jinja2_template : list (string * pyval) → res Template;
  jinja2_render : Template → list (string * pyval) → res string;
  (** [TextFSM(text)]; [ParseTextToDicts], which keeps the records it has *)
  Fsm : Type;
  textfsm : string → res Fsm;
  parse_to_dicts : Fsm → pyval → res (pyval * Fsm);
  (** [ntc_templates.parse.parse_output], [ttp_templates.parse_output]: platform, command, data *)
  ntc_parse_output : string → string → pyval → res pyval;
  ttp_parse_output : string → string → pyval → res pyval;
  (** [ttp(data, template)], [parse()], [result(structure="dictionary")] *)
  ttp : string → pyval → res pyval;
  template_ordinary : ∀ o, ordinary (jinja2_template o);
  jinja2_ordinary : ∀ t c, ordinary (jinja2_render t c);
  textfsm_ordinary : ∀ s, ordinary (textfsm s);
  fsm_ordinary : ∀ f v, ordinary (parse_to_dicts f v);
  ntc_ordinary : ∀ p c v, ordinary (ntc_parse_output p c v);
  ttp_output_ordinary : ∀ p c v, ordinary (ttp_parse_output p c v);
  ttp_ordinary : ∀ t v, ordinary (ttp t v);
}.
#[export] Hint Resolve template_ordinary jinja2_ordinary textfsm_ordinary fsm_ordinary ntc_ordinary
  ttp_output_ordinary ttp_ordinary : linux_net.

(** ** [TemplateSource] *)
Inductive SourceType := STRING | FILE | HTTP | FTP.

Definition _resolve (source : string) : SourceType :=
  let s_lower := lower source in
  if startswith s_lower "http://" || startswith s_lower "https://" then HTTP
  else if startswith s_lower "ftp://" then FTP
  else if startswith s_lower "file://" then FILE
  else STRING.

Section plugins.
Context `{Sources} `{Engines}.

Definition load_source (source : string) : res string :=
  match _resolve source with
  | STRING => Ok source
  | FILE => read_text (String.substring 7 (String.length source - 7) source)
  | HTTP => http_get source
  | FTP => ftp_get source
  end.

(** ** [jinja2/] *)
Definition optional_str (n : string) : field := mkField n (TOpt TStr) (Some PNone).
Definition optional_bool (n : string) : field := mkField n (TOpt TBool) (Some PNone).

Definition Jinja2Args : list field :=
  (optional_str <$> ["block_start_string"; "block_end_string"; "variable_start_string"; "variable_end_string";
     "comment_start_string"; "comment_end_string"; "line_statement_prefix"; "line_comment_prefix"])
  ++ [optional_bool "trim_blocks"; optional_bool "lstrip_blocks"; optional_str "newline_sequence";
      optional_bool "keep_trailing_newline"].

(** A field that is a model of its own, or absent; its undeclared keys are
    ignored. *)
Definition sub_model (fs : list field) (key : string) (extra : list (string * pyval)) : res (option (list (string * pyval))) :=
  match dict_get_or key PNone extra with
  | PNone => Ok None
  | PDict d => m ← field_values fs d; Ok (Some m)
  | _ => Err (ValidationError key)
  end.

Definition given_options (m : option (list (string * pyval))) : list (string * pyval) :=
  filter (λ kv, match kv.2 with PNone => false | _ => true end = true) (default [] m).

(** [from_rendering_request] and [__init__]; where the source is no text, the
    handler of the error refers to a name that has no value. *)
Definition jinja2_from_request (r : TemplateRenderRequest) : res Template :=
  options ← sub_model Jinja2Args "args" (tr_extra r);
  match tr_template r with
  | None => Err (OtherError "UnboundLocalError" "cannot access local variable 's' where it is not associated with a value")
  | Some source => s ← load_source source; jinja2_template (dict_set "source" (PStr s) (given_options options))
  end.

(** [Jinja2Renderer.render] *)
Definition jinja2_apply (t : Template) (context : option (list (string * pyval))) : res string :=
  jinja2_render t (default [] context).

(** ** The parsers *)

(** [TextFSMNtcArgs] and [TTPTemplateArgs] *)
Definition TemplateArgs : list field := [mkField "platform" TStr None; mkField "command" TStr None].

Inductive parser_object :=
  | Ntc (args : list (string * pyval))
  | TextFsm (template : Fsm)
  | TtpTemplates (args : list (string * pyval))
  | TtpTemplate (template : string).

Definition blank (source : string) : bool := String.eqb (strip source) "".

(** [TextFSMTemplateParser.from_parsing_request] and [__init__] *)
Definition textfsm_from_request (r : TemplateParseRequest) : res parser_object :=
  use_ntc ← field_or "use_ntc_template" false as_bool (tp_extra r);
  ntc_args ← sub_model TemplateArgs "ntc_template_args" (tp_extra r);
  if use_ntc : bool then
    match ntc_args with
    | None => Err (ValueError "NTC template args must be provided when using NTC templates")
    | Some a => Ok (Ntc a)
    end
  else if blank (tp_template r) then Err (ValueError "Template source must be provided when not using NTC templates")
  else s ← load_source (tp_template r); t ← textfsm s; Ok (TextFsm t).

(** [TTPTemplateParser.from_parsing_request] and [__init__] *)
Definition ttp_from_request (r : TemplateParseRequest) : res parser_object :=
  use_ttp ← field_or "use_ttp_template" false as_bool (tp_extra r);
  ttp_args ← sub_model TemplateArgs "ttp_template_args" (tp_extra r);
  if use_ttp : bool then
    match ttp_args with
    | None => Err (ValueError "TTP template args must be provided when using TTP templates")
    | Some a => Ok (TtpTemplates a)
    end
  else if blank (tp_template r) then Err (ValueError "Template source must be provided when not using TTP templates")
  else s ← load_source (tp_template r);
       if String.eqb s "" then Err (ValueError "Empty template") else Ok (TtpTemplate s).

Definition text_arg (k : string) (a : list (string * pyval)) : string :=
  match attr k a with PStr s => s | _ => "" end.

(** [parse] of both *)
Definition parse_with (p : parser_object) (context : pyval) : res (pyval * parser_object) :=
  match p with
  | Ntc a => v ← ntc_parse_output (text_arg "platform" a) (text_arg "command" a) context; Ok (v, p)
  | TextFsm t => '(v, t) ← parse_to_dicts t context; Ok (v, TextFsm t)
  | TtpTemplates a => v ← ttp_parse_output (text_arg "platform" a) (text_arg "command" a) context; Ok (v, p)
  | TtpTemplate t => v ← ttp t context; Ok (v, p)
  end.

(** ** The plugins by their names *)
Definition renderer (r : TemplateRenderRequest) : res Template :=
  if String.eqb (tr_name r) "jinja2" then jinja2_from_request r else Err (KeyError (tr_name r)).

Definition parser_for (r : TemplateParseRequest) : res parser_object :=
  if String.eqb (tp_name r) "textfsm" then textfsm_from_request r
  else if String.eqb (tp_name r) "ttp" then ttp_from_request r
  else Err (KeyError (tp_name r)).

(** [req.model_copy(update={"template": source})] *)
Definition with_source (source : string) (r : TemplateRenderRequest) : TemplateRenderRequest :=
  mkRender (tr_name r) (Some source) (tr_context r) (tr_extra r).

(** ** Errors are ordinary *)
Lemma load_source_ordinary s : ordinary (load_source s).
Proof. unfold load_source. case_match; auto with linux_net. Qed.

Lemma field_values_ordinary fs d : ordinary (field_values fs d).
Proof.
  induction fs as [|f fs IH]; [done|]. cbn [field_values].
  apply ordinary_bind; [apply field_value_ordinary|]. intros v. by apply ordinary_bind.
Qed.

Lemma sub_model_ordinary fs k e : ordinary (sub_model fs k e).
Proof.
  unfold sub_model. case_match; try (by apply ordinary_Err); [done|].
  apply ordinary_bind; [apply field_values_ordinary|done].
Qed.

Lemma renderer_ordinary r : ordinary (renderer r).
Proof.
  unfold renderer, jinja2_from_request. case_match; [|by apply ordinary_Err].
  apply ordinary_bind; [apply sub_model_ordinary|]. intros o. case_match; [|by apply ordinary_Err].
  apply ordinary_bind; [apply load_source_ordinary|]. auto with linux_net.
Qed.

Lemma textfsm_request_ordinary r : ordinary (textfsm_from_request r).
Proof.
  unfold textfsm_from_request. apply ordinary_bind; [apply field_or_ordinary|]. intros use.
  apply ordinary_bind; [apply sub_model_ordinary|]. intros a. repeat case_match; try (by apply ordinary_Err); [done|].
  apply ordinary_bind; [apply load_source_ordinary|]. intros s. by apply ordinary_bind; [auto with linux_net|].
Qed.

Lemma ttp_request_ordinary r : ordinary (ttp_from_request r).
Proof.
  unfold ttp_from_request. apply ordinary_bind; [apply field_or_ordinary|]. intros use.
  apply ordinary_bind; [apply sub_model_ordinary|]. intros a. repeat case_match; try (by apply ordinary_Err); [done|].
  apply ordinary_bind; [apply load_source_ordinary|]. intros s. case_match; [by apply ordinary_Err|done].
Qed.

Lemma parser_for_ordinary r : ordinary (parser_for r).
Proof.
  unfold parser_for. repeat case_match; [apply textfsm_request_ordinary|apply ttp_request_ordinary|by apply ordinary_Err].
Qed.

Lemma parse_with_ordinary p v : ordinary (parse_with p v).
Proof.
  unfold parse_with. destruct p; (apply ordinary_bind; [auto with linux_net|]); [done|by intros []|done|done].
Qed.

(** The plugins are what the workers call [Templates]. *)
#[export, refine] Instance template_plugins : Templates :=
  {| Parser := parser_object;
     render r source context := t ← renderer (with_source source r); jinja2_apply t (Some context);
     parser := parser_for;
     Rpc.parse := parse_with |}.
Proof.
  - intros r s ctx. apply ordinary_bind; [apply renderer_ordinary|]. intros t. unfold jinja2_apply. auto with linux_net.
  - apply parser_for_ordinary.
  - apply parse_with_ordinary.
Defined.
End plugins.

(** ** What a template is read from *)
Section source.
Context `{Sources} `{Engines}.

Definition is_uri (s : string) : bool := any (startswith (lower s)) ["http://"; "https://"; "ftp://"; "file://"].

Lemma load_inline s : is_uri s = false → load_source s = Ok s.
Proof.
  unfold is_uri. rewrite any_false. intros Hu. unfold load_source, _resolve.
  by rewrite !Hu by (apply list_elem_of_In; simpl; tauto).
Qed.

(** Rendering with plain text, as the workers do for a payload, a script or a
    path, is the engine on that text with the options of the request; any text
    that starts like a URI is fetched first, and the text fetched is rendered. *)
Lemma render_spec r s context : tr_name r = "jinja2" →
  render r s context =
    (options ← sub_model Jinja2Args "args" (tr_extra r);
     text ← (if is_uri s then load_source s else Ok s);
     t ← jinja2_template (dict_set "source" (PStr text) (given_options options));
     jinja2_render t context).
Proof.
  intros Hn. cbn [render template_plugins]. unfold renderer, with_source.
  cbn [tr_name]. rewrite Hn, String.eqb_refl.
  unfold jinja2_from_request, jinja2_apply. destruct (sub_model _ _ _) as [o|e]; [|done].
  cbn [mbind res_bind tr_template]. destruct (is_uri s) eqn:Eu; [by destruct (load_source s)|]. by rewrite load_inline.
Qed.
End source.

(** ** An engine that counts: its parser keeps its records *)
Module ToyTemplates.
#[export, refine] Instance toy_sources : Sources :=
  {| read_text p := if String.eqb p "/etc/passwd" then Ok "root:x:0:0" else Err (FileNotFoundError p);
     http_get u := Ok ("page of " +:+ u); ftp_get u := Ok u |}.
Proof. all: intros; try case_match; try done; by apply ordinary_Err. Defined.

#[export, refine] Instance toy_engines : Engines :=
  {| Template := string; jinja2_template o := match attr "source" o with PStr s => Ok s | _ => Err (TypeError "source") end;
     jinja2_render t _ := Ok t;
     Fsm := list pyval; textfsm _ := Ok []; parse_to_dicts f v := Ok (PList (f ++ [v]), f ++ [v]);
     ntc_parse_output _ _ v := Ok v; ttp_parse_output _ _ v := Ok v; ttp _ v := Ok v |}.
Proof. all: intros; try case_match; try done; by apply ordinary_Err. Defined.

Definition parsing : TemplateParseRequest := mkParse "textfsm" "Value X (.*)" None [].
Definition request : ExecutionRequest :=
  mkExecutionRequest NETMIKO None (mkDriverConnectionArgs None (Some "r1") None None []) None None
    (Some (PayList ["a"; "b"])) None None (Some parsing) None None None None audit_full None false None None None [].
Definition result (cmd : string) : DriverExecutionResult := mkResult cmd (PStr cmd) "" 0 None [] PNone.

(** Finding: one parser parses all the results of a request, and TextFSM keeps
    the records of the texts before unless it is reset: those of the first
    command are given for the second as well. *)
Lemma records_accumulate :
  parse_results request [result "a"; result "b"]
  = Ok [set_parsed (PList [PStr "a"]) (result "a"); set_parsed (PList [PStr "a"; PStr "b"]) (result "b")].
Proof. reflexivity. Qed.

(** Finding: a payload without a template is the template, and so is a path: as
    the text of a URI it is fetched by the worker. *)
Lemma path_is_fetched : render (mkRender "jinja2" None None []) "file:///etc/passwd" [] = Ok "root:x:0:0".
Proof. reflexivity. Qed.
End ToyTemplates.
