(* ===== verification/Server.v ===== *)
(** * The API server

    [linux_net/controller.py], [server/common.py], the middleware of
    [services/observability.py], and the routes of [routes/manage.py],
    [routes/detached_task.py] and [routes/template.py]; those of
    [routes/device.py] are in [Devices], the download in [Storage]. *)

From Stdlib Require Import Ascii.
From S2P Require Import Prelude PyLib Models Schedulers World Registry Manager Rpc Devices Fields Templating Stats Metrics.

(** ** The identifiers of a request: [ContextVar.set] *)
Class RequestContext (W : Type) `{Trace W} := {
  set_ids : option string * option string → W → W;
  set_ids_get : ∀ p w, (request_id_var (set_ids p w), job_trace_id_var (set_ids p w)) = p;
  set_ids_hashes : ∀ p w k, hashes (set_ids p w) k = hashes w k;
  set_ids_queued : ∀ p w, queued (set_ids p w) = queued w;
  uuid4_hex_ids : ∀ w, (request_id_var (uuid4_hex w).2, job_trace_id_var (uuid4_hex w).2)
                       = (request_id_var w, job_trace_id_var w);
}.

(** ** Requests and responses

    Of a request: the key in its query, headers and cookies, and the two
    headers with identifiers.  A response has a status, what the route
    returned or the details of an error, and the identifiers in its headers. *)
Record HttpRequest := mkRequest {
  query_key : option string;
  header_key : option string;
  cookie_key : option string;
  X_Request_ID : option string;
  X_Job_Trace_ID : option string;
}.

Inductive content (T : Type) := Body (x : T) | Detail (text : string).
Arguments Body {T} _.
Arguments Detail {T} _.

Record Response (T : Type) := mkResponse {
  status_code : Z;
  response_content : content T;
  id_headers : option (string * string);
}.
Arguments mkResponse {T} _ _ _.
Arguments status_code {T} _.
Arguments response_content {T} _.
Arguments id_headers {T} _.

(** ** [verify_api_key] *)
Definition verify_api_key (api_key : string) (r : HttpRequest) : res string :=
  if bool_decide (query_key r = Some api_key) then Ok api_key
  else if bool_decide (header_key r = Some api_key) then Ok api_key
  else if bool_decide (cookie_key r = Some api_key) then Ok api_key
  else Err (HTTPException 403 "Invalid or missing API key.").

(** ** The exception handlers: each is for a class and those derived from it *)
Definition is_value_error (e : exn) : bool :=
  match e with
  | ValueError _ => true
  | OtherError cls _ => bool_decide (cls ∈ ["JSONDecodeError"; "UnicodeError"; "UnicodeDecodeError"; "UnicodeEncodeError"])
  | _ => false
  end.

(** [http_exception_handler], [validation_exception_handler] and
    [value_error_handler]: the handlers inside the middleware *)
Definition handled {T} (e : exn) : option (Response T) :=
  match e with
  | HTTPException s detail => Some (mkResponse s (Detail detail) None)
  | ValidationError _ => Some (mkResponse 400 (Detail "Validation Error") None)
  | _ => if is_value_error e then Some (mkResponse 400 (Detail (exn_str e)) None) else None
  end.

Definition general_exception_handler {T} (e : exn) : Response T :=
  mkResponse 500 (Detail ("Internal Server Error: " +:+ exn_str e)) None.

(** ** The routers of [controller.py], and which need the key

    [AppRoutes] is the application itself, with its one page. *)
Inductive router := DeviceRouter | TemplateRouter | ManageRouter | DetachedTaskRouter | StorageRouter | AppRoutes.

Definition requires_key (r : router) : bool := match r with StorageRouter | AppRoutes => false | _ => true end.

(** [dashboard]: the page; [read_text] reads a file next to the program *)
Definition dashboard {W} (read_text : string → M W string) : M W string := read_text "static/dashboard.html".

Section server.
Context {W : Type} `{Json} `{Redis W} `{!Rq W} `{!Clock W} `{!Trace W} `{!RequestContext W}.
Context (api_key : string).

(** [dependencies=[Depends(verify_api_key)]]: before the route *)
Definition guarded {T} (r : router) (req : HttpRequest) (route : M W T) : M W T :=
  if requires_key r then of_res (verify_api_key api_key req) ≫= λ _, route else route.

(** A route with the handlers around it *)
Definition respond {T} (m : M W T) : M W (Response T) := λ w,
  match m w with
  | (Ok x, w') => (Ok (mkResponse 200 (Body x) None), w')
  | (Err e, w') => match handled e with Some r => (Ok r, w') | None => (Err e, w') end
  end.

(** [request_context_middleware] *)
Definition request_context_middleware {T} (req : HttpRequest) (call_next : M W (Response T)) : M W (Response T) :=
  request_id ← id_or_new (X_Request_ID req) "req";
  job_trace_id ← id_or_new (X_Job_Trace_ID req) "job";
  old ← reads (λ w, (request_id_var w, job_trace_id_var w));
  writes (set_ids (Some request_id, Some job_trace_id)) ≫= λ _,
  response ← try_finally call_next (writes (set_ids old));
  mret (mkResponse (status_code response) (response_content response) (Some (request_id, job_trace_id))).

(** A request through the middleware; [general_exception_handler] is the
    outermost, as the handler of [Exception] *)
Definition serve {T} (r : router) (req : HttpRequest) (route : M W T) : M W (Response T) :=
  try_except (request_context_middleware req (respond (guarded r req route)))
    (λ e, mret (general_exception_handler e)).

(** ** [routes/manage.py] *)
Context `{!Scheduler W} (c : Config) (strategy : string) (baseline start_time : Z) (repr : pyval → string).

(** [if host: ...; if node: ...; if queue: ...]: the last one given *)
Definition queue_filter (queue node host : option string) : option string :=
  let q_name := if str_truthy host then get_host_queue_name <$> host else None in
  let q_name := if str_truthy node then get_node_queue_name <$> node else q_name in
  if str_truthy queue then queue else q_name.

Definition stats_route : M W (list (string * pyval)) :=
  λ w, (get_system_stats c strategy baseline start_time w, w).

Definition metrics_route : M W string :=
  stats ← stats_route; of_res (render_prometheus_metrics repr stats).

Definition dashboard_route : M W (list (string * pyval)) :=
  stats ← stats_route;
  mapM (λ k, match dict_get k stats with Some v => mret (k, v) | None => raise (KeyError k) end)
    ["status"; "workers"; "jobs"; "scheduling"; "observability"].

Definition jobs_route (queue status node host : option string) : M W (list JobInResponse) :=
  reads (get_job_list (queue_filter queue node host) status None).

Definition job_route (id : string) : M W JobInResponse :=
  resp ← reads (get_job_list_by_ids [id]);
  match resp with
  | [] => raise (HTTPException 404 ("Job " +:+ id +:+ " not found"))
  | j :: _ => mret j
  end.

Definition delete_job_route (id : string) : M W string :=
  resp ← cancel_job (Some id) None;
  match resp with
  | [] => raise (HTTPException 404 ("Job " +:+ id +:+ " not found or not in queued state"))
  | _ => mret id
  end.

Definition delete_jobs_route (queue host : option string) : M W (list string) :=
  cancel_job None (queue_filter queue None host).

Definition workers_route (queue node host : option string) : M W (list WorkerRec) :=
  reads (get_worker_list (queue_filter queue node host)).

Definition delete_worker_route (name : string) : M W string :=
  killed ← update (kill_worker (Some name) None);
  match killed with
  | [] => raise (HTTPException 404 ("Worker " +:+ name +:+ " not found"))
  | _ => mret name
  end.

Definition delete_workers_route (queue node host : option string) : M W (list string) :=
  update (kill_worker None (queue_filter queue node host)).

(** ** [routes/detached_task.py] *)

(** [DetachedTaskInResponse]: of a task's metadata, its own fields; the
    connection arguments masked *)
Definition required_text (k : string) (d : list (string * pyval)) : res pyval :=
  match dict_get k d with Some (PStr s) => Ok (PStr s) | _ => Err (OtherError "ResponseValidationError" k) end.

Definition required_texts (k : string) (d : list (string * pyval)) : res pyval :=
  match dict_get k d with
  | Some (PList l) => match strs_of l with Some l => Ok (PList (PStr <$> l)) | None => Err (OtherError "ResponseValidationError" k) end
  | _ => Err (OtherError "ResponseValidationError" k)
  end.

(** [convert_timestamps]: an instant is kept as its number. *)
Definition timestamp (k : string) (d : list (string * pyval)) : res pyval :=
  match dict_get_or k PNone d with
  | PNone => Ok PNone
  | v => match number v with Some t => Ok (PFloat t) | None => Err (OtherError "ResponseValidationError" k) end
  end.

Definition optional_int (k : string) (d : list (string * pyval)) : res pyval :=
  match dict_get_or k PNone d with
  | PNone => Ok PNone
  | PInt z => Ok (PInt z)
  | _ => Err (OtherError "ResponseValidationError" k)
  end.

Definition DetachedTaskInResponse (d : metadata) : res (list (string * pyval)) :=
  task_id ← required_text "task_id" d;
  command ← required_texts "command" d;
  host ← required_text "host" d;
  driver ← required_text "driver" d;
  status ← required_text "status" d;
  last_sync ← timestamp "last_sync" d;
  created_at ← timestamp "created_at" d;
  push_interval ← optional_int "push_interval" d;
  last_offset ← optional_int "last_offset" d;
  args ← match dict_get "connection_args" d with
         | Some (PDict a) => Ok a
         | _ => Err (OtherError "ResponseValidationError" "connection_args")
         end;
  Ok [("task_id", task_id); ("command", command); ("host", host); ("driver", driver); ("status", status);
      ("last_sync", last_sync); ("created_at", created_at); ("push_interval", push_interval);
      ("last_offset", last_offset); ("connection_args", mask_sensitive_data (PDict args))].

Definition list_route (status : option string) : M W (list (list (string * pyval))) :=
  tasks ← (λ w, (list_detached_tasks status w, w));
  of_res (mapR (λ kv, DetachedTaskInResponse kv.2) tasks).

(** [except ValueError: 404; except Exception: 500] *)
Definition query_route (task_id : string) (offset : option Z)
    : M W (string * bool * list DriverExecutionResult) :=
  r ← try_except (query_detached_task c task_id offset) (λ e,
        raise (HTTPException
          (if is_value_error e || match e with ValidationError _ => true | _ => false end then 404 else 500)
          (exn_str e)));
  match r.2 with
  | Some result => mret (r.1, result)
  | None => raise (OtherError "ResponseValidationError" "result")
  end.

Definition clear_route : M W nat := clear_detached_tasks.

Definition kill_route (task_id : string) : M W string :=
  success ← kill_detached_task c task_id;
  if success : bool then mret task_id
  else raise (HTTPException 404 ("Detached task " +:+ task_id +:+ " not found or already stopped")).

Context `{!Credentials W} (credential : CredentialConfig).

Definition discover_route (driver : DriverName) (a : DriverConnectionArgs) (cred_ref : option CredentialRef)
    : M W (nat * nat * list pyval) :=
  '(a, _) ← _resolve_request_credentials credential a cred_ref;
  try_except (discover_detached_tasks c a driver) (λ e, raise (HTTPException 500 (exn_str e))).

(** ** [routes/template.py] *)
Context `{Sources} `{Engines}.

Definition named (name : option string) (given : string) : string :=
  if str_truthy name then default "" name else given.

(** [except KeyError: 404] *)
Definition not_found {A} (what name : string) (r : res A) : res A :=
  match r with
  | Err (KeyError _) => Err (HTTPException 404 (what +:+ " " +:+ name +:+ " not found"))
  | _ => r
  end.

Definition render_route (req : TemplateRenderRequest) (name : option string) : M W string :=
  let name := named name (tr_name req) in
  let req := mkRender name (tr_template req) (tr_context req) (tr_extra req) in
  if String.eqb name "" then raise (ValueError "Renderer name is required")
  else if negb (str_truthy (tr_template req)) then raise (HTTPException 400 "Template source is required")
  else robj ← of_res (not_found "Renderer" name (renderer req)); of_res (jinja2_apply robj (tr_context req)).

(** The route answers with a [dict], so FastAPI refuses anything else. *)
Definition parse_route (req : TemplateParseRequest) (name : option string) : M W (list (string * pyval)) :=
  let name := named name (tp_name req) in
  let req := mkParse name (tp_template req) (tp_context req) (tp_extra req) in
  if String.eqb name "" then raise (ValueError "Parser name is required")
  else
    pobj ← of_res (not_found "Parser" name (parser_for req));
    r ← of_res (parse_with pobj (opt_str (tp_context req)));
    match r.1 with
    | PDict d => mret d
    | _ => raise (OtherError "ResponseValidationError" "Input should be a valid dictionary")
    end.
End server.

(** ** What the server does with a request *)
Section serving.
Context {W : Type} `{Json} `{Redis W} `{!Rq W} `{!Clock W} `{!Trace W} `{!RequestContext W}.
Context (api_key : string).
Implicit Types (w : W) (req : HttpRequest).

Definition ids w : option string * option string := (request_id_var w, job_trace_id_var w).

(** One of the three places has the key, or the router needs none. *)
Definition admitted (r : router) req : bool :=
  negb (requires_key r) || bool_decide (Some api_key ∈ [query_key req; header_key req; cookie_key req]).

Lemma verify_spec req :
  verify_api_key api_key req =
    if bool_decide (Some api_key ∈ [query_key req; header_key req; cookie_key req]) then Ok api_key
    else Err (HTTPException 403 "Invalid or missing API key.").
Proof.
  unfold verify_api_key. rewrite (bool_decide_ext (Some api_key ∈ _)
    (query_key req = Some api_key ∨ header_key req = Some api_key ∨ cookie_key req = Some api_key)) by set_solver.
  repeat (case_bool_decide; [done || (rewrite bool_decide_eq_true_2 by tauto; done)|]).
  by rewrite bool_decide_eq_false_2 by tauto.
Qed.

(** What the client gets of a route's result: its value, the answer of the
    handler for its exception with the identifiers, or a 500 without them *)
Definition answer {T} (trace : string * string) (x : res T) : res (Response T) :=
  match x with
  | Ok x => Ok (mkResponse 200 (Body x) (Some trace))
  | Err e =>
      match handled (T:=T) e with
      | Some r => Ok (mkResponse (status_code r) (response_content r) (Some trace))
      | None => if is_exception e then Ok (general_exception_handler e) else Err e
      end
  end.

Lemma id_or_new_spec x prefix w : ∃ i w', id_or_new x prefix w = (Ok i, w') ∧ same w w' ∧ ids w' = ids w
  ∧ (∀ j, x = Some j → j ≠ "" → i = j).
Proof.
  assert (∃ i w', new_trace_id prefix w = (Ok i, w') ∧ same w w' ∧ ids w' = ids w) as (i & w' & Hi & Hs & Hids).
  { destruct (new_trace_id_ok prefix w) as (i & w' & E & Hs). exists i, w'. split; [done|]. split; [done|].
    revert E. unfold new_trace_id, mbind, M_bind, update. pose proof (uuid4_hex_ids w) as Hu.
    destruct (uuid4_hex w) as [h w1]. intros [= _ <-]. exact Hu. }
  unfold id_or_new. destruct x as [j|]; [|exists i, w'; split_and!; try done; by intros].
  destruct (String.eqb_spec j "") as [->|Hj]; [exists i, w'; split_and!; try done; by intros ? [= <-]|].
  exists j, w. split_and!; try done. by intros ? [= <-].
Qed.

End serving.

(** ** What the listing of detached tasks shows *)
Section listing.
Context {W : Type} `{Json} `{Redis W} `{!Rq W}.
Implicit Types (w : W).

Definition shown_fields : list string :=
  ["task_id"; "command"; "host"; "driver"; "status"; "last_sync"; "created_at"; "push_interval"; "last_offset";
   "connection_args"].

(** One task as the client sees it *)
Definition shown (kv : string * metadata) (d : list (string * pyval)) : Prop :=
  d.*1 = shown_fields ∧ dict_get "task_id" d = dict_get "task_id" kv.2 ∧ dict_get "status" d = dict_get "status" kv.2
  ∧ is_Some (dict_get "command" kv.2)
  ∧ ∃ a v, dict_get "connection_args" kv.2 = Some (PDict a) ∧ dict_get "connection_args" d = Some v
    ∧ v = mask_sensitive_data (PDict a) ∧ secure v = true.

Definition is_response_error (e : exn) : Prop := ∃ k, e = OtherError "ResponseValidationError" k.

(** A field, or an error of the response *)
Definition field_or_error {A} (P : A → Prop) (r : res A) : Prop :=
  match r with Ok v => P v | Err e => is_response_error e end.

Lemma required_text_cases k d : field_or_error (λ v, dict_get k d = Some v) (required_text k d).
Proof. unfold required_text. repeat case_match; try done; by eexists. Qed.
Lemma required_texts_cases k d : field_or_error (λ v, is_Some (dict_get k d)) (required_texts k d).
Proof. unfold required_texts. repeat case_match; simplify_eq/=; try (by eexists); rewrite ?H1; eauto. Qed.
Lemma timestamp_cases k d : field_or_error (λ v, True) (timestamp k d).
Proof. unfold timestamp. repeat case_match; try done; by eexists. Qed.
Lemma optional_int_cases k d : field_or_error (λ v, True) (optional_int k d).
Proof. unfold optional_int. repeat case_match; try done; by eexists. Qed.

Ltac next_field :=
  match goal with
  | |- field_or_error _ (mbind _ (required_text ?k ?d)) => pose proof (required_text_cases k d); destruct (required_text k d)
  | |- field_or_error _ (mbind _ (required_texts ?k ?d)) => pose proof (required_texts_cases k d); destruct (required_texts k d)
  | |- field_or_error _ (mbind _ (timestamp ?k ?d)) => pose proof (timestamp_cases k d); destruct (timestamp k d)
  | |- field_or_error _ (mbind _ (optional_int ?k ?d)) => pose proof (optional_int_cases k d); destruct (optional_int k d)
  end; cbn [mbind res_bind field_or_error] in *; [|done].

Lemma response_cases d : field_or_error (λ x, ∀ t, shown (t, d) x) (DetachedTaskInResponse d).
Proof.
  unfold DetachedTaskInResponse. do 9 next_field.
  destruct (dict_get "connection_args" d) as [[| | | | | |args]|] eqn:Ea; try (by eexists).
  intros t. split_and!; [done..|]. eexists _, _. split_and!; [done..|]. apply mask_secure.
Qed.

(** The listing shows the registered tasks of the status asked for, in their
    order, each with ten fields only (so no webhook with its credentials), its
    connection arguments with every sensitive value masked; it changes nothing,
    and fails only when the registry or a task's metadata is not as it should
    be. *)
Theorem list_route_spec status w :
  match list_route status w with
  | (Ok l, w') => w' = w ∧ ∃ tasks, list_detached_tasks status w = Ok tasks ∧ Forall2 shown tasks l
  | (Err e, w') => w' = w ∧ (list_detached_tasks status w = Err e ∨ is_response_error e)
  end.
Proof.
  unfold list_route, mbind, M_bind, of_res. destruct (list_detached_tasks status w) as [tasks|e] eqn:El; [|auto].
  destruct (mapR _ tasks) as [l|e] eqn:Em.
  - split; [done|]. exists tasks. split; [done|]. eapply mapR_Forall2; [|exact Em].
    intros [t d] x _ Hx. pose proof (response_cases d) as Hc. simpl in Hx. rewrite Hx in Hc. apply Hc.
  - split; [done|]. right. clear El. induction tasks as [|[t d] tasks IH]; [done|]. cbn [mapR] in Em.
    pose proof (response_cases d) as Hc. simpl in Em. unfold field_or_error in Hc.
    destruct (DetachedTaskInResponse d) as [x|e']; [|injection Em as <-; exact Hc].
    cbn [mbind res_bind] in Em. destruct (mapR _ tasks) as [l|e']; [done|]. apply IH. exact Em.
Qed.

(** Finding: while any task is launching the listing fails as a whole. *)
Lemma launching_hides_all w tasks t req x : list_detached_tasks None w = Ok tasks →
  (t, launching_meta t req x) ∈ tasks → ∃ e, list_route None w = (Err e, w) ∧ is_response_error e.
Proof.
  intros El Hin. pose proof (list_route_spec None w) as Hs. destruct (list_route None w) as [[l|e] w'].
  - destruct Hs as [_ (tasks' & El' & Hf)]. rewrite El in El'. injection El' as <-.
    apply list_elem_of_lookup in Hin as [i Hi]. destruct (Forall2_lookup_l _ _ _ _ _ Hf Hi) as (d & Hd & Hsh).
    destruct Hsh as (_ & _ & _ & [? Hc] & _). discriminate Hc.
  - destruct Hs as [-> [Hs|Hs]]; [congruence|]. by exists e.
Qed.
End listing.

(** ** A server with the key [secret], on the toy world *)
Module ToyServer.
#[export, refine] Instance toy_context : RequestContext Toy.world := {| set_ids := Toy.set_ids |}.
Proof. all: done || by intros []. Defined.

Definition keyed (k : option string) : HttpRequest := mkRequest None k None (Some "req-1") None.

(** Clearing the registry, without the key and with it *)
Definition clear (k : option string) (w : Toy.world) : res (Response nat) * Toy.world :=
  serve "secret" DetachedTaskRouter (keyed k) clear_route w.

Definition one_task : Toy.world := hset KEY "t1" (dumps (PDict [("status", PStr "running")])) (Toy.empty 0 []).

Example clear_refused :
  let '(r, w) := clear (Some "guess") one_task in
  r = Ok (mkResponse 403 (Detail "Invalid or missing API key.") (Some ("req-1", "job_0000000011112222")))
  ∧ hget KEY "t1" w = hget KEY "t1" one_task.
Proof. by vm_compute. Qed.

(** The page is served to anyone. *)
Example dashboard_open :
  (serve "secret" AppRoutes (keyed None) (dashboard (λ p, mret ("<" +:+ p +:+ ">"))) one_task).1
  = Ok (mkResponse 200 (Body "<static/dashboard.html>") (Some ("req-1", "job_0000000011112222"))).
Proof. by vm_compute. Qed.

Example clear_done :
  let '(r, w) := clear (Some "secret") one_task in
  r = Ok (mkResponse 200 (Body 1) (Some ("req-1", "job_0000000011112222"))) ∧ hget KEY "t1" w = None.
Proof. by vm_compute. Qed.

(** Finding: TextFSM's parser gives a list, so that parsing with it always
    ends as an internal error. *)
Lemma textfsm_route_fails :
  parse_route (H1 := ToyTemplates.toy_sources) (H2 := ToyTemplates.toy_engines) (mkParse "textfsm" "Value X (.*)" (Some "x") []) None (Toy.empty 0 [])
  = (Err (OtherError "ResponseValidationError" "Input should be a valid dictionary"), Toy.empty 0 []).
Proof. reflexivity. Qed.
End ToyServer.

(** Finding: stopping a worker by its name reports success whether or not there
    is one. *)
Lemma delete_worker_succeeds {W} `{Json} `{Redis W} `{!Rq W} name (w : W) : name ≠ "" →
  (delete_worker_route name w).1 = Ok name.
Proof.
  intros Hn. unfold delete_worker_route, mbind, M_bind, update, kill_worker.
  by destruct name.
Qed.
