(* ===== verification/Workers.v ===== *)
(** * Workers

    [linux_net/worker/common.py], [fifo.py], [pinned.py] and the start of the
    archiver ([archiver.py]): waiting for Redis, the lock of the FIFO worker,
    the indexes of the audit collections. *)

From S2P Require Import Prelude PyLib Models World AuditLog.

(** ** What a worker uses of [rq], Redis and the lock of a file *)
Class WorkerLib (W : Type) := {
  RqWorker : Type;
  redis_ping : M W unit;
  (** [except RedisError], of which [BusyLoadingError] is one *)
  is_redis_error : exn → bool;
  (** [SimpleWorker(Queue(q), name=...)] and [Worker(...)], which forks *)
  simple_worker : string → string → M W RqWorker;
  forking_worker : string → string → M W RqWorker;
  (** [work()]: it ends when the worker is told to stop *)
  work : RqWorker → M W unit;
  lock_held : W → bool;
  (** [FileLock("./fifo.lock").acquire(timeout=3)] and [release()] *)
  lock_acquire : M W unit;
  lock_release : M W unit;
}.

Section workers.
Context {W : Type} `{WorkerLib W} `{!Clock W}.

(** ** [RedisWorker.listen] *)

(** One round: ask Redis, make the worker *)
Definition start_attempt (name q_name : string) : M W RqWorker :=
  redis_ping ≫= λ _, simple_worker q_name name.

Fixpoint start_worker (fuel : nat) (name q_name : string) : M W RqWorker := λ w,
  match fuel with
  | 0 => (Err OutOfFuel, w)
  | S fuel =>
      match start_attempt name q_name w with
      | (Err e, w') =>
          if is_redis_error e then start_worker fuel name q_name (sleep (seconds 5) w') else (Err e, w')
      | r => r
      end
  end.

Definition listen (fuel : nat) (name q_name : string) : M W unit :=
  worker ← start_worker fuel name q_name; work worker.

(** ** [PinnedWorker.listen]; its [cleanup] does nothing. *)
Definition pinned_listen (fuel : nat) (hostname q_name : string) : M W unit :=
  try_except (listen fuel (hostname +:+ "_" +:+ q_name) q_name) (λ _, raise (SystemExit 1)).

(** ** [FifoWorker.listen] *)
Definition fifo_listen (hostname q_name : string) : M W unit :=
  acquired ← try_except (lock_acquire ≫= λ _, mret true) (λ _, raise (SystemExit 1));
  try_finally
    (try_except (worker ← forking_worker q_name (hostname +:+ "_" +:+ q_name); work worker)
       (λ _, raise (SystemExit 1)))
    (if acquired : bool then lock_release else mret tt).
End workers.

(** ** The indexes of the archiver *)
Record Index := mkIndex {
  ix_key : list (string * Z);
  ix_unique : bool;
  ix_expire : option Z;
}.

Class MongoIndexes (W : Type) := {
  (** [except PyMongoError] *)
  is_mongo_error : exn → bool;
  server_info : M W unit;
  indexes : string → W → list Index;
  list_indexes : string → W → res (list Index);
  create_index : string → Index → M W unit;
  (** [collMod] of the index with a key *)
  coll_mod : string → list (string * Z) → Z → M W unit;
}.

Record ArchiverConfig := mkArchiverConfig {
  ac_enabled : bool;
  ac_retention_days : Z;
  ac_detached_retention_days : Z;
}.

Section archiver.
Context {W : Type} `{MongoIndexes W}.

(** [try: ... except PyMongoError: return False] *)
Definition pymongo_guard (m : M W bool) : M W bool := λ w,
  match m w with
  | (Err e, w') => if is_mongo_error e then (Ok false, w') else (Err e, w')
  | r => r
  end.

Definition on_field (field : string) (ix : Index) : bool := bool_decide (ix_key ix = [(field, 1%Z)]).

Definition _ensure_ttl_index (coll field : string) (retention_days : Z) : M W bool :=
  if (retention_days <=? 0)%Z then mret true
  else
    let expire_after_seconds := (retention_days * 24 * 60 * 60)%Z in
    pymongo_guard
      (l ← (λ w, (list_indexes coll w, w));
       match head (filter (λ ix, on_field field ix = true) l) with
       | Some existing =>
           if bool_decide (ix_expire existing = Some expire_after_seconds) then mret true
           else coll_mod coll [(field, 1%Z)] expire_after_seconds ≫= λ _, mret true
       | None => create_index coll (mkIndex [(field, 1%Z)] false (Some expire_after_seconds)) ≫= λ _, mret true
       end).

Definition _ensure_index (coll keys : string) (unique : bool) : M W bool :=
  pymongo_guard (create_index coll (mkIndex [(keys, 1%Z)] unique None) ≫= λ _, mret true).

Context (mg : MongoConfig) (ac : ArchiverConfig).

Definition _init_mongo : M W unit :=
  server_info ≫= λ _,
  _ensure_index (mg_collection mg) "job_id" true ≫= λ _,
  _ensure_ttl_index (mg_collection mg) "created_at" (ac_retention_days ac) ≫= λ _,
  _ensure_index (mg_detached_collection mg) "task_id" false ≫= λ _,
  _ensure_ttl_index (mg_detached_collection mg) "recorded_at" (ac_detached_retention_days ac) ≫= λ _,
  mret tt.

(** [ArchiverWorker.listen] *)
Definition archiver_listen `{!WorkerLib W} `{!Clock W} (fuel : nat) (hostname : string) : M W unit :=
  if negb (ac_enabled ac) then mret tt
  else
    ready ← try_except (_init_mongo ≫= λ _, mret true) (λ _, mret false);
    if ready : bool then listen fuel ("archiver-" +:+ hostname) "AuditLogQ" else mret tt.
End archiver.

(** ** Waiting for Redis *)
Section waiting.
Context {W : Type} `{WorkerLib W} `{!Clock W}.
Implicit Types (w : W).

(** After [n] failures of Redis, each followed by a pause, in [w'] *)
Inductive waits (name q_name : string) : nat → W → W → Prop :=
  | waits_0 w : waits name q_name 0 w w
  | waits_S n w e w1 w2 : start_attempt name q_name w = (Err e, w1) → is_redis_error e = true →
      waits name q_name n (sleep (seconds 5) w1) w2 → waits name q_name (S n) w w2.

(** The calls do not turn the clock back. *)
Definition forward : Prop := ∀ name q_name w, (now w ≤ now (start_attempt name q_name w).2)%Z.

Lemma start_after name q_name n w w' fuel : waits name q_name n w w' →
  start_worker (n + fuel) name q_name w = start_worker fuel name q_name w'.
Proof. induction 1 as [|n w e w1 w2 Ha He Hw IH]; [done|]. simpl. by rewrite Ha, He. Qed.

Lemma waits_time name q_name n w w' : forward → waits name q_name n w w' →
  (now w + Z.of_nat n * seconds 5 ≤ now w')%Z.
Proof.
  intros Hf. induction 1 as [|n w e w1 w2 Ha He Hw IH]; [lia|].
  pose proof (Hf name q_name w) as Hw1. rewrite Ha in Hw1. cbn in Hw1.
  pose proof (now_sleep (seconds 5) w1 ltac:(unfold seconds; lia)). lia.
Qed.

(** A worker waits for Redis as long as it takes, and no longer: whatever the
    number of rounds in which Redis refuses, it pauses five seconds after each,
    and the first round that does otherwise decides, a worker that then works
    or an exception that is no fault of Redis; and as long as it has not got
    there, all its rounds were refusals. *)
Theorem worker_listen_spec fuel name q_name w : forward →
  (∃ n w1, n < fuel ∧ waits name q_name n w w1 ∧ (now w + Z.of_nat n * seconds 5 ≤ now w1)%Z
     ∧ match start_attempt name q_name w1 with
       | (Ok worker, w2) => listen fuel name q_name w = work worker w2
       | (Err e, w2) => is_redis_error e = false ∧ listen fuel name q_name w = (Err e, w2)
       end)
  ∨ ∃ w1, waits name q_name fuel w w1 ∧ listen fuel name q_name w = (Err OutOfFuel, w1).
Proof.
  intros Hf. unfold listen, mbind, M_bind.
  assert ((∃ n w1, n < fuel ∧ waits name q_name n w w1
     ∧ match start_attempt name q_name w1 with
       | (Ok worker, w2) => start_worker fuel name q_name w = (Ok worker, w2)
       | (Err e, w2) => is_redis_error e = false ∧ start_worker fuel name q_name w = (Err e, w2)
       end) ∨ ∃ w1, waits name q_name fuel w w1 ∧ start_worker fuel name q_name w = (Err OutOfFuel, w1)) as Hs.
  { revert w. induction fuel as [|fuel IH]; intros w; [right; exists w; by split; [constructor|]|]. cbn [start_worker].
    destruct (start_attempt name q_name w) as [[x|e] w'] eqn:Ea.
    - left. exists 0, w. split_and!; [lia|constructor|]. by rewrite Ea.
    - destruct (is_redis_error e) eqn:Ee.
      + destruct (IH (sleep (seconds 5) w')) as [(n & w1 & Hn & Hw & Hr)|(w1 & Hw & Hr)].
        * left. exists (S n), w1. split_and!; [lia|by econstructor|exact Hr].
        * right. exists w1. split; [by econstructor|exact Hr].
      + left. exists 0, w. split_and!; [lia|constructor|]. by rewrite Ea. }
  destruct Hs as [(n & w1 & Hn & Hw & Hr)|(w1 & Hw & Hr)].
  - left. exists n, w1. split_and!; [done|done|by apply (waits_time name q_name)|].
    destruct (start_attempt name q_name w1) as [[x|e] w2]; [by rewrite Hr|]. destruct Hr as [? Hr]. by rewrite Hr.
  - right. exists w1. by rewrite Hr.
Qed.
End waiting.

(** ** The lock of the FIFO worker *)
Class LockLaws (W : Type) `{WorkerLib W} : Prop := {
  acquire_ok : ∀ w u w', lock_acquire w = (Ok u, w') → lock_held w = false ∧ lock_held w' = true;
  acquire_err : ∀ w e w', lock_acquire w = (Err e, w') → is_exception e = true ∧ lock_held w' = lock_held w;
  release_ok : ∀ w, (lock_release w).1 = Ok tt ∧ lock_held (lock_release w).2 = false;
  forking_held : ∀ q n w, lock_held (forking_worker q n w).2 = lock_held w;
  work_held : ∀ x w, lock_held (work x w).2 = lock_held w;
}.

Section fifo.
Context {W : Type} `{LockLaws W}.
Implicit Types (w : W).

(** What an exit code becomes of an exception *)
Definition exit_of {A} (r : res A) : res A :=
  match r with Err e => if is_exception e then Err (SystemExit 1) else Err e | _ => r end.

(** One FIFO worker at a time on a machine: it works only with the lock, which
    was free before; it gives the lock back however its work ends, and leaves
    with status 1 when that was an exception; without the lock it leaves with
    status 1 at once, having made no worker, and the lock stays with the other. *)
Theorem fifo_listen_spec hostname q_name w :
  match lock_acquire w with
  | (Err e, w1) => fifo_listen hostname q_name w = (Err (SystemExit 1), w1) ∧ lock_held w1 = lock_held w
  | (Ok _, w1) =>
      lock_held w = false ∧ lock_held w1 = true ∧
      let '(r, w2) := (worker ← forking_worker q_name (hostname +:+ "_" +:+ q_name); work worker) w1 in
      lock_held w2 = true
      ∧ ∃ w3, fifo_listen hostname q_name w = (exit_of r, w3) ∧ lock_held w3 = false
  end.
Proof.
  unfold fifo_listen. set (m := worker ← _; work worker).
  assert (∀ w, lock_held (m w).2 = lock_held w) as Hm.
  { intros w'. unfold m, mbind, M_bind. pose proof (forking_held q_name (hostname +:+ "_" +:+ q_name) w') as Hf.
    destruct (forking_worker _ _ w') as [[x|e] w2]; [|done]. by rewrite work_held. }
  set (exits := try_except m (λ _, raise (SystemExit 1))).
  match goal with |- context [?f w = (Err (SystemExit 1), _)] => set (whole := f) end.
  assert (whole w = match lock_acquire w with
                    | (Ok _, w1) => try_finally exits lock_release w1
                    | (Err e, w1) => if is_exception e then (Err (SystemExit 1), w1) else (Err e, w1)
                    end) as ->.
  { unfold whole, try_except, mbind, M_bind. destruct (lock_acquire w) as [[u|e] w1]; [done|]. by destruct (is_exception e). }
  pose proof (acquire_ok w) as Hok. pose proof (acquire_err w) as Herr. destruct (lock_acquire w) as [[u|e] w1].
  - destruct (Hok u w1 eq_refl) as [Hf Hh]. split; [done|]. split; [done|]. pose proof (Hm w1) as Hw2.
    assert (try_finally exits lock_release w1 = (exit_of (m w1).1, (lock_release (m w1).2).2)) as ->.
    { unfold try_finally, exits, try_except. destruct (m w1) as [r w2]. cbn. pose proof (proj1 (release_ok w2)) as Hr.
      destruct r as [x|e]; cbn [exit_of]; [|destruct (is_exception e)]; unfold raise; destruct (lock_release w2) as [r3 w3];
        cbn in *; by subst r3. }
    destruct (m w1) as [r w2]. cbn in *. split; [congruence|]. eexists. split; [done|]. apply release_ok.
  - destruct (Herr e w1 eq_refl) as [-> Hl]. done.
Qed.
End fifo.

(** ** Retention *)
Class IndexLaws (W : Type) `{MongoIndexes W} : Prop := {
  list_ok : ∀ coll w l, list_indexes coll w = Ok l → l = indexes coll w;
  list_err : ∀ coll w e, list_indexes coll w = Err e → is_exception e = true;
  create_ok : ∀ coll ix w u w', create_index coll ix w = (Ok u, w') → ix_key ix ∉ ix_key <$> indexes coll w →
    ∀ k, indexes k w' = if decide (k = coll) then indexes coll w ++ [ix] else indexes k w;
  create_err : ∀ coll ix w e w' k, create_index coll ix w = (Err e, w') → indexes k w' = indexes k w;
  coll_mod_ok : ∀ coll key z w u w' k, coll_mod coll key z w = (Ok u, w') →
    indexes k w' = if decide (k = coll)
                   then (λ ix, if bool_decide (ix_key ix = key) then mkIndex key (ix_unique ix) (Some z) else ix) <$> indexes coll w
                   else indexes k w;
  coll_mod_err : ∀ coll key z w e w' k, coll_mod coll key z w = (Err e, w') → indexes k w' = indexes k w;
}.

Section retention.
Context {W : Type} `{IndexLaws W}.
Implicit Types (w : W).

(** The documents of a collection expire [days] days after [field]. *)
Definition expires (coll field : string) (days : Z) w : Prop :=
  ∃ ix, head (filter (λ ix, on_field field ix = true) (indexes coll w)) = Some ix
    ∧ ix_expire ix = Some (days * 24 * 60 * 60)%Z.

Lemma head_filter_app {A} (P : A → Prop) `{∀ x, Decision (P x)} l x :
  head (filter P l) = None → P x → head (filter P (l ++ [x])) = Some x.
Proof.
  intros Hh Hx. rewrite filter_app. destruct (filter P l) as [|y k] eqn:E; [|done].
  cbn [app]. rewrite filter_cons. by destruct (decide (P x)).
Qed.

Lemma head_filter_fmap {A} (P : A → Prop) `{∀ x, Decision (P x)} (f : A → A) l x :
  (∀ y, P (f y) ↔ P y) → head (filter P l) = Some x → head (filter P (f <$> l)) = Some (f x).
Proof.
  intros Hf. induction l as [|y l IH]; [done|]. rewrite fmap_cons, !filter_cons.
  pose proof (Hf y). destruct (decide (P y)), (decide (P (f y))); [by intros [= ->]|tauto|tauto|done].
Qed.

(** Setting up retention makes the documents expire after the configured
    number of days, whether or not there was an index, and touches no index on
    other fields nor of other collections; a second time it finds the index and
    writes nothing.  An error of the database is reported as [false] and
    leaves the indexes as they were; so does any other exception. *)
Theorem ttl_spec coll field days w : (0 < days)%Z →
  match _ensure_ttl_index coll field days w with
  | (Ok true, w') => expires coll field days w'
      ∧ (∀ k ix, on_field field ix = false ∨ k ≠ coll → ix ∈ indexes k w' ↔ ix ∈ indexes k w)
      ∧ (is_ok (list_indexes coll w') = true → _ensure_ttl_index coll field days w' = (Ok true, w'))
  | (Ok false, w') => ∀ k, indexes k w' = indexes k w
  | (Err e, w') => is_mongo_error e = false ∧ ∀ k, indexes k w' = indexes k w
  end.
Proof.
  intros Hd. unfold _ensure_ttl_index at 1. rewrite (proj2 (Z.leb_gt days 0)) by done.
  set (z := (days * 24 * 60 * 60)%Z).
  assert (∀ w', expires coll field days w' → is_ok (list_indexes coll w') = true →
    _ensure_ttl_index coll field days w' = (Ok true, w')) as Hagain.
  { intros w' (ix & Hh & He) Hok. unfold _ensure_ttl_index. rewrite (proj2 (Z.leb_gt days 0)) by done.
    unfold pymongo_guard, mbind, M_bind. destruct (list_indexes coll w') as [l|e] eqn:El; [|done].
    apply list_ok in El as ->. rewrite Hh, He. by rewrite bool_decide_eq_true_2. }
  unfold pymongo_guard, mbind at 1, M_bind. destruct (list_indexes coll w) as [l|e] eqn:El; cbn [fst snd].
  2:{ destruct (is_mongo_error e) eqn:Ee; auto. }
  apply list_ok in El as ->. destruct (head _) as [ix|] eqn:Eh.
  - assert (on_field field ix = true) as Hix.
    { destruct (filter _ (indexes coll w)) as [|y k] eqn:Ef; [done|]. injection Eh as ->.
      assert (ix ∈ filter (λ ix, on_field field ix = true) (indexes coll w)) as Hin by (rewrite Ef; set_solver).
      by apply list_elem_of_filter in Hin as [? _]. }
    case_bool_decide as He.
    + cbn [mret M_ret]. split; [by exists ix|]. split; [done|]. apply Hagain. by exists ix.
    + unfold mbind, M_bind. pose proof (coll_mod_ok coll [(field, 1%Z)] z w) as Hok.
      pose proof (coll_mod_err coll [(field, 1%Z)] z w) as Herr.
      destruct (coll_mod _ _ _ w) as [[u|e] w']; [|destruct (is_mongo_error e) eqn:Ee; cbn; [|split; [done|]]; intros k; by eapply Herr].
      cbn [mret M_ret]. assert (expires coll field days w') as Hexp.
      { exists (mkIndex [(field, 1%Z)] (ix_unique ix) (Some z)). split; [|done]. rewrite (Hok u w' coll eq_refl), decide_True by done.
        rewrite (head_filter_fmap _ _ _ ix); [|intros y|done].
        - apply bool_decide_eq_true in Hix. by rewrite bool_decide_eq_true_2.
        - unfold on_field. repeat case_bool_decide; naive_solver. }
      split; [done|]. split; [|by apply Hagain]. intros k x Hx. rewrite (Hok u w' k eq_refl). case_decide as Ek; [|done].
      destruct Hx as [Hx|Hx]; [|done]. subst k. rewrite list_elem_of_fmap. unfold on_field in Hx. apply bool_decide_eq_false in Hx.
      split.
      * intros (y & -> & Hy). case_bool_decide; [|done]. by simpl in Hx.
      * intros Hin. exists x. by rewrite bool_decide_eq_false_2.
  - unfold mbind, M_bind. set (ix := mkIndex _ _ _). pose proof (create_ok coll ix w) as Hok. pose proof (create_err coll ix w) as Herr.
    assert (ix_key ix ∉ ix_key <$> indexes coll w) as Hnew.
    { intros (y & Hy & Hin)%list_elem_of_fmap.
      assert (y ∈ filter (λ ix, on_field field ix = true) (indexes coll w)) as Hf.
      { apply list_elem_of_filter. split; [|done]. unfold on_field. by rewrite bool_decide_eq_true_2. }
      destruct (filter _ (indexes coll w)); [by apply not_elem_of_nil in Hf|done]. }
    destruct (create_index coll ix w) as [[u|e] w']; [|destruct (is_mongo_error e) eqn:Ee; cbn; [|split; [done|]]; intros k; by eapply Herr].
    cbn [mret M_ret]. assert (expires coll field days w') as Hexp.
    { exists ix. split; [|done]. rewrite (Hok u w' eq_refl Hnew coll), decide_True by done.
      apply head_filter_app; [done|]. unfold on_field. by rewrite bool_decide_eq_true_2. }
    split; [done|]. split; [|by apply Hagain]. intros k x Hx. rewrite (Hok u w' eq_refl Hnew k). case_decide as Ek; [|done].
    subst k. destruct Hx as [Hx|Hx]; [|done]. rewrite elem_of_app, list_elem_of_singleton. split; [|by left].
    intros [?| ->]; [done|]. unfold on_field in Hx. by rewrite bool_decide_eq_true_2 in Hx.
Qed.
End retention.

(** Retention of zero days: the archiver then changes nothing, so an index of
    an earlier configuration keeps expiring the documents. *)
Lemma retention_not_removed {W} `{MongoIndexes W} coll field days days0 (w : W) :
  (days ≤ 0)%Z → expires coll field days0 w →
  ∃ w', _ensure_ttl_index coll field days w = (Ok true, w') ∧ expires coll field days0 w'.
Proof.
  intros Hd He. exists w. split; [|done]. unfold _ensure_ttl_index. by rewrite (proj2 (Z.leb_le days 0)).
Qed.

(** The archiver never listens without its database, and never fails for want
    of it: it then leaves the world as the attempt left it. *)
Lemma archiver_optional {W} `{MongoIndexes W} `{WorkerLib W} `{Clock W} mg ac fuel hostname (w : W) :
  archiver_listen mg ac fuel hostname w
  = if negb (ac_enabled ac) then (Ok tt, w)
    else match _init_mongo mg ac w with
         | (Ok _, w') => listen fuel ("archiver-" +:+ hostname) "AuditLogQ" w'
         | (Err e, w') => if is_exception e then (Ok tt, w') else (Err e, w')
         end.
Proof.
  unfold archiver_listen, try_except, mbind, M_bind. destruct (ac_enabled ac); [|done]. cbn [negb].
  destruct (_init_mongo mg ac w) as [[u|e] w']; [done|]. by destruct (is_exception e).
Qed.

(** ** A concrete world: Redis refuses a number of times *)
Module ToyWorkers.
Record world := mkWorld {
  tw_refusals : nat;
  tw_time : Z;
  tw_locked : bool;
  tw_indexes : gmap string (list Index);
  tw_worked : list string;
}.

Definition set_indexes (f : gmap string (list Index)) (w : world) : world :=
  mkWorld (tw_refusals w) (tw_time w) (tw_locked w) f (tw_worked w).
Definition at_ (coll : string) (w : world) : list Index := default [] (tw_indexes w !! coll).

#[global, refine] Instance toy_clock : Clock world :=
  {| now := tw_time;
     sleep d w := mkWorld (tw_refusals w) (tw_time w + d) (tw_locked w) (tw_indexes w) (tw_worked w) |}.
Proof. by intros d w _. Defined.

#[global] Instance toy_lib : WorkerLib world :=
  {| RqWorker := string;
     redis_ping w :=
       match tw_refusals w with
       | 0 => (Ok tt, w)
       | S n => (Err (OtherError "RedisError" "loading"),
                 mkWorld n (tw_time w) (tw_locked w) (tw_indexes w) (tw_worked w))
       end;
     is_redis_error e := bool_decide (e = OtherError "RedisError" "loading");
     simple_worker q n w := (Ok n, w);
     forking_worker q n w := (Ok n, w);
     work x w := (Ok tt, mkWorld (tw_refusals w) (tw_time w) (tw_locked w) (tw_indexes w) (tw_worked w ++ [x]));
     lock_held := tw_locked;
     lock_acquire w :=
       if tw_locked w then (Err (OtherError "Timeout" "lock"), w)
       else (Ok tt, mkWorld (tw_refusals w) (tw_time w) true (tw_indexes w) (tw_worked w));
     lock_release w := (Ok tt, mkWorld (tw_refusals w) (tw_time w) false (tw_indexes w) (tw_worked w)) |}.

#[global] Instance toy_lock : LockLaws world.
Proof.
  split; try done.
  - intros w u w'. cbn. destruct (tw_locked w); [done|]. by intros [= _ <-].
  - intros w e w'. cbn. destruct (tw_locked w) eqn:El; [|done]. by intros [= <- <-].
Qed.

#[global] Instance toy_indexes : MongoIndexes world :=
  {| is_mongo_error e := true;
     server_info w := (Ok tt, w);
     indexes := at_;
     list_indexes coll w := Ok (at_ coll w);
     create_index coll ix w := (Ok tt, set_indexes (<[coll := at_ coll w ++ [ix]]> (tw_indexes w)) w);
     coll_mod coll key z w :=
       (Ok tt, set_indexes (<[coll := (λ ix, if bool_decide (ix_key ix = key)
                                             then mkIndex key (ix_unique ix) (Some z) else ix) <$> at_ coll w]>
                              (tw_indexes w)) w) |}.

Lemma at_insert k coll l (w : world) :
  at_ k (set_indexes (<[coll := l]> (tw_indexes w)) w) = if decide (k = coll) then l else at_ k w.
Proof. unfold at_. cbn. case_decide; simplify_map_eq; done. Qed.

#[global] Instance toy_index_laws : IndexLaws world.
Proof.
  split; try done.
  - by intros coll w l [= <-].
  - intros coll ix w u w' [= _ <-] _ k. apply at_insert.
  - intros coll key z w u w' k [= _ <-]. apply at_insert.
Qed.

Definition start : world := mkWorld 2 0 false {["audit_jobs" := [mkIndex [("created_at", 1%Z)] false (Some 86400%Z)]]} [].

Example two_rounds_later :
  listen 5 "n1_q" "q" start
  = (Ok tt, mkWorld 0 10000000 false (tw_indexes start) ["n1_q"]).
Proof. reflexivity. Qed.

Example locked_out : (fifo_listen "n1" "fifo" (mkWorld 0 0 true ∅ [])).1 = Err (SystemExit 1).
Proof. reflexivity. Qed.

Lemma worker_listen_witness :
  ∃ n w1, n < 5 ∧ waits "n1_q" "q" n start w1 ∧ (10000000 ≤ tw_time w1)%Z ∧ (listen 5 "n1_q" "q" start).1 = Ok tt.
Proof.
  assert (forward (W := world)) as Hf.
  { intros name q_name w. unfold start_attempt, mbind, M_bind. cbn. by destruct (tw_refusals w). }
  destruct (worker_listen_spec 5 "n1_q" "q" start Hf) as [(n & w1 & Hn & Hw & Ht & Hr)|(w1 & Hw & Hr)].
  - exists n, w1. split; [exact Hn|]. split; [exact Hw|]. split; [|reflexivity].
    inversion Hw as [|n1 ? ? ? ? Ha He Hw1]; subst; [by destruct Hr|].
    vm_compute in Ha. injection Ha as <- <-.
    inversion Hw1 as [|n2 ? ? ? ? Ha2 He2 Hw2]; subst; [by destruct Hr|].
    cbn in Ht. unfold now, seconds in Ht. cbn in Ht. lia.
  - vm_compute in Hr. discriminate Hr.
Defined.

Lemma ttl_witness :
  ∃ w', _ensure_ttl_index "audit_jobs" "created_at" 30 start = (Ok true, w')
    ∧ expires "audit_jobs" "created_at" 30 w'.
Proof.
  pose proof (ttl_spec "audit_jobs" "created_at" 30 start ltac:(lia)) as Hs.
  assert ((_ensure_ttl_index "audit_jobs" "created_at" 30 start).1 = Ok true) as Hr by (vm_compute; reflexivity).
  destruct (_ensure_ttl_index "audit_jobs" "created_at" 30 start) as [r w']. cbn in Hr. subst r.
  exists w'. split; [reflexivity|apply Hs].
Defined.

Lemma fifo_listen_witness :
  (∃ w', fifo_listen "n1" "fifo" start = (Ok tt, w') ∧ tw_locked w' = false)
  ∧ fifo_listen "n1" "fifo" (mkWorld 0 0 true ∅ []) = (Err (SystemExit 1), mkWorld 0 0 true ∅ []).
Proof.
  split.
  - destruct (fifo_listen_spec "n1" "fifo" start) as (_ & _ & _ & w' & Hr & Hl). exists w'. split; [exact Hr|exact Hl].
  - exact (proj1 (fifo_listen_spec "n1" "fifo" (mkWorld 0 0 true ∅ []))).
Defined.
End ToyWorkers.
