(* ===== verification/Cli.v ===== *)
(** * The command line

    [linux_net/cli/main.py]: the table of devices, the payload and the
    templates, the request and its submission, the watching of the submitted
    jobs and the table of results.  What is printed is not modelled. *)

From Stdlib Require Import Ascii.
From S2P Require Import Prelude PyLib Models World Fields Storage Devices.

(** ** Tables, as pandas reads them *)

(** A cell: an empty one is NaN, a float that equals nothing. *)
Inductive cell := NaN | Cell (v : pyval).

Abbreviation row := (list (string * cell)) (only parsing).

Record DataFrame := mkDataFrame {
  df_columns : list string;
  df_rows : list (list (string * cell));
}.

(** [row[k]] and [df[k]] *)
Definition item {A} (k : string) (d : list (string * A)) : res A :=
  match dict_get k d with Some v => Ok v | None => Err (KeyError k) end.
Definition column (k : string) (df : DataFrame) : res (list cell) :=
  if decide (k ∈ df_columns df) then mapR (item k) (df_rows df) else Err (KeyError k).

(** [pd.isna(row.get(k))] *)
Definition isna (o : option cell) : bool :=
  match o with None | Some NaN | Some (Cell PNone) => true | _ => false end.

(** [df[mask]] *)
Definition select (mask : list bool) (df : DataFrame) : DataFrame :=
  mkDataFrame (df_columns df) (snd <$> filter (λ p, p.1 = true) (zip mask (df_rows df))).

(** [cell == v] *)
Definition cell_is (v : pyval) (c : cell) : bool := match c with Cell x => py_eqb x v | NaN => false end.

(** [int(cell)] *)
Definition to_int (c : cell) : res Z :=
  match c with
  | Cell (PInt z) => Ok z
  | Cell (PBool b) => Ok (if b then 1 else 0)%Z
  | Cell (PFloat us) => Ok (Z.quot us 1000000)
  | Cell (PStr s) => py_int 10 s
  | Cell _ => Err (TypeError "int() argument must be a string, a bytes-like object or a real number")
  | NaN => Err (ValueError "cannot convert float NaN to integer")
  end.

(** ** Devices *)

Inductive DeviceVendor := H3C | HUAWEI | CISCO | ARISTA | FORTINET.

Definition vendor_value (v : DeviceVendor) : string :=
  match v with
  | H3C => "hp_comware" | HUAWEI => "huawei" | CISCO => "cisco_ios" | ARISTA => "arista_eos" | FORTINET => "fortinet"
  end.

Definition upper_ascii (a : ascii) : ascii :=
  let n := nat_of_ascii a in
  if (97 <=? n)%nat && (n <=? 122)%nat then ascii_of_nat (n - 32) else a.
Fixpoint upper (s : string) : string :=
  match s with EmptyString => EmptyString | String a s => String (upper_ascii a) (upper s) end.

(** [DeviceVendor[name]] *)
Definition vendor_named (name : string) : option DeviceVendor :=
  dict_get name [("H3C", H3C); ("HUAWEI", HUAWEI); ("CISCO", CISCO); ("ARISTA", ARISTA); ("FORTINET", FORTINET)].

(** The values of a dictionary of cells: NaN is no value of the fields, which
    are texts, so pydantic refuses it. *)
Fixpoint cell_values (d : list (string * cell)) : res (list (string * pyval)) :=
  match d with
  | [] => Ok []
  | (k, Cell v) :: d => e ← cell_values d; Ok ((k, v) :: e)
  | (k, NaN) :: _ => Err (ValidationError k)
  end.

(** What the vendor of a row becomes; the texts of the errors are shortened. *)
Definition device_type_of (vendor : option cell) : res (list (string * cell)) :=
  if isna vendor then Ok []
  else
    let unsupported := Err (ValueError "Unsupported vendor") in
    match vendor with
    | Some (Cell (PStr name)) =>
        match vendor_named (upper name) with
        | Some v => Ok [("device_type", Cell (PStr (vendor_value v)))]
        | None => unsupported
        end
    | _ => unsupported
    end.

Definition prepare_connection_args (r : row) : res DriverConnectionArgs :=
  host ← item "IP" r;
  port ← item "Port" r;
  port ← (if isna (Some port) then Ok 22%Z else to_int port);
  username ← item "Username" r;
  password ← item "Password" r;
  keepalive ← match dict_get "Keepalive" r with
              | Some c => if isna (Some c) then Ok [] else z ← to_int c; Ok [("keepalive", Cell (PInt z))]
              | None => Ok []
              end;
  device_type ← device_type_of (dict_get "Vendor" r);
  d ← cell_values ([("host", host); ("port", Cell (PInt port)); ("username", username); ("password", password)]
                     ++ keepalive ++ device_type);
  DriverConnectionArgs_validate d.

(** ** Settings *)
Record ExecSettings := mkExecSettings {
  s_file : string;
  s_command : option string;
  s_config : option string;
  s_vendor : option string;
  s_force : bool;
  s_monitor : bool;
  s_driver : DriverName;
  s_queue_strategy : option QueueStrategy;
  s_ttl : option Z;
  s_enable : bool;
  s_save : bool;
  s_driver_args : option string;
  s_render_type : option string;
  s_render_template : option string;
  s_render_context : option string;
  s_parse_type : option string;
  s_parse_template : option string;
}.

Definition validate_payload (s : ExecSettings) : res ExecSettings :=
  if Bool.eqb (is_some (s_command s)) (is_some (s_config s)) then
    Err (ValueError "Exactly one of `command` or `config` must be provided")
  else if negb (Bool.eqb (is_some (s_render_type s)) (is_some (s_render_template s))) then
    Err (ValueError "Rendering requires both render-type and render-template")
  else if negb (Bool.eqb (is_some (s_parse_type s)) (is_some (s_parse_template s))) then
    Err (ValueError "Parsing requires both parse-type and parse-template")
  else Ok s.

(** [RootSettings.interval] and [timeout] *)
Record RootSettings := mkRootSettings { rs_interval : Z; rs_timeout : Z }.

(** [MONITORING_INTERVAL] and [MONITORING_TIMEOUT] *)
Definition default_settings : RootSettings := mkRootSettings 5 300.

(** ** Objects of pydantic classes

    A field that holds a model takes a dictionary or an object of its class or
    of a subclass; an object of a parent class is neither. *)
Inductive ConnClass := BaseArgs | ArgsOf (d : DriverName) | BulkDevice.
#[global] Instance ConnClass_eq_dec : EqDecision ConnClass.
Proof. solve_decision. Defined.

Record ConnObject := mkConnObject { co_class : ConnClass; co_args : DriverConnectionArgs }.

Definition is_subclass (c d : ConnClass) : bool := bool_decide (c = d) || bool_decide (d = BaseArgs).

Definition instance_field (k : string) (cls : ConnClass) (o : ConnObject) : res DriverConnectionArgs :=
  if is_subclass (co_class o) cls then Ok (co_args o) else Err (ValidationError k).

(** [REQUEST_MODEL_REGISTRY]: the class of a request of a driver, by what its
    [connection_args] are and by which flags it has *)
Record RequestModel := mkRequestModel {
  rm_connection : ConnClass;
  rm_enable_mode : bool;
  rm_save : bool;
}.

Definition get_request_model (driver : DriverName) : RequestModel :=
  match driver with
  | NETMIKO => mkRequestModel (ArgsOf NETMIKO) true true
  | NAPALM => mkRequestModel (ArgsOf NAPALM) true false
  | PYEAPI => mkRequestModel (ArgsOf PYEAPI) true true
  | PARAMIKO => mkRequestModel (ArgsOf PARAMIKO) false false
  end.

(** ** The answers of the server *)
Record BatchSubmitJobResponse := mkBatchSubmit {
  bs_succeeded : option (list JobInResponse);
  bs_failed : option (list BatchFailedItem);
}.

(** [response.data]: the class has no such field. *)
Definition response_data (r : BatchSubmitJobResponse) : res BatchSubmitJobResponse :=
  Err (OtherError "AttributeError" "'BatchSubmitJobResponse' object has no attribute 'data'").

Definition set_status (status : string) (j : JobInResponse) : JobInResponse :=
  mkJobInResponse (ji_id j) status (ji_queue j) (ji_created_at j) (ji_enqueued_at j) (ji_started_at j)
    (ji_ended_at j) (ji_worker j) (ji_result j) (ji_task_id j) (ji_request_id j) (ji_job_trace_id j)
    (ji_device_name j) (ji_command j).

Definition set_ttl (ttl : option Z) (r : ExecutionRequest) : ExecutionRequest :=
  mkExecutionRequest (er_driver r) (er_driver_args r) (er_connection_args r) (er_credential r) (er_config r)
    (er_command r) (er_file_transfer r) (er_rendering r) (er_parsing r) (er_queue_strategy r) ttl
    (er_execution_timeout r) (er_result_ttl r) (er_audit_mode r) (er_webhook r) (er_detach r)
    (er_push_interval r) (er_staged_file_id r) (er_id r) (er_extra r).

(** A row of the table of results *)
Record ResultRow := mkResultRow {
  rr_ip : cell;
  rr_name : cell;
  rr_vendor : cell;
  rr_payload : string;
  rr_status : string;
  rr_job_id : string;
  rr_result : option (list DriverExecutionResult);
  rr_error : option string;
  rr_start : option Z;
  rr_end : option Z;
}.

(** What the client calls: files, pandas, the user, the server *)
Class Client (W : Type) := {
  path_exists : string → W → bool;
  read_csv : string → M W DataFrame;
  read_excel : string → M W DataFrame;
  (** [series.str.lower()] *)
  str_lower : list cell → res (list cell);
  (** [Path(template).resolve()], [exists()] and [read()] *)
  read_local : string → M W string;
  (** [Path(raw).expanduser()], [exists()] and [is_file()] *)
  is_local_file : string → M W bool;
  read_json : string → M W pyval;
  ask : M W bool;
  (** [POST /device/bulk], [GET /jobs/{id}]: an error for any status of failure *)
  post_bulk : ExecutionRequest → list BulkDeviceRequest → M W BatchSubmitJobResponse;
  get_job : string → M W JobInResponse;
  (** The order in which a set is iterated *)
  iteration : list JobInResponse → W → list JobInResponse;
  write_csv : list ResultRow → M W unit;
}.

(** [Path(file).suffix.lower()] *)
Definition path_name (file : string) : string :=
  default "" (last (filter (λ x, x ≠ "" ∧ x ≠ ".") (split_char slash file))).
Definition suffix (file : string) : string :=
  let parts := split_char "."%char (path_name file) in
  match parts with
  | [_] | [""; _] => ""
  | _ => let ext := default "" (last parts) in if String.eqb ext "" then "" else "." +:+ ext
  end.

Section client.
Context {W : Type} `{Client W} `{!Json} `{!Clock W} `{!DriverChecks W}.

(** ** [LinuxNetClient] *)
Definition read_devices (file : string) (vendor : option string) : M W DataFrame :=
  exists_ ← reads (path_exists file);
  if negb exists_ then raise (FileNotFoundError ("File not found: " +:+ file))
  else
    let ext := lower (suffix file) in
    df ← (if String.eqb ext ".csv" then read_csv file
          else if bool_decide (ext ∈ [".xlsx"; ".xls"]) then read_excel file
          else raise (ValueError "Only CSV and Excel (csv/xlsx/xls) formats are supported"));
    selected ← of_res (column "Selected" df);
    let df := select (cell_is (PBool true) <$> selected) df in
    df ← (if str_truthy vendor then
            vendors ← of_res (column "Vendor" df ≫= str_lower);
            mret (select (cell_is (PStr (lower (default "" vendor))) <$> vendors) df)
          else mret df);
    match df_rows df with
    | [] => raise (ValueError "No devices selected for execution")
    | _ => mret df
    end.

(** [prepare_template]: the template to use, read from a local file if it
    names one *)
Definition prepare_template (template : string) : M W (option string) :=
  if String.eqb template "" then mret None
  else if startswith template "file://" then mret (Some template)
  else t ← try_except (read_local template) (λ _, mret template); mret (Some t).

Definition bulk_execute (devices : list ConnObject) (base_request : ExecutionRequest) : M W BatchSubmitJobResponse :=
  bulk_devices ← of_res (mapR (instance_field "devices" BulkDevice) devices);
  bulk_request ← of_res (ExecutionRequest.model_validate
                           (set_ttl (Some (default 600%Z (er_ttl base_request))) base_request));
  post_bulk bulk_request ((λ a, mkBulkDevice a None None None) <$> bulk_devices).

(** [HashableJob]s are equal when their ids are. *)
Definition set_add (j : JobInResponse) (l : list JobInResponse) : list JobInResponse :=
  if decide (ji_id j ∈ ji_id <$> l) then l else l ++ [j].
Definition set_update (l new : list JobInResponse) : list JobInResponse := foldl (λ l j, set_add j l) l new.
Definition set_minus (l gone : list JobInResponse) : list JobInResponse :=
  filter (λ j, ji_id j ∉ ji_id <$> gone) l.

Definition has_error (j : JobInResponse) : bool :=
  match ji_result j with Some r => is_some (jr_error r) | None => false end.

(** What the answer about a job adds to the two sets *)
Definition classify (j : JobInResponse) (acc : list JobInResponse * list JobInResponse) :=
  let '(succeeded, failed) := acc in
  if String.eqb (ji_status j) "finished" then
    if has_error j then (succeeded, set_add (set_status "failed" j) failed)
    else (set_add j succeeded, failed)
  else if String.eqb (ji_status j) "failed" then (succeeded, set_add j failed)
  else (succeeded, failed).

Fixpoint check_loop (jobs : list JobInResponse) (acc : list JobInResponse * list JobInResponse)
    : M W (list JobInResponse * list JobInResponse) :=
  match jobs with
  | [] => mret acc
  | j :: jobs =>
      acc ← try_except (new ← get_job (ji_id j); mret (classify new acc)) (λ _, mret acc);
      check_loop jobs acc
  end.

Definition check_jobs (jobs : list JobInResponse) : M W (list JobInResponse * list JobInResponse) :=
  order ← reads (iteration jobs);
  check_loop order ([], []).

(** ** Watching the jobs *)
Fixpoint monitor_loop (fuel : nat) (cfg : RootSettings) (start : Z)
    (jobs succeeded failed : list JobInResponse) : M W (list JobInResponse * list JobInResponse) := λ w,
  match fuel with
  | 0 => (Err OutOfFuel, w)
  | S fuel =>
      match jobs with
      | [] => (Ok (succeeded, failed), w)
      | _ =>
          if (seconds (rs_timeout cfg) <=? now w - start)%Z
          then (Ok (succeeded, set_update failed (set_status "TIMEOUT" <$> iteration jobs w)), w)
          else
            match check_jobs jobs w with
            | (Err e, w) =>
                if is_exception e then monitor_loop fuel cfg start jobs succeeded failed w else (Err e, w)
            | (Ok (su, fa), w) =>
                let succeeded := set_update succeeded su in
                let failed := set_update failed fa in
                match set_minus (set_minus jobs succeeded) failed with
                | [] => (Ok (succeeded, failed), w)
                | jobs =>
                    if (rs_interval cfg <? 0)%Z then (Err (ValueError "sleep length must be non-negative"), w)
                    else monitor_loop fuel cfg start jobs succeeded failed (sleep (seconds (rs_interval cfg)) w)
                end
            end
      end
  end.

Definition _monitor_job (fuel : nat) (cfg : RootSettings) (submitted : list JobInResponse)
    : M W (list JobInResponse * list JobInResponse) :=
  start ← reads now;
  monitor_loop fuel cfg start (set_update [] submitted) [] [].

(** ** [ExecSettings] *)
Definition exit {A} (code : Z) : M W A := raise (SystemExit code).

Definition _load_device_list (s : ExecSettings) : M W (DataFrame * list ConnObject) :=
  try_except
    (df ← read_devices (s_file s) (s_vendor s);
     devices ← of_res (mapR prepare_connection_args (df_rows df));
     mret (df, mkConnObject BaseArgs <$> devices))
    (λ _, exit 1).

(** [None] is [PNone]. *)
Definition _load_json (raw : option string) : M W pyval :=
  match raw with
  | None => mret PNone
  | Some raw =>
      is_file ← is_local_file raw;
      v ← (if is_file : bool then try_except (v ← read_json raw; mret (Some v)) (λ _, mret None) else mret None);
      match v with Some v => mret v | None => of_res (loads raw) end
  end.

Definition _prepare_rendering (s : ExecSettings) : M W (option TemplateRenderRequest) :=
  match s_render_type s with
  | None => mret None
  | Some name =>
      t ← prepare_template (default "" (s_render_template s));
      mret ((λ t, mkRender name (Some t) None []) <$> t)
  end.

Definition _prepare_parsing (s : ExecSettings) : M W (option TemplateParseRequest) :=
  match s_parse_type s with
  | None => mret None
  | Some name =>
      t ← prepare_template (default "" (s_parse_template s));
      mret ((λ t, mkParse name t None []) <$> t)
  end.

Inductive PayloadType := CommandPayload | ConfigPayload.

Definition _resolve_payload (s : ExecSettings) : M W (PayloadType * pyval) :=
  let payload_type := if is_some (s_command s) then CommandPayload else ConfigPayload in
  let raw := match payload_type with CommandPayload => s_command s | ConfigPayload => s_config s end in
  payload ←
    match s_render_type s with
    | None => mret (opt_str raw)
    | Some _ =>
        let context_source := if str_truthy (s_render_context s) then s_render_context s else raw in
        v ← try_except (if str_truthy context_source then _load_json context_source else mret (PDict []))
              (λ _, exit 1);
        match v with PDict _ => mret v | _ => exit 1 end
    end;
  if truthy payload then mret (payload_type, payload) else exit 1.

Definition _load_driver_args (s : ExecSettings) : M W (option (list (string * pyval))) :=
  if negb (str_truthy (s_driver_args s)) then mret None
  else
    try_except
      (args ← _load_json (s_driver_args s);
       match args with
       | PNone => mret None
       | PDict d => mret (Some d)
       | _ => raise (ValueError "Driver args must be a JSON object")
       end)
      (λ _, exit 1).

Definition payload_value (v : pyval) : option payload :=
  match v with PStr t => Some (PayStr t) | PDict d => Some (PayDict d) | _ => None end.

(** [_build_execution_request]; the validators of the driver's class are those
    of the plugin. *)
Definition _build_execution_request (s : ExecSettings) (payload_type : PayloadType) (payload : pyval)
    (rendering : option TemplateRenderRequest) (parsing : option TemplateParseRequest)
    (driver_args : option (list (string * pyval))) (base_connection : ConnObject) : M W ExecutionRequest :=
  let req_cls := get_request_model (s_driver s) in
  let flags := (if rm_enable_mode req_cls then [("enable_mode", PBool (s_enable s))] else [])
                 ++ (if rm_save req_cls then [("save", PBool (s_save s))] else []) in
  let '(command, config) := match payload_type with
                            | CommandPayload => (payload_value payload, None)
                            | ConfigPayload => (None, payload_value payload)
                            end in
  try_except
    (of_res
       (conn ← instance_field "connection_args" (rm_connection req_cls) base_connection;
        let req := mkExecutionRequest (s_driver s)
                     (match driver_args with Some [] => None | _ => driver_args end) conn None config command
                     None rendering parsing (s_queue_strategy s) (s_ttl s) None None audit_full None false
                     None None None flags in
        _ ← driver_validate (s_driver s) req; ExecutionRequest.model_validate req))
    (λ _, exit 1).

(** What comes before the request is built *)
Definition prepare (s : ExecSettings)
    : M W (DataFrame * list ConnObject * option TemplateRenderRequest * option TemplateParseRequest
           * (PayloadType * pyval) * option (list (string * pyval))) :=
  devices ← _load_device_list s;
  rendering ← _prepare_rendering s;
  parsing ← _prepare_parsing s;
  payload ← _resolve_payload s;
  driver_args ← _load_driver_args s;
  _ ← (if s_force s then mret tt else proceed ← ask; if proceed : bool then mret tt else exit 0);
  mret (devices, rendering, parsing, payload, driver_args).

(** The submission: the jobs and the refused hosts *)
Definition submit (devices : list ConnObject) (base_request : ExecutionRequest)
    : M W (list JobInResponse * list BatchFailedItem) :=
  try_except
    (response ← bulk_execute devices base_request;
     data ← of_res (response_data response);
     mret (default [] (bs_succeeded data), default [] (bs_failed data)))
    (λ _, exit 1).
End client.

(** ** The table of results *)
Fixpoint endswith (s t : string) : bool :=
  String.eqb s t || match s with EmptyString => false | String _ s => endswith s t end.

Section results.
Context {W : Type} `{Client W} `{!Json} `{!Clock W} `{!DriverChecks W}.
(** The offset of the server's time zone, in which it writes its times *)
Context (offset : Z).

(** [dt.replace(tzinfo=timezone.utc).astimezone()] *)
Definition local_time (t : option Z) : option Z := (λ t, (t + offset)%Z) <$> t.

Definition result_row (jobs : list JobInResponse) (payload_label : string) (device : list (string * cell))
    : res ResultRow :=
  ip ← item "IP" device;
  let get k := default (Cell (PStr "")) (dict_get k device) in
  match jobs with
  | [] => Ok (mkResultRow ip (get "Name") (get "Vendor") payload_label "Not Submitted" "" None None None None)
  | _ =>
      match ip with
      | Cell (PStr ip_text) =>
          match filter (λ j, endswith (ji_queue j) ip_text = true) jobs with
          | [] => Ok (mkResultRow ip (get "Name") (get "Vendor") payload_label "Not Submitted" "" None None None None)
          | job :: _ =>
              Ok (mkResultRow ip (get "Name") (get "Vendor") payload_label (ji_status job) (ji_id job)
                    (ji_result job ≫= jr_retval) (snd <$> (ji_result job ≫= jr_error))
                    (local_time (ji_started_at job)) (local_time (ji_ended_at job)))
          end
      | _ => Err (TypeError "endswith first arg must be str or a tuple of str")
      end
  end.

Definition _save_results (df : DataFrame) (succeeded failed : list JobInResponse) (payload_label : string) : M W unit :=
  jobs ← reads (iteration (set_update succeeded failed));
  rows ← of_res (mapR (result_row jobs payload_label) (df_rows df));
  write_csv rows.

(** [ExecSettings.cli_cmd] *)
Definition cli_cmd (fuel : nat) (cfg : RootSettings) (s : ExecSettings) : M W unit :=
  '(df, devices, rendering, parsing, (payload_type, payload), driver_args) ← prepare s;
  first ← match devices with
          | [] => raise (IndexError "list index out of range")
          | d :: _ => mret d
          end;
  base_request ← _build_execution_request s payload_type payload rendering parsing driver_args first;
  '(submitted, _) ← submit devices base_request;
  if s_monitor s then
    '(succeeded, failed) ← _monitor_job fuel cfg submitted;
    try_except
      (_save_results df succeeded failed
         (default "" (match payload_type with CommandPayload => s_command s | ConfigPayload => s_config s end)))
      (λ _, exit 1)
  else mret tt.

(** [main], on the settings as they were typed *)
Definition main (fuel : nat) (cfg : RootSettings) (s : ExecSettings) : M W unit :=
  try_except (s ← of_res (validate_payload s); cli_cmd fuel cfg s) (λ _, exit 1).
End results.

(** ** Sets of jobs *)
Abbreviation ids := (fmap (M:=list) ji_id).

Lemma set_add_ids j l i : i ∈ ids (set_add j l) ↔ i = ji_id j ∨ i ∈ ids l.
Proof.
  unfold set_add. case_decide as Hj; [split; [by right|by intros [-> |?]]|].
  rewrite fmap_app, elem_of_app. cbn [fmap list_fmap]. rewrite list_elem_of_singleton. tauto.
Qed.

Lemma set_add_nodup j l : NoDup (ids l) → NoDup (ids (set_add j l)).
Proof.
  unfold set_add. case_decide as Hj; [done|]. intros Hl. rewrite fmap_app. apply NoDup_app.
  split; [done|]. split; [|apply NoDup_singleton]. by intros i Hi ->%list_elem_of_singleton.
Qed.

Lemma set_add_Forall (P : JobInResponse → Prop) j l : P j → Forall P l → Forall P (set_add j l).
Proof. unfold set_add. intros. case_decide; [done|]. by apply Forall_app_2; [|constructor]. Qed.

Lemma set_update_ids l new i : i ∈ ids (set_update l new) ↔ i ∈ ids l ∨ i ∈ ids new.
Proof.
  unfold set_update. revert l. induction new as [|j new IH]; intros l; cbn [foldl fmap list_fmap].
  - rewrite elem_of_nil. tauto.
  - rewrite IH, set_add_ids, elem_of_cons. tauto.
Qed.

Lemma set_update_nodup l new : NoDup (ids l) → NoDup (ids (set_update l new)).
Proof. unfold set_update. revert l. induction new as [|j new IH]; intros l Hl; [done|]. by apply IH, set_add_nodup. Qed.

Lemma set_update_Forall (P : JobInResponse → Prop) l new : Forall P l → Forall P new → Forall P (set_update l new).
Proof.
  unfold set_update. intros Hl Hn. revert l Hl. induction Hn as [|j new Hj Hn IH]; intros l Hl; [done|].
  by apply IH, set_add_Forall.
Qed.

Lemma set_minus_ids l gone i : i ∈ ids (set_minus l gone) ↔ i ∈ ids l ∧ i ∉ ids gone.
Proof.
  unfold set_minus. split.
  - intros (j & -> & [Hj Hl]%list_elem_of_filter)%list_elem_of_fmap. split; [by apply list_elem_of_fmap_2|done].
  - intros [(j & -> & Hj)%list_elem_of_fmap Hn]. apply list_elem_of_fmap_2. by apply list_elem_of_filter.
Qed.

Lemma set_minus_nodup l gone : NoDup (ids l) → NoDup (ids (set_minus l gone)).
Proof.
  unfold set_minus. induction l as [|j l IH]; [done|]. rewrite fmap_cons, NoDup_cons. intros [Hj Hl].
  rewrite filter_cons. case_decide; [|auto]. rewrite fmap_cons, NoDup_cons. split; [|auto].
  intros (x & Hq & [_ Hx]%list_elem_of_filter)%list_elem_of_fmap. apply Hj. rewrite Hq. by apply list_elem_of_fmap_2.
Qed.
#[export] Hint Resolve set_add_nodup set_update_nodup set_minus_nodup : linux_net.

(** The three sets hold every job of [all] once. *)
Record partition (jobs succeeded failed all : list JobInResponse) : Prop := {
  part_nodup : NoDup (ids jobs) ∧ NoDup (ids succeeded) ∧ NoDup (ids failed);
  part_disjoint i : (i ∈ ids jobs → (i ∉ ids succeeded) ∧ (i ∉ ids failed)) ∧ (i ∈ ids succeeded → i ∉ ids failed);
  part_all i : i ∈ ids all ↔ i ∈ ids jobs ∨ i ∈ ids succeeded ∨ i ∈ ids failed;
}.

Definition well_done (j : JobInResponse) : Prop := ji_status j = "finished" ∧ has_error j = false.

(** Two sets of jobs with their answers *)
Record answered (succeeded failed : list JobInResponse) : Prop := {
  ans_nodup : NoDup (ids succeeded) ∧ NoDup (ids failed);
  ans_disjoint i : i ∈ ids succeeded → i ∉ ids failed;
  ans_done : Forall well_done succeeded;
  ans_failed : Forall (λ j, ji_status j = "failed") failed;
}.

Lemma classify_spec new su fa : answered su fa → ji_id new ∉ ids su → ji_id new ∉ ids fa →
  let '(su1, fa1) := classify new (su, fa) in
  answered su1 fa1 ∧ ∀ i, i ∈ ids su1 ∨ i ∈ ids fa1 → i = ji_id new ∨ i ∈ ids su ∨ i ∈ ids fa.
Proof.
  intros [[Hs Hf] Hd Hds Hff] Hns Hnf. unfold classify.
  destruct (String.eqb (ji_status new) "finished") eqn:Efin; [destruct (has_error new) eqn:Ee|
    destruct (String.eqb (ji_status new) "failed") eqn:Efail].
  - split; [split|]; auto using set_add_nodup, set_add_Forall.
    + intros i Hi [-> | Hi']%set_add_ids; [done|]. by apply (Hd i).
    + intros i [Hi|[-> | Hi]%set_add_ids]; auto.
  - split; [split|]; auto using set_add_nodup.
    + intros i [-> | Hi]%set_add_ids; [done|auto].
    + apply set_add_Forall; [|done]. split; [by apply String.eqb_eq|done].
    + intros i [[-> | Hi]%set_add_ids|Hi]; auto.
  - split; [split|]; auto using set_add_nodup.
    + intros i Hi [-> | Hi']%set_add_ids; [done|]. by apply (Hd i).
    + apply set_add_Forall; [by apply String.eqb_eq|done].
    + intros i [Hi|[-> | Hi]%set_add_ids]; auto.
  - split; [by split|]. auto.
Qed.

(** The documented behaviour of the server and of the clock; the user does not
    interrupt. *)
Class ClientLaws (W : Type) `{Client W} `{!Clock W} : Prop := {
  get_job_id : ∀ id w j w', get_job id w = (Ok j, w') → ji_id j = id;
  get_job_err : ∀ id w e w', get_job id w = (Err e, w') → is_exception e = true;
  get_job_now : ∀ id w, (now w ≤ now (get_job id w).2)%Z;
  iteration_perm : ∀ l w, iteration l w ≡ₚ l;
}.

Section watching.
Context {W : Type} `{ClientLaws W}.
Implicit Types (w : W).

(** One look at the jobs: two disjoint sets of them *)
Lemma check_loop_spec l su fa w : NoDup (ids l) → answered su fa →
  (∀ i, i ∈ ids l → (i ∉ ids su) ∧ (i ∉ ids fa)) →
  ∃ su' fa' w', check_loop l (su, fa) w = (Ok (su', fa'), w') ∧ (now w ≤ now w')%Z ∧ answered su' fa'
    ∧ ∀ i, i ∈ ids su' ∨ i ∈ ids fa' → i ∈ ids su ∨ i ∈ ids fa ∨ i ∈ ids l.
Proof.
  revert su fa w. induction l as [|j l IH]; intros su fa w Hl Ha Hnew.
  { exists su, fa, w. split; [done|]. split; [lia|]. split; [done|]. tauto. }
  rewrite fmap_cons, NoDup_cons in Hl. destruct Hl as [Hj Hl]. cbn [check_loop].
  pose proof (get_job_id (ji_id j) w) as Hid. pose proof (get_job_err (ji_id j) w) as Herr.
  pose proof (get_job_now (ji_id j) w) as Hnow.
  assert (∀ su1 fa1 w1, (now w ≤ now w1)%Z → answered su1 fa1 →
    (∀ i, i ∈ ids su1 ∨ i ∈ ids fa1 → i = ji_id j ∨ i ∈ ids su ∨ i ∈ ids fa) →
    ∃ su' fa' w', check_loop l (su1, fa1) w1 = (Ok (su', fa'), w') ∧ (now w ≤ now w')%Z ∧ answered su' fa'
      ∧ ∀ i, i ∈ ids su' ∨ i ∈ ids fa' → i ∈ ids su ∨ i ∈ ids fa ∨ i ∈ ids (j :: l)) as Hstep.
  { intros su1 fa1 w1 Hw1 Ha1 Hin1.
    destruct (IH su1 fa1 w1) as (su' & fa' & w' & Hr & Hw' & Ha' & Hin); try done.
    { intros i Hi. specialize (Hin1 i). destruct (Hnew i) as [Hi1 Hi2]; [by apply elem_of_cons; right|].
      assert (i ≠ ji_id j) by congruence. tauto. }
    exists su', fa', w'. split; [done|]. split; [lia|]. split; [done|]. intros i Hi.
    rewrite fmap_cons, elem_of_cons. specialize (Hin i Hi). specialize (Hin1 i). tauto. }
  unfold try_except, mbind, M_bind, mret, M_ret.
  destruct (get_job (ji_id j) w) as [[new|e] w1] eqn:Eg.
  2:{ rewrite (Herr e w1 eq_refl). apply Hstep; [done|done|]. tauto. }
  specialize (Hid new w1 eq_refl). cbn in Hnow. destruct (Hnew (ji_id j)) as [Hns Hnf]; [apply elem_of_cons; by left|].
  rewrite <-Hid in Hns, Hnf. pose proof (classify_spec new su fa Ha Hns Hnf) as Hc.
  destruct (classify new (su, fa)) as [su1 fa1]. destruct Hc as [Ha1 Hin1]. rewrite Hid in Hin1. by apply Hstep.
Qed.

Lemma check_jobs_spec jobs w : NoDup (ids jobs) →
  ∃ su fa w', check_jobs jobs w = (Ok (su, fa), w') ∧ (now w ≤ now w')%Z ∧ answered su fa
    ∧ ∀ i, i ∈ ids su ∨ i ∈ ids fa → i ∈ ids jobs.
Proof.
  intros Hnd. unfold check_jobs, mbind, M_bind, reads.
  destruct (check_loop_spec (iteration jobs w) [] [] w) as (su & fa & w' & Hr & Hw & Ha & Hin).
  - by rewrite iteration_perm.
  - split; [split; constructor|intros ? []%elem_of_nil|constructor|constructor].
  - intros i _. split; apply not_elem_of_nil.
  - exists su, fa, w'. split_and!; try done. intros i Hi. specialize (Hin i Hi).
    rewrite iteration_perm in Hin. destruct Hin as [[]%elem_of_nil|[[]%elem_of_nil|Hin]]; done.
Qed.

(** What the watching has come to *)
Record watched (cfg : RootSettings) (start : Z) (all jobs succeeded failed : list JobInResponse) w : Prop := {
  wat_part : partition jobs succeeded failed all;
  wat_done : Forall well_done succeeded;
  wat_failed : Forall (λ j, ji_status j = "failed"
    ∨ ji_status j = "TIMEOUT" ∧ (start + seconds (rs_timeout cfg) ≤ now w)%Z) failed;
}.

Lemma partition_step jobs succeeded failed all su fa :
  partition jobs succeeded failed all → (∀ i, i ∈ ids su → i ∉ ids fa) →
  (∀ i, i ∈ ids su ∨ i ∈ ids fa → i ∈ ids jobs) →
  let succeeded' := set_update succeeded su in
  let failed' := set_update failed fa in
  partition (set_minus (set_minus jobs succeeded') failed') succeeded' failed' all.
Proof.
  intros [[Hj [Hs Hf]] Hd Hall] Hdis Hin. split.
  - auto 10 using set_update_nodup, set_minus_nodup.
  - intros i. rewrite !set_minus_ids, !set_update_ids. specialize (Hd i). specialize (Hdis i). specialize (Hin i). tauto.
  - intros i. rewrite !set_minus_ids, !set_update_ids, Hall. specialize (Hin i).
    destruct (decide (i ∈ ids succeeded)), (decide (i ∈ ids failed)), (decide (i ∈ ids su)), (decide (i ∈ ids fa)); tauto.
Qed.

Lemma partition_timeout jobs l succeeded failed all : l ≡ₚ jobs → partition jobs succeeded failed all →
  partition [] succeeded (set_update failed (set_status "TIMEOUT" <$> l)) all.
Proof.
  intros Hp [[Hj [Hs Hf]] Hd Hall].
  assert (∀ i, i ∈ ids (set_status "TIMEOUT" <$> l) ↔ i ∈ ids jobs) as Hids.
  { intros i. rewrite <-list_fmap_compose, Hp. done. }
  split; [auto using set_update_nodup, NoDup_nil_2| |]; intros i; rewrite ?set_update_ids, Hids, ?Hall, elem_of_nil;
    specialize (Hd i); tauto.
Qed.

Lemma watched_time cfg start all jobs succeeded failed w w' : (now w ≤ now w')%Z →
  watched cfg start all jobs succeeded failed w → watched cfg start all jobs succeeded failed w'.
Proof.
  intros Hw [Hp Hd Hf]. split; [done|done|]. eapply Forall_impl; [exact Hf|].
  intros j [?|[? ?]]; [by left|right; split; [done|lia]].
Qed.

Lemma monitor_S fuel cfg start jobs succeeded failed w : jobs ≠ [] →
  monitor_loop (S fuel) cfg start jobs succeeded failed w
  = if (seconds (rs_timeout cfg) <=? now w - start)%Z
    then (Ok (succeeded, set_update failed (set_status "TIMEOUT" <$> iteration jobs w)), w)
    else match check_jobs jobs w with
         | (Err e, w) => if is_exception e then monitor_loop fuel cfg start jobs succeeded failed w else (Err e, w)
         | (Ok (su, fa), w) =>
             match set_minus (set_minus jobs (set_update succeeded su)) (set_update failed fa) with
             | [] => (Ok (set_update succeeded su, set_update failed fa), w)
             | jobs =>
                 if (rs_interval cfg <? 0)%Z then (Err (ValueError "sleep length must be non-negative"), w)
                 else monitor_loop fuel cfg start jobs (set_update succeeded su) (set_update failed fa)
                        (sleep (seconds (rs_interval cfg)) w)
             end
         end.
Proof. by destruct jobs. Qed.

(** The rounds left are bounded by the time left. *)
Lemma monitor_loop_spec fuel cfg start all jobs succeeded failed w : (1 ≤ rs_interval cfg)%Z →
  (start + seconds (rs_timeout cfg) - now w ≤ Z.of_nat fuel * seconds (rs_interval cfg))%Z →
  watched cfg start all jobs succeeded failed w →
  ∃ succeeded' failed' w', monitor_loop (S fuel) cfg start jobs succeeded failed w = (Ok (succeeded', failed'), w')
    ∧ watched cfg start all [] succeeded' failed' w'.
Proof.
  intros Hi. revert jobs succeeded failed w. induction fuel as [|fuel IH]; intros jobs succeeded failed w Hfuel Hw.
  all: destruct (decide (jobs = [])) as [->|Hne]; [by eexists _, _, _|]; rewrite monitor_S by done;
    destruct (seconds (rs_timeout cfg) <=? now w - start)%Z eqn:Et.
  all: swap 2 3.
  1,2: apply Z.leb_le in Et; eexists _, _, w; split; [done|]; destruct Hw as [Hp Hd Hf];
    split; [by eapply partition_timeout; [apply iteration_perm|]|done|];
    apply set_update_Forall; [done|]; apply Forall_fmap, Forall_true; intros j; right; split; [done|lia].
  { apply Z.leb_gt in Et. lia. }
  apply Z.leb_gt in Et. pose proof (part_nodup _ _ _ _ (wat_part _ _ _ _ _ _ _ Hw)) as (Hnd & _ & _).
  destruct (check_jobs_spec jobs w Hnd) as (su & fa & w1 & -> & Hw1 & [_ Hdis Hds Hff] & Hin).
  assert (watched cfg start all (set_minus (set_minus jobs (set_update succeeded su)) (set_update failed fa))
            (set_update succeeded su) (set_update failed fa) w1) as Hw'.
  { destruct (watched_time _ _ _ _ _ _ _ _ Hw1 Hw) as [Hp Hd Hf]. split; [by apply partition_step| |].
    - by apply set_update_Forall.
    - apply set_update_Forall; [done|]. eapply Forall_impl; [exact Hff|]. by left. }
  destruct (set_minus (set_minus jobs _) _) as [|j1 jobs1] eqn:Em; [by eexists _, _, _|].
  rewrite (proj2 (Z.ltb_ge (rs_interval cfg) 0)) by lia.
  assert (now w1 + seconds (rs_interval cfg) ≤ now (sleep (seconds (rs_interval cfg)) w1))%Z as Hsl.
  { apply now_sleep. unfold seconds. lia. }
  apply IH; [unfold seconds in *; lia|]. eapply watched_time; [|exact Hw']. unfold seconds in *. lia.
Qed.

(** C40. Watching always ends, whatever the server answers: within one round more
    than the pauses that fit the time limit, and then every submitted job is in
    exactly one of the two sets.  The succeeded ones were seen finished without
    an error; the failed ones were seen failed or finished with an error, or the
    time was up. *)
Theorem monitor_job_spec n cfg submitted w : (1 ≤ rs_interval cfg)%Z →
  (rs_timeout cfg ≤ Z.of_nat n * rs_interval cfg)%Z →
  ∃ succeeded failed w', _monitor_job (S n) cfg submitted w = (Ok (succeeded, failed), w')
    ∧ NoDup (ids succeeded ++ ids failed)
    ∧ (∀ i, i ∈ ids submitted ↔ i ∈ ids succeeded ∨ i ∈ ids failed)
    ∧ Forall well_done succeeded
    ∧ Forall (λ j, ji_status j = "failed"
        ∨ ji_status j = "TIMEOUT" ∧ (now w + seconds (rs_timeout cfg) ≤ now w')%Z) failed.
Proof.
  intros Hi Hn. unfold _monitor_job, mbind, M_bind, reads.
  destruct (monitor_loop_spec n cfg (now w) submitted (set_update [] submitted) [] [] w Hi)
    as (su & fa & w' & Hr & [[(_ & Hs & Hf) Hd Hall] Hds Hff]).
  - unfold seconds. lia.
  - split; [split|constructor|constructor].
    + split_and!; [apply set_update_nodup|..]; constructor.
    + intros i. rewrite elem_of_nil. tauto.
    + intros i. rewrite set_update_ids, elem_of_nil. tauto.
  - exists su, fa, w'. split; [done|]. split_and!; [|..|done|done].
    + apply NoDup_app. split_and!; [done| |done]. intros i. apply Hd.
    + intros i. rewrite Hall, elem_of_nil. tauto.
Qed.
End watching.

(** ** The command never submits *)
Section submission.
Context {W : Type} `{Client W} `{!Json} `{!Clock W} `{!DriverChecks W}.
Implicit Types (w : W).

Lemma bind_ok_inv {S A B} (m : M S A) (f : A → M S B) s b s' : (m ≫= f) s = (Ok b, s') →
  ∃ a s1, m s = (Ok a, s1) ∧ f a s1 = (Ok b, s').
Proof. unfold mbind, M_bind. destruct (m s) as [[a|e] s1]; [eauto|done]. Qed.

Lemma read_devices_nonempty file vendor w df w' : read_devices file vendor w = (Ok df, w') → df_rows df ≠ [].
Proof.
  unfold read_devices. intros (b & w1 & _ & Hr)%bind_ok_inv. destruct (negb b); [done|].
  apply bind_ok_inv in Hr as (df1 & w2 & _ & Hr). apply bind_ok_inv in Hr as (sel & w3 & _ & Hr).
  apply bind_ok_inv in Hr as (df2 & w4 & _ & Hr). destruct (df_rows df2) eqn:E; [done|].
  injection Hr as <- _. by rewrite E.
Qed.

(** The devices are objects of the base class, at least one. *)
Lemma load_device_list_ok s w df devices w' : _load_device_list s w = (Ok (df, devices), w') →
  ∃ a l, devices = mkConnObject BaseArgs a :: l ∧ length devices = length (df_rows df).
Proof.
  unfold _load_device_list, try_except.
  match goal with |- match ?m with _ => _ end = _ → _ => destruct m as [[[df1 l1]|e] w1] eqn:E end;
    [|by destruct (is_exception e)].
  intros [= -> -> _]. apply bind_ok_inv in E as (df1 & w2 & Hr%read_devices_nonempty & E).
  apply bind_ok_inv in E as (l & w3 & [= Hl%mapR_length <-] & E). injection E as <- <- _.
  destruct l as [|a l]; [by destruct (df_rows df1)|]. exists a, (mkConnObject BaseArgs <$> l).
  split; [done|]. by rewrite length_fmap.
Qed.

(** No driver's request takes a plain [DriverConnectionArgs] object. *)
Lemma base_refused d a : ∃ e, instance_field "connection_args" (rm_connection (get_request_model d)) (mkConnObject BaseArgs a)
  = Err e ∧ is_exception e = true.
Proof. destruct d; by eexists. Qed.

Lemma build_fails s pt v r p d a w :
  _build_execution_request s pt v r p d (mkConnObject BaseArgs a) w = (Err (SystemExit 1), w).
Proof.
  unfold _build_execution_request. destruct (base_refused (s_driver s) a) as (e & He & Hx).
  destruct pt; unfold try_except, of_res; rewrite He; cbn; by rewrite Hx.
Qed.

Lemma prepare_devices s w df devices r p pl d w' : prepare s w = (Ok (df, devices, r, p, pl, d), w') →
  ∃ a l, devices = mkConnObject BaseArgs a :: l.
Proof.
  unfold prepare. intros ([df1 l1] & w1 & (a & l & -> & _)%load_device_list_ok & Hp)%bind_ok_inv. exists a, l.
  do 5 apply bind_ok_inv in Hp as (? & ? & _ & Hp). by injection Hp as _ <-.
Qed.

(** Whatever the settings, the files and the server: the command does what
    precedes the building of the request, and exits with status 1 there, unless
    it has exited before.  It never submits a job nor watches one. *)
Lemma exec_never_submits offset fuel cfg s w :
  cli_cmd offset fuel cfg s w = (prepare s ≫= λ _, exit 1) w.
Proof.
  unfold cli_cmd. destruct (prepare s w) as [[[[[[[df devices] r] p] [pt v]] d]|e] w1] eqn:Ep.
  2:{ by rewrite !(M_bind_err _ _ _ _ _ Ep). }
  rewrite !(M_bind_ok _ _ _ _ _ Ep). apply prepare_devices in Ep as (a & l & ->). cbv beta iota.
  rewrite (M_bind_ok _ _ w1 (mkConnObject BaseArgs a) w1) by done. by rewrite (M_bind_err _ _ _ _ _ (build_fails _ _ _ _ _ _ _ _)).
Qed.
End submission.

(** ** A row of results *)
Lemma endswith_app s t : endswith (s +:+ t) t = true.
Proof.
  induction s as [|a s IH].
  - change ("" +:+ t) with t. destruct t; cbn [endswith]; [done|]. by rewrite String.eqb_refl.
  - change (String a s +:+ t) with (String a (s +:+ t)). cbn [endswith]. rewrite IH. by destruct (String.eqb _ _).
Qed.

(** A device with a pinned job among the jobs of the run gets the answer of one
    of them whose queue ends in its address. *)
Lemma result_row_pinned offset jobs label device ip row :
  result_row offset jobs label device = Ok row → item "IP" device = Ok (Cell (PStr ip)) →
  get_host_queue_name ip ∈ ji_queue <$> jobs →
  ∃ j, j ∈ jobs ∧ endswith (ji_queue j) ip = true ∧ rr_job_id row = ji_id j ∧ rr_status row = ji_status j.
Proof.
  intros Hr Hip (j0 & Hq & Hin)%list_elem_of_fmap. unfold result_row in Hr. rewrite Hip in Hr. cbn in Hr.
  destruct jobs as [|j1 jobs1]; [by apply elem_of_nil in Hin|].
  set (jobs := j1 :: jobs1) in *.
  assert (j0 ∈ filter (λ j, endswith (ji_queue j) ip = true) jobs) as Hf.
  { apply list_elem_of_filter. split; [|done]. rewrite <-Hq. apply endswith_app. }
  destruct (filter _ jobs) as [|j k] eqn:Ek; [by apply elem_of_nil in Hf|].
  assert (j ∈ filter (λ j, endswith (ji_queue j) ip = true) jobs) as Hj by (rewrite Ek; by apply elem_of_cons; left).
  apply list_elem_of_filter in Hj as [He Hj]. exists j. by injection Hr as <-.
Qed.

(** ** A concrete server: it answers by the id of the job and the time *)
Module ToyClient.
Definition job (id status queue : string) : JobInResponse :=
  mkJobInResponse id status queue None None (Some 0%Z) (Some 5%Z) None None None None None None None.

Definition answer (id : string) (t : Z) : res JobInResponse :=
  if String.eqb id "quick" then Ok (job id (if (t <? seconds 10)%Z then "started" else "finished") "HostQ_10.0.0.1")
  else if String.eqb id "broken" then Ok (job id "failed" "HostQ_10.0.0.2")
  else if String.eqb id "gone" then Err (OtherError "HTTPError" "404")
  else Ok (job id "started" "FifoQ").

#[export, refine] Instance toy_clock : Clock Z := {| now t := t; sleep d t := (t + d)%Z |}.
Proof. by intros d t _. Defined.

Definition devices : DataFrame :=
  mkDataFrame ["IP"; "Port"; "Username"; "Password"; "Selected"; "Vendor"]
    [[("IP", Cell (PStr "10.0.0.1")); ("Port", NaN); ("Username", Cell (PStr "admin"));
      ("Password", Cell (PStr "pw")); ("Selected", Cell (PBool true)); ("Vendor", Cell (PStr "Cisco"))];
     [("IP", Cell (PStr "10.0.0.2")); ("Port", Cell (PInt 830)); ("Username", Cell (PStr "admin"));
      ("Password", Cell (PStr "pw")); ("Selected", Cell (PBool true)); ("Vendor", Cell (PStr "Huawei"))];
     [("IP", Cell (PStr "10.0.0.3")); ("Port", NaN); ("Username", Cell (PStr "admin"));
      ("Password", Cell (PStr "pw")); ("Selected", NaN); ("Vendor", Cell (PStr "Cisco"))]].

#[export] Instance toy_client : Client Z :=
  {| path_exists _ _ := true;
     read_csv _ t := (Ok devices, t);
     read_excel _ t := (Ok devices, t);
     str_lower l := Ok ((λ c, match c with Cell (PStr s) => Cell (PStr (lower s)) | _ => NaN end) <$> l);
     read_local _ t := (Err (FileNotFoundError "template"), t);
     is_local_file _ t := (Ok false, t);
     read_json _ t := (Ok PNone, t);
     ask t := (Ok true, t);
     post_bulk _ _ t := (Ok (mkBatchSubmit None None), t);
     get_job id t := (answer id t, t);
     iteration l _ := l;
     write_csv _ t := (Ok tt, t) |}.

#[export] Instance toy_laws : ClientLaws Z.
Proof.
  split; cbn; [| |lia|done].
  - intros id w j w'. unfold answer. repeat case_match; by intros [= <- _].
  - intros id w e w'. unfold answer. repeat case_match; by intros [= <- _].
Qed.

Example selected_of_vendor :
  match read_devices "hosts.CSV" (Some "CISCO") 0%Z with
  | (Ok df, _) => mapR prepare_connection_args (df_rows df)
  | (Err e, _) => Err e
  end = Ok [mkDriverConnectionArgs (Some "cisco_ios") (Some "10.0.0.1") (Some "admin") (Some "pw") [("port", PInt 22)]].
Proof. vm_compute. reflexivity. Qed.

Definition submitted : list JobInResponse :=
  (λ id, job id "queued" "") <$> ["quick"; "broken"; "gone"; "slow"; "quick"].

Lemma monitor_job_witness :
  ∃ succeeded failed w', _monitor_job 61 default_settings submitted 0%Z = (Ok (succeeded, failed), w')
    ∧ ids succeeded = ["quick"] ∧ ("slow" ∈ ids failed) ∧ NoDup (ids succeeded ++ ids failed).
Proof.
  destruct (monitor_job_spec 60 default_settings submitted 0%Z) as (su & fa & w' & Hr & Hnd & Hall & _ & _);
    [vm_compute; discriminate|vm_compute; discriminate|].
  exists su, fa, w'. split; [exact Hr|].
  assert (ids su = ["quick"]) as Hsu.
  { vm_compute in Hr. injection Hr as <- _ _. reflexivity. }
  split; [exact Hsu|]. split; [|exact Hnd].
  destruct (proj1 (Hall "slow")) as [Hs|Hs]; [|rewrite Hsu in Hs|exact Hs].
  - apply list_elem_of_In. vm_compute. tauto.
  - apply list_elem_of_singleton in Hs. discriminate Hs.
Defined.

(** The job of another device whose queue ends in the same text *)
Example results_confuse_devices :
  rr_job_id <$> result_row 0 [job "other" "finished" "HostQ_110.0.0.1"; job "own" "finished" "HostQ_10.0.0.1"] "id"
    [("IP", Cell (PStr "10.0.0.1"))] = Ok "other".
Proof. vm_compute. reflexivity. Qed.

(** A job of the FIFO queue is no device's. *)
Example fifo_not_submitted :
  rr_status <$> result_row 0 [job "own" "finished" "FifoQ"] "id" [("IP", Cell (PStr "10.0.0.1"))] = Ok "Not Submitted".
Proof. vm_compute. reflexivity. Qed.

(** A server in a zone eight hours east: its times become eight hours late. *)
Example times_shifted :
  rr_start <$> result_row (seconds 28800) [job "own" "finished" "HostQ_10.0.0.1"] "id" [("IP", Cell (PStr "10.0.0.1"))]
  = Ok (Some (seconds 28800)).
Proof. vm_compute. reflexivity. Qed.
End ToyClient.
