(* ===== verification/Console.v ===== *)
(** * What the command line prints

    The class [Printer] of [linux_net/cli/main.py], the settings of the root
    command and the objects of the module that must be there: what is given to
    the Rich library, table by table.  How Rich draws it is not modelled. *)

From Stdlib Require Import Ascii.
From S2P Require Import Prelude PyLib Models Cli.

(** ** Tables and the console *)
Record Table := mkTable { tb_title : string; tb_columns : list string; tb_rows : list (list string) }.

Definition new_table (title : string) : Table := mkTable title [] [].
Definition add_column (name : string) (t : Table) : Table := mkTable (tb_title t) (tb_columns t ++ [name]) (tb_rows t).
Definition add_row (cells : list string) (t : Table) : Table := mkTable (tb_title t) (tb_columns t) (tb_rows t ++ [cells]).

Inductive output := Printed (text : string) | Shown (t : Table) | Logged (level text : string).

(** ** [RootSettings]; [exec] is [model_dump(exclude_none=True)] of the
    subcommand, if one is given *)
Record Root := mkRoot {
  ro_exec : option (list (string * pyval));
  ro_endpoint : string;
  ro_api_key : string;
  ro_interval : Z;
  ro_timeout : Z;
}.
Definition default_root : Root := mkRoot None "http://localhost:9000" "MY_API_KEY" 5 300.

Record LinuxNetClient := mkClient { lc_endpoint : string; lc_headers : list (string * string); lc_http_timeout : Z }.

Definition new_client (endpoint api_key : string) : LinuxNetClient :=
  mkClient endpoint [("X-API-KEY", api_key)] 15.

(** The variables [config], [printer] and [client] of the module *)
Record Context_ := mkContext { cx_config : option Root; cx_printer : option unit; cx_client : option LinuxNetClient }.

Definition not_initialized (what : string) : exn := OtherError "RuntimeError" (what +:+ " is not initialized").
Definition ensure {A} (what : string) (o : option A) : res A :=
  match o with Some x => Ok x | None => Err (not_initialized what) end.
Definition ensure_printer (cx : Context_) : res unit := ensure "Printer" (cx_printer cx).
Definition ensure_client (cx : Context_) : res LinuxNetClient := ensure "LinuxNetClient" (cx_client cx).
Definition ensure_config (cx : Context_) : res Root := ensure "RootSettings" (cx_config cx).
Definition ensure_context (cx : Context_) : res (LinuxNetClient * unit * Root) :=
  c ← ensure_client cx; p ← ensure_printer cx; cfg ← ensure_config cx; Ok (c, p, cfg).

(** [RootSettings.cli_cmd], before it runs the subcommand *)
Definition root_cmd (r : Root) (cx : Context_) : Context_ :=
  mkContext (Some r) (Some tt) (Some (new_client (ro_endpoint r) (ro_api_key r))).

(** ** [Printer] *)
Section printer.
Context (repr : pyval → string).

Definition error (msg : string) : output := Logged "ERROR" ("[red]" +:+ msg +:+ "[/red]").
Definition warning (msg : string) : output := Logged "WARNING" ("[yellow]" +:+ msg +:+ "[/yellow]").
Definition debug (msg : string) : output := Logged "DEBUG" ("[dim]" +:+ msg +:+ "[/dim]").

(** [key.capitalize().replace("_", " ")] *)
Definition capitalize (s : string) : string :=
  match s with String a s => String (upper_ascii a) (lower s) | EmptyString => EmptyString end.
Definition field_label (key : string) : string := replace_char "_"%char " " (capitalize key).

Definition show_config (r : Root) : output :=
  let t := add_column "Value" (add_column "Field" (new_table "Config Summary")) in
  let t := add_row ["API Endpoint"; ro_endpoint r] t in
  let t := add_row ["API Key"; ro_api_key r] t in
  let t := add_row ["Timeout"; str_of_Z (ro_timeout r) +:+ "s"] t in
  let t := add_row ["Interval"; str_of_Z (ro_interval r) +:+ "s"] t in
  Shown (match ro_exec r with
         | Some payload => foldl (λ t kv, add_row [field_label kv.1; py_str repr kv.2] t) t payload
         | None => t
         end).

(** The text of an optional string, as Rich gets it: [None] is an empty cell. *)
Definition cell_of (o : option string) : string := default "" o.

Definition device_row (d : DriverConnectionArgs) : list string :=
  [cell_of (dc_host d); py_str repr (dict_get_or "port" (PStr "-") (dc_extra d)); cell_of (dc_device_type d);
   cell_of (dc_username d); cell_of (dc_password d)].

Definition show_device_list (devices : list DriverConnectionArgs) : output :=
  Shown (foldl (λ t d, add_row (device_row d) t)
    (add_column "Password" (add_column "Username" (add_column "Type" (add_column "Port"
      (add_column "IP" (new_table "Selected Devices")))))) devices).

Definition show_submission_results (submitted : list JobInResponse) (unsubmitted : list string) : output :=
  let t := new_table "Job Submission Results" in
  let t := match submitted with
           | [] => t
           | _ => foldl (λ t j, add_row [ji_id j] t) (add_column "Submitted Jobs" t) submitted
           end in
  Shown (match unsubmitted with
         | [] => t
         | _ => foldl (λ t host, add_row [""; host] t) (add_column "Unsubmitted Hosts" t) unsubmitted
         end).

Definition count (l : list JobInResponse) : string := str_of_Z (Z.of_nat (length l)).

Definition show_final_summary (succeeded failed : list JobInResponse) (output_file : string) : list output :=
  let t := add_column "Count" (add_column "Metric" (new_table "Result Summary")) in
  let t := add_row ["Total Devices"; count (succeeded ++ failed)] t in
  let t := add_row ["Successful Devices"; "[green]" +:+ count succeeded +:+ "[/green]"] t in
  let t := add_row ["Failed Devices"; "[red]" +:+ count failed +:+ "[/red]"] t in
  [Shown t; Printed (nl +:+ "[blue]Results saved to:[/blue] " +:+ output_file)].

(** What [ExecSettings] prints when the devices are loaded *)
Definition before_submit (r : Root) (devices : list DriverConnectionArgs) : list output :=
  [Printed ""; show_config r; show_device_list devices].

(** ** What can be read on the screen *)
Definition cells (o : output) : list string :=
  match o with Shown t => concat (tb_rows t) | Printed s | Logged _ s => [s] end.

Lemma foldl_add_row {A} (row : A → list string) l t :
  foldl (λ t x, add_row (row x) t) t l = mkTable (tb_title t) (tb_columns t) (tb_rows t ++ (row <$> l)).
Proof.
  revert t. induction l as [|x l IH]; intros t; simpl; [destruct t; by rewrite app_nil_r|].
  rewrite IH. simpl. by rewrite <-(assoc (++)).
Qed.

(** Every run shows the key of the server and the password of every device in
    its tables. *)
Lemma secrets_shown r devices :
  ro_api_key r ∈ (before_submit r devices ≫= cells)
  ∧ ∀ d p, d ∈ devices → dc_password d = Some p → p ∈ (before_submit r devices ≫= cells).
Proof.
  split.
  - apply list_elem_of_bind. exists (show_config r). split; [|by right; left].
    unfold show_config. destruct (ro_exec r) as [payload|].
    + rewrite foldl_add_row. cbn. do 3 right. left.
    + cbn. do 3 right. left.
  - intros d p Hd Hp. apply list_elem_of_bind. exists (show_device_list devices).
    split; [|by right; right; left]. unfold show_device_list. rewrite foldl_add_row. cbn [cells tb_rows].
    cbn. apply list_elem_of_In, in_concat. exists (device_row d). split.
    + apply list_elem_of_In. by apply list_elem_of_fmap_2.
    + apply list_elem_of_In. unfold device_row. rewrite Hp. do 4 right. left.
Qed.

(** Every job is listed, and every host that was not submitted; their cell is
    under the second heading, which is there only next to the first. *)
Lemma submission_rows submitted unsubmitted : ∃ t, show_submission_results submitted unsubmitted = Shown t
  ∧ tb_rows t = ((λ j, [ji_id j]) <$> submitted) ++ ((λ h, [""; h]) <$> unsubmitted)
  ∧ length (tb_columns t) = (if submitted is [] then 0 else 1) + (if unsubmitted is [] then 0 else 1).
Proof.
  unfold show_submission_results. eexists. split; [done|].
  destruct submitted as [|j submitted]; destruct unsubmitted as [|h unsubmitted]; rewrite ?foldl_add_row;
    cbn -[fmap]; rewrite ?app_nil_r, ?foldl_add_row; done.
Qed.
End printer.

(** The command leaves the module ready: no object is missing. *)
Lemma root_cmd_ready r cx : ensure_context (root_cmd r cx) = Ok (new_client (ro_endpoint r) (ro_api_key r), tt, r).
Proof. done. Qed.

(** When nothing was submitted the only heading stands over the empty cells. *)
Lemma heading_misplaced h : show_submission_results [] [h]
  = Shown (mkTable "Job Submission Results" ["Unsubmitted Hosts"] [[""; h]]).
Proof. done. Qed.
