(* ===== verification/Rediz.v ===== *)
(** * The connection to Redis

    [Rediz.__init__] of [linux_net/services/rediz.py] and the part of
    [utils/config.py] it reads. *)

From S2P Require Import Prelude PyLib World.

(** ** [RedisConfig] *)
Record RedisTLSConfig := mkTls {
  tls_enabled : bool;
  tls_ca : option string;
  tls_cert : option string;
  tls_key : option string;
}.

Record RedisSentinelConfig := mkSentinel {
  se_enabled : bool;
  se_host : string;
  se_port : Z;
  se_master_name : string;
  se_password : option string;
}.

Record RedisConfig := mkRedisConfig {
  rd_host : string;
  rd_port : Z;
  rd_password : option string;
  rd_timeout : Z;
  rd_keepalive : Z;
  rd_tls : RedisTLSConfig;
  rd_sentinel : RedisSentinelConfig;
}.

Definition default_redis : RedisConfig :=
  mkRedisConfig "localhost" 6379 None 30 30 (mkTls false None None None)
    (mkSentinel false "redis-sentinel" 26379 "mymaster" None).

(** [_check_paths], for the files there are *)
Definition check_path (is_file : string → bool) (name : string) (value : option string) : res unit :=
  match value with
  | Some p => if is_file p then Ok tt else Err (ValueError (name +:+ " must be an existing file when TLS is enabled"))
  | None => Err (ValueError (name +:+ " must be an existing file when TLS is enabled"))
  end.

Definition _check_paths (is_file : string → bool) (t : RedisTLSConfig) : res RedisTLSConfig :=
  if tls_enabled t then
    _ ← check_path is_file "ca" (tls_ca t);
    _ ← check_path is_file "cert" (tls_cert t);
    _ ← check_path is_file "key" (tls_key t);
    Ok t
  else Ok t.

(** [_fake_redis_enabled], of the value of the variable *)
Definition _fake_redis_enabled (LINUX_NET_FAKE_REDIS : option string) : bool :=
  bool_decide (lower (strip (default "" LINUX_NET_FAKE_REDIS)) ∈ ["1"; "true"; "yes"; "on"]).

(** ** Keyword arguments of the connections *)
Definition tls_args (t : RedisTLSConfig) : list (string * pyval) :=
  [("ssl", PBool true); ("ssl_cert_reqs", PStr "required"); ("ssl_ca_certs", opt_str (tls_ca t));
   ("ssl_certfile", opt_str (tls_cert t)); ("ssl_keyfile", opt_str (tls_key t))].

(** [ConnectionError] is Python's here, as the module imports no other. *)
Definition retry_args (keepalive : Z) : list (string * pyval) :=
  [("socket_keepalive", PInt keepalive); ("retry_on_timeout", PBool true);
   ("retry_on_error", PList [PStr "builtins.ConnectionError"])].

Definition sentinel_args (c : RedisConfig) : list (string * pyval) :=
  let password := opt_str (se_password (rd_sentinel c)) in
  [("sentinels", PList [PList [PStr (se_host (rd_sentinel c)); PInt (se_port (rd_sentinel c))]]);
   ("socket_timeout", PInt (rd_timeout c)); ("password", password);
   ("sentinel_kwargs", PDict [("password", password); ("socket_timeout", PInt (rd_timeout c))])].

Definition master_args (c : RedisConfig) : list (string * pyval) :=
  [("socket_timeout", PInt (rd_timeout c)); ("password", opt_str (rd_password c))]
  ++ (if tls_enabled (rd_tls c) then tls_args (rd_tls c) else []) ++ retry_args (rd_keepalive c).

Definition direct_args (c : RedisConfig) : list (string * pyval) :=
  [("host", PStr (rd_host c)); ("port", PInt (rd_port c)); ("password", opt_str (rd_password c))]
  ++ (if tls_enabled (rd_tls c) then tls_args (rd_tls c) else [])
  ++ [("socket_connect_timeout", PInt (rd_timeout c))] ++ retry_args (rd_keepalive c).

(** ** redis-py and fakeredis *)
Class RedisLib (W : Type) := {
  Conn : Type;
  SentinelConn : Type;
  (** [None] where it is not installed *)
  FakeRedis : option Conn;
  Redis_ : list (string * pyval) → M W Conn;
  Sentinel : list (string * pyval) → M W SentinelConn;
  discover_master : SentinelConn → string → M W unit;
  discover_slaves : SentinelConn → string → M W unit;
  master_for : SentinelConn → string → list (string * pyval) → M W Conn;
  conn_ping : Conn → M W bool;
}.

Section connect.
Context {W : Type} `{RedisLib W}.

(** A question whose answer is only logged *)
Definition probe {A} (m : M W A) : M W unit := try_except (m ≫= λ _, mret tt) (λ _, mret tt).

(** [Rediz.__init__]: the connection it keeps *)
Definition rediz_init (fake_redis : option string) (c : RedisConfig) : M W Conn :=
  if _fake_redis_enabled fake_redis then
    match FakeRedis with
    | Some conn => mret conn
    | None => raise (OtherError "ImportError" "LINUX_NET_FAKE_REDIS is set but fakeredis is not installed.")
    end
  else if se_enabled (rd_sentinel c) then
    let name := se_master_name (rd_sentinel c) in
    sentinel ← Sentinel (sentinel_args c);
    _ ← probe (discover_master sentinel name);
    _ ← probe (discover_slaves sentinel name);
    conn ← master_for sentinel name (master_args c);
    _ ← probe (conn_ping conn);
    mret conn
  else
    conn ← Redis_ (direct_args c);
    _ ← probe (conn_ping conn);
    mret conn.

(** The questions raise ordinary exceptions only. *)
Class ProbesSafe : Prop := {
  master_safe : ∀ s n, safe (discover_master s n);
  slaves_safe : ∀ s n, safe (discover_slaves s n);
  ping_safe : ∀ c, safe (conn_ping c);
}.

Lemma probe_ok {A} (m : M W A) w : safe m → ∃ w', probe m w = (Ok tt, w').
Proof.
  intros Hm. unfold probe, try_except, mbind, M_bind. specialize (Hm w). destruct (m w) as [[a|e] w']; [by eexists|].
  cbn in *. rewrite (Hm e eq_refl). by eexists.
Qed.

(** The server starts with the connection it could make, whether or not Redis
    answers: an unreachable Redis or Sentinel never stops it; only making the
    connection object can. *)
Theorem rediz_init_spec `{!ProbesSafe} fake_redis c w : _fake_redis_enabled fake_redis = false →
  match (if se_enabled (rd_sentinel c)
         then (sentinel ← Sentinel (sentinel_args c);
               _ ← probe (discover_master sentinel (se_master_name (rd_sentinel c)));
               _ ← probe (discover_slaves sentinel (se_master_name (rd_sentinel c)));
               master_for sentinel (se_master_name (rd_sentinel c)) (master_args c)) w
         else Redis_ (direct_args c) w) with
  | (Ok conn, _) => ∃ w', rediz_init fake_redis c w = (Ok conn, w')
  | (Err e, w') => rediz_init fake_redis c w = (Err e, w')
  end.
Proof.
  intros Hf. unfold rediz_init. rewrite Hf. destruct (se_enabled _).
  - unfold mbind, M_bind. destruct (Sentinel _ w) as [[s|e] w1]; [|done].
    destruct (probe_ok (discover_master s (se_master_name (rd_sentinel c))) w1) as (w2 & ->); [apply master_safe|].
    destruct (probe_ok (discover_slaves s (se_master_name (rd_sentinel c))) w2) as (w3 & ->); [apply slaves_safe|].
    destruct (master_for _ _ _ w3) as [[conn|e] w4]; [|done].
    destruct (probe_ok (conn_ping conn) w4) as (w5 & ->); [apply ping_safe|]. by exists w5.
  - unfold mbind, M_bind. destruct (Redis_ _ w) as [[conn|e] w1]; [|done].
    destruct (probe_ok (conn_ping conn) w1) as (w2 & ->); [apply ping_safe|]. by exists w2.
Qed.
End connect.

(** With TLS either connection checks the server's certificate, against files
    that exist. *)
Lemma tls_checked is_file c t : _check_paths is_file (rd_tls c) = Ok t → tls_enabled (rd_tls c) = true →
  Forall (λ args, dict_get "ssl" args = Some (PBool true) ∧ dict_get "ssl_cert_reqs" args = Some (PStr "required")
    ∧ ∃ ca, dict_get "ssl_ca_certs" args = Some (PStr ca) ∧ is_file ca = true) [direct_args c; master_args c].
Proof.
  unfold _check_paths, direct_args, master_args. intros Hp Hen. rewrite Hen in *. unfold check_path in Hp.
  destruct (tls_ca (rd_tls c)) as [ca|] eqn:Eca; [|done]. cbn in Hp. destruct (is_file ca) eqn:Ef; [|done].
  repeat constructor; exists ca; unfold tls_args; by rewrite Eca.
Qed.

Example fake_redis_values :
  _fake_redis_enabled (Some " Yes ") = true ∧ _fake_redis_enabled (Some "0") = false ∧ _fake_redis_enabled None = false.
Proof. by vm_compute. Qed.
