(* ===== verification/Logging.v ===== *)
(** * What is logged

    [linux_net/utils/logger.py]: the filter that masks secrets in the records
    of the log; and the filter of [services/observability.py] that adds the
    identifiers of the request to them.  Formatting and output are not
    modelled. *)

From Stdlib Require Import Ascii.
From S2P Require Import Prelude PyLib World Manager.

(** ** [ScrubFilter]

    The regular expression, read from left to right: the name of a secret, its
    closing quote if any, [=] or [:] among blanks, a quote; then the value up
    to the next quote of either kind on the line.  A quote before the name
    changes nothing, as what is matched before the value is put back. *)
Definition is_quote (a : ascii) : bool := Ascii.eqb a (ascii_of_nat 34) || Ascii.eqb a (ascii_of_nat 39).

Definition secret_names : list string :=
  ["password"; "token"; "secret"; "key"; "private_key"; "passphrase"; "community"].

(** [s] after a prefix of the length of [p] that is [p] when in lower case *)
Fixpoint after_name (p s : string) : option (string * string) :=
  match p, s with
  | EmptyString, _ => Some ("", s)
  | String a p, String b s => if Ascii.eqb a (lower_ascii b) then prod_map (String b) id <$> after_name p s else None
  | _, _ => None
  end.

Definition name_at (s : string) : option (string * string) := head (omap (λ p, after_name p s) secret_names).

Fixpoint span (f : ascii → bool) (s : string) : string * string :=
  match s with
  | String a t => if f a then prod_map (String a) id (span f t) else ("", s)
  | EmptyString => ("", "")
  end.

Definition one (f : ascii → bool) (s : string) : option (string * string) :=
  match s with String a t => if f a then Some (String a "", t) else None | EmptyString => None end.

Definition is_sep (a : ascii) : bool := Ascii.eqb a "=" || Ascii.eqb a ":".

(** The first group: what stands before a value, and what follows *)
Definition opener (s : string) : option (string * string) :=
  '(name, s) ← name_at s;
  let '(q, s) := default ("", s) (one is_quote s) in
  let '(b1, s) := span is_space s in
  '(sep, s) ← one is_sep s;
  let '(b2, s) := span is_space s in
  '(q2, s) ← one is_quote s;
  Some (name +:+ q +:+ b1 +:+ sep +:+ b2 +:+ q2, s).

(** The value, and the quote that ends it *)
Fixpoint value_end (s : string) : option (string * ascii) :=
  match s with
  | String a t =>
      if is_quote a then Some ("", a)
      else if Ascii.eqb a (ascii_of_nat 10) then None
      else prod_map (String a) id <$> value_end t
  | EmptyString => None
  end.

Definition match_at (s : string) : option (string * string * ascii) :=
  '(before, s) ← opener s; '(value, q) ← value_end s; Some (before, value, q).

(** [pattern.sub(r"\1******\2", message)]; [skip] characters are those of the
    last match *)
Fixpoint scrub_from (skip : nat) (s : string) : string :=
  match s with
  | EmptyString => EmptyString
  | String a t =>
      match skip with
      | S skip => scrub_from skip t
      | 0 =>
          match match_at s with
          | Some (before, value, q) =>
              before +:+ "******" +:+ String q (scrub_from (String.length before + String.length value) t)
          | None => String a (scrub_from 0 t)
          end
      end
  end.

Definition scrub_text (s : string) : string := scrub_from 0 s.

(** [scrub] *)
Definition scrub (v : pyval) : pyval := match v with PStr s => PStr (scrub_text s) | _ => v end.

Inductive log_args := NoArgs | DictArgs (d : list (string * pyval)) | TupleArgs (l : list pyval).

Record LogRecord := mkRecord {
  lr_msg : pyval;
  lr_args : log_args;
  lr_request_id : string;
  lr_job_trace_id : string;
}.

(** [ScrubFilter.filter] *)
Definition scrub_filter (r : LogRecord) : LogRecord :=
  mkRecord (scrub (lr_msg r))
    (match lr_args r with
     | NoArgs => NoArgs
     | DictArgs d => DictArgs (prod_map id scrub <$> d)
     | TupleArgs l => TupleArgs (scrub <$> l)
     end) (lr_request_id r) (lr_job_trace_id r).

(** [RequestContextFilter.filter] *)
Definition context_filter {W} `{Trace W} (w : W) (r : LogRecord) : LogRecord :=
  let get o := if str_truthy o then default "" o else "-" in
  mkRecord (lr_msg r) (lr_args r) (get (request_id_var w)) (get (job_trace_id_var w)).

Example scrubbed :
  scrub_text "login: {'user': 'a', 'PassWord' : 'hunter2'}, api_key='k', token = 12"
  = "login: {'user': 'a', 'PassWord' : '******'}, api_key='******', token = 12".
Proof. by vm_compute. Qed.

(** ** The form that is masked, as a grammar *)
Fixpoint every (f : ascii → bool) (s : string) : bool :=
  match s with String a t => f a && every f t | EmptyString => true end.

Definition in_line (a : ascii) : bool := negb (is_quote a) && negb (Ascii.eqb a (ascii_of_nat 10)).

(** The name of a secret in any case, perhaps a quote, [=] or [:] among blanks, and a
    quote; then the value, on one line and without a quote of either kind, and
    the quote that ends it *)
Definition secret_form (before value : string) (q : ascii) : Prop :=
  ∃ name closing b1 sep b2 opening,
    before = name +:+ closing +:+ b1 +:+ String sep (b2 +:+ String opening "")
    ∧ lower name ∈ secret_names ∧ (closing = "" ∨ ∃ a, is_quote a = true ∧ closing = String a "")
    ∧ every is_space b1 = true ∧ is_sep sep = true ∧ every is_space b2 = true ∧ is_quote opening = true
    ∧ every in_line value = true ∧ is_quote q = true.

(** A secret in such a form at the start of [s] *)
Definition secret_at (s : string) : Prop :=
  ∃ before value q post, secret_form before value q ∧ s = before +:+ value +:+ String q post.

(** *** The matcher finds exactly that form *)
Lemma string_app_cons a (s t : string) : String a s +:+ t = String a (s +:+ t).
Proof. done. Qed.

Lemma after_name_spec p s n t : after_name p s = Some (n, t) ↔ s = n +:+ t ∧ lower n = p.
Proof.
  revert s n t. induction p as [|a p IH]; intros s n t.
  - cbn [after_name]. split; [by intros [= <- <-]|]. intros [-> Hn]. by destruct n.
  - destruct s as [|b s]; cbn [after_name].
    { split; [done|]. intros [Hs Hn]. by destruct n. }
    destruct (Ascii.eqb_spec a (lower_ascii b)) as [->|Hne].
    + destruct (after_name p s) as [[n' t']|] eqn:E; cbn.
      * apply IH in E as [-> <-]. split; [by intros [= <- <-]|].
        intros [Hs Hn]. destruct n as [|c n]; [done|]. injection Hs as -> Hs. injection Hn as Hn.
        assert (after_name (lower n') (n' +:+ t') = Some (n, t)) as E2 by by apply IH.
        assert (after_name (lower n') (n' +:+ t') = Some (n', t')) as E1 by by apply IH.
        rewrite E1 in E2. by injection E2 as <- <-.
      * split; [done|]. intros [Hs Hn]. destruct n as [|c n]; [done|]. injection Hs as -> Hs. injection Hn as Hn.
        assert (after_name p s = Some (n, t)) as E2 by by apply IH. by rewrite E in E2.
    + split; [done|]. intros [Hs Hn]. destruct n as [|c n]; [done|]. injection Hs as -> Hs. by injection Hn.
Qed.

(** No name of a secret begins another one. *)
Lemma names_prefix p p' t : p ∈ secret_names → p' ∈ secret_names → p = p' +:+ t → p = p'.
Proof.
  intros Hp Hp' E. assert (startswith p p' = true) as Hs by (apply startswith_spec; eauto).
  assert (forallb (λ p, forallb (λ p', implb (startswith p p') (String.eqb p p')) secret_names) secret_names = true)
    as Hall by by vm_compute.
  rewrite forallb_forall in Hall. specialize (Hall p (proj1 (list_elem_of_In _ _) Hp)).
  rewrite forallb_forall in Hall. specialize (Hall p' (proj1 (list_elem_of_In _ _) Hp')).
  rewrite Hs in Hall. by apply String.eqb_eq.
Qed.

Lemma lower_app s t : lower (s +:+ t) = lower s +:+ lower t.
Proof. induction s as [|a s IH]; [done|]. rewrite string_app_cons. simpl. by rewrite IH. Qed.

Lemma app_prefix (n n' t t' : string) : n +:+ t = n' +:+ t' →
  (∃ x, n = n' +:+ x) ∨ (∃ x, n' = n +:+ x).
Proof.
  revert n'. induction n as [|a n IH]; intros n' E; [right; by exists n'|].
  destruct n' as [|a' n']; [left; by exists (String a n)|]. injection E as -> E.
  destruct (IH n' E) as [[x ->]|[x ->]]; [left|right]; by exists x.
Qed.

Lemma name_at_spec s n t : name_at s = Some (n, t) ↔ s = n +:+ t ∧ lower n ∈ secret_names.
Proof.
  unfold name_at. split.
  - intros Hh. assert ((n, t) ∈ omap (λ p, after_name p s) secret_names) as Hin.
    { destruct (omap _ secret_names) as [|z l]; [done|]. injection Hh as ->. by left. }
    apply list_elem_of_omap in Hin as (p & Hp & E). by apply after_name_spec in E as [-> ->].
  - intros [-> Hn]. assert ((n, t) ∈ omap (λ p, after_name p (n +:+ t)) secret_names) as Hin.
    { apply list_elem_of_omap. exists (lower n). split; [done|]. by apply after_name_spec. }
    destruct (omap (λ p, after_name p (n +:+ t)) secret_names) as [|[n' t'] l] eqn:E; [by apply not_elem_of_nil in Hin|].
    cbn. assert ((n', t') ∈ omap (λ p, after_name p (n +:+ t)) secret_names) as Hin' by (rewrite E; by left).
    apply list_elem_of_omap in Hin' as (p & Hp & [Es <-]%after_name_spec).
    assert (lower n = lower n') as El.
    { destruct (app_prefix _ _ _ _ Es) as [[x ->]|[x ->]]; [|symmetry];
        eapply names_prefix; [| |apply lower_app| | |apply lower_app]; done. }
    assert (after_name (lower n) (n +:+ t) = Some (n, t)) as E1 by by apply after_name_spec.
    assert (after_name (lower n) (n +:+ t) = Some (n', t')) as E2 by (apply after_name_spec; by rewrite El).
    congruence.
Qed.

Lemma span_spec f s : s = (span f s).1 +:+ (span f s).2 ∧ every f (span f s).1 = true.
Proof.
  induction s as [|a s [IH1 IH2]]; [done|]. cbn [span]. destruct (f a) eqn:Ea; [|done].
  destruct (span f s) as [y z]. cbn in *. split; [by rewrite string_app_cons, <-IH1|by rewrite Ea].
Qed.

Lemma span_app f x a r : every f x = true → f a = false → span f (x +:+ String a r) = (x, String a r).
Proof.
  intros Hx Ha. induction x as [|b x IH]; [change ("" +:+ ?t) with t; cbn [span]; by rewrite Ha|].
  cbn [every] in Hx. apply andb_true_iff in Hx as [Hb Hx]. rewrite string_app_cons. cbn [span]. by rewrite Hb, IH.
Qed.

Lemma quote_other q : is_quote q = true → is_space q = false ∧ is_sep q = false.
Proof. unfold is_quote. by intros [->%Ascii.eqb_eq| ->%Ascii.eqb_eq]%orb_true_iff. Qed.
Lemma sep_other a : is_sep a = true → is_space a = false ∧ is_quote a = false.
Proof. unfold is_sep. by intros [->%Ascii.eqb_eq| ->%Ascii.eqb_eq]%orb_true_iff. Qed.
Lemma space_quote a : is_space a = true → is_quote a = false.
Proof. intros Ha. destruct (is_quote a) eqn:E; [|done]. apply quote_other in E as [E _]. congruence. Qed.

Lemma value_end_spec s v q : value_end s = Some (v, q) ↔ every in_line v = true ∧ is_quote q = true ∧ ∃ post, s = v +:+ String q post.
Proof.
  revert v. induction s as [|a s IH]; intros v; cbn [value_end].
  { split; [done|]. intros (_ & _ & post & E). by destruct v. }
  destruct (is_quote a) eqn:Ea; [|destruct (Ascii.eqb a (ascii_of_nat 10)) eqn:En].
  - split; [intros [= <- <-]; split; [done|]; split; [done|by exists s]|].
    intros (Hv & Hq & post & E). destruct v as [|b v]; [by injection E as ->|].
    injection E as -> _. cbn [every] in Hv. unfold in_line in Hv. by rewrite Ea in Hv.
  - split; [done|]. intros (Hv & Hq & post & E). destruct v as [|b v]; injection E as -> _; [congruence|].
    cbn [every] in Hv. unfold in_line in Hv. by rewrite En, andb_false_r in Hv.
  - assert (in_line a = true) as Hin by (unfold in_line; by rewrite Ea, En). split.
    + destruct (value_end s) as [[v' q']|] eqn:E; [|done]. cbn. intros [= <- <-].
      destruct (proj1 (IH v') eq_refl) as (Hv & Hq & post & ->). cbn [every]. rewrite Hin. eauto.
    + intros (Hv & Hq & post & E). destruct v as [|b v]; injection E as -> E; [congruence|].
      cbn [every] in Hv. apply andb_true_iff in Hv as [_ Hv].
      by rewrite (proj2 (IH v) (conj Hv (conj Hq (ex_intro _ post E)))).
Qed.

(** What stands before a value *)
Definition secret_opener (before : string) : Prop :=
  ∃ name closing b1 sep b2 opening,
    before = name +:+ closing +:+ b1 +:+ String sep (b2 +:+ String opening "")
    ∧ lower name ∈ secret_names ∧ (closing = "" ∨ ∃ a, is_quote a = true ∧ closing = String a "")
    ∧ every is_space b1 = true ∧ is_sep sep = true ∧ every is_space b2 = true ∧ is_quote opening = true.

Lemma one_app f a r : f a = true → one f (String a r) = Some (String a "", r).
Proof. intros Ha. cbn [one]. by rewrite Ha. Qed.

Lemma opener_spec s before r : opener s = Some (before, r) ↔ secret_opener before ∧ s = before +:+ r.
Proof.
  split.
  - unfold opener. destruct (name_at s) as [[n t]|] eqn:En; [|done]. apply name_at_spec in En as [-> Hn].
    cbn [mbind option_bind].
    assert (∃ closing t1, default ("", t) (one is_quote t) = (closing, t1) ∧ t = closing +:+ t1
      ∧ (closing = "" ∨ ∃ a, is_quote a = true ∧ closing = String a "")) as (closing & t1 & -> & -> & Hcl).
    { destruct t as [|a t]; [exists "", ""; split_and!; [done..|by left]|]. cbn [one]. destruct (is_quote a) eqn:Ea.
      - exists (String a ""), t. split_and!; [done..|right; eauto].
      - exists "", (String a t). split_and!; [done..|by left]. }
    destruct (span_spec is_space t1) as [E1 H1]. destruct (span is_space t1) as [b1 t2]. cbn [fst snd] in E1, H1.
    subst t1. destruct t2 as [|sep t3]; [done|]. cbn [one]. destruct (is_sep sep) eqn:Es; [|done]. cbn [mbind option_bind].
    destruct (span_spec is_space t3) as [E2 H2]. destruct (span is_space t3) as [b2 t4]. cbn [fst snd] in E2, H2.
    subst t3. destruct t4 as [|q t5]; [done|]. cbn [one]. destruct (is_quote q) eqn:Eq; [|done]. cbn [mbind option_bind].
    intros [= <- <-]. split; [|by rewrite !string_app_assoc].
    exists n, closing, b1, sep, b2, q. by split_and!.
  - intros ((n & closing & b1 & sep & b2 & q & -> & Hn & Hcl & H1 & Hs & H2 & Hq) & ->).
    destruct (sep_other sep Hs) as [Hss Hsq]. destruct (quote_other q Hq) as [Hqs Hqp].
    unfold opener. rewrite !string_app_assoc, string_app_cons, string_app_assoc, string_app_cons.
    change ("" +:+ r) with r. rewrite (proj2 (name_at_spec _ n _) (conj eq_refl Hn)). cbn [mbind option_bind].
    assert (default ("", closing +:+ b1 +:+ String sep (b2 +:+ String q r))
      (one is_quote (closing +:+ b1 +:+ String sep (b2 +:+ String q r)))
      = (closing, b1 +:+ String sep (b2 +:+ String q r))) as ->.
    { destruct Hcl as [->|(a & Ha & ->)]; [|rewrite string_app_cons; by rewrite one_app].
      change ("" +:+ ?t) with t. destruct b1 as [|b b1].
      - change ("" +:+ ?t) with t. cbn [one]. by rewrite Hsq.
      - rewrite string_app_cons. cbn [every] in H1. apply andb_true_iff in H1 as [Hb _]. cbn [one].
        by rewrite space_quote. }
    rewrite span_app by done. rewrite one_app by done. cbn [mbind option_bind]. rewrite span_app by done.
    by rewrite one_app.
Qed.

Lemma match_at_spec s before v q : match_at s = Some (before, v, q) ↔
  secret_form before v q ∧ ∃ post, s = before +:+ v +:+ String q post.
Proof.
  assert (secret_form before v q ↔ secret_opener before ∧ every in_line v = true ∧ is_quote q = true) as Hform.
  { unfold secret_form, secret_opener. naive_solver. }
  rewrite Hform. unfold match_at. split.
  - destruct (opener s) as [[b r]|] eqn:Eo; [|done]. apply opener_spec in Eo as [Ho ->]. cbn [mbind option_bind].
    destruct (value_end r) as [[v' q']|] eqn:Ev; [|done]. apply value_end_spec in Ev as (Hv & Hq & post & ->).
    cbn. intros [= <- <- <-]. eauto.
  - intros ((Ho & Hv & Hq) & post & ->).
    rewrite (proj2 (opener_spec _ before (v +:+ String q post))) by done. cbn [mbind option_bind].
    by rewrite (proj2 (value_end_spec _ v q)) by eauto.
Qed.

Lemma no_secret_at s : match_at s = None → ¬ secret_at s.
Proof.
  intros Hn (before & v & q & post & Hf & E).
  by rewrite (proj2 (match_at_spec s before v q) (conj Hf (ex_intro _ post E))) in Hn.
Qed.

(** ** Masking *)
Lemma scrub_skip p s : scrub_from (String.length p) (p +:+ s) = scrub_from 0 s.
Proof. induction p as [|a p IH]; [done|]. rewrite string_app_cons. done. Qed.

Lemma length_string_app (s t : string) : String.length (s +:+ t) = String.length s + String.length t.
Proof. induction s as [|a s IH]; [done|]. rewrite string_app_cons. cbn [String.length]. rewrite IH. lia. Qed.

Lemma scrub_at before v q post : secret_form before v q →
  scrub_text (before +:+ v +:+ String q post) = before +:+ "******" +:+ String q (scrub_text post).
Proof.
  intros Hf. pose proof (proj2 (match_at_spec (before +:+ v +:+ String q post) before v q)
    (conj Hf (ex_intro _ post eq_refl))) as Hm.
  assert (∃ a b, before = String a b) as (a & b & ->).
  { destruct Hf as (n & cl & b1 & sep & b2 & op & -> & Hn & _). destruct n as [|a n]; [|by eexists _, _].
    exfalso. revert Hn. apply (bool_decide_eq_false_1 ("" ∈ secret_names)). by vm_compute. }
  unfold scrub_text. rewrite string_app_cons. cbn [scrub_from]. rewrite <-string_app_cons, Hm.
  do 2 f_equal. f_equal.
  replace (b +:+ v +:+ String q post) with ((b +:+ v +:+ String q "") +:+ post)
    by (rewrite !string_app_assoc, string_app_cons; done).
  rewrite <-scrub_skip with (p := b +:+ v +:+ String q ""). f_equal.
  rewrite !length_string_app. cbn [String.length]. lia.
Qed.

Lemma scrub_elsewhere a s : ¬ secret_at (String a s) → scrub_text (String a s) = String a (scrub_text s).
Proof.
  intros Hn. unfold scrub_text. cbn [scrub_from].
  destruct (match_at (String a s)) as [[[before v] q]|] eqn:E; [|done].
  apply match_at_spec in E as [Hf [post E]]. exfalso. apply Hn. by exists before, v, q, post.
Qed.


Module ToyLog.
Definition apostrophe : ascii := ascii_of_nat 39.
Definition dq : ascii := ascii_of_nat 34.

(** JSON, a dictionary, an assignment *)
Example masked_forms :
  scrub_text ("{" +:+ String dq ("password" +:+ String dq (": " +:+ String dq ("hunter2" +:+ String dq "}"))))
  = "{" +:+ String dq ("password" +:+ String dq (": " +:+ String dq ("******" +:+ String dq "}")))
  ∧ scrub_text "{'host': 'r1', 'token': 'abc'}" = "{'host': 'r1', 'token': '******'}"
  ∧ scrub_text "Password = 'hunter2', bob" = "Password = '******', bob".
Proof. by vm_compute. Qed.


(** Finding: a secret that is an argument of the log call is written as it is,
    since the message and its arguments are masked one by one. *)
Example argument_not_masked :
  let r := mkRecord (PStr "password=%s") (TupleArgs [PStr "hunter2"]) "-" "-" in scrub_filter r = r.
Proof. by vm_compute. Qed.

(** Finding: a placeholder within quotes is masked, and the record has an
    argument too many for its message. *)
Example placeholder_masked :
  lr_msg (scrub_filter (mkRecord (PStr "token='%s'") (TupleArgs [PStr "t0k3n"]) "-" "-")) = PStr "token='******'".
Proof. by vm_compute. Qed.

(** Finding: the value ends at a quote of either kind. *)
Example other_quote_shows_rest :
  scrub_text "{'password': 'a`" = "{'password': 'a`"
  ∧ scrub_text ("key=" +:+ String (ascii_of_nat 34) "it's me") = "key=" +:+ String (ascii_of_nat 34) "******'s me".
Proof. by vm_compute. Qed.

(** Finding: a value without quotes is not masked. *)
Example unquoted_not_masked : scrub_text "password=hunter2" = "password=hunter2".
Proof. by vm_compute. Qed.
End ToyLog.
