(* ===== verification/LogSetup.v ===== *)
(** * Setting up the log

    [setup_logging] of [linux_net/utils/logger.py] and [JsonLogFormatter] of
    [services/observability.py]: the level that overrides the file's, the
    filters and formatters of the root handlers, and the lines that come out of
    a handler.  Reading YAML and [logging.config.dictConfig], which makes the
    handlers, are parameters. *)

From Stdlib Require Import Ascii.
From S2P Require Import Prelude PyLib World Manager Logging.

(** ** Handlers *)
Record Formatter := mkFormatter { fm_fmt : string; fm_datefmt : option string }.

Inductive formatter :=
  | Plain (f : Formatter)
  | Colored (f : Formatter) (log_colors : list (string * string))
  | JsonFormat.

(** A filter added to a handler *)
Inductive log_filter := OtherFilter (name : string) | ScrubFilter | RequestContextFilter.

Record Handler := mkHandler {
  h_stream : bool;  (* isinstance(handler, logging.StreamHandler) *)
  h_isatty : bool;
  h_formatter : option formatter;
  h_filters : list log_filter;
}.

Definition log_colors : list (string * string) :=
  [("DEBUG", "cyan"); ("INFO", "green"); ("WARNING", "yellow"); ("ERROR", "red"); ("CRITICAL", "bold_red")].

(** The format of any formatter; a [JsonLogFormatter] has the default one. *)
Definition format_of (f : formatter) : Formatter :=
  match f with Plain f | Colored f _ => f | JsonFormat => mkFormatter "%(message)s" None end.

Definition set_formatter (f : formatter) (h : Handler) : Handler :=
  mkHandler (h_stream h) (h_isatty h) (Some f) (h_filters h).
Definition add_filter (f : log_filter) (h : Handler) : Handler :=
  mkHandler (h_stream h) (h_isatty h) (h_formatter h) (h_filters h ++ [f]).

Definition colorize (h : Handler) : res Handler :=
  if h_stream h && h_isatty h then
    match h_formatter h with
    | Some f => Ok (set_formatter (Colored (format_of f) log_colors) h)
    | None => Err (ValueError "Handler has no formatter to colorize")
    end
  else Ok h.

Definition json_logs (LINUX_NET_JSON_LOGS : option string) : bool :=
  bool_decide (lower (default "" LINUX_NET_JSON_LOGS) ∈ ["1"; "true"; "yes"]).

(** The loop over the handlers of the root logger: what they are when it ends,
    and whether it raised *)
Fixpoint setup_handlers (json : bool) (handlers : list Handler) : res unit * list Handler :=
  match handlers with
  | [] => (Ok tt, [])
  | h :: handlers =>
      let h := add_filter RequestContextFilter (add_filter ScrubFilter h) in
      match (if json then Ok (set_formatter JsonFormat h) else colorize h) with
      | Ok h => let '(r, hs) := setup_handlers json handlers in (r, h :: hs)
      | Err e => (Err e, h :: handlers)
      end
  end.

(** ** The level *)

(** [x["level"] = overridden_level], for a dictionary [x] *)
Definition set_level (level : string) (v : pyval) : res pyval :=
  match v with
  | PDict d => Ok (PDict (dict_set "level" (PStr level) d))
  | _ => Err (TypeError "object does not support item assignment")
  end.

Definition set_levels (level : string) (section : string) (d : list (string * pyval)) : res (list (string * pyval)) :=
  match dict_get section d with
  | None => Err (KeyError section)
  | Some (PDict vs) =>
      vs ← mapR (λ kv, v ← set_level level kv.2; Ok (kv.1, v)) vs; Ok (dict_set section (PDict vs) d)
  | Some _ => Err (OtherError "AttributeError" "object has no attribute 'values'")
  end.

Definition override_level (level : option string) (config : pyval) : res pyval :=
  if str_truthy level then
    let level := default "" level in
    match config with
    | PDict d =>
        d ← set_levels level "handlers" d;
        d ← set_levels level "loggers" d;
        match dict_get "root" d with
        | None => Err (KeyError "root")
        | Some v => v ← set_level level v; Ok (PDict (dict_set "root" v d))
        end
    | _ => Err (TypeError "object is not subscriptable")
    end
  else Ok config.

(** [setup_logging], for the file's contents as YAML and what [dictConfig]
    makes of the dictionary: the handlers of the root logger *)
Definition setup_logging (yaml : res pyval) (dictConfig : pyval → res (list Handler)) (level : option string)
    (json : option string) : res (list Handler) :=
  config ← yaml;
  config ← override_level level config;
  handlers ← dictConfig config;
  let '(r, handlers) := setup_handlers (json_logs json) handlers in
  _ ← r; Ok handlers.

(** ** Lines *)
Record LogFields := mkFields {
  lf_timestamp : string;
  lf_levelname : string;
  lf_name : string;
  lf_process : Z;
  lf_exc_info : option string;  (* formatException(record.exc_info) *)
}.

Section lines.
Context {W : Type} `{Trace W} `{Json}.
(** [repr(v)], and [text % args], which raises when the arguments do not fit *)
Context (repr : pyval → string) (percent : string → log_args → res string).

(** [record.getMessage()]: the text as it is without arguments *)
Definition getMessage (r : LogRecord) : res string :=
  let msg := py_str repr (lr_msg r) in
  match lr_args r with
  | NoArgs | DictArgs [] | TupleArgs [] => Ok msg
  | args => percent msg args
  end.

(** The filters of a handler, in their order; another filter of the
    configuration changes nothing here. *)
Definition run_filter (w : W) (r : LogRecord) (f : log_filter) : LogRecord :=
  match f with
  | ScrubFilter => scrub_filter r
  | RequestContextFilter => context_filter w r
  | OtherFilter _ => r
  end.

(** [JsonLogFormatter.format]; the keys sorted *)
Definition json_payload (f : LogFields) (r : LogRecord) : res (list (string * pyval)) :=
  message ← getMessage r;
  Ok ((match lf_exc_info f with Some text => [("exception", PStr text)] | None => [] end)
      ++ [("job_trace_id", PStr (lr_job_trace_id r)); ("level", PStr (lf_levelname f)); ("logger", PStr (lf_name f));
          ("message", PStr message); ("process", PInt (lf_process f));
          ("request_id", PStr (lr_request_id r)); ("timestamp", PStr (lf_timestamp f))]).

Definition json_format (f : LogFields) (r : LogRecord) : res string :=
  payload ← json_payload f r; Ok (dumps (PDict payload)).

(** What a handler that logs JSON writes for a record; when the format raises, the
    logging library reports that and writes no line. *)
Definition json_line (h : Handler) (w : W) (f : LogFields) (r : LogRecord) : res string :=
  json_format f (foldl (run_filter w) r (h_filters h)).
End lines.

(** ** What comes of a setup *)
Definition setup_of (json : bool) (h h' : Handler) : Prop :=
  h_filters h' = h_filters h ++ [ScrubFilter; RequestContextFilter]
  ∧ h_stream h' = h_stream h ∧ h_isatty h' = h_isatty h
  ∧ h_formatter h' = if json then Some JsonFormat
      else if h_stream h && h_isatty h then (λ f, Colored (format_of f) log_colors) <$> h_formatter h
      else h_formatter h.

Definition colorless (h : Handler) : bool := h_stream h && h_isatty h && bool_decide (h_formatter h = None).

Lemma setup_handlers_ok json hs : json = true ∨ Forall (λ h, colorless h = false) hs →
  ∃ hs', setup_handlers json hs = (Ok tt, hs') ∧ Forall2 (setup_of json) hs hs'.
Proof.
  induction hs as [|h hs IH]; intros Hc; [by exists []|]. cbn [setup_handlers].
  destruct IH as (hs' & -> & Hf); [destruct Hc as [?|[_ ?]%Forall_cons]; auto|].
  destruct json; [eexists; split; [done|]; constructor; [|done]; split_and!; try done; by cbn; rewrite <-(assoc (++))|].
  destruct Hc as [?|[Hh _]%Forall_cons]; [done|]. unfold colorless in Hh. unfold colorize. cbn [h_stream h_isatty add_filter h_formatter].
  destruct (h_stream h && h_isatty h) eqn:E.
  - destruct (h_formatter h) as [f|] eqn:Ef; [|done]. eexists. split; [done|]. constructor; [|done].
    split_and!; try done; cbn; [by rewrite <-(assoc (++))|]. by rewrite E, Ef.
  - eexists. split; [done|]. constructor; [|done]. split_and!; try done; cbn; [by rewrite <-(assoc (++))|]. by rewrite E.
Qed.

Lemma run_filters_scrubbed {W} `{Trace W} (w : W) fs r : (∀ f, f ∈ fs → ∃ n, f = OtherFilter n) →
  foldl (run_filter w) r (fs ++ [ScrubFilter; RequestContextFilter]) = context_filter w (scrub_filter r).
Proof.
  intros Hf. rewrite foldl_app. replace (foldl (run_filter w) r fs) with r; [done|].
  induction fs as [|f fs IH]; [done|]. cbn. destruct (Hf f) as [n ->]; [left|]. cbn. apply IH.
  intros g Hg. apply Hf. by right.
Qed.


(** ** Examples *)
Module ToySetup.
Definition config : pyval :=
  PDict [("handlers", PDict [("console", PDict [("level", PStr "INFO")])]); ("loggers", PDict []);
         ("root", PDict [("level", PStr "INFO")])].
Definition console : Handler := mkHandler true true (Some (Plain (mkFormatter "%(message)s" None))) [].
Definition bare : Handler := mkHandler true true None [].

(** [%], for arguments written by [%s] *)
Fixpoint fill (s : string) (l : list pyval) : res string :=
  match s with
  | String "%" (String "s" s) =>
      match l with
      | v :: l => t ← fill s l; Ok (py_str py_type v +:+ t)
      | [] => Err (TypeError "not enough arguments for format string")
      end
  | String a s => t ← fill s l; Ok (String a t)
  | EmptyString => match l with
                   | [] => Ok ""
                   | _ => Err (TypeError "not all arguments converted during string formatting")
                   end
  end.
Definition percent (s : string) (a : log_args) : res string :=
  match a with TupleArgs l => fill s l | _ => fill s [] end.
Definition fields : LogFields := mkFields "2024-02-29 16:00:00" "INFO" "linux_net" 7 None.

Lemma levels_overridden : override_level (Some "DEBUG") config
  = Ok (PDict [("handlers", PDict [("console", PDict [("level", PStr "DEBUG")])]); ("loggers", PDict []);
               ("root", PDict [("level", PStr "DEBUG")])]).
Proof. by vm_compute. Qed.

(** A handler on a terminal that has no formatter stops the setup: the handlers
    after it have no filter. *)
Lemma bare_terminal_stops : setup_handlers false [bare; console]
  = (Err (ValueError "Handler has no formatter to colorize"),
     [mkHandler true true None [ScrubFilter; RequestContextFilter]; console]).
Proof. by vm_compute. Qed.


(** Finding: a placeholder within quotes after the name of a secret is masked with
    the value; its argument is then one too many, and the line is lost. *)
Lemma masked_placeholder_lost :
  let r := mkRecord (PStr "token='%s'") (TupleArgs [PStr "t0k3n"]) "" "" in
  getMessage py_type percent r = Ok "token='t0k3n'"
  ∧ json_line py_type percent (mkHandler true false (Some JsonFormat) [ScrubFilter; RequestContextFilter])
      (Toy.empty 0 []) fields r = Err (TypeError "not all arguments converted during string formatting").
Proof. by vm_compute. Qed.
End ToySetup.
