(* ===== verification/Times.v ===== *)
(** * Dates as text

    [datetime.isoformat] and its inverse, which the program's JSON documents
    rest on: the calendar, numbers of a fixed width, the text of a time with its
    offset from UTC.  A time is in microseconds since 1970, an offset in
    seconds. *)

From Stdlib Require Import Ascii.
From S2P Require Import Prelude PyLib.

Local Open Scope Z_scope.

(** ** The calendar *)

(** Days since 1970-01-01; a year is counted from March. *)
Definition days_from_civil (y m d : Z) : Z :=
  let y := if m <=? 2 then y - 1 else y in
  let yoe := y mod 400 in
  let doy := (153 * (if 2 <? m then m - 3 else m + 9) + 2) / 5 + d - 1 in
  y / 400 * 146097 + (yoe * 365 + yoe / 4 - yoe / 100 + doy) - 719468.

Definition year_of_era (doe : Z) : Z := (doe - doe / 1460 + doe / 36524 - doe / 146096) / 365.

Definition civil_from_days (z : Z) : Z * Z * Z :=
  let z := z + 719468 in
  let doe := z mod 146097 in
  let yoe := year_of_era doe in
  let doy := doe - (365 * yoe + yoe / 4 - yoe / 100) in
  let mp := (5 * doy + 2) / 153 in
  let d := doy - (153 * mp + 2) / 5 + 1 in
  let m := if mp <? 10 then mp + 3 else mp - 9 in
  ((if m <=? 2 then yoe + z / 146097 * 400 + 1 else yoe + z / 146097 * 400), m, d).

Definition leap (y : Z) : bool := (y mod 4 =? 0) && (negb (y mod 100 =? 0) || (y mod 400 =? 0)).
Definition month_days (y m : Z) : Z :=
  if m =? 2 then if leap y then 29 else 28
  else if (m =? 4) || (m =? 6) || (m =? 9) || (m =? 11) then 30 else 31.

Definition next_day (y m d : Z) : Z * Z * Z :=
  if d <? month_days y m then (y, m, d + 1) else if m <? 12 then (y, m + 1, 1) else (y + 1, 1, 1).

Lemma civil_bounds z : let '(y, m, d) := civil_from_days z in 1 <= m <= 12 ∧ 1 <= d <= 31.
Proof.
  unfold civil_from_days. set (doe := (z + 719468) mod 146097).
  assert (0 <= doe < 146097) as Hd by (apply Z.mod_pos_bound; lia). clearbody doe.
  assert (0 <= doe - (365 * year_of_era doe + year_of_era doe / 4 - year_of_era doe / 100) <= 365) as Hdoy.
  { unfold year_of_era. Z.to_euclidean_division_equations. lia. }
  set (doy := doe - _) in *. clearbody doy.
  assert (0 <= (5 * doy + 2) / 153 <= 11) as Hm by (Z.to_euclidean_division_equations; lia).
  assert (1 <= doy - (153 * ((5 * doy + 2) / 153) + 2) / 5 + 1 <= 31) as Hd'
    by (Z.to_euclidean_division_equations; lia).
  destruct (_ <? 10) eqn:E; to_prop; lia.
Qed.

(** The two are inverse, and the first follows the calendar. *)
Lemma civil_roundtrip z : let '(y, m, d) := civil_from_days z in days_from_civil y m d = z.
Proof.
  unfold civil_from_days, days_from_civil. set (doe := (z + 719468) mod 146097).
  assert (0 <= doe < 146097) as Hd by (apply Z.mod_pos_bound; lia).
  assert (0 <= year_of_era doe < 400
    ∧ 0 <= doe - (365 * year_of_era doe + year_of_era doe / 4 - year_of_era doe / 100) <= 365) as [Hy Hdoy].
  { clearbody doe. unfold year_of_era. Z.to_euclidean_division_equations. lia. }
  pose proof (Z.div_mod (z + 719468) 146097 ltac:(lia)) as Hz. fold doe in Hz.
  set (yoe := year_of_era doe) in *. clearbody yoe. set (era := (z + 719468) / 146097) in *. clearbody era doe.
  set (days := 365 * yoe + yoe / 4 - yoe / 100) in *. set (doy := doe - days) in *.
  assert (0 <= (5 * doy + 2) / 153 <= 11) as Hm by (clearbody doy; Z.to_euclidean_division_equations; lia).
  set (mp := (5 * doy + 2) / 153) in *. clearbody mp.
  assert ((yoe + era * 400) mod 400 = yoe ∧ (yoe + era * 400) / 400 = era) as [E1 E2].
  { split; [rewrite Z.mod_add by lia; apply Z.mod_small; lia|rewrite Z.div_add by lia; rewrite Z.div_small by lia; lia]. }
  destruct (mp <? 10) eqn:E; to_prop.
  - rewrite (proj2 (Z.leb_gt (mp + 3) 2)), (proj2 (Z.ltb_lt 2 (mp + 3))) by lia. rewrite E1, E2.
    replace (mp + 3 - 3) with mp by lia. unfold doy, days. lia.
  - rewrite (proj2 (Z.leb_le (mp - 9) 2)), (proj2 (Z.ltb_ge 2 (mp - 9))) by lia.
    replace (yoe + era * 400 + 1 - 1) with (yoe + era * 400) by lia. rewrite E1, E2.
    replace (mp - 9 + 9) with mp by lia. unfold doy, days. lia.
Qed.

Lemma epoch : civil_from_days 0 = (1970, 1, 1).
Proof. reflexivity. Qed.

Lemma year_start y : y / 400 * 146097 + (y mod 400 * 365 + y mod 400 / 4 - y mod 400 / 100)
  = 365 * y + y / 4 - y / 100 + y / 400.
Proof.
  rewrite (Z.div_mod y 400) at 5 6 7 by lia. set (r := y mod 400). set (q := y / 400).
  assert (0 <= r < 400) by (apply Z.mod_pos_bound; lia). clearbody r q.
  Z.to_euclidean_division_equations. lia.
Qed.

Lemma div_pred k y : 0 < k → y / k - (y - 1) / k = if y mod k =? 0 then 1 else 0.
Proof.
  intros Hk. pose proof (Z.mod_pos_bound y k Hk) as Hr. pose proof (Z.div_mod y k ltac:(lia)) as Hy.
  set (q := y / k) in *. set (r := y mod k) in *. clearbody q r. destruct (Z.eqb_spec r 0) as [->|Hne].
  - replace ((y - 1) / k) with (q - 1); [lia|]. apply (Z.div_unique _ _ _ (k - 1)); lia.
  - replace ((y - 1) / k) with q; [lia|]. apply (Z.div_unique _ _ _ (r - 1)); lia.
Qed.

Lemma leap_start y : 365 * y + y / 4 - y / 100 + y / 400
  = 365 * (y - 1) + (y - 1) / 4 - (y - 1) / 100 + (y - 1) / 400 + if leap y then 366 else 365.
Proof.
  pose proof (div_pred 4 y ltac:(lia)). pose proof (div_pred 100 y ltac:(lia)). pose proof (div_pred 400 y ltac:(lia)).
  assert (y mod 100 = 0 → y mod 4 = 0) by (Z.to_euclidean_division_equations; lia).
  assert (y mod 400 = 0 → y mod 100 = 0) by (Z.to_euclidean_division_equations; lia).
  unfold leap. destruct (Z.eqb_spec (y mod 4) 0), (Z.eqb_spec (y mod 100) 0), (Z.eqb_spec (y mod 400) 0); cbn; lia.
Qed.

Lemma days_eq y m d : days_from_civil y m d =
  (let y := if m <=? 2 then y - 1 else y in 365 * y + y / 4 - y / 100 + y / 400)
  + (153 * (if 2 <? m then m - 3 else m + 9) + 2) / 5 + d - 1 - 719468.
Proof. unfold days_from_civil. cbn zeta. pose proof (year_start (if m <=? 2 then y - 1 else y)). lia. Qed.

Lemma calendar y m d : 1 <= m <= 12 → 1 <= d <= month_days y m →
  let '(y', m', d') := next_day y m d in days_from_civil y' m' d' = days_from_civil y m d + 1.
Proof.
  intros Hm Hd. unfold next_day. destruct (d <? month_days y m) eqn:E; to_prop.
  - unfold days_from_civil. lia.
  - assert (d = month_days y m) as -> by lia. clear Hd E.
    assert (m = 1 ∨ m = 2 ∨ m = 3 ∨ m = 4 ∨ m = 5 ∨ m = 6 ∨ m = 7 ∨ m = 8 ∨ m = 9 ∨ m = 10 ∨ m = 11 ∨ m = 12)
      as Hc by lia.
    rewrite days_eq. pose proof (leap_start y) as Hl. unfold month_days.
    repeat (destruct Hc as [->|Hc]); subst; cbn -[Z.mul Z.add Z.sub Z.div Z.modulo leap days_from_civil];
      rewrite days_eq; cbn -[Z.mul Z.add Z.sub Z.div Z.modulo leap days_from_civil];
      try replace (y + 1 - 1) with y by lia;
      repeat match goal with |- context [?a / 5] => let v := eval vm_compute in (a / 5) in change (a / 5) with v end;
      repeat match goal with |- context [?a <=? 2] => let v := eval vm_compute in (a <=? 2) in change (a <=? 2) with v end;
      cbv iota; destruct (leap y); lia.
Qed.

(** ** Numbers of a fixed width *)
Definition digit (n : Z) : ascii := ascii_of_nat (48 + Z.to_nat n).

Fixpoint digits (w : nat) (n : Z) : string :=
  match w with O => "" | S w => digits w (n / 10) +:+ String (digit (n mod 10)) "" end.

Fixpoint read_digits (w : nat) (acc : Z) (s : string) : option (Z * string) :=
  match w with
  | O => Some (acc, s)
  | S w =>
      match s with
      | String a s => if is_digit a then read_digits w (10 * acc + (Z.of_nat (nat_of_ascii a) - 48)) s else None
      | EmptyString => None
      end
  end.

Lemma read_digit d acc s : 0 <= d < 10 → read_digits 1 acc (String (digit d) s) = Some (10 * acc + d, s).
Proof.
  intros Hd. assert (d = 0 ∨ d = 1 ∨ d = 2 ∨ d = 3 ∨ d = 4 ∨ d = 5 ∨ d = 6 ∨ d = 7 ∨ d = 8 ∨ d = 9) as Hc by lia.
  repeat (destruct Hc as [->|Hc]); subst; cbn -[Z.mul Z.add Z.sub]; do 2 f_equal; lia.
Qed.

Lemma read_digits_last w acc s : read_digits (S w) acc s =
  match read_digits w acc s with Some (n, s) => read_digits 1 n s | None => None end.
Proof.
  revert acc s. induction w as [|w IH]; intros acc s; [done|].
  destruct s as [|a s]; [done|].
  change (read_digits (S (S w)) acc (String a s)) with
    (if is_digit a then read_digits (S w) (10 * acc + (Z.of_nat (nat_of_ascii a) - 48)) s else None).
  rewrite IH. cbn [read_digits]. by destruct (is_digit a).
Qed.

Lemma read_digits_digits w n acc rest : 0 <= n < 10 ^ Z.of_nat w →
  read_digits w acc (digits w n +:+ rest) = Some (acc * 10 ^ Z.of_nat w + n, rest).
Proof.
  revert n acc rest. induction w as [|w IH]; intros n acc rest Hn.
  - change (10 ^ Z.of_nat 0) with 1 in *. cbn. do 2 f_equal. lia.
  - rewrite Nat2Z.inj_succ, Z.pow_succ_r in * by lia. rewrite read_digits_last. cbn [digits].
    rewrite string_app_assoc, IH by (Z.to_euclidean_division_equations; lia).
    change (String (digit (n mod 10)) "" +:+ rest) with (String (digit (n mod 10)) rest).
    rewrite read_digit by (apply Z.mod_pos_bound; lia). do 2 f_equal.
    pose proof (Z.div_mod n 10 ltac:(lia)). lia.
Qed.

(** ** [isoformat] of an aware time

    [t] is the time of the clock on the wall, [offset] that of its zone. *)
Definition isoformat (t offset : Z) : string :=
  let '(y, m, d) := civil_from_days (t / 86400000000) in
  let us := t mod 86400000000 in
  let s := us / 1000000 in
  let a := Z.abs offset in
  digits 4 y +:+ "-" +:+ digits 2 m +:+ "-" +:+ digits 2 d +:+ "T"
  +:+ digits 2 (s / 3600) +:+ ":" +:+ digits 2 (s / 60 mod 60) +:+ ":" +:+ digits 2 (s mod 60)
  +:+ (if us mod 1000000 =? 0 then "" else "." +:+ digits 6 (us mod 1000000))
  +:+ (if offset <? 0 then "-" else "+") +:+ digits 2 (a / 3600) +:+ ":" +:+ digits 2 (a / 60 mod 60)
  +:+ (if a mod 60 =? 0 then "" else ":" +:+ digits 2 (a mod 60)).

(** [fromisoformat] of such a text: the time since 1970 and the offset *)
Definition expect (p : string) (s : string) : option string :=
  if startswith s p then Some (String.substring (String.length p) (String.length s) s) else None.

Definition read_offset (s : string) : option Z :=
  '(sign, s) ← (match s with
                | String a s => if Ascii.eqb a "+" then Some (1, s) else if Ascii.eqb a "-" then Some (-1, s) else None
                | EmptyString => None
                end);
  '(h, s) ← read_digits 2 0 s; s ← expect ":" s;
  '(m, s) ← read_digits 2 0 s;
  match s with
  | EmptyString => Some (sign * (h * 3600 + m * 60))
  | _ => s ← expect ":" s; '(x, s) ← read_digits 2 0 s;
         if String.eqb s "" then Some (sign * (h * 3600 + m * 60 + x)) else None
  end.

Definition fromisoformat (s : string) : option (Z * Z) :=
  '(y, s) ← read_digits 4 0 s; s ← expect "-" s;
  '(m, s) ← read_digits 2 0 s; s ← expect "-" s;
  '(d, s) ← read_digits 2 0 s; s ← expect "T" s;
  '(hh, s) ← read_digits 2 0 s; s ← expect ":" s;
  '(mm, s) ← read_digits 2 0 s; s ← expect ":" s;
  '(ss, s) ← read_digits 2 0 s;
  '(us, s) ← (match expect "." s with Some s => read_digits 6 0 s | None => Some (0, s) end);
  offset ← read_offset s;
  Some (((days_from_civil y m d * 86400 + hh * 3600 + mm * 60 + ss) - offset) * 1000000 + us, offset).

Lemma substring_all n s : (String.length s ≤ n)%nat → String.substring 0 n s = s.
Proof.
  revert n. induction s as [|a s IH]; intros [|n] Hn; cbn in *; try done; [lia|].
  f_equal. apply IH. lia.
Qed.

Lemma expect_app p s : expect p (p +:+ s) = Some s.
Proof.
  unfold expect. rewrite (proj2 (startswith_spec _ _)) by by exists s. f_equal.
  assert (∀ n, (String.length s ≤ n)%nat → String.substring (String.length p) n (p +:+ s) = s) as Hs.
  { induction p as [|a p IH]; intros n Hn; [by apply substring_all|]. cbn. by apply IH. }
  apply Hs. clear Hs. induction p as [|a p IH]; [done|].
  change (String.length (String a p +:+ s)) with (S (String.length (p +:+ s))). lia.
Qed.

Lemma expect_not c a s : Ascii.eqb a c = false → expect (String c "") (String a s) = None.
Proof.
  intros Ha. unfold expect, startswith. cbn. destruct (ascii_dec c a) as [->|]; [|done].
  by rewrite Ascii.eqb_refl in Ha.
Qed.

Definition in_calendar (t : Z) : Prop :=
  let '(y, _, _) := civil_from_days (t / 86400000000) in 1 <= y <= 9999.

Lemma read_offset_text offset : Z.abs offset < 86400 →
  read_offset ((if offset <? 0 then "-" else "+") +:+ digits 2 (Z.abs offset / 3600) +:+ ":"
    +:+ digits 2 (Z.abs offset / 60 mod 60)
    +:+ (if Z.abs offset mod 60 =? 0 then "" else ":" +:+ digits 2 (Z.abs offset mod 60))) = Some offset.
Proof.
  intros Ho. set (a := Z.abs offset) in *. unfold read_offset.
  assert (0 <= a) as Ha0 by (unfold a; lia).
  assert (0 <= a / 3600 < 10 ^ Z.of_nat 2) as Hh.
  { change (10 ^ Z.of_nat 2) with 100. clearbody a. Z.to_euclidean_division_equations. lia. }
  assert (0 <= a / 60 mod 60 < 10 ^ Z.of_nat 2 ∧ 0 <= a mod 60 < 10 ^ Z.of_nat 2) as [Hm Hs].
  { change (10 ^ Z.of_nat 2) with 100. clearbody a. Z.to_euclidean_division_equations. lia. }
  assert (a = a / 3600 * 3600 + a / 60 mod 60 * 60 + a mod 60) as Ha.
  { clear. Z.to_euclidean_division_equations. lia. }
  assert (∀ r : string, (match (if offset <? 0 then "-" else "+") +:+ r with
    | String b s => if Ascii.eqb b "+" then Some (1, s) else if Ascii.eqb b "-" then Some (-1, s) else None
    | EmptyString => None end) = Some (Z.sgn (2 * offset + 1), r)) as Hsign.
  { intros r. destruct (offset <? 0) eqn:E; to_prop; [rewrite Z.sgn_neg by lia|rewrite Z.sgn_pos by lia]; done. }
  rewrite Hsign. cbn [mbind option_bind]. rewrite read_digits_digits by done.
  cbn [mbind option_bind]. rewrite expect_app. cbn [mbind option_bind].
  rewrite read_digits_digits by lia. cbn [mbind option_bind].
  destruct (a mod 60 =? 0) eqn:E; to_prop.
  - f_equal. unfold a in *. lia.
  - change (":" +:+ digits 2 (a mod 60)) with (String ":" (digits 2 (a mod 60))). cbv iota.
    change (String ":" (digits 2 (a mod 60))) with (":" +:+ digits 2 (a mod 60)).
    rewrite expect_app. cbn [mbind option_bind]. rewrite <-(string_app_nil (digits 2 (a mod 60))).
    rewrite read_digits_digits by lia. cbn. f_equal. unfold a in *. lia.
Qed.

(** The text of a time reads back as the same instant, with its offset. *)
Lemma isoformat_roundtrip t offset : in_calendar t → Z.abs offset < 86400 →
  fromisoformat (isoformat t offset) = Some (t - offset * 1000000, offset).
Proof.
  unfold in_calendar, isoformat. intros Hy Ho.
  pose proof (civil_bounds (t / 86400000000)) as Hb. pose proof (civil_roundtrip (t / 86400000000)) as Hr.
  destruct (civil_from_days (t / 86400000000)) as [[y m] d]. destruct Hb as [Hm Hd].
  set (us := t mod 86400000000). set (s := us / 1000000).
  assert (0 <= us < 86400000000) as Hus by (apply Z.mod_pos_bound; lia).
  assert (t = days_from_civil y m d * 86400000000 + us) as Ht.
  { rewrite Hr. unfold us. pose proof (Z.div_mod t 86400000000 ltac:(lia)). lia. }
  assert (0 <= s < 86400 ∧ us = s * 1000000 + us mod 1000000 ∧ 0 <= us mod 1000000 < 1000000) as (Hs & Hsu & Hf).
  { unfold s. clearbody us. clear -Hus. Z.to_euclidean_division_equations. lia. }
  assert (s = s / 3600 * 3600 + s / 60 mod 60 * 60 + s mod 60
    ∧ 0 <= s / 3600 < 24 ∧ 0 <= s / 60 mod 60 < 60 ∧ 0 <= s mod 60 < 60) as (Hss & H1 & H2 & H3).
  { clearbody s. clear -Hs. Z.to_euclidean_division_equations. lia. }
  unfold fromisoformat.
  do 6 (rewrite read_digits_digits by (change (10 ^ Z.of_nat 2) with 100; change (10 ^ Z.of_nat 4) with 10000; lia);
        cbn [mbind option_bind]; try (rewrite expect_app; cbn [mbind option_bind])).
  set (tail := (if offset <? 0 then "-" else "+") +:+ _).
  assert ((match expect "." ((if us mod 1000000 =? 0 then "" else "." +:+ digits 6 (us mod 1000000)) +:+ tail) with
    | Some s => read_digits 6 0 s | None => Some (0, (if us mod 1000000 =? 0 then "" else "." +:+ digits 6 (us mod 1000000)) +:+ tail)
    end) = Some (us mod 1000000, tail)) as ->.
  { destruct (us mod 1000000 =? 0) eqn:E; to_prop.
    - change ("" +:+ tail) with tail. unfold tail.
      assert (∀ r, expect "." ((if offset <? 0 then "-" else "+") +:+ r) = None) as ->; [|by rewrite E].
      intros r. destruct (offset <? 0); by apply (expect_not "."%char).
    - rewrite string_app_assoc, expect_app. by rewrite read_digits_digits. }
  cbn [mbind option_bind]. unfold tail. rewrite read_offset_text by done. cbn [mbind option_bind].
  rewrite !Z.mul_0_l, !Z.add_0_l. do 2 f_equal. clear -Ht Hsu Hss. lia.
Qed.
