(* ===== verification/Responses.v ===== *)
(** * Responses as JSON

    The wrappers of [linux_net/models/response.py] as the documents a client
    gets: times in the configured zone, computed fields, workers, the result of
    a connection test, the times of a detached task. *)

From S2P Require Import Prelude PyLib Models World Registry AuditLog Times.

Section responses.
(** [zoneinfo.ZoneInfo], the offset of the zone at an instant, where there is
    such a zone; the value of the variable [TZ], empty when it is not set *)
Context (ZoneInfo : string → option (Z → Z)) (TZ : string).

(** ** Times *)
Inductive datetime := NaiveTime (t : Z) | AwareTime (t : Z).

(** A naive time is one of UTC. *)
Definition instant (dt : datetime) : Z := match dt with NaiveTime t | AwareTime t => t end.

Definition configured_offset (t : Z) : Z :=
  if String.eqb TZ "" then 0 else match ZoneInfo TZ with Some zone => zone t | None => 0 end.

Definition year_in_range (t : Z) : bool :=
  let '(y, _, _) := civil_from_days (t / 86400000000) in (1 <=? y)%Z && (y <=? 9999)%Z.

Definition _serialize_datetime_with_tz (dt : option datetime) : res pyval :=
  match dt with
  | None => Ok PNone
  | Some dt =>
      let offset := configured_offset (instant dt) in
      let local := (instant dt + offset * 1000000)%Z in
      if year_in_range local then Ok (PStr (isoformat local offset))
      else Err (OtherError "OverflowError" "date value out of range")
  end.

(** ** [JobInResponse] *)
Definition opt_secs (o : option Z) : pyval := match o with Some us => PFloat us | None => PNone end.

Definition JobResult_dump (r : JobResult) : list (string * pyval) :=
  [("type", PInt (jr_type r));
   ("retval", match jr_retval r with
              | Some l => PList ((λ x, PDict (DriverExecutionResult_dump x)) <$> l)
              | None => PNone
              end);
   ("error", match jr_error r with
             | Some (t, m) => PDict [("type", PStr t); ("message", PStr m)]
             | None => PNone
             end)].

(** The times of RQ are aware. *)
Definition job_time (o : option Z) : res pyval := _serialize_datetime_with_tz (AwareTime <$> o).

Definition JobInResponse_dump (j : JobInResponse) : res (list (string * pyval)) :=
  created_at ← job_time (ji_created_at j);
  enqueued_at ← job_time (ji_enqueued_at j);
  started_at ← job_time (ji_started_at j);
  ended_at ← job_time (ji_ended_at j);
  Ok [("id", PStr (ji_id j)); ("status", PStr (ji_status j)); ("created_at", created_at);
      ("enqueued_at", enqueued_at); ("started_at", started_at); ("ended_at", ended_at);
      ("queue", PStr (ji_queue j)); ("worker", opt_str (ji_worker j));
      ("result", match ji_result j with Some r => PDict (JobResult_dump r) | None => PNone end);
      ("task_id", opt_str (ji_task_id j)); ("request_id", opt_str (ji_request_id j));
      ("job_trace_id", opt_str (ji_job_trace_id j)); ("device_name", opt_str (ji_device_name j));
      ("command", opt_strs (ji_command j));
      ("duration", opt_secs (JobInResponse.duration j)); ("queue_time", opt_secs (JobInResponse.queue_time j))].

(** ** [WorkerInResponse], of the attributes of an [rq] worker *)
Record RqWorker := mkRqWorker {
  rw_name : string;
  rw_state : string;
  rw_pid : option Z;
  rw_hostname : option string;
  rw_queue_names : list string;
  rw_last_heartbeat : option datetime;
  rw_birth_date : option datetime;
  rw_successful_job_count : option Z;
  rw_failed_job_count : option Z;
}.

Record WorkerInResponse := mkWorkerInResponse {
  wr_name : string;
  wr_status : string;
  wr_pid : option Z;
  wr_hostname : option string;
  wr_queues : option (list string);
  wr_last_heartbeat : option datetime;
  wr_birth_at : option datetime;
  wr_successful_job_count : option Z;
  wr_failed_job_count : option Z;
}.

Definition from_worker (worker : RqWorker) : WorkerInResponse :=
  mkWorkerInResponse (rw_name worker) (rw_state worker) (rw_pid worker) (rw_hostname worker)
    (Some (rw_queue_names worker)) (rw_last_heartbeat worker) (rw_birth_date worker)
    (rw_successful_job_count worker) (rw_failed_job_count worker).

Definition opt_int (o : option Z) : pyval := match o with Some z => PInt z | None => PNone end.

Definition WorkerInResponse_dump (r : WorkerInResponse) : res (list (string * pyval)) :=
  last_heartbeat ← _serialize_datetime_with_tz (wr_last_heartbeat r);
  birth_at ← _serialize_datetime_with_tz (wr_birth_at r);
  Ok [("name", PStr (wr_name r)); ("status", PStr (wr_status r)); ("pid", opt_int (wr_pid r));
      ("hostname", opt_str (wr_hostname r)); ("queues", opt_strs (wr_queues r));
      ("last_heartbeat", last_heartbeat); ("birth_at", birth_at);
      ("successful_job_count", opt_int (wr_successful_job_count r));
      ("failed_job_count", opt_int (wr_failed_job_count r))].

(** ** [ConnectionTestResponse]; [latency] in microseconds, [result] as dumped *)
Record ConnectionTestResponse := mkConnectionTest {
  ct_success : bool;
  ct_latency : option Z;
  ct_error : option string;
  ct_result : option (list (string * pyval));
  ct_timestamp : option datetime;
}.

Definition ConnectionTestResponse_dump (r : ConnectionTestResponse) : res (list (string * pyval)) :=
  timestamp ← _serialize_datetime_with_tz (ct_timestamp r);
  Ok [("success", PBool (ct_success r)); ("latency", opt_secs (ct_latency r)); ("error", opt_str (ct_error r));
      ("result", match ct_result r with Some d => PDict d | None => PNone end); ("timestamp", timestamp)].

(** ** The times of a task *)

(** [convert_timestamps]: a number of seconds becomes a time of UTC.  A text is
    read by pydantic. *)
Definition convert_timestamp (v : pyval) : option datetime :=
  match v with
  | PInt z => Some (AwareTime (z * 1000000))
  | PFloat us => Some (AwareTime us)
  | PBool b => Some (AwareTime (if b then 1000000 else 0))
  | _ => None
  end.

(** ** What a client reads *)
Lemma year_in_calendar t : year_in_range t = true ↔ in_calendar t.
Proof.
  unfold year_in_range, in_calendar. destruct (civil_from_days _) as [[y m] d].
  rewrite andb_true_iff, !Z.leb_le. done.
Qed.

Context (zones_small : ∀ name zone t, ZoneInfo name = Some zone → (Z.abs (zone t) < 86400)%Z).

Lemma offset_small t : (Z.abs (configured_offset t) < 86400)%Z.
Proof.
  unfold configured_offset. destruct (String.eqb TZ ""); [done|].
  destruct (ZoneInfo TZ) as [zone|] eqn:E; [by eapply zones_small|done].
Qed.

Lemma serialize_reads dt v : _serialize_datetime_with_tz (Some dt) = Ok v →
  ∃ text, v = PStr text ∧ fromisoformat text = Some (instant dt, configured_offset (instant dt)).
Proof.
  unfold _serialize_datetime_with_tz. destruct (year_in_range _) eqn:Hy; [|done]. intros [= <-].
  apply year_in_calendar in Hy. eexists. split; [done|].
  rewrite isoformat_roundtrip by (done || apply offset_small). do 2 f_equal. lia.
Qed.

(** A time in a document, as the client's library reads it *)
Definition read_time (v : pyval) : option Z :=
  match v with PStr text => (fromisoformat text ≫= λ r, Some r.1) | _ => None end.

Lemma job_time_reads o v : job_time o = Ok v → read_time v = o ∧ (o = None → v = PNone).
Proof.
  unfold job_time. destruct o as [t|]; cbn [fmap option_fmap option_map]; [|by intros [= <-]].
  intros (text & -> & Ht)%serialize_reads. cbn [read_time]. rewrite Ht. done.
Qed.

(** C34. The document of a job.  Whatever zone is configured, unknown ones
    included, each of its four times reads back as the instant RQ recorded and is
    null when there is none, and the duration and the time in the queue are the
    differences of the times read; the document is refused only when a time falls
    outside the calendar. *)
Theorem job_document_times j :
  match JobInResponse_dump j with
  | Ok d =>
      let read k := read_time (dict_get_or k PNone d) in
      read "created_at" = ji_created_at j ∧ read "enqueued_at" = ji_enqueued_at j
      ∧ read "started_at" = ji_started_at j ∧ read "ended_at" = ji_ended_at j
      ∧ dict_get_or "duration" PNone d
        = opt_secs (s ← read "started_at"; e ← read "ended_at"; Some (e - s)%Z)
      ∧ dict_get_or "queue_time" PNone d
        = opt_secs (q ← read "enqueued_at"; s ← read "started_at"; Some (s - q)%Z)
  | Err _ => ∃ t, Some t ∈ [ji_created_at j; ji_enqueued_at j; ji_started_at j; ji_ended_at j]
      ∧ ¬ in_calendar (t + configured_offset t * 1000000)
  end.
Proof.
  assert (∀ o e, job_time o = Err e → ∃ t, o = Some t ∧ ¬ in_calendar (t + configured_offset t * 1000000)) as Herr.
  { intros [t|] e; [|done]. unfold job_time, _serialize_datetime_with_tz. cbn [fmap option_fmap option_map instant].
    destruct (year_in_range _) eqn:Hy; [done|]. intros _. exists t. split; [done|]. intros Hc%year_in_calendar.
    congruence. }
  unfold JobInResponse_dump.
  destruct (job_time (ji_created_at j)) as [v1|e1] eqn:E1; cbn [mbind res_bind];
    [|destruct (Herr _ _ E1) as (t & -> & Ht); exists t; split; [left|done]].
  destruct (job_time (ji_enqueued_at j)) as [v2|e2] eqn:E2; cbn [mbind res_bind];
    [|destruct (Herr _ _ E2) as (t & -> & Ht); exists t; split; [right; left|done]].
  destruct (job_time (ji_started_at j)) as [v3|e3] eqn:E3; cbn [mbind res_bind];
    [|destruct (Herr _ _ E3) as (t & -> & Ht); exists t; split; [do 2 right; left|done]].
  destruct (job_time (ji_ended_at j)) as [v4|e4] eqn:E4; cbn [mbind res_bind];
    [|destruct (Herr _ _ E4) as (t & -> & Ht); exists t; split; [do 3 right; left|done]].
  destruct (job_time_reads _ _ E1) as [R1 _], (job_time_reads _ _ E2) as [R2 _],
    (job_time_reads _ _ E3) as [R3 _], (job_time_reads _ _ E4) as [R4 _].
  set (d := (_ :: _)). cbv zeta.
  change (dict_get_or "created_at" PNone d) with v1. change (dict_get_or "enqueued_at" PNone d) with v2.
  change (dict_get_or "started_at" PNone d) with v3. change (dict_get_or "ended_at" PNone d) with v4.
  change (dict_get_or "duration" PNone d) with (opt_secs (JobInResponse.duration j)).
  change (dict_get_or "queue_time" PNone d) with (opt_secs (JobInResponse.queue_time j)).
  rewrite R1, R2, R3, R4. split_and!; try done.
Qed.
End responses.

(** ** Examples *)
Module ToyResponses.
Definition zones (name : string) : option (Z → Z) :=
  if String.eqb name "Asia/Shanghai" then Some (λ _, 28800%Z)
  else if String.eqb name "America/St_Johns" then Some (λ _, (-12600)%Z) else None.

Lemma zones_small name zone t : zones name = Some zone → (Z.abs (zone t) < 86400)%Z.
Proof. unfold zones. repeat case_match; by intros [= <-]. Qed.

(** 2024-02-29 16:00:00.25 UTC *)
Definition t0 : Z := 1709222400250000.

Example in_zones :
  (λ tz, _serialize_datetime_with_tz zones tz (Some (NaiveTime t0))) <$> [""; "Asia/Shanghai"; "America/St_Johns"; "Mars"]
  = [Ok (PStr "2024-02-29T16:00:00.250000+00:00"); Ok (PStr "2024-03-01T00:00:00.250000+08:00");
     Ok (PStr "2024-02-29T12:30:00.250000-03:30"); Ok (PStr "2024-02-29T16:00:00.250000+00:00")].
Proof. by vm_compute. Qed.

Definition job : JobInResponse :=
  mkJobInResponse "j1" "finished" "FifoQ" (Some t0) (Some t0) (Some (t0 + 2000000)%Z) (Some (t0 + 2500000)%Z)
    None None None None None None None.

Lemma job_document_times_witness : ∃ d, JobInResponse_dump zones "Asia/Shanghai" job = Ok d
  ∧ read_time (dict_get_or "started_at" PNone d) = Some (t0 + 2000000)%Z
  ∧ dict_get_or "duration" PNone d = PFloat 500000.
Proof.
  pose proof (job_document_times zones "Asia/Shanghai" zones_small job) as Hj.
  assert (is_ok (JobInResponse_dump zones "Asia/Shanghai" job) = true) as Hok by (vm_compute; reflexivity).
  destruct (JobInResponse_dump zones "Asia/Shanghai" job) as [d|e]; [|discriminate].
  exists d. split; [reflexivity|]. destruct Hj as (_ & _ & Hs & He & Hd & _). split; [exact Hs|].
  rewrite Hd, Hs, He. reflexivity.
Defined.
End ToyResponses.
