(* ===== verification/Receiver.v ===== *)
(** * The webhook receiver

    [tools/webhook/webhook_server.py]: a server that keeps the deliveries it
    gets, with its counters, its bounded memory and its pages.  The handlers
    give up control only before they read their state, so each is one step.
    What it logs of a request is not modelled. *)

From Stdlib Require Import Ascii SpecFloat.
From stdpp Require Import sorting.
From S2P Require Import Prelude PyLib Models Schedulers World Registry Webhook Stats.

(** [WebhookConfig] *)
Record WebhookConfig := mkWebhookConfig {
  max_messages : Z;
  retention_hours : Z;
  cleanup_interval : Z;
}.
Definition default_receiver : WebhookConfig := mkWebhookConfig 100000 24 1000.

(** An element of [webhook_messages]; its timestamp is [datetime.now()], a time
    without a zone. *)
Record Message := mkMessage {
  m_timestamp : Z;
  m_method : string;
  m_body : pyval;
  m_message_id : Z;
  m_job_id : pyval;
  m_is_success : option bool;
}.

(** The variables of the module *)
Record State := mkState {
  webhook_messages : list Message;
  message_counter : Z;
  success_count : Z;
  failure_count : Z;
  _last_cleanup_counter : Z;
}.
Definition initial : State := mkState [] 0 0 0 0.

(** [deque.append] with [maxlen] *)
Definition append (maxlen : nat) (m : Message) (l : list Message) : list Message :=
  let l := l ++ [m] in drop (length l - maxlen) l.

(** ** What a body says *)

(** [s.split(sep, 1)], when there are two parts *)
Fixpoint split_once (sep s : string) : option (string * string) :=
  if String.prefix sep s then Some ("", String.substring (String.length sep) (String.length s) s)
  else match s with
       | EmptyString => None
       | String a s => prod_map (String a) id <$> split_once sep s
       end.

(** [s.replace("\\n", "\n")] *)
Fixpoint unescape (s : string) : string :=
  match s with
  | String a (String b t as u) =>
      if Ascii.eqb a (ascii_of_nat 92) && Ascii.eqb b "n"%char then String (ascii_of_nat 10) (unescape t)
      else String a (unescape u)
  | _ => s
  end.

(** [s.endswith(t)] *)
Fixpoint ends_in (s t : string) : bool :=
  String.eqb s t || match s with EmptyString => false | String _ s => ends_in s t end.

Definition parse_result_string (result_str : string) : list (string * pyval) :=
  let raw := [("raw", PStr result_str)] in
  if startswith result_str "('" && ends_in result_str "')" then
    match split_once "', '" (String.substring 2 (String.length result_str - 4) result_str) with
    | Some (t, m) => [("type", PStr t); ("message", PStr (unescape m))]
    | None => raw
    end
  else raw.

Definition good_events : list string := ["job.completed"; "detached.completed"; "detached.log_push"].

(** [determine_success_status]; a body that is no dictionary has no [get]. *)
Definition determine_success_status (body : pyval) : res (option bool) :=
  match body with
  | PDict b =>
      let event_type := dict_get_or "event_type" PNone b in
      if truthy event_type then
        Ok (Some (match event_type with PStr e => bool_decide (e ∈ good_events) | _ => false end))
      else
        match dict_get_or "result" (PStr "") b with
        | PDict result =>
            match dict_get "type" result with
            | Some (PStr t) => Ok (Some (String.eqb t "successful"))
            | Some (PInt z) => Ok (Some (z =? 1)%Z)
            | Some (PBool x) => Ok (Some x)
            | _ => Ok (Some (match dict_get "error" result with None | Some PNone => true | _ => false end))
            end
        | PStr result =>
            let parsed := parse_result_string result in
            Ok (Some (negb (dict_has "type" parsed && dict_has "message" parsed)))
        | _ => Ok None
        end
  | _ => Err (OtherError "AttributeError" "object has no attribute 'get'")
  end.

(** ** Receiving *)

(** The counters once a body is classified *)
Definition counted_state (is_success : option bool) (s : State) : State :=
  mkState (webhook_messages s) (message_counter s)
    (success_count s + (if decide (is_success = Some true) then 1 else 0))
    (failure_count s + (if decide (is_success = Some false) then 1 else 0)) (_last_cleanup_counter s).

Definition job_id_of (body : pyval) : pyval :=
  match body with PDict b => dict_get_or "id" PNone b | _ => PNone end.

Record Receipt := mkReceipt {
  rc_job_id : pyval;
  rc_total_messages : Z;
  rc_is_success : option bool;
}.

Section receiver.
Context (cfg : WebhookConfig).

(** [webhook_handler] of what [request.json()] gives, at [now]; whether a
    cleanup is scheduled *)
Definition webhook_handler (method : string) (json : res pyval) (now : Z) : M State (Receipt * bool) :=
  body ← (match json with Ok body => mret body | Err _ => raise (HTTPException 400 "Invalid JSON") end);
  is_success ← of_res (determine_success_status body);
  update (λ s,
    let s := counted_state is_success s in
    let n := (message_counter s + 1)%Z in
    let m := mkMessage now method body n (job_id_of body) is_success in
    let due := (cleanup_interval cfg <=? n - _last_cleanup_counter s)%Z in
    let job_id := if truthy (job_id_of body) then job_id_of body else PStr "Unknown" in
    ((mkReceipt job_id n is_success, due),
     mkState (append (Z.to_nat (max_messages cfg)) m (webhook_messages s)) n (success_count s) (failure_count s)
       (if due then n else _last_cleanup_counter s))).

(** [cleanup_old_messages] *)
Definition cleanup_old_messages (now : Z) : M State Z :=
  if (retention_hours cfg <=? 0)%Z then mret 0%Z
  else
    let cutoff := (now - retention_hours cfg * seconds 3600)%Z in
    update (λ s,
      let filtered := filter (λ m, (cutoff <= m_timestamp m)%Z) (webhook_messages s) in
      let removed := (Z.of_nat (length (webhook_messages s)) - Z.of_nat (length filtered))%Z in
      (removed, mkState (if (0 <? removed)%Z then filtered else webhook_messages s) (message_counter s)
                  (success_count s) (failure_count s) (_last_cleanup_counter s))).

(** [clear_messages] *)
Definition clear_messages : M State Z :=
  update (λ s, (message_counter s, mkState [] 0 0 0 (_last_cleanup_counter s))).

(** ** Reading *)

(** What [datetime.fromisoformat] gives: a time with or without a zone *)
Inductive iso := Naive (t : Z) | Aware (t : Z).
Context (fromisoformat : string → option iso).

(** One bound of the times: a text that is no time is passed over, and a time
    with a zone compares with none of the stored ones. *)
Definition time_filter (ok : Z → Z → bool) (bound : option string) (l : list Message) : res (list Message) :=
  if negb (str_truthy bound) then Ok l
  else
    match fromisoformat (default "" bound) with
    | None => Ok l
    | Some (Naive t) => Ok (filter (λ m, ok (m_timestamp m) t = true) l)
    | Some (Aware _) =>
        match l with [] => Ok [] | _ => Err (TypeError "can't compare offset-naive and offset-aware datetimes") end
    end.

Definition newer (x y : Message) : bool := (m_timestamp y <=? m_timestamp x)%Z.

Record Query := mkQuery {
  q_job_id : option string;
  q_start_time : option string;
  q_end_time : option string;
  q_is_success : option bool;
}.

(** The messages a query asks for, newest first *)
Definition matching (q : Query) (s : State) : res (list Message) :=
  let l := webhook_messages s in
  let l := if str_truthy (q_job_id q) then filter (λ m, m_job_id m = opt_str (q_job_id q)) l else l in
  l ← time_filter (λ t u, u <=? t)%Z (q_start_time q) l;
  l ← time_filter (λ t u, t <=? u)%Z (q_end_time q) l;
  let l := match q_is_success q with None => l | b => filter (λ m, m_is_success m = b) l end in
  Ok (sort_by newer l).

Definition filter_messages (q : Query) (limit offset : nat) (s : State) : res (list Message * nat) :=
  l ← matching q s; Ok (take limit (drop offset l), length l).

Record Page := mkPage {
  pg_total_count : nat;
  pg_has_more : bool;
  pg_messages : list Message;
}.

(** [get_all_messages] *)
Definition get_all_messages (q : Query) (limit offset : nat) (s : State) : res Page :=
  '(messages, total) ← filter_messages q limit offset s;
  Ok (mkPage total (offset + length messages <? total)%nat messages).

Definition count_status (b : option bool) (l : list Message) : nat := length (filter (λ m, m_is_success m = b) l).

(** [success_count / total_classified * 100], rounded to hundredths *)
Definition success_rate (s : State) : Z :=
  let total_classified := (success_count s + failure_count s)%Z in
  if (0 <? total_classified)%Z
  then rounded 100 (Float.mul (Float.div (Float.of_Z (success_count s)) (Float.of_Z total_classified)) (Float.of_Z 100))
  else 0.

Record Statistics := mkStatistics {
  sx_received : Z;
  sx_in_memory : nat;
  sx_success : Z * nat;
  sx_failure : Z * nat;
  sx_unknown : Z * nat;
  sx_rate : Z;
}.

(** [get_statistics]; [webhook_status] gives the same totals and the last five
    messages. *)
Definition get_statistics (s : State) : Statistics :=
  let l := webhook_messages s in
  mkStatistics (message_counter s) (length l) (success_count s, count_status (Some true) l)
    (failure_count s, count_status (Some false) l)
    ((message_counter s - success_count s - failure_count s)%Z, count_status None l) (success_rate s).

Definition webhook_status (s : State) : Z * nat * (Z * Z * Z) * list Message :=
  let l := webhook_messages s in
  (message_counter s, length l,
   (success_count s, failure_count s, message_counter s - success_count s - failure_count s)%Z,
   drop (length l - 5) l).

(** ** Export as a table *)
Context `{Json} (isoformat : Z → string).

Definition message_dict (m : Message) : list (string * pyval) :=
  [("timestamp", PStr (isoformat (m_timestamp m))); ("method", PStr (m_method m)); ("body", m_body m);
   ("message_id", PInt (m_message_id m)); ("job_id", m_job_id m);
   ("is_success", from_option PBool PNone (m_is_success m))].

(** [json.dumps(v) if isinstance(v, (dict, list)) else v] *)
Definition csv_value (v : pyval) : pyval :=
  match v with PDict _ | PList _ => PStr (dumps v) | _ => v end.

Definition csv_row (m : Message) : list (string * pyval) :=
  foldl (λ row kv,
    match kv with
    | ("body", PDict b) => foldl (λ row kv, dict_set ("body." +:+ kv.1) (csv_value kv.2) row) row b
    | (k, v) => dict_set k (csv_value v) row
    end) [] (message_dict m).

Definition fieldnames_of (m : Message) : list string :=
  (message_dict m).*1 ++ match m_body m with PDict b => (λ kv, "body." +:+ kv.1) <$> b | _ => [] end.

(** The header: a set of names, sorted *)
Definition csv_header (l : list Message) : list string :=
  sort_by String.leb (remove_dups (l ≫= fieldnames_of)).

(** [csv.DictWriter.writerow]: a name that is not in the header is an error, a
    column that is not in the row is empty. *)
Definition writerow (header : list string) (row : list (string * pyval)) : res (list pyval) :=
  if forallb (λ kv, bool_decide (kv.1 ∈ header)) row then Ok ((λ k, dict_get_or k (PStr "") row) <$> header)
  else Err (ValueError "dict contains fields not in fieldnames").

Definition export_csv (q : Query) (s : State) : res (list string * list (list pyval)) :=
  '(messages, _) ← filter_messages q (Z.to_nat 100000) 0 s;
  match messages with
  | [] => Ok ([], [])
  | _ =>
      let header := csv_header messages in
      rows ← mapR (λ m, writerow header (csv_row m)) messages;
      Ok (header, rows)
  end.
End receiver.

(** ** What stays true of the receiver *)
Section invariant.
Context (cfg : WebhookConfig).

(** A delivery, well-formed or not, a cleanup at some later time, a reset *)
Inductive receiver_step : State → State → Prop :=
  | step_receive method json now s : receiver_step s (webhook_handler cfg method json now s).2
  | step_cleanup now s : receiver_step s (cleanup_old_messages cfg now s).2
  | step_clear s : receiver_step s (clear_messages s).2.

Record receiver_ok (s : State) : Prop := {
  ok_length : length (webhook_messages s) ≤ Z.to_nat (max_messages cfg);
  ok_ids : StronglySorted (λ m n, m_message_id m < m_message_id n)%Z (webhook_messages s);
  ok_range : Forall (λ m, 1 ≤ m_message_id m ≤ message_counter s)%Z (webhook_messages s);
  ok_success : (Z.of_nat (count_status (Some true) (webhook_messages s)) ≤ success_count s)%Z;
  ok_failure : (Z.of_nat (count_status (Some false) (webhook_messages s)) ≤ failure_count s)%Z;
  ok_unknown : (Z.of_nat (count_status None (webhook_messages s))
                ≤ message_counter s - success_count s - failure_count s)%Z;
}.

Lemma count_status_sublist b l k : l `sublist_of` k → count_status b l ≤ count_status b k.
Proof.
  unfold count_status. induction 1 as [|x l k Hl IH|x l k Hl IH]; [done| |]; rewrite !filter_cons;
    repeat case_decide; cbn [length]; lia.
Qed.

Lemma count_status_app b l k : count_status b (l ++ k) = count_status b l + count_status b k.
Proof. unfold count_status. by rewrite filter_app, length_app. Qed.

Lemma sorted_sublist {A} (R : A → A → Prop) l k : l `sublist_of` k → StronglySorted R k → StronglySorted R l.
Proof.
  induction 1 as [|x l k Hl IH|x l k Hl IH]; [done| |]; intros [Hk Hx]%StronglySorted_inv; [|by apply IH].
  constructor; [by apply IH|]. apply Forall_forall. intros y Hy. rewrite Forall_forall in Hx. apply Hx.
  by eapply elem_of_sublist.
Qed.

(** Keeping only a part of the messages keeps what is true of them. *)
Lemma receiver_ok_sublist l s c : l `sublist_of` webhook_messages s → receiver_ok s →
  receiver_ok (mkState l (message_counter s) (success_count s) (failure_count s) c).
Proof.
  intros Hl [H1 H2 H3 H4 H5 H6]. pose proof (λ b, count_status_sublist b _ _ Hl) as Hc. split; cbn -[count_status append].
  - apply sublist_length in Hl. lia.
  - by eapply sorted_sublist.
  - apply Forall_forall. intros m Hm. rewrite Forall_forall in H3. apply H3. by eapply elem_of_sublist.
  - specialize (Hc (Some true)). lia.
  - specialize (Hc (Some false)). lia.
  - specialize (Hc None). lia.
Qed.

Lemma append_sublist n m l : append n m l `sublist_of` l ++ [m].
Proof. unfold append. apply sublist_drop. Qed.

(** Receiving with memory enough, before the oldest message goes *)
Lemma sorted_snoc {A} (R : A → A → Prop) l x : StronglySorted R l → Forall (λ y, R y x) l → StronglySorted R (l ++ [x]).
Proof.
  induction 1 as [|y l Hl IH Hy]; intros Hx; [repeat constructor|]. apply Forall_cons in Hx as [Hyx Hx].
  cbn. constructor; [by apply IH|]. apply Forall_app. auto.
Qed.

Lemma receive_ok method body now is_success s : receiver_ok s →
  let n := (message_counter s + 1)%Z in
  let s' := counted_state is_success s in
  ∀ c, receiver_ok (mkState (append (Z.to_nat (max_messages cfg)) (mkMessage now method body n (job_id_of body) is_success)
                               (webhook_messages s)) n (success_count s') (failure_count s') c).
Proof.
  intros [H1 H2 H3 H4 H5 H6] n s' c. set (m := mkMessage _ _ _ _ _ _).
  pose proof (λ b, count_status_sublist b _ _ (append_sublist (Z.to_nat (max_messages cfg)) m (webhook_messages s))) as Hc.
  assert (∀ b, count_status b [m] = if decide (is_success = b) then 1 else 0) as Hm.
  { intros b. unfold count_status.
    destruct (decide (is_success = b)) as [Hb|Hb]; [by rewrite filter_cons_True|by rewrite filter_cons_False]. }
  assert (Forall (λ x, 1 ≤ m_message_id x ≤ n)%Z (webhook_messages s ++ [m])) as Hr.
  { apply Forall_app. split; [|apply Forall_singleton; cbn; lia].
    eapply Forall_impl; [exact H3|]. intros x. cbn. lia. }
  split; cbn -[count_status append counted_state].
  - unfold append. rewrite length_drop, length_app. cbn. lia.
  - eapply sorted_sublist; [apply append_sublist|]. apply sorted_snoc; [done|].
    eapply Forall_impl; [exact H3|]. intros x. cbn. lia.
  - apply Forall_forall. intros x Hx. rewrite Forall_forall in Hr. apply Hr.
    by eapply elem_of_sublist, append_sublist.
  - specialize (Hc (Some true)). rewrite count_status_app, Hm in Hc. unfold s', counted_state; cbn [success_count failure_count].
    repeat case_decide; lia.
  - specialize (Hc (Some false)). rewrite count_status_app, Hm in Hc. unfold s', counted_state; cbn [success_count failure_count].
    repeat case_decide; lia.
  - specialize (Hc None). rewrite count_status_app, Hm in Hc. unfold s', counted_state, n; cbn [success_count failure_count].
    repeat case_decide; simplify_eq; try (destruct is_success as [[]|]; try done); lia.
Qed.

(** Over any history of deliveries, cleanups and resets, the memory is bounded
    and in the order of the ids, which are those the counter gave out; of each
    kind no more messages are in memory than the counters say were received. *)
Theorem receiver_invariant s : rtc receiver_step initial s → receiver_ok s.
Proof.
  assert (receiver_ok initial) as Hi by (split; cbn; [lia|constructor|constructor|lia..]).
  intros Hs. revert Hi. induction Hs as [s|s1 s2 s3 Hstep Hs IH]; [done|]. intros Hok. apply IH. clear IH Hs.
  destruct Hstep as [method json now s|now s|s].
  - unfold webhook_handler. destruct json as [body|e]; [|done]. unfold mbind, M_bind, mret, M_ret, of_res, update.
    destruct (determine_success_status body) as [b|e]; [|done]. exact (receive_ok method body now b s Hok _).
  - unfold cleanup_old_messages. destruct (_ <=? 0)%Z; [done|]. unfold update. cbn -[count_status].
    apply receiver_ok_sublist; [|done]. destruct (_ <? _)%Z; [apply sublist_filter|done].
  - unfold clear_messages, update. cbn. split; cbn; [lia|constructor|constructor|lia..].
Qed.
End invariant.

Lemma res_bind_ok {A B} (r : res A) (f : A → res B) b : (r ≫= f) = Ok b → ∃ a, r = Ok a ∧ f a = Ok b.
Proof. destruct r; [by eexists|done]. Qed.

(** ** The bundled webhook's deliveries *)
Lemma event_truthy d : truthy (PStr (event_of d)) = true.
Proof.
  unfold event_of, str_truthy. destruct (dl_event_type d) as [e|]; [|by destruct (dl_is_success d)].
  destruct (String.eqb_spec e "") as [->|He]; cbn; [by destruct (dl_is_success d)|].
  by apply negb_true_iff, String.eqb_neq.
Qed.

(** The receiver understands the bundled webhook: whatever a delivery carries,
    it is answered with the job's id and stored under it, as a success exactly
    when its event is a completion or a piece of a log, and one of the two
    counters goes up by one. *)
Theorem delivery_received cfg d t now s :
  let ok := bool_decide (event_of d ∈ good_events) in
  ∃ due s', webhook_handler cfg "POST" (Ok (PDict (payload_at d t))) now s
      = (Ok (mkReceipt (PStr (if String.eqb (ji_id (dl_job d)) "" then "Unknown" else ji_id (dl_job d)))
               (message_counter s + 1) (Some ok), due), s')
    ∧ message_counter s' = (message_counter s + 1)%Z
    ∧ success_count s' = (success_count s + (if ok then 1 else 0))%Z
    ∧ failure_count s' = (failure_count s + (if ok then 0 else 1))%Z
    ∧ (0 < Z.to_nat (max_messages cfg) → ∃ m, last (webhook_messages s') = Some m
         ∧ m_job_id m = PStr (ji_id (dl_job d)) ∧ m_is_success m = Some ok).
Proof.
  intros ok. unfold webhook_handler, mbind, M_bind, mret, M_ret, of_res.
  assert (determine_success_status (PDict (payload_at d t)) = Ok (Some ok)) as ->.
  { unfold determine_success_status. change (dict_get_or "event_type" PNone (payload_at d t)) with (PStr (event_of d)).
    by rewrite event_truthy. }
  unfold update. change (job_id_of (PDict (payload_at d t))) with (PStr (ji_id (dl_job d))).
  eexists _, _. split; [f_equal; f_equal; f_equal; f_equal; cbn; by destruct (String.eqb _ _)|].
  cbn -[append]. split; [done|]. split; [by destruct ok|]. split; [by destruct ok|]. intros Hmax.
  set (m := mkMessage _ _ _ _ _ _). exists m. split; [|done]. unfold append.
  rewrite drop_app_le; [apply last_snoc|]. rewrite length_app. cbn. lia.
Qed.

(** ** Pages *)
Section pages.
Context (fromisoformat : string → option iso).

Lemma newer_sorted l : StronglySorted (λ x y, newer x y = true) (sort_by newer l).
Proof.
  apply sort_by_sorted; unfold newer; intros *; rewrite !Z.leb_le; lia.
Qed.

Lemma pages_take {A} (l : list A) limit n :
  concat ((λ k, take limit (drop (k * limit) l)) <$> seq 0 n) = take (n * limit) l.
Proof.
  induction n as [|n IH]; [done|]. rewrite seq_S, fmap_app, concat_app, IH. cbn [fmap list_fmap concat].
  rewrite app_nil_r. cbn [plus]. rewrite take_take_drop. f_equal. lia.
Qed.

(** Paging through the messages loses none and repeats none: the pages put
    together are what the query asks for, newest first, and there is more
    exactly when a page ends before the last of them. *)
Theorem pages_complete q limit s l : matching fromisoformat q s = Ok l →
  StronglySorted (λ x y, newer x y = true) l
  ∧ ∃ page : nat → Page, (∀ k, get_all_messages fromisoformat q limit (k * limit) s = Ok (page k))
      ∧ (∀ n, concat ((λ k, pg_messages (page k)) <$> seq 0 n) = take (n * limit) l)
      ∧ (∀ k, pg_has_more (page k) = true ↔ k * limit + limit < length l)
      ∧ (∀ k, pg_total_count (page k) = length l).
Proof.
  intros Hl. split.
  { unfold matching in Hl. apply res_bind_ok in Hl as (l1 & _ & Hl). apply res_bind_ok in Hl as (l2 & _ & Hl).
    injection Hl as <-. apply newer_sorted. }
  exists (λ k, let messages := take limit (drop (k * limit) l) in
            mkPage (length l) (k * limit + length messages <? length l)%nat messages).
  split_and!; [|apply pages_take| |done].
  - intros k. unfold get_all_messages, filter_messages. by rewrite Hl.
  - intros k. cbn [pg_has_more]. rewrite Nat.ltb_lt, length_take, length_drop. lia.
Qed.
End pages.

(** ** The exported table *)
Section export.
Context (fromisoformat : string → option iso) `{Json} (isoformat : Z → string).

Lemma body_columns row b x :
  x ∈ (foldl (λ row kv, dict_set ("body." +:+ kv.1) (csv_value kv.2) row) row b).*1 →
  x ∈ row.*1 ∨ x ∈ (λ kv : string * pyval, "body." +:+ kv.1) <$> b.
Proof.
  revert row. induction b as [|[k v] b IH]; intros row; cbn [foldl fmap list_fmap]; [by left|].
  intros [Hx|Hx]%IH; [|right; by apply elem_of_cons; right].
  apply dict_set_keys in Hx as [->|Hx]; [right; by apply elem_of_cons; left|by left].
Qed.

(** Every cell of a row has a column. *)
Lemma csv_row_keys m x : x ∈ (csv_row isoformat m).*1 → x ∈ fieldnames_of isoformat m.
Proof.
  unfold csv_row, fieldnames_of, message_dict. rewrite elem_of_app. destruct (m_body m) eqn:Eb; cbn [foldl].
  7: intros Hx; do 3 (apply dict_set_keys in Hx as [->|Hx]; [left; set_solver|]);
     apply body_columns in Hx as [Hx|Hx]; [|by right]; do 2 (apply dict_set_keys in Hx as [->|Hx]; [left; set_solver|]);
     by apply elem_of_nil in Hx.
  all: intros Hx; left; repeat (apply dict_set_keys in Hx as [->|Hx]; [set_solver|]); by apply elem_of_nil in Hx.
Qed.

Lemma writerow_ok l m : m ∈ l →
  ∃ row, writerow (csv_header isoformat l) (csv_row isoformat m) = Ok row
    ∧ length row = length (csv_header isoformat l).
Proof.
  intros Hm. unfold writerow. rewrite (proj2 (forallb_forall _ _)).
  - eexists. split; [done|]. by rewrite length_fmap.
  - intros [k v] Hk%list_elem_of_In. apply bool_decide_eq_true_2. unfold csv_header.
    rewrite sort_by_elem_of, elem_of_remove_dups, list_elem_of_bind. exists m. split; [|done].
    apply csv_row_keys. by apply (list_elem_of_fmap_2 fst _ (k, v)).
Qed.

Lemma mapR_all {A B} (f : A → res B) (P : B → Prop) l : (∀ x, x ∈ l → ∃ y, f x = Ok y ∧ P y) →
  ∃ ys, mapR f l = Ok ys ∧ length ys = length l ∧ Forall P ys.
Proof.
  induction l as [|x l IH]; intros Hl; [by exists []|].
  destruct (Hl x) as (y & Hy & HP); [by apply elem_of_cons; left|].
  destruct IH as (ys & Hys & Hlen & HPs); [intros z Hz; apply Hl; by apply elem_of_cons; right|].
  exists (y :: ys). cbn [mapR]. rewrite Hy. cbn. rewrite Hys. cbn. split_and!; [done|by rewrite Hlen|by constructor].
Qed.

(** The export never fails on what it has selected: one row per message, up to
    its hundred thousand, as wide as the header. *)
Theorem export_complete q s l : matching fromisoformat q s = Ok l →
  ∃ header rows, export_csv fromisoformat isoformat q s = Ok (header, rows)
    ∧ length rows = Nat.min (Z.to_nat 100000) (length l) ∧ Forall (λ row, length row = length header) rows.
Proof.
  intros Hl. unfold export_csv, filter_messages. rewrite Hl. cbn [mbind res_bind]. rewrite drop_0.
  assert (length (take (Z.to_nat 100000) l) = Nat.min (Z.to_nat 100000) (length l)) as Hlen by apply length_take.
  rewrite <-Hlen. destruct (take _ l) as [|m k] eqn:E; [by exists [], []|]. rewrite <-E.
  destruct (mapR_all (λ z, writerow (csv_header isoformat (m :: k)) (csv_row isoformat z))
              (λ row, length row = length (csv_header isoformat (m :: k))) (m :: k)) as (rows & Hr & Hn & Hf).
  - intros x Hx. exact (writerow_ok (m :: k) x Hx).
  - exists (csv_header isoformat (m :: k)), rows. rewrite E. by rewrite Hr.
Qed.
End export.

(** ** Findings *)

(** A time with a zone, which the query's text is prepared for, fails the
    request as soon as there is a message. *)
Lemma zone_fails fromisoformat t text q s :
  fromisoformat text = Some (Aware t) → text ≠ "" → webhook_messages s ≠ [] →
  q_job_id q = None → q_start_time q = Some text →
  ∃ m, matching fromisoformat q s = Err (TypeError m).
Proof.
  intros Ht Hne Hm Hj Hs. unfold matching. rewrite Hj, Hs. change (str_truthy None) with false. cbv iota.
  assert (∀ ok, ∃ m, time_filter fromisoformat ok (Some text) (webhook_messages s) = Err (TypeError m)) as Hf.
  { intros ok. unfold time_filter. cbn [str_truthy default from_option id].
    rewrite (proj2 (String.eqb_neq text "") Hne), Ht. destruct (webhook_messages s); [done|]. by eexists. }
  destruct (Hf (λ t u, (u <=? t)%Z)) as (m & Hf1). exists m. by rewrite Hf1.
Qed.

Module ToyReceiver.
Definition small : WebhookConfig := mkWebhookConfig 2 24 2.
Definition deliver (n : nat) (s : State) : State :=
  Nat.iter n (λ s, (webhook_handler small "POST" (Ok (PDict [("event_type", PStr "job.completed")])) 0 s).2) s.
Definition cleanup_due (s : State) : bool :=
  match (webhook_handler small "POST" (Ok (PDict [])) 0 s).1 with Ok (_, due) => due | Err _ => false end.

(** A reset leaves the mark of the last cleanup: after four messages and a
    reset it takes six more, not two, before a cleanup is due. *)
Example clear_delays_cleanup :
  cleanup_due (deliver 1 initial) = true
  ∧ (λ n, cleanup_due (deliver n (clear_messages (deliver 4 initial)).2)) <$> [1; 2; 3; 4; 5] = [false; false; false; false; true].
Proof. by vm_compute. Qed.

(** A body that is JSON but no dictionary ends in an error of the server. *)
Example list_body_fails : is_ok (webhook_handler small "POST" (Ok (PList [])) 0 initial).1 = false.
Proof. by vm_compute. Qed.

Lemma receiver_invariant_witness : receiver_ok small (deliver 3 initial) ∧ message_counter (deliver 3 initial) = 3%Z.
Proof.
  split; [|vm_compute; reflexivity]. apply (receiver_invariant small). unfold deliver. cbn [Nat.iter].
  eapply rtc_l; [apply (step_receive small "POST" (Ok (PDict [("event_type", PStr "job.completed")])) 0)|].
  eapply rtc_l; [apply (step_receive small "POST" (Ok (PDict [("event_type", PStr "job.completed")])) 0)|].
  eapply rtc_l; [apply (step_receive small "POST" (Ok (PDict [("event_type", PStr "job.completed")])) 0)|].
  apply rtc_refl.
Defined.
End ToyReceiver.
