(* ===== verification/ReceiverLog.v ===== *)
(** * What the webhook receiver logs, and how it starts

    [tools/webhook/webhook_server.py]: the log of a request, which the handler
    writes before it looks at the body; the command line and the settings it
    changes; the two pages without state. *)

From Stdlib Require Import Ascii.
From S2P Require Import Prelude PyLib Models World Registry Webhook Receiver.

(** The log: a record per call *)
Notation Log := (M (list string)).
Definition info (line : string) : Log unit := λ l, (Ok tt, l ++ [line]).

Definition tabs (n : nat) : string := String.concat "" (repeat "    " n).

(** [for line in text.split("\n"): if line.strip()] *)
Definition full_lines (text : string) : list string :=
  filter (λ line, strip line ≠ "") (split_char newline text).

Section log.
(** [str] of floats, lists and dictionaries; [json.dumps(body, indent=6, ...)];
    the time as text *)
Context (repr : pyval → string) (dumps_indented : pyval → string) (received_time : string).

(** ** [format_json_pretty] *)
Fixpoint format_json_pretty (data : pyval) (indent_level : nat) {struct data} : string :=
  match data with
  | PDict data =>
      let indent := tabs indent_level in
      join nl ((fix go data :=
        match data with
        | [] => []
        | (key, value) :: data =>
            match value with
            | PDict _ => [indent +:+ "[" +:+ key +:+ "]:"; format_json_pretty value (S indent_level)]
            | PStr text =>
                if 80 <? String.length text
                then (indent +:+ "[" +:+ key +:+ "]:")
                       :: ((λ line, indent +:+ "    " +:+ line) <$> full_lines text)
                else [indent +:+ "[" +:+ key +:+ "]: " +:+ text]
            | value => [indent +:+ "[" +:+ key +:+ "]: " +:+ py_str repr value]
            end ++ go data
        end) data)
  | _ => ""
  end.

(** ** [log_request_details] *)
Definition secret_header (name : string) : bool := bool_decide (lower name ∈ ["authorization"; "x-api-key"]).

Definition shown_header (name value : string) : string :=
  if secret_header name then
    if 20 <? String.length value
    then String.substring 0 12 value +:+ "..." +:+ String.substring (String.length value - 8) 8 value
    else "***"
  else value.

Definition rule : string := String.concat "" (repeat "=" 80).

Definition log_error (error : list (string * pyval)) : Log unit :=
  _ ← info ("    Error Type: " +:+ py_str repr (dict_get_or "type" (PStr "Unknown") error));
  _ ← info "    Error Details:";
  match dict_get_or "message" (PStr "No message") error with
  | PStr text => forM (full_lines text) (λ line, info ("       " +:+ line))
  | v => raise (OtherError "AttributeError" ("'" +:+ py_type v +:+ "' object has no attribute 'split'"))
  end.

Definition log_result (result : pyval) : Log unit :=
  match result with
  | PStr text =>
      let parsed := parse_result_string text in
      if dict_has "type" parsed && dict_has "message" parsed then
        _ ← info "    Job Execution Failed";
        _ ← info ("    Error Type: " +:+ py_str repr (dict_get_or "type" PNone parsed));
        _ ← info "    Error Details:";
        match dict_get_or "message" PNone parsed with
        | PStr message => forM (full_lines message) (λ line, info ("       " +:+ line))
        | _ => mret tt
        end
      else
        _ ← info "    Raw Result:";
        info ("       " +:+ py_str repr (dict_get_or "raw" result parsed))
  | PDict d =>
      let error := dict_get_or "stderr" PNone d in
      if truthy error then
        _ ← info "    Job Execution Failed";
        match error with
        | PDict error => log_error error
        | error => info ("    Error: " +:+ py_str repr error)
        end
      else
        _ ← info "    Job Execution Successful";
        _ ← info "    Execution Result:";
        info (format_json_pretty result 2)
  | result => info ("    Result Data: " +:+ py_str repr result)
  end.

Definition log_other (b : list (string * pyval)) : Log unit :=
  match filter (λ kv, kv.1 ∉ ["id"; "result"]) b with
  | [] => mret tt
  | other_fields =>
      _ ← info "    Other Information:";
      forM other_fields (λ kv, info ("       " +:+ kv.1 +:+ ": " +:+ py_str repr kv.2))
  end.

Definition log_body (body : pyval) : Log unit :=
  match body with
  | PDict b =>
      _ ← info ("    Job ID: " +:+ py_str repr (dict_get_or "id" (PStr "Unknown") b));
      _ ← log_result (dict_get_or "result" (PStr "") b);
      log_other b
  | _ =>
      _ ← info "    Raw Data:";
      info ("       " +:+ dumps_indented body)
  end.

Definition log_header (h : string * string) : Log unit :=
  info ("    " +:+ h.1 +:+ ": " +:+ shown_header h.1 h.2).

Definition log_request_details (verbose_logging : bool) (method url : string) (headers : list (string * string))
    (body : pyval) : Log unit :=
  if verbose_logging then
    _ ← info rule;
    _ ← info "Linux-Net Webhook Request Details";
    _ ← info rule;
    _ ← info ("Received Time: " +:+ received_time);
    _ ← info ("Request Method: " +:+ method);
    _ ← info ("Request URL: " +:+ url);
    _ ← info "Request Headers:";
    _ ← forM headers log_header;
    _ ← info "Request Body Data:";
    _ ← log_body body;
    info rule
  else
    let job_id := match body with PDict b => dict_get_or "id" (PStr "Unknown") b | _ => PStr "Unknown" end in
    info ("Webhook received: job_id=" +:+ py_str repr job_id +:+ ", method=" +:+ method).

(** The handler with its log.  The log of the request comes before anything
    else, and an exception of it is one of the handler; [raw_body] is what
    [request.body()] decodes to, [response_text] the answer as text. *)
Definition receive (cfg : WebhookConfig) (verbose_logging : bool) (response_text : Receipt → string)
    (method url : string) (headers : list (string * string)) (json raw_body : res pyval) (now : Z)
    : M (list string * State) (Receipt * bool) := λ '(log, s),
  match json with
  | Err e =>
      (Err (HTTPException 400 "Invalid JSON"),
       (log ++ ("JSON parsing failed: " +:+ exn_str e)
          :: match raw_body with Ok text => ["Raw request body: " +:+ py_str repr text] | Err _ => [] end, s))
  | Ok body =>
      match log_request_details verbose_logging method url headers body log with
      | (Err e, log) => (Err e, (log, s))
      | (Ok _, log) =>
          match webhook_handler cfg method json now s with
          | (Ok (receipt, due), s) =>
              (Ok (receipt, due), (if verbose_logging then log ++ ["Response: " +:+ response_text receipt] else log, s))
          | (Err e, s) => (Err e, (log, s))
          end
      end
  end.

(** ** What the log does *)

(** It only writes, at the end. *)
Definition writes_only (m : Log unit) : Prop := ∀ l, ∃ more, m l = (Ok tt, l ++ more).

Lemma writes_info line : writes_only (info line).
Proof. intros l. by eexists. Qed.

Lemma writes_ret : writes_only (mret tt).
Proof. intros l. exists []. by rewrite app_nil_r. Qed.

Lemma writes_bind (m k : Log unit) : writes_only m → writes_only k → writes_only (m ≫= λ _, k).
Proof.
  intros Hm Hk l. unfold mbind, M_bind. destruct (Hm l) as [a ->]. destruct (Hk (l ++ a)) as [b ->].
  exists (a ++ b). by rewrite (assoc (++)).
Qed.

Lemma writes_forM {A} (f : A → Log unit) l : (∀ x, writes_only (f x)) → writes_only (forM l f).
Proof. intros Hf. induction l as [|x l IH]; [apply writes_ret|]. by apply writes_bind. Qed.

Hint Resolve writes_info writes_ret writes_bind writes_forM : core.

(** The one kind of body whose details cannot be logged: an error under
    [stderr] whose message is no text. *)
Definition unloggable (body : pyval) : bool :=
  match body with
  | PDict b =>
      match dict_get_or "result" (PStr "") b with
      | PDict d =>
          match dict_get_or "stderr" PNone d with
          | PDict ((_ :: _) as error) =>
              match dict_get_or "message" (PStr "No message") error with PStr _ => false | _ => true end
          | _ => false
          end
      | _ => false
      end
  | _ => false
  end.

Definition no_split (e : exn) : Prop := ∃ t, e = OtherError "AttributeError" ("'" +:+ t +:+ "' object has no attribute 'split'").

(** A log that writes and then goes on as [b] says *)
Definition ends (b : bool) (m : Log unit) : Prop := ∀ l, ∃ more,
  (m l).2 = l ++ more ∧ if b then ∃ e, (m l).1 = Err e ∧ no_split e else (m l).1 = Ok tt.

Lemma ends_writes m : writes_only m → ends false m.
Proof. intros Hm l. destruct (Hm l) as [a Ha]. exists a. by rewrite Ha. Qed.

Lemma ends_after b (m k : Log unit) : writes_only m → ends b k → ends b (m ≫= λ _, k).
Proof.
  intros Hm Hk l. unfold mbind, M_bind. destruct (Hm l) as [a ->]. destruct (Hk (l ++ a)) as (c & Hc & Hr).
  exists (a ++ c). by rewrite (assoc (++)).
Qed.

Lemma ends_before b (m k : Log unit) : ends b m → writes_only k → ends b (m ≫= λ _, k).
Proof.
  intros Hm Hk l. unfold mbind, M_bind. destruct (Hm l) as (a & Ha & Hr).
  destruct (m l) as [[[]|e] l1]; simpl in *; subst l1.
  - destruct b; [by destruct Hr as (e & ? & _)|]. destruct (Hk (l ++ a)) as [c ->].
    exists (a ++ c). by rewrite (assoc (++)).
  - destruct b; [|done]. by exists a.
Qed.

Lemma log_error_ends error : ends (match dict_get_or "message" (PStr "No message") error with
                                   | PStr _ => false | _ => true end) (log_error error).
Proof.
  unfold log_error. apply ends_after; [auto|]. apply ends_after; [auto|].
  destruct (dict_get_or _ _ _); try (by apply ends_writes; auto);
    (intros lg; exists []; rewrite app_nil_r; split; [done|]; eexists; split; [done|by eexists]).
Qed.

Lemma log_result_ends result : ends (unloggable (PDict [("result", result)])) (log_result result).
Proof.
  unfold unloggable, log_result. change (dict_get_or "result" (PStr "") [("result", result)]) with result.
  destruct result as [|b|z|z|text|l|d]; try (apply ends_writes; by auto).
  - apply ends_writes. destruct (_ && _); [|auto].
    apply writes_bind; [auto|]. apply writes_bind; [auto|]. apply writes_bind; [auto|].
    destruct (dict_get_or _ _ _); auto.
  - destruct (dict_get_or "stderr" PNone d) as [|b|z|z|text|l|error]; cbn [truthy];
      try (apply ends_writes; repeat case_match; by auto).
    destruct error as [|x error]; [apply ends_writes; by auto|].
    apply ends_after; [auto|]. apply log_error_ends.
Qed.

Lemma log_other_writes b : writes_only (log_other b).
Proof. unfold log_other. destruct (filter _ b); auto. Qed.

Lemma log_body_ends body : ends (unloggable body) (log_body body).
Proof.
  destruct body as [|b|z|z|text|l|b]; try (apply ends_writes; unfold log_body; by auto).
  unfold log_body. apply ends_after; [auto|]. apply ends_before; [|apply log_other_writes].
  pose proof (log_result_ends (dict_get_or "result" (PStr "") b)) as Hr. done.
Qed.

Lemma log_details_ends verbose method url headers body :
  ends (verbose && unloggable body) (log_request_details verbose method url headers body).
Proof.
  unfold log_request_details. destruct verbose; [|by apply ends_writes; auto].
  do 7 (apply ends_after; [auto|]). apply ends_after; [unfold log_header; auto|].
  apply ends_after; [auto|]. apply ends_before; [apply log_body_ends|auto].
Qed.

(** ** Secrets in the log *)

(** What is shown of a secret header: nothing of a short one, the first twelve
    and the last eight characters of a longer one. *)
Definition alike (h1 h2 : string * string) : Prop :=
  h1.1 = h2.1 ∧ (h1.2 = h2.2 ∨ secret_header h1.1 = true ∧
    ((String.length h1.2 ≤ 20 ∧ String.length h2.2 ≤ 20)
     ∨ (20 < String.length h1.2 ∧ 20 < String.length h2.2
        ∧ String.substring 0 12 h1.2 = String.substring 0 12 h2.2
        ∧ String.substring (String.length h1.2 - 8) 8 h1.2 = String.substring (String.length h2.2 - 8) 8 h2.2))).

Lemma alike_shown h1 h2 : alike h1 h2 → shown_header h1.1 h1.2 = shown_header h2.1 h2.2.
Proof.
  intros [-> [->|[Hs Hv]]]; [done|]. unfold shown_header. rewrite Hs.
  destruct Hv as [[H1 H2]|(H1 & H2 & Ha & Hb)].
  - by rewrite !(proj2 (Nat.ltb_ge _ _)).
  - rewrite !(proj2 (Nat.ltb_lt _ _)) by done. by rewrite Ha, Hb.
Qed.

Lemma headers_alike hs1 hs2 l : Forall2 alike hs1 hs2 → forM hs1 log_header l = forM hs2 log_header l.
Proof.
  intros Hf. revert l. induction Hf as [|h1 h2 hs1 hs2 Hh _ IH]; intros l; [done|].
  cbn [forM]. unfold mbind, M_bind, log_header, info at 1 3. rewrite (alike_shown _ _ Hh), (proj1 Hh). apply IH.
Qed.

(** What the receiver does with a request, its log included.  Without
    verbose logging the log is one line and the request is handled as if there
    were none.  With it the details are logged first: they fail exactly when the
    body holds an error whose message is no text, and then the delivery is
    lost, neither stored nor counted, with a 500.  And the log tells nothing of
    a key of at most twenty characters, and of a longer one only its first
    twelve and last eight. *)
Theorem receive_spec cfg verbose response_text method url headers body raw_body now log s :
  let '(r, (log', s')) := receive cfg verbose response_text method url headers (Ok body) raw_body now (log, s) in
  (if verbose && unloggable body then s' = s ∧ (∃ e, r = Err e ∧ no_split e)
   else (r, s') = webhook_handler cfg method (Ok body) now s)
  ∧ (∃ more, log' = log ++ more ∧ (verbose = false → length more = 1))
  ∧ ∀ headers', Forall2 alike headers headers' →
      receive cfg verbose response_text method url headers' (Ok body) raw_body now (log, s) = (r, (log', s')).
Proof.
  assert (∀ headers', Forall2 alike headers headers' →
    log_request_details verbose method url headers body log
    = log_request_details verbose method url headers' body log) as Hsame.
  { intros hs' Hf. unfold log_request_details. destruct verbose; [|done].
    unfold mbind, M_bind. cbn [info]. by rewrite (headers_alike _ _ _ Hf). }
  assert (verbose = false → (log_request_details verbose method url headers body log).2
    = log ++ [default "" (last (log_request_details verbose method url headers body log).2)]) as Hone.
  { intros ->. unfold log_request_details, info. cbn [snd]. by rewrite last_snoc. }
  destruct (log_details_ends verbose method url headers body log) as (more & Hmore & Hend).
  destruct (receive _ _ _ _ _ _ _ _ _ _) as [r [log' s']] eqn:E.
  assert (∀ hs', Forall2 alike headers hs' →
    receive cfg verbose response_text method url hs' (Ok body) raw_body now (log, s) = (r, (log', s'))) as Hall.
  { intros hs' Hf. rewrite <-E. unfold receive. by rewrite (Hsame hs' Hf). }
  split; [|split; [|exact Hall]]; unfold receive in E;
    destruct (log_request_details verbose method url headers body log) as [ro lo] eqn:El; simpl in *; subst lo.
  - destruct (verbose && unloggable body).
    + destruct Hend as (e & -> & He). injection E as <- <- <-. eauto.
    + rewrite Hend in E. destruct (webhook_handler _ _ _ _ _) as [[[receipt due]|e] s1]; by injection E as <- <- <-.
  - assert (∃ more', log' = log ++ more ++ more' ∧ (verbose = false → more' = [])) as (m' & -> & Hm').
    { destruct ro as [[]|e]; [|injection E as <- <- <-; exists []; by rewrite app_nil_r].
      destruct (webhook_handler _ _ _ _ _) as [[[receipt due]|e] s1]; injection E as <- <- <-;
        [destruct verbose|]; [|exists []; by rewrite app_nil_r..].
      eexists. by rewrite <-(assoc (++)). }
    exists (more ++ m'). split; [done|]. intros Hv. rewrite (Hm' Hv), app_nil_r.
    specialize (Hone Hv). apply app_inv_head in Hone. by rewrite Hone.
Qed.
End log.

(** ** The start of the server *)

(** [WebhookConfig] with the fields [Receiver] leaves out *)
Record Settings := mkSettings {
  st_config : WebhookConfig;
  st_server_port : Z;
  st_server_host : string;
  st_enable_cors : bool;
  st_verbose_logging : bool;
}.
Definition default_settings : Settings := mkSettings default_receiver 8888 "0.0.0.0" true false.

(** The options of the command line that were given; [--no-cors] and
    [--verbose] are flags. *)
Record Args := mkArgs {
  ar_host : option string;
  ar_port : option Z;
  ar_max_messages : option Z;
  ar_retention_hours : option Z;
  ar_no_cors : bool;
  ar_verbose : bool;
  ar_cleanup_interval : option Z;
}.

Definition configure (config : Settings) (args : Args) : Settings :=
  let c := st_config config in
  mkSettings
    (mkWebhookConfig (default (max_messages c) (ar_max_messages args))
       (default (retention_hours c) (ar_retention_hours args))
       (default (cleanup_interval c) (ar_cleanup_interval args)))
    (default (st_server_port config) (ar_port args)) (default (st_server_host config) (ar_host args))
    (negb (ar_no_cors args)) (ar_verbose args).

(** The messages in a deque of the new length, which keeps the last ones *)
Definition resize (maxlen max_messages : Z) (s : State) : res State :=
  if (maxlen =? max_messages)%Z then Ok s
  else if (max_messages <? 0)%Z then Err (ValueError "maxlen must be non-negative")
  else
    let old_messages := webhook_messages s in
    Ok (mkState (drop (length old_messages - Z.to_nat max_messages) old_messages) (message_counter s)
          (success_count s) (failure_count s) (_last_cleanup_counter s)).

(** The part of the main program before [uvicorn.run]: the settings, the
    messages, and whether the CORS middleware is added *)
Definition start_server (config : Settings) (args : Args) (has_cors : bool) (s : State)
    : res (Settings * State * bool) :=
  let config' := configure config args in
  s ← resize (max_messages (st_config config)) (max_messages (st_config config')) s;
  Ok (config', s, st_enable_cors config' && negb has_cors).

(** ** The pages without state *)
Definition health_check (timestamp : string) : list (string * pyval) :=
  [("status", PStr "healthy"); ("timestamp", PStr timestamp);
   ("server", PStr "Linux-Net Webhook Test Server"); ("version", PStr "1.0.0")].

Definition root (config : Settings) (s : State) : list (string * pyval) :=
  [("service", PStr "Linux-Net Webhook Test Server"); ("version", PStr "1.0.0");
   ("endpoints", PDict [("webhook", PStr "POST /webhook - Receive webhook requests");
      ("status", PStr "GET /webhook/status - Check reception status");
      ("messages", PStr "GET /webhook/messages - View messages (with filtering & pagination)");
      ("stats", PStr "GET /webhook/stats - Get detailed statistics");
      ("export", PStr "GET /webhook/export - Export messages (JSON/CSV)");
      ("clear", PStr "DELETE /webhook/clear - Clear message records");
      ("health", PStr "GET /health - Health check")]);
   ("webhook_url", PStr ("http://" +:+ st_server_host config +:+ ":" +:+ str_of_Z (st_server_port config) +:+ "/webhook"));
   ("total_messages", PInt (message_counter s));
   ("configuration", PDict [("max_messages", PInt (max_messages (st_config config)));
      ("retention_hours", PInt (retention_hours (st_config config)));
      ("cors_enabled", PBool (st_enable_cors config))])].

(** The server starts in order, whatever is in memory: with the limit of the
    command line the newest messages are kept, as many as fit, and the invariant
    of [Receiver] holds for the new settings; it fails only for a negative limit
    that is not the old one. *)
Lemma start_server_ok config args has_cors s :
  receiver_ok (st_config config) s →
  match start_server config args has_cors s with
  | Ok (config', s', cors) => config' = configure config args
      ∧ receiver_ok (st_config config') s' ∧ (∃ old, webhook_messages s = old ++ webhook_messages s'
          ∧ (old ≠ [] → length (webhook_messages s') = Z.to_nat (max_messages (st_config config'))))
  | Err e => (max_messages (st_config (configure config args)) < 0)%Z ∧ is_exception e = true
  end.
Proof.
  intros Hok. unfold start_server, resize. set (n := max_messages (st_config (configure config args))).
  destruct (_ =? n)%Z eqn:En; to_prop.
  - cbn [mbind res_bind]. split; [done|]. split; [|exists []; split; [done|by intros []]].
    destruct Hok. split; auto. fold n. by rewrite <-En.
  - destruct (n <? 0)%Z eqn:Eneg; to_prop; [by split|]. cbn [mbind res_bind]. split; [done|].
    set (l := webhook_messages s). split.
    + pose proof (receiver_ok_sublist _ (drop (length l - Z.to_nat n) l) s (_last_cleanup_counter s)
        (sublist_drop _ _) Hok) as [H1 H2 H3 H4 H5 H6].
      split; auto. cbn [webhook_messages]. fold n. rewrite length_drop. lia.
    + exists (take (length l - Z.to_nat n) l). cbn [webhook_messages]. rewrite take_drop. split; [done|].
      intros Hne. rewrite length_drop. fold n.
      assert (length l - Z.to_nat n ≠ 0) as Hz by (intros Hz; by rewrite Hz in Hne). lia.
Qed.

Module ToyReceiverLog.
(** Of a key of 21 characters all but one are logged. *)
Lemma key_shown : shown_header "X-API-KEY" "abcdefghijklmnopqrstu" = "abcdefghijkl...nopqrstu".
Proof. by vm_compute. Qed.

(** With verbose logging a delivery is lost for an error without a text. *)
Definition failing : pyval :=
  PDict [("event_type", PStr "job.failed"); ("result", PDict [("stderr", PDict [("message", PNone)])])].
Definition received (verbose : bool) : res (Receipt * bool) * (list string * State) :=
  receive py_type py_type "now" default_receiver verbose (λ _, "") "POST" "/webhook" [] (Ok failing) (Ok failing) 0 ([], initial).

Lemma delivery_lost :
  message_counter (received false).2.2 = 1%Z ∧ message_counter (received true).2.2 = 0%Z
  ∧ (received true).1 = Err (OtherError "AttributeError" "'NoneType' object has no attribute 'split'").
Proof. by vm_compute. Qed.
End ToyReceiverLog.
