(* ===== verification/Manifests.v ===== *)
(** * The manifest checker

    [scripts/validate_k8s_manifests.py]: the check of the Kubernetes manifests
    without a cluster.  A file is its path and its text; the walk over the
    directory ([iter_yaml_files]: the files that match, in the order of their
    paths) is a parameter of [main]. *)

From S2P Require Import Prelude PyLib.

(** ** The checker *)
Definition REQUIRED_PREFIXES : list string := ["apiVersion:"; "kind:"; "metadata:"].

(** [if current: docs.append("\n".join(current))] *)
Definition close_doc (docs : list string) (current : list string) : list string :=
  match current with [] => docs | _ => docs ++ [join nl current] end.

(** The loop over the lines *)
Fixpoint split_loop (lines : list string) (docs current : list string) : list string :=
  match lines with
  | [] => close_doc docs current
  | line :: lines =>
      if String.eqb (strip line) "---" then split_loop lines (close_doc docs current) []
      else split_loop lines docs (current ++ [line])
  end.

Definition split_documents (text : string) : list string := split_loop (splitlines text) [] [].

Definition blank (s : string) : bool := String.eqb (strip s) "".

(** [documents] of [validate_file] *)
Definition documents (text : string) : list string :=
  filter (λ doc, blank doc = false) (split_documents text).

Definition stripped_lines (document : string) : list string :=
  strip <$> filter (λ line, blank line = false ∧ startswith line "#" = false) (splitlines document).

(** [stripped_lines.index(x)], where [x] is among them *)
Fixpoint index_of (x : string) (l : list string) : nat :=
  match l with [] => 0 | y :: l => if String.eqb y x then 0 else S (index_of x l) end.

Definition at_doc (path : string) (index : Z) (what : string) : string :=
  path +:+ ":" +:+ str_of_Z index +:+ ": " +:+ what.

Definition quoted (s : string) : string := "'" +:+ s +:+ "'".

Definition prefix_error (path : string) (index : Z) (lines : list string) (prefix : string)
    : list string :=
  if any (λ line, startswith line prefix) lines then []
  else [at_doc path index ("missing required field "
          +:+ quoted (String.substring 0 (String.length prefix - 1) prefix))].

Definition name_error (path : string) (index : Z) (lines : list string) : list string :=
  if existsb (String.eqb "metadata:") lines then
    let metadata_index := index_of "metadata:" lines in
    let following := take 7 (drop (metadata_index + 1) lines) in
    if any (λ line, startswith line "name:") following then []
    else [at_doc path index "metadata.name is required"]
  else [].

Definition document_errors (path : string) (index : Z) (document : string) : list string :=
  let lines := stripped_lines document in
  concat (prefix_error path index lines <$> REQUIRED_PREFIXES) ++ name_error path index lines.

Definition validate_file (path text : string) : list string :=
  match documents text with
  | [] => [path +:+ ": no YAML documents found"]
  | docs => concat (imap (λ i d, document_errors path (Z.of_nat i + 1) d) docs)
  end.

(** [main], for the files under [root]: the exit status, and what is written to
    the standard output and to the standard error *)
Definition main (root : string) (files : list (string * string)) : Z * string * string :=
  match files with
  | [] => (1, "", "No Kubernetes manifests found under " +:+ root)%Z
  | _ =>
      match concat ((λ '(path, text), validate_file path text) <$> files) with
      | [] => (0, "Validated " +:+ str_of_Z (Z.of_nat (length files))
                    +:+ " Kubernetes manifest files", "")%Z
      | errors => (1, "", join nl errors)%Z
      end
  end.

(** ** What it accepts *)

(** A list cut at its separators *)
Fixpoint cut {A} (sep : A → bool) (l : list A) : list A * list (list A) :=
  match l with
  | [] => ([], [])
  | x :: l => let '(g, gs) := cut sep l in if sep x then ([], g :: gs) else (x :: g, gs)
  end.

Definition pieces {A} (sep : A → bool) (l : list A) : list (list A) :=
  let '(g, gs) := cut sep l in filter (λ g, g ≠ []) (g :: gs).

Definition separator (line : string) : bool := String.eqb (strip line) "---".

Lemma split_loop_pieces lines docs current :
  split_loop lines docs current = docs ++ (join nl <$>
    (let '(g, gs) := cut separator lines in filter (λ g, g ≠ []) ((current ++ g) :: gs))).
Proof.
  assert (∀ docs current gs, docs ++ (join nl <$> filter (λ g, g ≠ []) (current :: gs))
    = close_doc docs current ++ (join nl <$> filter (λ g, g ≠ []) gs)) as Hclose.
  { intros ds cur gs. destruct cur as [|x cur]; [done|].
    rewrite filter_cons_True by naive_solver. simpl. by rewrite <-(assoc (++)). }
  revert docs current. induction lines as [|line lines IH]; intros docs current; simpl.
  - rewrite app_nil_r, Hclose. simpl. by rewrite app_nil_r.
  - fold (separator line). destruct (separator line).
    + rewrite IH. destruct (cut separator lines) as [g gs]. by rewrite app_nil_r, (Hclose docs current).
    + rewrite IH. destruct (cut separator lines) as [g gs]. by rewrite <-(assoc (++)).
Qed.

Lemma split_documents_pieces text :
  split_documents text = join nl <$> pieces separator (splitlines text).
Proof.
  unfold split_documents, pieces. rewrite split_loop_pieces. by destruct (cut _ _).
Qed.

(** A document is in order: every required field begins some line that counts,
    and within the seven lines after the first line [metadata:] there is a
    name. *)
Record doc_ok (document : string) : Prop := {
  ok_fields : ∀ prefix, prefix ∈ REQUIRED_PREFIXES →
    ∃ line, line ∈ stripped_lines document ∧ startswith line prefix = true;
  ok_name : ∀ before after, stripped_lines document = before ++ "metadata:" :: after →
    "metadata:" ∉ before → ∃ line, line ∈ take 7 after ∧ startswith line "name:" = true;
}.

Lemma index_of_first x l : x ∈ l → ∃ before after,
  l = before ++ x :: after ∧ x ∉ before ∧ index_of x l = length before.
Proof.
  induction l as [|y l IH]; [by intros ?%not_elem_of_nil|]. simpl. intros Hx.
  destruct (String.eqb y x) eqn:E.
  - apply String.eqb_eq in E as ->. exists [], l. split_and!; [done|apply not_elem_of_nil|done].
  - apply String.eqb_neq in E. apply elem_of_cons in Hx as [?|Hx]; [done|].
    destruct (IH Hx) as (b & a & -> & Hb & ->). exists (y :: b), a.
    split_and!; [done|by rewrite not_elem_of_cons|done].
Qed.

Lemma first_unique {A} (x : A) b a b' a' :
  b ++ x :: a = b' ++ x :: a' → x ∉ b → x ∉ b' → b' = b ∧ a' = a.
Proof.
  revert b'. induction b as [|y b IH]; intros [|y' b']; simpl; rewrite ?not_elem_of_cons.
  - by intros [= ->].
  - intros [= -> _] _ [? _]. done.
  - intros [= -> _] [? _]. done.
  - intros [= -> Ht] [_ Hb] [_ Hb']. by destruct (IH b' Ht Hb Hb') as [-> ->].
Qed.

Lemma prefix_error_nil path i lines prefix : prefix_error path i lines prefix = []
  ↔ ∃ line, line ∈ lines ∧ startswith line prefix = true.
Proof. unfold prefix_error. rewrite <-any_true. by destruct (any _ _). Qed.

Lemma name_error_nil path i lines : name_error path i lines = [] ↔
  ∀ before after, lines = before ++ "metadata:" :: after → "metadata:" ∉ before →
    ∃ line, line ∈ take 7 after ∧ startswith line "name:" = true.
Proof.
  unfold name_error. destruct (existsb (String.eqb "metadata:") lines) eqn:E.
  - apply existsb_exists in E as (y & Hy%list_elem_of_In & <-%String.eqb_eq).
    destruct (index_of_first _ _ Hy) as (b & a & Hl & Hb & ->).
    assert (drop (length b + 1) lines = a) as ->.
    { rewrite Hl. clear. induction b as [|y b IH]; [done|]. exact IH. }
    transitivity (∃ line, line ∈ take 7 a ∧ startswith line "name:" = true).
    { rewrite <-any_true. by destruct (any _ _). }
    split; [|eauto]. intros Hn b' a' Hl' Hb'.
    assert (b' = b ∧ a' = a) as [-> ->]; [|done].
    rewrite Hl in Hl'. by destruct (first_unique _ _ _ _ _ Hl' Hb Hb') as [-> ->].
  - split; [|done]. intros _ b a -> _. exfalso.
    rewrite existsb_app in E. simpl in E. by rewrite orb_true_r in E.
Qed.

Lemma document_errors_nil path i d : document_errors path i d = [] ↔ doc_ok d.
Proof.
  unfold document_errors. rewrite app_nil, name_error_nil. simpl. rewrite app_nil_r, !app_nil.
  rewrite !prefix_error_nil. split.
  - intros [(H1 & H2 & H3) Hn]. split; [|done]. unfold REQUIRED_PREFIXES. intros p.
    rewrite !elem_of_cons. intros [->|[->|[->|[]%not_elem_of_nil]]]; done.
  - intros [Hf Hn]. split; [|done]. unfold REQUIRED_PREFIXES in Hf.
    split_and!; apply Hf; rewrite !elem_of_cons; auto.
Qed.

Lemma concat_nil {A} (ls : list (list A)) : concat ls = [] ↔ Forall (λ l, l = []) ls.
Proof.
  induction ls as [|l ls IH]; simpl; [by split|]. rewrite app_nil, Forall_cons. by rewrite IH.
Qed.

Lemma validate_file_nil path text : validate_file path text = []
  ↔ documents text ≠ [] ∧ Forall doc_ok (documents text).
Proof.
  unfold validate_file. destruct (documents text) as [|d ds]; [naive_solver|].
  rewrite concat_nil, Forall_lookup. setoid_rewrite list_lookup_imap. rewrite Forall_lookup.
  split.
  - intros He. split; [done|]. intros i x Hx.
    apply (document_errors_nil path (Z.of_nat i + 1)), (He i). by rewrite Hx.
  - intros [_ Hok] i l. destruct ((d :: ds) !! i) as [x|] eqn:Hx; [|done].
    intros [= <-]. by apply document_errors_nil, (Hok i).
Qed.

(** C38. The checker exits with 0 exactly when there is a manifest, and every
    manifest has a document and only documents that are in order, a document
    being what is between two lines [---] when it is not blank; then it
    writes nothing to the standard error. *)
Theorem main_spec root files :
  let '(status, out, err) := main root files in
  (status = 0%Z ↔ files ≠ [] ∧ ∀ path text, (path, text) ∈ files →
     let docs := filter (λ d, blank d = false) (join nl <$> pieces separator (splitlines text)) in
     docs ≠ [] ∧ Forall doc_ok docs)
  ∧ (status = 0%Z → err = "") ∧ (status ≠ 0%Z → status = 1%Z ∧ out = "").
Proof.
  assert (concat ((λ '(path, text), validate_file path text) <$> files) = [] ↔
    ∀ path text, (path, text) ∈ files → documents text ≠ [] ∧ Forall doc_ok (documents text)) as Hv.
  { rewrite concat_nil, Forall_fmap, Forall_forall. split.
    - intros Hf path text Hin. apply (validate_file_nil path), (Hf (path, text) Hin).
    - intros Hf [path text] Hin. by apply validate_file_nil, (Hf path). }
  unfold main. destruct files as [|f files]; [split_and!; naive_solver|].
  unfold documents in Hv. setoid_rewrite split_documents_pieces in Hv.
  destruct (concat _) as [|e es]; (split_and!; [|done|done]).
  - split; [|done]. intros _. split; [done|]. by apply Hv.
  - split; [done|]. intros [_ Hf]. by apply Hv in Hf.
Qed.

(** ** Examples *)
Module ToyManifests.
Definition text (lines : list string) : string := join nl lines.

(** A field counts at any depth: this document has no kind of its own. *)
Definition no_kind : string := text ["apiVersion: v1"; "metadata:"; "  name: a";
  "roleRef:"; "  kind: Role"].

Lemma nested_kind_passes : main "deploy/k8s" [("a.yaml", no_kind)]
  = (0%Z, "Validated 1 Kubernetes manifest files", "").
Proof. by vm_compute. Qed.

(** A name that follows seven other lines of the metadata is not seen. *)
Definition many_labels : string := text ["apiVersion: v1"; "kind: Pod"; "metadata:"; "  labels:";
  "    a: 1"; "    b: 2"; "    c: 3"; "    d: 4"; "    e: 5"; "    f: 6"; "  name: a"].

Lemma late_name_fails : main "deploy/k8s" [("a.yaml", many_labels)]
  = (1%Z, "", "a.yaml:1: metadata.name is required").
Proof. by vm_compute. Qed.

Lemma errors_in_order : validate_file "b.yaml" (text ["---"; "kind: A"; "---"; ""; "---"; "metadata:"])
  = ["b.yaml:1: missing required field 'apiVersion'"; "b.yaml:1: missing required field 'metadata'";
     "b.yaml:2: missing required field 'apiVersion'"; "b.yaml:2: missing required field 'kind'";
     "b.yaml:2: metadata.name is required"].
Proof. by vm_compute. Qed.
End ToyManifests.
